(* ===== verification/_CoqProject ===== *)
-Q . S2P
Prelude.v
Interleave.v
GoStrings.v
GoTime.v
GoFloat.v
GoParseFloat.v
Sha256.v
Domain.v
Env.v
MemEnv.v
Security.v
Identity.v
Rotation.v
Seed.v
Rpc.v
AuthServer.v
GoNet.v
Servers.v
DualWrite.v
Transaction.v
ImportExport.v
ServerHandlers.v
RateLimit.v
Config.v
Connections.v
Middleware.v
Observation.v
Monitoring.v
Status.v
MonitorPool.v
MonitorRun.v
Reporting.v
ReportPool.v
Lifecycle.v
SchedulerRun.v
Notification.v
App.v
Gateway.v
GatewayLocal.v
Deploy.v
Simulator.v
SimMain.v
SimSeed.v
CoverageScript.v
