(* ===== verification/Prelude.v ===== *)
(** * Server Management Service: a verification development

    The repository is a Go service that keeps an inventory of servers, pings
    them, and mails reports on them.  Its parts, and the files that model them:

    - the gRPC/REST service ([cmd/api], [internal/app]): users log in and get
      a JWT and a rotating refresh token; every call passes a chain of
      interceptors (recovery, rate limits, validation, CSRF, authentication,
      permission) before its handler; servers live in PostgreSQL with a copy
      in Redis that the monitor reads;
    - the monitoring worker ([cmd/monitoring-worker], [internal/app/monitoring]): a
      cycle takes a lock in Redis, pings every cached server from a pool of
      goroutines, drives a state machine per server and logs observations to
      Elasticsearch;
    - reporting ([internal/modules/reporting], [internal/app/scheduler]): a
      request is stored, queued and worked off by goroutines, which mail it;
      a daily job makes such a request;
    - the simulator ([cmd/simulator]): a test bed that takes addresses down.

    ** Files

    Foundations:
    - [Prelude]: errors, results, the execution monad [M] (a world, and a result
      or a panic), its program logic [wp]/[triple]/[preserves], machine
      integers, Go channels, and shared facts on lists.  [Interleave]: programs
      whose statements interleave, as step relations.
    - [GoStrings], [GoTime], [GoFloat], [GoParseFloat], [GoNet], [Sha256]: what
      the code uses of Go's standard library, executable.
    - [Domain]: the structs of [internal/modules/*/domain] and the meaning of
      their gorm tags ([Model]).
    - [Env]: PostgreSQL behind gorm, Redis, JWT, bcrypt, UUIDs, the clock: the
      class [Env] of calls and the class [EnvLaws] of their documented
      behaviour, stores that fail at any call included; [World] is the state
      of a deployment.  [MemEnv] is an instance with scheduled faults, on
      which the witnesses run.
    - [Rpc]: contexts, metadata, messages, cookies.

    Components, each with its data, operations, invariants and theorems:
    - [Security] ([infrastructure/security]): an access token authenticates as
      whom it was issued for; CSRF tokens.
    - [Identity] ([modules/identity]), [Seed] ([storage/seed.go]),
      [AuthServer] (the gRPC handlers): the invariant of sessions and tokens,
      rotation, reuse detection, logout, the accounts seeded at start-up.
      [Rotation]: refreshes, logins and logouts whose statements interleave;
      calls on different sessions keep one live token a session, two refreshes
      of one session at a time need not; a logout is final.
    - [Servers] ([modules/server_management], [infrastructure/redis]): the dual
      write to PostgreSQL and the cache keeps them in agreement; the class
      [CacheLaws] is what the service relies on and [NewServerCache]
      discharges it; a search returns the page asked for.  [DualWrite]: the
      dual write for calls whose single statements and Redis commands
      interleave, as a step relation.  [ImportExport] and [ServerHandlers]:
      spreadsheets, the gRPC and REST handlers.  [Transaction]: the transaction
      manager of the repository, atomic and not nested.
    - [RateLimit], [Middleware] ([shared/middlewares], [app/grpc_server.go],
      [infrastructure/gateway]): the interceptor chain, with a fate for every
      call; pointwise equality of handlers is respected by every interceptor.
    - [Config] ([shared/config]): the loaders over an environment.
      [Connections] ([shared/database], [shared/logger], [storage/migrate.go]):
      what a process sets up once; [sync.Once] as a step relation.
    - [Observation] ([infrastructure/elasticsearch]): which configurations start
      the buffered logger; the logger as a step relation of its goroutine and
      its producers; how it drains; the uptime query.
    - [Monitoring], [MonitorPool] ([modules/monitoring], [app/monitoring]):
      the state machine refines "offline after so many failures in a row";
      the pool of goroutines as a step relation, its termination, and the
      effect of a cycle on a given network under every schedule; any number of
      instances with the lock between them, as a step relation over those of
      their pools.  [MonitorRun]: the process around it, with its ticker, its
      signal and its shutdown.
    - [Status]: the status column that servers, imports and pings all write is
      ONLINE or OFFLINE whatever they do; an update that a ping interrupts.
    - [Reporting], [ReportPool], [Notification] ([modules/reporting],
      [app/scheduler], [modules/notification]): requests, the worker, its
      goroutines as a step relation, and the SMTP conversation with any mail
      server; the class [WorkerLaws] is what the worker relies on, which the
      mailer discharges.
    - [Lifecycle] ([app/run.go]), [SchedulerRun] ([app/scheduler]): start and
      stop of the two processes that run report workers, as step relations
      over the steps of [ReportPool]; which requests a stop completes, loses
      or leaves behind.
    - [App], [Deploy] ([internal/app]): the service, the monitor and the
      scheduler put together from their environment; the theorems there speak
      of a call or a cycle of the assembled program.
    - [Gateway] ([app/http_routes.go], [app/grpc_gateway.go],
      [gen/go/*/v1/*.pb.gw.go]): an HTTP request on its way through the mux,
      the middleware, the mux of grpc-gateway with its fallbacks for forms, and
      the generated handlers to a call of [App]; the
      guarantee of [App] on who may change servers, for HTTP.  [GatewayLocal]:
      the in-process variant of the generated handlers, the same but for the
      interceptors.
    - [Simulator], [SimMain], [SimSeed] ([cmd/simulator], [cmd/simulator/run],
      [cmd/simulator/seed]).  [CoverageScript] ([scripts/calc_cov.go]).

    ** How code becomes definitions

    A function that touches the outside is a computation in [M World]; a Go
    error is a value of [result]; a panic (a nil pointer, a send on a closed
    channel, an index out of range) is the outcome [Panicked].  Errors the
    code drops are dropped.  A database statement, a Redis command and a
    channel operation are atomic; goroutines interleave between them, or, for
    [processServer] of the monitor and for a flush of the observation logger,
    between calls: these touch the state of one server, or of one goroutine,
    only.  A context matters where the code cancels one ([under_ctx]: from
    then on a statement fails): in the report workers and the monitor.
    Integers are [Z]; [int], [int32] and [int64] results wrap where they can
    overflow; float64 is IEEE binary64 of [SpecFloat], and what [int] makes of
    one out of its range is a parameter.  Code that is not in the repository is
    a parameter with laws, and every theorem with hypotheses is applied to a
    concrete instance by its witness.

    ** Fuel

    Loops over a string or a list take its length ([trim_fuel], [skip_blanks],
    [parse_terms], [chunks] of SHA-256, [post_batches]): each round consumes
    at least an element.  [itoa_fuel] takes the bit length of the number,
    and each round drops a decimal digit ([Atoi_Itoa] reads every [int]
    back).  The IPv6 parser takes nine rounds for sixteen bytes, of at least
    two a round.  [seed_loop] takes one more than the servers it adds, and
    panics without fuel, which its theorem excludes.  All other recursions are structural; the loops of
    goroutines are relations, with theorems that they terminate
    ([pool_terminates], [shutdown_drains], [stop_terminates]).

    ** Outside the model

    - Deadlines, and the cancelled contexts of single calls; logging; metrics
      of memory.
    - The bytes PostgreSQL cannot store (a NUL, text that is not UTF-8) and the
      truncation of trailing blanks in a varchar.  Times are kept to the
      nanosecond in every store, where a column of PostgreSQL keeps
      microseconds.  A text that is not a uuid matches no row, where PostgreSQL
      refuses the statement: requests are validated to carry a uuid, and every
      other identifier is one the service stored.
    - Redis expires a lock by the clock of the caller that asks for it.
    - The greeting EHLO of the SMTP client, which is folded into the command
      before which it is sent.
    - The HTML template, excelize, protovalidate, the GCRA of redis_rate,
      robfig/cron, nft, godotenv, the transactions of gorm, the runtime of
      grpc-gateway: parameters.  Of the generated code ([gen/go]) the messages
      are records and the handlers of the gateway are definitions.
    - What the loggers write, the digits of the coverage script's percentages,
      and the test fixtures of [bruno]. *)

From stdpp Require Import base list strings gmap numbers.
From Stdlib Require Import ZArith Lia.

(** ** Go error values

    A sentinel is a package-level [var ErrX = errors.New(...)]: [errors.Is]
    compares identities, so a sentinel carries the qualified name of the
    variable beside its message.  [Fresh] is an error built where it is
    returned ([errors.New], [fmt.Errorf] without [%w]); [Wrapped] is
    [fmt.Errorf("p: %w", e)]; [Status] is a gRPC status error. *)
Inductive code :=
| InvalidArgument | NotFound | AlreadyExists | PermissionDenied
| ResourceExhausted | Unimplemented | Internal | Unavailable | Unauthenticated.

Inductive error :=
| Sentinel (var msg : string)
| Fresh (msg : string)
| Wrapped (prefix : string) (inner : error)
| Status (c : code) (msg : string).

#[export] Instance code_eq_dec : EqDecision code.
Proof. solve_decision. Defined.
#[export] Instance error_eq_dec : EqDecision error.
Proof. solve_decision. Defined.

(** [err.Error()] *)
Fixpoint error_string (e : error) : string :=
  match e with
  | Sentinel _ m | Fresh m => m
  | Wrapped p i => p +:+ ": " +:+ error_string i
  | Status _ m => m
  end.

(** [errors.Is(err, target)] for a sentinel target: the [Unwrap] chain is
    searched for the target itself. *)
Fixpoint errors_Is (e target : error) : bool :=
  bool_decide (e = target) ||
  match e with
  | Wrapped _ i => errors_Is i target
  | _ => false
  end.

(** ** Results and executions

    A Go call returns [(v, nil)] or [(_, err)]: [result].  It may also panic,
    which is an outcome of the execution and not a value: [exec]. *)
Inductive result (A : Type) :=
| Ok (a : A)
| Err (e : error).
Arguments Ok {A} a.
Arguments Err {A} e.

Inductive exec (A : Type) :=
| Done (a : A)
| Panicked.
Arguments Done {A} a.
Arguments Panicked {A}.

Definition is_ok {A} (r : result A) : bool :=
  match r with Ok _ => true | Err _ => false end.

(** Execution in a world [W]: state passing with panics. *)
Definition M (W A : Type) : Type := W -> W * exec A.

Definition ret {W A} (a : A) : M W A := fun w => (w, Done a).
Definition panic {W A} : M W A := fun w => (w, Panicked).
Definition bind {W A B} (m : M W A) (k : A -> M W B) : M W B :=
  fun w => match m w with
           | (w', Done a) => k a w'
           | (w', Panicked) => (w', Panicked)
           end.
Definition gets {W A} (f : W -> A) : M W A := fun w => (w, Done (f w)).
Definition modify {W} (f : W -> W) : M W () := fun w => (f w, Done tt).

Declare Scope go_scope.
Delimit Scope go_scope with go.
Open Scope go_scope.

Notation "x <-- m ;; k" := (bind m (fun x => k))
  (at level 62, m at next level, right associativity) : go_scope.
Notation "m ;;; k" := (bind m (fun _ => k))
  (at level 62, right associativity) : go_scope.

(** [v, err := m; if err != nil { return nil, f(err) }; k] *)
Notation "x <-? m 'orelse' f ;; k" :=
  (bind m (fun r => match r with Ok x => k | Err e => ret (Err (f e)) end))
  (at level 62, m at next level, f at next level, right associativity) : go_scope.
Notation "x <-? m ;; k" :=
  (bind m (fun r => match r with Ok x => k | Err e => ret (Err e) end))
  (at level 62, m at next level, right associativity) : go_scope.

(** [for _, x := range xs { body }] where the body neither breaks nor returns. *)
Fixpoint for_each {W A} (xs : list A) (body : A -> M W ()) : M W () :=
  match xs with
  | [] => ret tt
  | x :: xs' => body x ;;; for_each xs' body
  end.

(** ** Program logic

    [wp m w Q X]: run from [w], [m] returns [a] in a world in [Q a], or panics
    in a world in [X].  [triple P m Q X]: so from every world in [P]. *)
Definition wp {W A} (m : M W A) (w : W) (Q : A -> W -> Prop) (X : W -> Prop) : Prop :=
  match m w with
  | (w', Done a) => Q a w'
  | (w', Panicked) => X w'
  end.

Definition triple {W A} (P : W -> Prop) (m : M W A) (Q : A -> W -> Prop) (X : W -> Prop) : Prop :=
  forall w, P w -> wp m w Q X.

(** [m] keeps [I], whether it returns or panics. *)
Definition preserves {W A} (I : W -> Prop) (m : M W A) : Prop := triple I m (fun _ => I) I.

(** ** Machine integers *)
Definition wrap_int (bits : Z) (n : Z) : Z :=
  ((n + 2 ^ (bits - 1)) mod 2 ^ bits - 2 ^ (bits - 1))%Z.
Definition int64 (n : Z) : Z := wrap_int 64 n.
Definition int32 (n : Z) : Z := wrap_int 32 n.

Definition max_int64 : Z := (2 ^ 63 - 1)%Z.
Definition min_int64 : Z := (- 2 ^ 63)%Z.

(** ** Channels

    A buffered Go channel: its queue, its capacity and whether it is closed.
    A send on a closed channel panics; a receive drains the queue first and
    then reports the closing. *)
Record Chan (A : Type) := mkChan {
  ch_buf : list A;
  ch_cap : nat;
  ch_closed : bool;
}.
Arguments mkChan {A}.
Arguments ch_buf {A}.
Arguments ch_cap {A}.
Arguments ch_closed {A}.

Inductive send_result (A : Type) :=
| Sent (c : Chan A)
| WouldBlock
| SendPanics.
Arguments Sent {A}.
Arguments WouldBlock {A}.
Arguments SendPanics {A}.

Definition chan_send {A} (x : A) (c : Chan A) : send_result A :=
  if ch_closed c then SendPanics
  else if (length (ch_buf c) <? ch_cap c)%nat
       then Sent (mkChan (ch_buf c ++ [x]) (ch_cap c) false)
       else WouldBlock.

(** What a receive yields: a value, the closing, or nothing yet. *)
Inductive recv_result (A : Type) :=
| Received (x : A) (c : Chan A)
| Closed
| Empty.
Arguments Received {A}.
Arguments Closed {A}.
Arguments Empty {A}.

Definition chan_recv {A} (c : Chan A) : recv_result A :=
  match ch_buf c with
  | x :: q => Received x (mkChan q (ch_cap c) (ch_closed c))
  | [] => if ch_closed c then Closed else Empty
  end.

Definition chan_close {A} (c : Chan A) : Chan A := mkChan (ch_buf c) (ch_cap c) true.

(** ** Generic list functions *)

(** The first [n] elements from position [off], as [OFFSET off LIMIT n]. *)
Definition page {A} (off n : nat) (l : list A) : list A := take n (drop off l).

(** ** Automation *)
Create HintDb go.
Create Rewrite HintDb go_rw.

Lemma bind_Done {W A B} (m : M W A) (k : A -> M W B) w w' b :
  bind m k w = (w', Done b) ->
  exists w1 a, m w = (w1, Done a) /\ k a w1 = (w', Done b).
Proof. unfold bind. destruct (m w) as [w1 [a|]]; [eauto | discriminate]. Qed.

Lemma bind_run {W A B} (m : M W A) (k : A -> M W B) w w1 a :
  m w = (w1, Done a) -> bind m k w = k a w1.
Proof. unfold bind. by intros ->. Qed.

Lemma bind_ret_l {W A B} (a : A) (k : A -> M W B) w : bind (ret a) k w = k a w.
Proof. reflexivity. Qed.

Lemma bind_assoc {W A B C} (m : M W A) (f : A -> M W B) (g : B -> M W C) w :
  bind (bind m f) g w = bind m (fun a => bind (f a) g) w.
Proof. unfold bind. destruct (m w) as [w1 [a|]]; reflexivity. Qed.

Lemma run_outcome {W A} (m : M W A) w r : (m w).2 = r -> m w = ((m w).1, r).
Proof. intros <-. by destruct (m w). Qed.

Section Triples.
Context {W : Type}.

Lemma wp_ret {A} (a : A) (w : W) (Q : A -> W -> Prop) X : Q a w -> wp (ret a) w Q X.
Proof. done. Qed.

Lemma wp_bind {A B} (m : M W A) (k : A -> M W B) w Q (X : W -> Prop) :
  wp m w (fun a w' => wp (k a) w' Q X) X -> wp (bind m k) w Q X.
Proof. unfold wp, bind. by destruct (m w) as [w1 [a|]]. Qed.

Lemma wp_conseq {A} (m : M W A) w Q (X : W -> Prop) (Q' : A -> W -> Prop) (X' : W -> Prop) :
  wp m w Q' X' -> (forall a w', Q' a w' -> Q a w') -> (forall w', X' w' -> X w') -> wp m w Q X.
Proof. unfold wp. destruct (m w) as [w1 [a|]]; auto. Qed.

Lemma wp_mono {A} (m : M W A) w Q (X : W -> Prop) (Q' : A -> W -> Prop) :
  wp m w Q' X -> (forall a w', Q' a w' -> Q a w') -> wp m w Q X.
Proof. intros H HQ. by eapply wp_conseq. Qed.

Lemma wp_and {A} (m : M W A) w Q1 Q2 (X1 X2 : W -> Prop) :
  wp m w Q1 X1 -> wp m w Q2 X2 -> wp m w (fun a w' => Q1 a w' /\ Q2 a w') (fun w' => X1 w' /\ X2 w').
Proof. unfold wp. by destruct (m w) as [w1 [a|]]. Qed.

Lemma wp_gets {A} (f : W -> A) (w : W) (Q : A -> W -> Prop) X : Q (f w) w -> wp (gets f) w Q X.
Proof. done. Qed.

Lemma wp_panic {A} (w : W) (Q : A -> W -> Prop) (X : W -> Prop) : X w -> wp panic w Q X.
Proof. done. Qed.

(** From a run that returned to the symbolic execution of the body, and back. *)
Lemma run_wp {A} (m : M W A) w w' a (P : Prop) :
  m w = (w', Done a) -> wp m w (fun a1 w1 => a1 = a -> w1 = w' -> P) (fun _ => True) -> P.
Proof. unfold wp. intros -> H. by apply H. Qed.

Lemma wp_total {A} (m : M W A) w Q :
  wp m w Q (fun _ => False) -> exists w' a, m w = (w', Done a) /\ Q a w'.
Proof. unfold wp. destruct (m w) as [w1 [a|]]; [eauto | done]. Qed.

Lemma wp_outcome {A} (m : M W A) w (P : W -> Prop) a :
  wp m w (fun a' w' => a' = a /\ P w') (fun _ => False) ->
  exists w', m w = (w', Done a) /\ P w'.
Proof. intros (w' & a' & ? & -> & ?)%wp_total. eauto. Qed.

(** Loops: an invariant over the elements still to visit. *)
Lemma wp_for_each {A} (Inv : list A -> W -> Prop) (xs : list A) (body : A -> M W ()) w X :
  (forall x xs' w, Inv (x :: xs') w -> wp (body x) w (fun _ => Inv xs') X) ->
  Inv xs w -> wp (for_each xs body) w (fun _ => Inv []) X.
Proof.
  intros Hb. revert w. induction xs as [|x xs IH]; intros w Hw; cbn; [by apply wp_ret |].
  apply wp_bind. eapply wp_conseq; [by apply Hb | | done]. intros u w'. apply IH.
Qed.

Lemma triple_ret {A} (P : W -> Prop) (a : A) Q X :
  (forall w, P w -> Q a w) -> triple P (ret a) Q X.
Proof. intros H w Hw. by apply H. Qed.

Lemma triple_bind {A B} (P : W -> Prop) (m : M W A) (k : A -> M W B) R Q X :
  triple P m R X -> (forall a, triple (R a) (k a) Q X) -> triple P (bind m k) Q X.
Proof.
  intros Hm Hk w Hw. specialize (Hm w Hw). unfold wp, bind in *.
  destruct (m w) as [w1 [a|]]; [by apply Hk | done].
Qed.

Lemma triple_conseq {A} (P P' : W -> Prop) (m : M W A) (Q Q' : A -> W -> Prop) (X X' : W -> Prop) :
  triple P' m Q' X' -> (forall w, P w -> P' w) -> (forall a w, Q' a w -> Q a w) ->
  (forall w, X' w -> X w) -> triple P m Q X.
Proof.
  intros Hm HP HQ HX w Hw. specialize (Hm w (HP w Hw)). unfold wp in *.
  destruct (m w) as [w1 [a|]]; auto.
Qed.

Lemma triple_for_each {A} (Inv : W -> Prop) (xs : list A) (body : A -> M W ()) X :
  (forall x, x ∈ xs -> triple Inv (body x) (fun _ => Inv) X) ->
  triple Inv (for_each xs body) (fun _ => Inv) X.
Proof.
  induction xs as [|x xs IH]; intros H; cbn; [by apply triple_ret |].
  eapply triple_bind; [apply H, elem_of_cons; auto |].
  intros u. apply IH. intros y Hy. apply H, elem_of_cons; auto.
Qed.

Lemma triple_wp {A} (P : W -> Prop) (m : M W A) Q X :
  triple P m Q X <-> forall w, P w -> wp m w Q X.
Proof. done. Qed.

Lemma preserves_bind {A B} (I : W -> Prop) (m : M W A) (k : A -> M W B) :
  preserves I m -> (forall a, preserves I (k a)) -> preserves I (bind m k).
Proof. apply triple_bind. Qed.

Lemma preserves_ret {A} (I : W -> Prop) (a : A) : preserves I (ret a).
Proof. by apply triple_ret. Qed.

Lemma preserves_for_each {A} (I : W -> Prop) (xs : list A) (body : A -> M W ()) :
  (forall x, preserves I (body x)) -> preserves I (for_each xs body).
Proof. intros H. apply triple_for_each. intros x _. apply H. Qed.
End Triples.
#[export] Hint Resolve preserves_bind preserves_ret preserves_for_each : go.

(** [go_inv H] turns a run of a sequence of binds into the runs of its parts. *)
Ltac go_step H :=
  lazymatch type of H with
  | bind _ _ _ = (_, Done _) =>
      let w := fresh "w" in let a := fresh "a" in let H1 := fresh "Hrun" in
      apply bind_Done in H as (w & a & H1 & H)
  | ret _ _ = (_, _) => unfold ret in H; simplify_eq
  | gets _ _ = (_, _) => unfold gets in H; simplify_eq
  | modify _ _ = (_, _) => unfold modify in H; simplify_eq
  | panic _ = (_, _) => unfold panic in H; simplify_eq
  end.
Ltac go_inv H := repeat (go_step H; cbn beta iota in * ).

(** Case analysis on the scrutinee of a [match] or [if] in a hypothesis. *)
Ltac case_in H :=
  match type of H with
  | context [ if ?b then _ else _ ] => destruct b eqn:?
  | context [ match ?x with _ => _ end ] => destruct x eqn:?
  end.

Lemma wrap_int_range bits n : (0 < bits -> - 2 ^ (bits - 1) <= wrap_int bits n < 2 ^ (bits - 1))%Z.
Proof.
  intros Hb. unfold wrap_int.
  assert (2 ^ bits = 2 * 2 ^ (bits - 1))%Z as E.
  { rewrite <- Z.pow_succ_r by lia. f_equal; lia. }
  pose proof (Z.mod_pos_bound (n + 2 ^ (bits - 1)) (2 ^ bits)).
  assert (0 < 2 ^ (bits - 1))%Z by (apply Z.pow_pos_nonneg; lia). lia.
Qed.

Lemma wrap_int_small bits n :
  (0 < bits -> - 2 ^ (bits - 1) <= n < 2 ^ (bits - 1) -> wrap_int bits n = n)%Z.
Proof.
  intros Hb Hn. unfold wrap_int.
  assert (2 ^ bits = 2 * 2 ^ (bits - 1))%Z as E.
  { rewrite <- Z.pow_succ_r by lia. f_equal; lia. }
  rewrite Z.mod_small; lia.
Qed.

Lemma wrap_int_add bits x y : (0 < bits -> wrap_int bits (wrap_int bits x + y) = wrap_int bits (x + y))%Z.
Proof.
  intros Hb. unfold wrap_int.
  replace ((x + 2 ^ (bits - 1)) mod 2 ^ bits - 2 ^ (bits - 1) + y + 2 ^ (bits - 1))%Z
    with ((x + 2 ^ (bits - 1)) mod 2 ^ bits + y)%Z by lia.
  rewrite Zplus_mod_idemp_l. f_equal. f_equal. lia.
Qed.

Lemma int64_small n : (min_int64 <= n <= max_int64 -> int64 n = n)%Z.
Proof. unfold min_int64, max_int64, int64. intros H. apply wrap_int_small; lia. Qed.
#[export] Hint Resolve int64_small : go.

Lemma chan_send_buf {A} (x : A) c c' :
  chan_send x c = Sent c' -> ch_buf c' = ch_buf c ++ [x] /\ ch_closed c = false /\ ch_closed c' = false.
Proof.
  unfold chan_send. destruct (ch_closed c), (length (ch_buf c) <? ch_cap c)%nat; intros [= <-]; done.
Qed.

Lemma chan_recv_buf {A} (x : A) c c' :
  chan_recv c = Received x c' -> ch_buf c = x :: ch_buf c' /\ ch_closed c' = ch_closed c /\ ch_cap c' = ch_cap c.
Proof. unfold chan_recv. destruct (ch_buf c), (ch_closed c); intros [= <- <-]; done. Qed.

Lemma errors_Is_refl e : errors_Is e e = true.
Proof. destruct e; cbn; by rewrite bool_decide_eq_true_2. Qed.

Lemma length_page {A} off n (l : list A) : (length (page off n l) <= n)%nat.
Proof. unfold page. rewrite length_take. lia. Qed.

(** A list around one of its positions. *)
Lemma list_split_at {A} (l : list A) i x :
  l !! i = Some x -> exists l1 l2, l = l1 ++ x :: l2 /\ forall y, <[i := y]> l = l1 ++ y :: l2.
Proof.
  intros Hi. exists (take i l), (drop (S i) l). split; [by rewrite take_drop_middle |].
  intros y. rewrite insert_take_drop by (by eapply lookup_lt_Some). done.
Qed.

(** Permutations of concatenations, by counting. *)
Lemma perm_count {A} `{dec : EqDecision A} (l k : list A) :
  (forall x, List.count_occ dec l x = List.count_occ dec k x) -> l ≡ₚ k.
Proof. apply (Permutation_count_occ dec). Qed.

Ltac solve_perm :=
  apply perm_count; let x := fresh "x" in intros x;
  repeat (rewrite List.count_occ_app || cbn [List.count_occ]);
  repeat match goal with |- context [if ?d then _ else _] => destruct d end; lia.

Lemma filter_none {A} (p : A -> bool) (l : list A) : (forall x, x ∈ l -> p x = false) -> List.filter p l = [].
Proof.
  induction l as [|a l IH]; intros H; cbn; [done |].
  rewrite H by (by left). apply IH. intros x Hx. apply H. by right.
Qed.
