(* ===== verification/Interleave.v ===== *)
(** * Interleave: goroutines that take turns between their statements

    A state is a world and the position of every call; a step is a statement
    of one call.  This file holds what the step relations of such systems
    ([DualWrite], [Rotation]) share: the rules that turn a program, run alone,
    into a sequence of steps. *)

From stdpp Require Import base relations functions.
From S2P Require Import Prelude.

Section Traced.
Context {W A : Type}.
Implicit Types (m : M W A) (Q : A -> W -> Prop) (X : W -> Prop).

(** A statement with the equation of its run. *)
Lemma wp_eqn m w Q X :
  (forall a w', m w = (w', Done a) -> Q a w') -> (forall w', m w = (w', Panicked) -> X w') -> wp m w Q X.
Proof. unfold wp. destruct (m w) as [w' [a|]]; auto. Qed.

(** The same for one that cannot panic. *)
Lemma wp_traced m w (Q0 : A -> W -> Prop) Q X :
  wp m w Q0 (fun _ => False) -> (forall a w', m w = (w', Done a) -> Q0 a w' -> Q a w') -> wp m w Q X.
Proof. unfold wp. destruct (m w) as [w' [a|]]; [auto | done]. Qed.
End Traced.

(** ** One call among others that wait *)
Section Alone.
Context {W PC S : Type} (mk : W -> (nat -> PC) -> S) (step : S -> S -> Prop).
Variables (w0 : W) (cs0 : nat -> PC) (i : nat).

(** From [w0] the call [i] has come to [p] and the world to [w]; the other
    calls are where they were. *)
Definition comes_to (w : W) (p : PC) : Prop :=
  exists cs, rtc step (mk w0 cs0) (mk w cs) /\ cs i = p /\ forall j, j <> i -> cs j = cs0 j.

Lemma comes_start p : cs0 i = p -> comes_to w0 p.
Proof. intros Hp. exists cs0. split; [apply rtc_refl | by split]. Qed.

Lemma comes_next w p w' p' :
  comes_to w p -> (forall cs, cs i = p -> step (mk w cs) (mk w' (<[i := p']> cs))) -> comes_to w' p'.
Proof.
  intros (cs & Hrun & Hp & Hj) Hstep. exists (<[i := p']> cs). split; [eapply rtc_r; [exact Hrun | by apply Hstep] |].
  split; [apply fn_lookup_insert |]. intros j Hne. rewrite fn_lookup_insert_ne by done. by apply Hj.
Qed.

(** A step that moves no call. *)
Lemma comes_stay w p w' : comes_to w p -> (forall cs, step (mk w cs) (mk w' cs)) -> comes_to w' p.
Proof.
  intros (cs & Hrun & Hp & Hj) Hstep. exists cs. split; [eapply rtc_r; [exact Hrun | apply Hstep] | by split].
Qed.
End Alone.
