(* ===== verification/GoStrings.v ===== *)
(** * GoStrings: the parts of Go's [strings], [strconv], [fmt] and
    [encoding/hex] the service uses

    A Go string is a sequence of bytes, so is a Rocq [string] (an [ascii] is a
    byte).  [TrimSpace] strips the UTF-8 encodings of Go's white space runes;
    the case mapping of non-ASCII text needs the Unicode tables, which are the
    parameter [unicode_lower] of the class [Unicode].  The second half proves
    the facts the components rely on: [TrimSpace] is idempotent, [Itoa] and
    [Atoi] are inverse on [int], splitting and joining are inverse. *)

From stdpp Require Import base list strings numbers sets.
From Stdlib Require Import ZArith Lia Ascii.
From S2P Require Import Prelude.
Open Scope Z_scope.

#[local] Arguments String.append !_ _ / : simpl nomatch.

(** ** Bytes *)
Definition bytes (l : list nat) : string :=
  fold_right (fun n s => String (ascii_of_nat n) s) EmptyString l.

Definition byte_val (c : ascii) : Z := Z.of_nat (nat_of_ascii c).

Definition is_upper (c : ascii) : bool := (65 <=? byte_val c) && (byte_val c <=? 90).
Definition is_digit (c : ascii) : bool := (48 <=? byte_val c) && (byte_val c <=? 57).
Definition is_ascii_byte (c : ascii) : bool := byte_val c <? 128.

Definition lower_byte (c : ascii) : ascii :=
  if is_upper c then ascii_of_nat (nat_of_ascii c + 32) else c.

Fixpoint map_string (f : ascii -> ascii) (s : string) : string :=
  match s with
  | EmptyString => EmptyString
  | String c s' => String (f c) (map_string f s')
  end.

Fixpoint forall_string (p : ascii -> bool) (s : string) : bool :=
  match s with
  | EmptyString => true
  | String c s' => p c && forall_string p s'
  end.

Fixpoint drop_bytes (n : nat) (s : string) : string :=
  match n, s with
  | S n', String _ s' => drop_bytes n' s'
  | _, _ => s
  end.

Fixpoint rev_string_app (s acc : string) : string :=
  match s with
  | EmptyString => acc
  | String c s' => rev_string_app s' (String c acc)
  end.
Definition rev_string (s : string) : string := rev_string_app s EmptyString.
Arguments rev_string : simpl never.

(** ** Package [strings] *)

(** The UTF-8 encodings of the runes [unicode.IsSpace] accepts: TAB, LF, VT,
    FF, CR, SPACE, U+0085, U+00A0, U+1680, U+2000-U+200A, U+2028, U+2029,
    U+202F, U+205F, U+3000. *)
Definition space_runes : list string :=
  map bytes
    ([ [9]; [10]; [11]; [12]; [13]; [32]; [194; 133]; [194; 160]; [225; 154; 128] ]
     ++ map (fun i => [226; 128; 128 + i]) (seq 0 11)
     ++ [ [226; 128; 168]; [226; 128; 169]; [226; 128; 175]; [226; 129; 159];
          [227; 128; 128] ])%nat.

(** One white space rune off the front of [s], for the encodings [runes]. *)
Fixpoint strip_rune (runes : list string) (s : string) : option string :=
  match runes with
  | [] => None
  | r :: rs => if String.prefix r s then Some (drop_bytes (String.length r) s)
               else strip_rune rs s
  end.

Fixpoint trim_fuel (runes : list string) (fuel : nat) (s : string) : string :=
  match fuel with
  | O => s
  | S n => match strip_rune runes s with
           | Some s' => trim_fuel runes n s'
           | None => s
           end
  end.

Definition trim_left (s : string) : string :=
  trim_fuel space_runes (String.length s) s.
Definition trim_right (s : string) : string :=
  rev_string (trim_fuel (map rev_string space_runes) (String.length s) (rev_string s)).
Definition TrimSpace (s : string) : string := trim_right (trim_left s).

(** [strings.Map(unicode.ToLower, s)] on text that is not all ASCII. *)
Class Unicode := { unicode_lower : string -> string }.

Definition ToLower `{Unicode} (s : string) : string :=
  if forall_string is_ascii_byte s then map_string lower_byte s else unicode_lower s.

Definition HasPrefix (s p : string) : bool := String.prefix p s.
Definition TrimPrefix (s p : string) : string :=
  if String.prefix p s then drop_bytes (String.length p) s else s.

(** [strings.Split(s, sep)] for a one-byte separator. *)
Fixpoint Split (s : string) (sep : ascii) : list string :=
  match s with
  | EmptyString => [EmptyString]
  | String c s' =>
      if Ascii.eqb c sep then EmptyString :: Split s' sep
      else match Split s' sep with
           | [] => [String c EmptyString]
           | w :: ws => String c w :: ws
           end
  end.

(** [strings.SplitN(s, sep, 2)]: at most one cut. *)
Fixpoint SplitN2 (s : string) (sep : ascii) : list string :=
  match s with
  | EmptyString => [EmptyString]
  | String c s' =>
      if Ascii.eqb c sep then [EmptyString; s']
      else match SplitN2 s' sep with
           | [] => [String c EmptyString]
           | w :: ws => String c w :: ws
           end
  end.

(** [strings.Index(s, sub)], [None] for -1. *)
Fixpoint Index (s sub : string) : option nat :=
  if String.prefix sub s then Some 0%nat
  else match s with
       | EmptyString => None
       | String _ s' => S <$> Index s' sub
       end.
Definition Contains (s sub : string) : bool :=
  match Index s sub with Some _ => true | None => false end.

(** ** Package [strconv] *)
Definition digit (d : Z) : ascii := ascii_of_nat (Z.to_nat (48 + d)).

Fixpoint itoa_fuel (fuel : nat) (n : Z) (acc : string) : string :=
  let acc' := String (digit (n mod 10)) acc in
  match fuel with
  | O => acc'
  | S k => if n / 10 =? 0 then acc' else itoa_fuel k (n / 10) acc'
  end.

(** Twenty digits hold every 64-bit integer; the fuel is the bit length, so
    every integer prints in full. *)
Definition itoa_nonneg (n : Z) : string := itoa_fuel (Z.to_nat (Z.log2 n)) n EmptyString.

(** [strconv.Itoa], [strconv.FormatInt(n, 10)], [fmt.Sprintf("%d", n)] *)
Definition Itoa (n : Z) : string :=
  if n <? 0 then String "-" (itoa_nonneg (- n)) else itoa_nonneg n.

Definition digit_val (c : ascii) : Z := byte_val c - 48.

Fixpoint parse_digits (s : string) (acc : Z) : option Z :=
  match s with
  | EmptyString => Some acc
  | String c s' => if is_digit c then parse_digits s' (acc * 10 + digit_val c) else None
  end.

Definition ErrSyntax : error := Sentinel "strconv.ErrSyntax" "invalid syntax".
Definition ErrRange : error := Sentinel "strconv.ErrRange" "value out of range".

(** The value [strconv.Atoi] returns beside its error: 0 on a syntax error,
    the nearest bound on a range error. *)
Definition Atoi (s : string) : Z * option error :=
  let '(neg, body) :=
    match s with
    | String c s' => if Ascii.eqb c "-" then (true, s')
                     else if Ascii.eqb c "+" then (false, s') else (false, s)
    | EmptyString => (false, s)
    end in
  match body with
  | EmptyString => (0, Some ErrSyntax)
  | _ =>
    match parse_digits body 0 with
    | None => (0, Some ErrSyntax)
    | Some m =>
        let v := if (neg : bool) then - m else m in
        if v <? min_int64 then (min_int64, Some ErrRange)
        else if max_int64 <? v then (max_int64, Some ErrRange)
        else (v, None)
    end
  end.

Definition ParseBool (s : string) : result bool :=
  if bool_decide (s ∈ ["1"; "t"; "T"; "true"; "TRUE"; "True"]%string) then Ok true
  else if bool_decide (s ∈ ["0"; "f"; "F"; "false"; "FALSE"; "False"]%string) then Ok false
  else Err ErrSyntax.

(** [fmt.Sscanf(s, "%d", &u)] for a [uint]: leading white space other than a
    newline is skipped, then the longest run of digits is read; what follows
    it is left unread. *)
Fixpoint skip_blanks (fuel : nat) (s : string) : option string :=
  if String.prefix (bytes [10%nat]) s then None
  else match fuel, strip_rune space_runes s with
       | S n, Some s' => skip_blanks n s'
       | _, _ => Some s
       end.

Fixpoint take_digits (s : string) : string :=
  match s with
  | String c s' => if is_digit c then String c (take_digits s') else EmptyString
  | EmptyString => EmptyString
  end.

Definition max_uint64 : Z := 2 ^ 64 - 1.

Definition Sscanf_uint (s : string) : result Z :=
  match skip_blanks (String.length s) s with
  | None => Err (Fresh "unexpected newline")
  | Some s1 =>
      match take_digits s1 with
      | EmptyString => Err (Fresh "expected integer")
      | ds => match parse_digits ds 0 with
              | Some v => if v <=? max_uint64 then Ok v else Err ErrRange
              | None => Err ErrSyntax
              end
      end
  end.

(** [encoding/hex.EncodeToString] *)
Definition hex_digit (d : Z) : ascii :=
  ascii_of_nat (Z.to_nat (if d <? 10 then 48 + d else 87 + d)).

Definition hex_encode (bs : list Z) : string :=
  fold_right (fun b s => String (hex_digit (b / 16)) (String (hex_digit (b mod 16)) s))
    EmptyString bs.

Definition take_string (n : nat) (s : string) : string := String.substring 0 n s.

(** The bytes of a string as numbers, for the hash functions. *)
Fixpoint string_bytes (s : string) : list Z :=
  match s with
  | EmptyString => []
  | String c s' => byte_val c :: string_bytes s'
  end.

(** ** Facts on prefixes and reversal *)
Lemma prefix_app_iff (p s : string) : String.prefix p s = true <-> exists t, s = p +:+ t.
Proof.
  revert s. induction p as [|c p IH]; intros [|d s]; cbn.
  - split; [intros _; by exists EmptyString | done].
  - split; [intros _; by exists (String d s) | done].
  - split; [done | by intros [t ?]].
  -
    destruct (ascii_dec c d) as [->|Hne].
    + rewrite IH. split; intros [t Ht]; exists t; [by rewrite Ht | by injection Ht].
    + split; [done | intros [t Ht]; injection Ht; congruence].
Qed.

Lemma string_app_assoc (a b c : string) : (a +:+ b) +:+ c = a +:+ (b +:+ c).
Proof. induction a; cbn; congruence. Qed.

Lemma string_app_nil_r (a : string) : a +:+ EmptyString = a.
Proof. induction a; cbn; congruence. Qed.

Lemma string_length_app (a b : string) :
  String.length (a +:+ b) = (String.length a + String.length b)%nat.
Proof. induction a; cbn; lia. Qed.

Lemma drop_bytes_app (a b : string) : drop_bytes (String.length a) (a +:+ b) = b.
Proof. induction a; cbn; [by destruct b | done]. Qed.

Lemma rev_string_app_spec s acc : rev_string_app s acc = rev_string s +:+ acc.
Proof.
  unfold rev_string. revert acc.
  induction s as [|c s IH]; intros acc; cbn; [done |].
  rewrite IH, (IH (String c EmptyString)), string_app_assoc. done.
Qed.

Lemma rev_string_cons c s : rev_string (String c s) = rev_string s +:+ String c EmptyString.
Proof. unfold rev_string at 1. cbn. apply rev_string_app_spec. Qed.

Lemma rev_string_append a b : rev_string (a +:+ b) = rev_string b +:+ rev_string a.
Proof.
  induction a as [|c a IH]; cbn; [by rewrite string_app_nil_r |].
  rewrite !rev_string_cons, IH. apply string_app_assoc.
Qed.

Lemma rev_string_involutive s : rev_string (rev_string s) = s.
Proof.
  induction s as [|c s IH]; [done |].
  rewrite rev_string_cons, rev_string_append, IH. done.
Qed.

Lemma length_rev_string s : String.length (rev_string s) = String.length s.
Proof.
  induction s as [|c s IH]; [done |].
  rewrite rev_string_cons, string_length_app, IH. cbn. lia.
Qed.

(** ** [TrimSpace] *)
Lemma strip_rune_Some rs s s' :
  strip_rune rs s = Some s' -> exists r, r ∈ rs /\ s = r +:+ s'.
Proof.
  induction rs as [|r rs IH]; cbn; [done |].
  destruct (String.prefix r s) eqn:E.
  - intros [= <-]. apply prefix_app_iff in E as [t ->].
    exists r. rewrite drop_bytes_app. split; [by rewrite elem_of_cons; auto | done].
  - intros (r' & ? & ->)%IH. exists r'. split; [by rewrite elem_of_cons; auto | done].
Qed.

Lemma strip_rune_None rs s :
  strip_rune rs s = None <-> Forall (fun r => String.prefix r s = false) rs.
Proof.
  induction rs as [|r rs IH]; cbn; [split; constructor |].
  rewrite Forall_cons. destruct (String.prefix r s) eqn:E.
  - split; [done | by intros [? _]].
  - rewrite IH. tauto.
Qed.

Definition nonempty_runes (rs : list string) : Prop :=
  Forall (fun r => (0 < String.length r)%nat) rs.

Lemma trim_fuel_done rs n s :
  nonempty_runes rs -> (String.length s <= n)%nat -> strip_rune rs (trim_fuel rs n s) = None.
Proof.
  intros Hne. revert s. induction n as [|n IH]; intros s Hlen; cbn.
  - destruct s; cbn in Hlen; [| lia]. apply strip_rune_None.
    eapply Forall_impl; [exact Hne |]. intros [|c r]; cbn; [lia | done].
  - destruct (strip_rune rs s) as [s'|] eqn:E; [| done].
    apply IH. apply strip_rune_Some in E as (r & Hr & ->).
    rewrite string_length_app in Hlen.
    eapply Forall_forall in Hne; [| exact Hr]. cbn in Hne. lia.
Qed.

Lemma trim_fuel_fixed rs n s : strip_rune rs s = None -> trim_fuel rs n s = s.
Proof. destruct n; cbn; [done | by intros ->]. Qed.

(** What trimming removes is a prefix of the string it trims. *)
Lemma trim_fuel_suffix rs n s : exists p, s = p +:+ trim_fuel rs n s.
Proof.
  revert s. induction n as [|n IH]; intros s; cbn; [by exists EmptyString |].
  destruct (strip_rune rs s) as [s'|] eqn:E; [| by exists EmptyString].
  apply strip_rune_Some in E as (r & _ & ->).
  destruct (IH s') as [p Hp]. exists (r +:+ p). by rewrite string_app_assoc, <- Hp.
Qed.

Lemma space_runes_nonempty : nonempty_runes space_runes.
Proof. repeat constructor. Qed.
Lemma rev_space_runes_nonempty : nonempty_runes (map rev_string space_runes).
Proof. repeat constructor. Qed.

Lemma trim_left_done s : strip_rune space_runes (trim_left s) = None.
Proof. apply trim_fuel_done; [apply space_runes_nonempty | done]. Qed.

Lemma trim_right_prefix s : exists t, s = trim_right s +:+ t.
Proof.
  unfold trim_right.
  destruct (trim_fuel_suffix (map rev_string space_runes) (String.length s) (rev_string s))
    as [p Hp].
  exists (rev_string p). rewrite <- rev_string_append, <- Hp. symmetry. apply rev_string_involutive.
Qed.

Lemma trim_left_of_trimmed s : trim_left (TrimSpace s) = TrimSpace s.
Proof.
  apply trim_fuel_fixed, strip_rune_None. unfold TrimSpace.
  pose proof (trim_left_done s) as Hd. apply strip_rune_None in Hd.
  destruct (trim_right_prefix (trim_left s)) as [t Ht].
  eapply Forall_impl; [exact Hd |]. intros r Hr. cbn in *.
  apply not_true_is_false. intros [u Hu]%prefix_app_iff.
  assert (String.prefix r (trim_left s) = true) as E; [| congruence].
  apply prefix_app_iff. exists (u +:+ t). rewrite <- string_app_assoc, <- Hu. done.
Qed.

Lemma trim_right_idemp s : trim_right (trim_right s) = trim_right s.
Proof.
  unfold trim_right at 1. rewrite trim_fuel_fixed.
  - apply rev_string_involutive.
  - unfold trim_right. rewrite rev_string_involutive.
    apply trim_fuel_done; [apply rev_space_runes_nonempty | by rewrite length_rev_string].
Qed.

Lemma TrimSpace_idemp s : TrimSpace (TrimSpace s) = TrimSpace s.
Proof.
  unfold TrimSpace at 1. rewrite trim_left_of_trimmed.
  unfold TrimSpace. apply trim_right_idemp.
Qed.
#[export] Hint Rewrite TrimSpace_idemp : go_rw.

(** ** [Itoa] and [Atoi] *)
Lemma byte_val_digit d : 0 <= d < 10 -> byte_val (digit d) = 48 + d.
Proof.
  intros H. unfold byte_val, digit. rewrite nat_ascii_embedding; lia.
Qed.

Lemma is_digit_digit d : 0 <= d < 10 -> is_digit (digit d) = true.
Proof. intros H. unfold is_digit. rewrite byte_val_digit by done. lia. Qed.

Lemma digit_val_digit d : 0 <= d < 10 -> digit_val (digit d) = d.
Proof. intros H. unfold digit_val. rewrite byte_val_digit by done. lia. Qed.

Lemma digit_not_sign d c : 0 <= d < 10 -> byte_val c < 48 -> Ascii.eqb (digit d) c = false.
Proof.
  intros Hd Hc. apply Ascii.eqb_neq. intros <-. rewrite byte_val_digit in Hc by done. lia.
Qed.

Lemma parse_digits_cons d s a :
  0 <= d < 10 -> parse_digits (String (digit d) s) a = parse_digits s (a * 10 + d).
Proof. intros H. cbn. by rewrite is_digit_digit, digit_val_digit. Qed.

Lemma parse_itoa_fuel k n acc a :
  0 <= n < 10 ^ (Z.of_nat k + 1) ->
  exists d, 0 <= d /\ parse_digits (itoa_fuel k n acc) a = parse_digits acc (a * 10 ^ d + n).
Proof.
  revert n acc a. induction k as [|k IH]; intros n acc a Hn; cbn [itoa_fuel].
  - exists 1. rewrite parse_digits_cons by (apply Z.mod_pos_bound; lia).
    split; [lia |]. f_equal. cbn in Hn. rewrite Z.mod_small by lia. lia.
  - pose proof (Z.div_mod n 10 ltac:(lia)) as Hdm.
    pose proof (Z.mod_pos_bound n 10 ltac:(lia)) as Hm.
    destruct (n / 10 =? 0) eqn:E.
    + exists 1. rewrite parse_digits_cons by done. split; [lia |]. f_equal. lia.
    + destruct (IH (n / 10) (String (digit (n mod 10)) acc) a) as (d & Hd0 & Hd).
      { split; [apply Z.div_pos; lia |]. apply Z.div_lt_upper_bound; [lia |].
        rewrite <- Z.pow_succ_r by lia.
        replace (Z.succ (Z.of_nat k + 1)) with (Z.of_nat (S k) + 1) by lia. lia. }
      exists (d + 1). rewrite Hd, parse_digits_cons by done.
      split; [lia |]. f_equal. rewrite Z.pow_add_r by lia. lia.
Qed.

Lemma itoa_nonneg_parse n : 0 <= n -> parse_digits (itoa_nonneg n) 0 = Some n.
Proof.
  intros Hn. unfold itoa_nonneg.
  destruct (parse_itoa_fuel (Z.to_nat (Z.log2 n)) n EmptyString 0) as (d & _ & ->).
  - split; [done |]. pose proof (Z.log2_nonneg n). rewrite Z2Nat.id by done.
    destruct (Z.eq_dec n 0) as [->|]; [done |].
    pose proof (Z.log2_spec n ltac:(lia)) as [_ Hl].
    eapply Z.lt_le_trans; [exact Hl |]. apply Z.pow_le_mono_l. lia.
  - done.
Qed.

Lemma itoa_fuel_head k n acc :
  0 <= n -> exists d s, 0 <= d < 10 /\ itoa_fuel k n acc = String (digit d) s.
Proof.
  revert n acc. induction k as [|k IH]; intros n acc Hn; cbn [itoa_fuel].
  - eexists _, _. split; [| reflexivity]. apply Z.mod_pos_bound; lia.
  - destruct (n / 10 =? 0); [| apply IH, Z.div_pos; lia].
    eexists _, _. split; [| reflexivity]. apply Z.mod_pos_bound; lia.
Qed.

(** [Atoi] reads back what [Itoa] prints, for every [int]. *)
Lemma Atoi_Itoa n : min_int64 <= n <= max_int64 -> Atoi (Itoa n) = (n, None).
Proof.
  intros Hn. unfold Itoa. destruct (n <? 0) eqn:Eneg.
  - unfold Atoi. change (Ascii.eqb "-" "-") with true. cbn iota.
    assert (parse_digits (itoa_nonneg (- n)) 0 = Some (- n)) as Hp by (apply itoa_nonneg_parse; lia).
    destruct (itoa_fuel_head (Z.to_nat (Z.log2 (- n))) (- n) EmptyString ltac:(lia)) as (d & s & _ & Hh).
    unfold itoa_nonneg in *. rewrite Hh in Hp |- *. cbn iota. rewrite Hp. cbn iota.
    replace (- - n) with n by lia.
    destruct (n <? min_int64) eqn:E1; [lia |]. destruct (max_int64 <? n) eqn:E2; [lia | done].
  - assert (parse_digits (itoa_nonneg n) 0 = Some n) as Hp by (apply itoa_nonneg_parse; lia).
    destruct (itoa_fuel_head (Z.to_nat (Z.log2 n)) n EmptyString ltac:(lia)) as (d & s & Hd & Hh).
    unfold itoa_nonneg in *. rewrite Hh in Hp |- *. unfold Atoi.
    rewrite !digit_not_sign by (done || lia). cbn iota. rewrite Hp. cbn iota.
    destruct (n <? min_int64) eqn:E1; [lia |]. destruct (max_int64 <? n) eqn:E2; [lia | done].
Qed.
#[export] Hint Resolve Atoi_Itoa : go.

Lemma take_digits_all s a v : parse_digits s a = Some v -> take_digits s = s.
Proof.
  revert a. induction s as [|c s IH]; intros a; cbn; [done |].
  destruct (is_digit c); [| done]. intros H. by rewrite (IH _ H).
Qed.

Lemma skip_blanks_digit fuel d s :
  0 <= d < 10 -> skip_blanks fuel (String (digit d) s) = Some (String (digit d) s).
Proof.
  intros Hd. assert (d ∈ [0;1;2;3;4;5;6;7;8;9]) as Hin by (rewrite !elem_of_cons; lia).
  repeat (apply elem_of_cons in Hin as [->|Hin]; [by destruct fuel |]). by apply not_elem_of_nil in Hin.
Qed.

(** [Sscanf] with "%d" reads back a printed unsigned integer. *)
Lemma Sscanf_Itoa n : 0 <= n <= max_uint64 -> Sscanf_uint (Itoa n) = Ok n.
Proof.
  intros Hn. unfold Itoa. destruct (Z.ltb_spec n 0); [lia |].
  assert (parse_digits (itoa_nonneg n) 0 = Some n) as Hp by (apply itoa_nonneg_parse; lia).
  destruct (itoa_fuel_head (Z.to_nat (Z.log2 n)) n EmptyString ltac:(lia)) as (d & s & Hd & Hh).
  unfold Sscanf_uint. unfold itoa_nonneg in *. rewrite Hh in *. rewrite skip_blanks_digit by done.
  rewrite (take_digits_all _ _ _ Hp), Hp. destruct (Z.leb_spec n max_uint64); [done | lia].
Qed.

(** ** Splitting and joining *)
Lemma forall_string_app p a b : forall_string p (a +:+ b) = forall_string p a && forall_string p b.
Proof. induction a as [|c a IH]; [done |]. cbn. by rewrite IH, andb_assoc. Qed.

Lemma forall_string_rev p a : forall_string p (rev_string a) = forall_string p a.
Proof.
  induction a as [|c a IH]; [done |]. rewrite rev_string_cons, forall_string_app, IH. cbn.
  by rewrite andb_true_r, andb_comm.
Qed.

(** Splitting undoes joining, for parts without the separator. *)
Definition lacks (sep : ascii) (s : string) : Prop := forall_string (fun c => negb (Ascii.eqb c sep)) s = true.

Lemma Split_lacks sep s : lacks sep s -> Split s sep = [s].
Proof.
  induction s as [|c s IH]; intros H; [done |]. unfold lacks in *. cbn in *.
  destruct (Ascii.eqb c sep); [done |]. by rewrite IH.
Qed.

Lemma Split_app sep s t : lacks sep s -> Split (s +:+ String sep t) sep = s :: Split t sep.
Proof.
  induction s as [|c s IH]; intros H; cbn; [by rewrite Ascii.eqb_refl |]. unfold lacks in *. cbn in H.
  destruct (Ascii.eqb c sep); [done |]. by rewrite IH.
Qed.

Lemma Split_concat sep l : l <> [] -> Forall (lacks sep) l -> Split (String.concat (String sep "") l) sep = l.
Proof.
  intros Hne Hl. induction Hl as [|s l Hs Hl IH]; [done |]. destruct l as [|t l]; [by apply Split_lacks |].
  change (String.concat (String sep "") (s :: t :: l))
    with (s +:+ (String sep (String.concat (String sep "") (t :: l)))).
  rewrite Split_app by done. by rewrite IH.
Qed.

Lemma forall_string_impl (p q : ascii -> bool) s :
  (forall c, p c = true -> q c = true) -> forall_string p s = true -> forall_string q s = true.
Proof.
  intros H. induction s as [|c s IH]; [done |]. cbn. intros [Hc Hs]%andb_true_iff. by rewrite (H c Hc), (IH Hs).
Qed.

Lemma Split_join s sep : s = String.concat (String sep "") (Split s sep) /\ Forall (lacks sep) (Split s sep).
Proof.
  induction s as [|c s [IHs IHf]]; [by split; [| repeat constructor] |]. cbn [Split].
  destruct (Ascii.eqb_spec c sep) as [->|Hne].
  - split; [| by apply Forall_cons_2]. rewrite IHs at 1. destruct (Split s sep) eqn:Hsp; [| done].
    destruct s; cbn in Hsp; [done |]. by destruct (Ascii.eqb a sep), (Split s sep).
  - destruct (Split s sep) as [|p ps]; [cbn in IHs; subst s |]; cbn [String.concat] in *.
    + split; [done |]. apply Forall_cons_2; [| apply Forall_nil_2]. unfold lacks. cbn. by destruct (Ascii.eqb_spec c sep).
    + apply Forall_cons_1 in IHf as [Hp Hps]. split.
      * rewrite IHs. by destruct ps.
      * apply Forall_cons_2; [| done]. unfold lacks in *. cbn. by destruct (Ascii.eqb_spec c sep).
Qed.
