(* ===== verification/GoTime.v ===== *)
(** * GoTime: the parts of Go's [time] package the service uses

    A [time.Time] is an instant: nanoseconds since January 1, year 1, 00:00:00
    UTC, so the zero value [time.Time{}] is 0.  A [time.Duration] is a signed
    64-bit count of nanoseconds.  The calendar follows the proleptic Gregorian
    rules of the package.  The main fact is the round trip [Parse_Format_date]:
    printing the date of an instant with layout "2006-01-02" and parsing it
    back gives the midnight that starts its day. *)

From stdpp Require Import base list strings numbers.
From Stdlib Require Import ZArith Lia Ascii.
From S2P Require Import Prelude GoStrings.
Open Scope Z_scope.

#[local] Arguments String.append !_ _ / : simpl nomatch.

Abbreviation Time := Z (only parsing).
Abbreviation Duration := Z (only parsing).

Definition Nanosecond : Duration := 1.
Definition Millisecond : Duration := 1000000.
Definition Second : Duration := 1000000000.
Definition Minute : Duration := 60 * Second.
Definition Hour : Duration := 60 * Minute.
Definition Day : Duration := 24 * Hour.

Definition zero_time : Time := 0.
Definition IsZero (t : Time) : bool := t =? 0.

Definition max_duration : Duration := max_int64.
Definition min_duration : Duration := min_int64.

Definition time_Add (t : Time) (d : Duration) : Time := t + d.

(** [t.Sub(u)] saturates at the bounds of a Duration. *)
Definition time_Sub (t u : Time) : Duration :=
  Z.max min_duration (Z.min max_duration (t - u)).

Definition time_Before (t u : Time) : bool := t <? u.
Definition time_After (t u : Time) : bool := u <? t.

(** [t.AddDate(0, 0, n)] for an instant whose location is UTC. *)
Definition AddDays (t : Time) (n : Z) : Time := t + n * Day.

(** [d.Round(m)]: half away from zero, saturating. *)
Definition duration_Round (d m : Duration) : Duration :=
  if m <=? 0 then d
  else if d <? 0 then
    let r := (- d) mod m in
    if r + r <? m then d + r
    else let d1 := d - m + r in if min_duration <=? d1 then d1 else min_duration
  else
    let r := d mod m in
    if r + r <? m then d - r
    else let d1 := d + m - r in if d1 <=? max_duration then d1 else max_duration.

(** ** The calendar *)
Definition is_leap (y : Z) : bool :=
  ((y mod 4 =? 0) && negb (y mod 100 =? 0)) || (y mod 400 =? 0).

Definition month_lengths (leap : bool) : list Z :=
  [31; if leap then 29 else 28; 31; 30; 31; 30; 31; 31; 30; 31; 30; 31].

Definition days_in (y m : Z) : Z :=
  nth (Z.to_nat (m - 1)) (month_lengths (is_leap y)) 0.

(** Days from January 1, year 1 to January 1 of year [y]. *)
Definition days_before_year (y : Z) : Z :=
  let p := y - 1 in 365 * p + p / 4 - p / 100 + p / 400.

Definition days_before_month (leap : bool) (m : Z) : Z :=
  fold_right Z.add 0 (take (Z.to_nat (m - 1)) (month_lengths leap)).

Definition days_from_civil (y m d : Z) : Z :=
  days_before_year y + days_before_month (is_leap y) m + (d - 1).

(** Month and day of a day of the year (from 0). *)
Fixpoint month_of_yday (lens : list Z) (m yd : Z) : Z * Z :=
  match lens with
  | [] => (m, yd + 1)
  | n :: ns => if yd <? n then (m, yd + 1) else month_of_yday ns (m + 1) (yd - n)
  end.

(** Year, month, day of a day number: the 400-, 100-, 4- and 1-year cycles. *)
Definition civil_from_days (n : Z) : Z * Z * Z :=
  let a := n / 146097 in
  let r1 := n mod 146097 in
  let b := Z.min 3 (r1 / 36524) in
  let r2 := r1 - 36524 * b in
  let c := r2 / 1461 in
  let r3 := r2 mod 1461 in
  let e := Z.min 3 (r3 / 365) in
  let y := 400 * a + 100 * b + 4 * c + e + 1 in
  let '(m, d) := month_of_yday (month_lengths (is_leap y)) 1 (r3 - 365 * e) in
  (y, m, d).

(** ** Layout "2006-01-02" *)
Fixpoint pad_zeros (k : nat) (s : string) : string :=
  match k with O => s | S k' => String "0" (pad_zeros k' s) end.

(** [appendInt(n, width)] for a non-negative [n]. *)
Definition append_int (n : Z) (width : nat) : string :=
  let s := itoa_nonneg n in pad_zeros (width - String.length s) s.

Definition dash : ascii := "-".

(** [t.Format("2006-01-02")] for an instant shown [off] seconds east of UTC. *)
Definition Format_date (off : Z) (t : Time) : string :=
  let '(y, m, d) := civil_from_days ((t + off * Second) / Day) in
  append_int y 4 +:+ String dash (append_int m 2 +:+ String dash (append_int d 2)).

(** The clock part "15:04:05" of a layout. *)
Definition Format_clock (off : Z) (t : Time) : string :=
  let s := ((t + off * Second) / Second) mod 86400 in
  append_int (s / 3600) 2 +:+ String ":" (append_int (s / 60 mod 60) 2
    +:+ String ":" (append_int (s mod 60) 2)).

(** [t.Format("2006-01-02 15:04:05")] *)
Definition Format_datetime (off : Z) (t : Time) : string :=
  Format_date off t +:+ String " " (Format_clock off t).

(** [t.Format("2006-01-02T15:04:05Z")] *)
Definition Format_seconds_Z (off : Z) (t : Time) : string :=
  Format_date off t +:+ String "T" (Format_clock off t +:+ "Z").

(** [t.Format("20060102_150405")] *)
Definition Format_stamp (off : Z) (t : Time) : string :=
  let '(y, m, d) := civil_from_days ((t + off * Second) / Day) in
  let s := ((t + off * Second) / Second) mod 86400 in
  append_int y 4 +:+ append_int m 2 +:+ append_int d 2 +:+ String "_"
    (append_int (s / 3600) 2 +:+ append_int (s / 60 mod 60) 2 +:+ append_int (s mod 60) 2).

(** [t.Format(time.RFC3339)] *)
Definition Format_zone (off : Z) : string :=
  if off =? 0 then "Z"
  else let z := Z.abs off / 60 in
       (if off <? 0 then "-" else "+") +:+ append_int (z / 60) 2 +:+
       String ":" (append_int (z mod 60) 2).
Definition Format_RFC3339 (off : Z) (t : Time) : string :=
  Format_date off t +:+ String "T" (Format_clock off t +:+ Format_zone off).

(** Two or four digits off the front of the value. *)
Fixpoint take_num (k : nat) (s : string) (acc : Z) : option (Z * string) :=
  match k with
  | O => Some (acc, s)
  | S k' => match s with
            | String c s' =>
                if is_digit c then take_num k' s' (acc * 10 + digit_val c) else None
            | EmptyString => None
            end
  end.

Definition take_dash (s : string) : option string :=
  match s with
  | String c s' => if Ascii.eqb c dash then Some s' else None
  | EmptyString => None
  end.

Definition parse_error (s : string) : error := Fresh ("parsing time " +:+ s).

(** [time.Parse("2006-01-02", s)] *)
Definition Parse_date (s : string) : result Time :=
  match
    '(y, s1) ← take_num 4 s 0;
    s2 ← take_dash s1;
    '(m, s3) ← take_num 2 s2 0;
    s4 ← take_dash s3;
    '(d, s5) ← take_num 2 s4 0;
    if (1 <=? m) && (m <=? 12) && (1 <=? d) && (d <=? days_in y m)
       && String.eqb s5 EmptyString
    then Some (days_from_civil y m d * Day) else None
  with
  | Some t => Ok t
  | None => Err (parse_error s)
  end.

(** ** The calendar is a bijection on days *)
Lemma month_of_yday_spec lens m0 yd m d :
  0 <= yd < fold_right Z.add 0 lens ->
  month_of_yday lens m0 yd = (m, d) ->
  m0 <= m < m0 + Z.of_nat (length lens) /\
  1 <= d <= nth (Z.to_nat (m - m0)) lens 0 /\
  fold_right Z.add 0 (take (Z.to_nat (m - m0)) lens) + (d - 1) = yd.
Proof.
  revert m0 yd. induction lens as [|n ns IH]; intros m0 yd Hyd; cbn; [cbn in Hyd; lia |].
  destruct (yd <? n) eqn:E.
  - intros [= <- <-]. rewrite Z.sub_diag. change (Z.to_nat 0) with 0%nat.
    cbn [take nth fold_right length]. apply Z.ltb_lt in E. lia.
  - intros H. cbn in Hyd. destruct (IH (m0 + 1) (yd - n) ltac:(lia) H) as (Hm & Hd & Hs).
    replace (Z.to_nat (m - m0)) with (S (Z.to_nat (m - (m0 + 1)))) by lia.
    cbn [take nth fold_right length]. lia.
Qed.

Lemma month_lengths_total leap : fold_right Z.add 0 (month_lengths leap) = if leap then 366 else 365.
Proof. by destruct leap. Qed.

(** The year found by the cycle decomposition and its day of the year. *)
Lemma cycles_spec n a b c e :
  a = n / 146097 -> b = Z.min 3 (n mod 146097 / 36524) ->
  c = (n mod 146097 - 36524 * b) / 1461 ->
  e = Z.min 3 ((n mod 146097 - 36524 * b) mod 1461 / 365) ->
  let y := 400 * a + 100 * b + 4 * c + e + 1 in
  let yd := (n mod 146097 - 36524 * b) mod 1461 - 365 * e in
  days_before_year y + yd = n /\ 0 <= yd < (if is_leap y then 366 else 365).
Proof.
  intros Ha Hb Hc He y yd.
  assert (0 <= n mod 146097 < 146097) as Hr1 by (apply Z.mod_pos_bound; lia).
  assert (n = 146097 * a + n mod 146097) as Hn by (subst a; apply Z.div_mod; lia).
  set (r1 := n mod 146097) in *.
  assert (0 <= b <= 3 /\ 36524 * b <= r1 /\ r1 - 36524 * b <= 36524 /\ (b < 3 -> r1 - 36524 * b < 36524))
    as (Hb0 & Hb1 & Hb2 & Hb3).
  { pose proof (Z.div_mod r1 36524 ltac:(lia)). pose proof (Z.mod_pos_bound r1 36524 ltac:(lia)). lia. }
  set (r2 := r1 - 36524 * b) in *.
  pose proof (Z.div_mod r2 1461 ltac:(lia)) as Hr2. rewrite <- Hc in Hr2.
  pose proof (Z.mod_pos_bound r2 1461 ltac:(lia)) as Hr3.
  set (r3 := r2 mod 1461) in *.
  assert (0 <= c <= 24) as Hc0 by lia.
  assert (0 <= e <= 3 /\ 365 * e <= r3 /\ r3 - 365 * e <= 365 /\ (e < 3 -> r3 - 365 * e < 365))
    as (He0 & He1 & He2 & He3).
  { pose proof (Z.div_mod r3 365 ltac:(lia)). pose proof (Z.mod_pos_bound r3 365 ltac:(lia)). lia. }
  assert (y - 1 = 400 * a + 100 * b + 4 * c + e) as Hy by (subst y; lia).
  assert ((y - 1) / 4 = 100 * a + 25 * b + c) as D4
    by (rewrite Hy; symmetry; apply (Z.div_unique _ _ _ e); lia).
  assert ((y - 1) / 100 = 4 * a + b) as D100
    by (rewrite Hy; symmetry; apply (Z.div_unique _ _ _ (4 * c + e)); lia).
  assert ((y - 1) / 400 = a) as D400
    by (rewrite Hy; symmetry; apply (Z.div_unique _ _ _ (100 * b + 4 * c + e)); lia).
  split.
  { unfold days_before_year. rewrite D4, D100, D400. subst yd r2. lia. }
  split; [lia |].
  destruct (Z.eq_dec e 3) as [E3|]; [| destruct (is_leap y); lia].
  (* the last year of a 4-year cycle is a leap year unless its century ends here *)
  assert (y mod 4 = 0) as M4 by (rewrite (Z.mod_unique y 4 (100 * a + 25 * b + c + 1) 0); lia).
  destruct (Z.eq_dec c 24) as [E24|].
  - destruct (Z.eq_dec b 3) as [Eb|].
    + assert (y mod 400 = 0) as M400 by (rewrite (Z.mod_unique y 400 (a + 1) 0); lia).
      unfold is_leap. rewrite M400. rewrite Bool.orb_true_r. lia.
    + destruct (is_leap y); lia.
  - assert (y mod 100 = 4 * c + 4) as M100 by (rewrite (Z.mod_unique y 100 (4 * a + b) (4 * c + 4)); lia).
    unfold is_leap. rewrite M4. destruct (y mod 100 =? 0) eqn:?; [lia |]. cbn. lia.
Qed.

Lemma civil_from_days_spec n y m d :
  civil_from_days n = (y, m, d) ->
  days_from_civil y m d = n /\ 1 <= m <= 12 /\ 1 <= d <= days_in y m.
Proof.
  unfold civil_from_days.
  set (a := n / 146097). set (b := Z.min 3 (n mod 146097 / 36524)).
  set (c := (n mod 146097 - 36524 * b) / 1461).
  set (e := Z.min 3 ((n mod 146097 - 36524 * b) mod 1461 / 365)).
  destruct (cycles_spec n a b c e eq_refl eq_refl eq_refl eq_refl) as [Hn Hyd].
  set (yy := 400 * a + 100 * b + 4 * c + e + 1) in *.
  set (yd := (n mod 146097 - 36524 * b) mod 1461 - 365 * e) in *.
  destruct (month_of_yday (month_lengths (is_leap yy)) 1 yd) as [m' d'] eqn:E.
  intros [= <- <- <-].
  apply month_of_yday_spec in E as (Hm & Hd & Hs); [| by rewrite month_lengths_total].
  cbn [length month_lengths] in Hm.
  split; [| split; [lia | exact Hd]].
  unfold days_from_civil, days_before_month. lia.
Qed.

(** ** Printing and parsing a date *)
Lemma take_num_digits k s a n :
  String.length s = k -> parse_digits s a = Some n ->
  forall rest, take_num k (s +:+ rest) a = Some (n, rest).
Proof.
  revert s a. induction k as [|k IH]; intros [|c s] a Hl Hp rest; cbn in Hl; try lia.
  - cbn in Hp. by injection Hp as ->.
  - cbn in Hp |- *. destruct (is_digit c); [| done]. by apply IH; [lia |].
Qed.

Lemma parse_pad_zeros k s : parse_digits (pad_zeros k s) 0 = parse_digits s 0.
Proof. induction k as [|k IH]; [done |]. exact IH. Qed.

Lemma length_pad_zeros k s : String.length (pad_zeros k s) = (k + String.length s)%nat.
Proof. induction k; cbn; lia. Qed.

Lemma length_itoa_fuel k n acc w :
  0 <= n < 10 ^ Z.of_nat w -> (0 < w)%nat ->
  (String.length (itoa_fuel k n acc) <= w + String.length acc)%nat.
Proof.
  revert n acc w. induction k as [|k IH]; intros n acc w Hn Hw; cbn [itoa_fuel].
  - cbn. lia.
  - destruct (n / 10 =? 0) eqn:E; [cbn; lia |].
    destruct w as [|[|w]]; [lia | |].
    + cbn in Hn. rewrite Z.div_small in E by lia. done.
    + etransitivity; [apply (IH _ _ (S w)) | cbn; lia]; [| lia].
      split; [apply Z.div_pos; lia |]. apply Z.div_lt_upper_bound; [lia |].
      rewrite <- Z.pow_succ_r by lia.
      replace (Z.succ (Z.of_nat (S w))) with (Z.of_nat (S (S w))) by lia. lia.
Qed.

Lemma append_int_spec n w :
  0 <= n < 10 ^ Z.of_nat w -> (0 < w)%nat ->
  String.length (append_int n w) = w /\ parse_digits (append_int n w) 0 = Some n.
Proof.
  intros Hn Hw. unfold append_int. rewrite length_pad_zeros, parse_pad_zeros, itoa_nonneg_parse by lia.
  split; [| done].
  pose proof (length_itoa_fuel (Z.to_nat (Z.log2 n)) n EmptyString w Hn Hw) as Hl.
  fold (itoa_nonneg n) in Hl. cbn in Hl. lia.
Qed.

Lemma take_num_append_int n w rest :
  0 <= n < 10 ^ Z.of_nat w -> (0 < w)%nat ->
  take_num w (append_int n w +:+ rest) 0 = Some (n, rest).
Proof. intros Hn Hw. destruct (append_int_spec n w Hn Hw). by apply take_num_digits. Qed.

Lemma days_in_le y m : days_in y m <= 31.
Proof.
  unfold days_in. generalize (Z.to_nat (m - 1)). intros k.
  do 12 (destruct k as [|k]; [cbn; destruct (is_leap y); lia |]). cbn. destruct k; lia.
Qed.

(** The year of an instant as the calendar of a zone [off] seconds east shows it. *)
Definition year_of (off : Z) (t : Time) : Z :=
  (civil_from_days ((t + off * Second) / Day)).1.1.

#[local] Arguments take_num : simpl never.
#[local] Arguments append_int : simpl never.
#[local] Arguments days_from_civil : simpl never.
#[local] Arguments days_in : simpl never.

(** Parsing the printed date of an instant gives the midnight (UTC) of that date. *)
Lemma Parse_Format_date off t :
  0 <= year_of off t <= 9999 ->
  Parse_date (Format_date off t) = Ok ((t + off * Second) / Day * Day).
Proof.
  unfold year_of, Format_date, Parse_date. set (n := (t + off * Second) / Day).
  destruct (civil_from_days n) as [[y m] d] eqn:E. cbn [fst snd]. intros Hy.
  apply civil_from_days_spec in E as (Hn & Hm & Hd). pose proof (days_in_le y m).
  rewrite (take_num_append_int y 4) by (cbn; lia). cbn.
  rewrite (take_num_append_int m 2) by (cbn; lia). cbn.
  rewrite <- (string_app_nil_r (append_int d 2)).
  rewrite (take_num_append_int d 2) by (cbn; lia). cbn.
  rewrite Hn, !(proj2 (Z.leb_le _ _)) by lia. done.
Qed.

Lemma time_Sub_small t u : min_duration <= t - u <= max_duration -> time_Sub t u = t - u.
Proof. unfold time_Sub, min_duration, max_duration. lia. Qed.

(** [Round] loses at most half a unit below. *)
Lemma duration_Round_near d m : 0 < m -> d <= max_duration -> 2 * (d - duration_Round d m) <= m.
Proof.
  intros Hm Hd. unfold duration_Round, max_duration, min_duration in *.
  destruct (Z.leb_spec m 0); [lia |].
  destruct (Z.ltb_spec d 0).
  - pose proof (Z.mod_pos_bound (- d) m Hm). destruct (Z.ltb_spec ((- d) mod m + (- d) mod m) m); [lia |].
    destruct (Z.leb_spec min_int64 (d - m + (- d) mod m)); lia.
  - pose proof (Z.mod_pos_bound d m Hm). destruct (Z.ltb_spec (d mod m + d mod m) m); [lia |].
    destruct (Z.leb_spec (d + m - d mod m) max_int64); lia.
Qed.

(** ** [Duration.String] *)
Fixpoint fmt_frac (fuel : nat) (v : Z) (print : bool) (acc : string) : string * Z :=
  match fuel with
  | O => (if print then String "." acc else acc, v)
  | S k => let d := v mod 10 in
           let print := print || negb (d =? 0) in
           fmt_frac k (v / 10) print (if print then String (digit d) acc else acc)
  end.

(** The magnitude [u] with [prec] decimals and a unit. *)
Definition fmt_unit (u : Z) (prec : nat) (unit_ : string) : string :=
  let '(frac, v) := fmt_frac prec u false unit_ in itoa_nonneg v +:+ frac.

(** U+00B5, the micro sign, in UTF-8 *)
Definition micro_s : string := bytes [194; 181; 115]%nat.

Definition Duration_String (d : Duration) : string :=
  let u := Z.abs d in
  let body :=
    if u =? 0 then "0s"%string
    else if u <? 1000 then fmt_unit u 0 "ns"
    else if u <? Millisecond then fmt_unit u 3 micro_s
    else if u <? Second then fmt_unit u 6 "ms"
    else
      let '(frac, secs) := fmt_frac 9 u false "s" in
      let s := secs mod 60 in
      let m := secs / 60 in
      if m =? 0 then itoa_nonneg s +:+ frac
      else
        let mm := m mod 60 in
        let h := m / 60 in
        (if h =? 0 then ""%string else itoa_nonneg h +:+ "h")
        +:+ itoa_nonneg mm +:+ "m" +:+ itoa_nonneg s +:+ frac in
  if d <? 0 then String "-" body else body.

Example Duration_String_examples :
  map Duration_String [0; 1; 1500; 2300000; Second; 90 * Second; Hour; 3661500000000; -Second]
  = ["0s"; "1ns"; "1.5" +:+ micro_s; "2.3ms"; "1s"; "1m30s"; "1h0m0s"; "1h1m1.5s"; "-1s"]%string.
Proof. reflexivity. Qed.
