(* ===== verification/GoFloat.v ===== *)
(** * GoFloat: float64, and what needs it of package time

    IEEE 754 binary64 with rounding to nearest even, on the Standard Library's
    [SpecFloat], the conversions to and from [int] the service uses,
    [Duration.Hours] and [time.ParseDuration]. *)

From Stdlib Require Import ZArith Lia SpecFloat Ascii.
From stdpp Require Import base list strings numbers.
From S2P Require Import Prelude GoStrings GoTime.
Open Scope Z_scope.

Definition float64 : Type := spec_float.

(** [float64(n)] *)
Definition float64_of_int (n : Z) : float64 := binary_normalize 53 1024 n 0 false.
Definition float64_add (x y : float64) : float64 := SFadd 53 1024 x y.
Definition float64_mul (x y : float64) : float64 := SFmul 53 1024 x y.
Definition float64_div (x y : float64) : float64 := SFdiv 53 1024 x y.
Definition float64_leb (x y : float64) : bool := SFleb x y.

(** [int(x)]: truncation towards zero, for a value in the range of [int]. *)
Definition int_of_float64 (x : float64) : Z :=
  match x with
  | S754_finite s m e =>
      let n := if 0 <=? e then Z.shiftl (Zpos m) e else Z.shiftr (Zpos m) (- e) in
      if s then - n else n
  | _ => 0
  end.

(** [d.Hours()] *)
Definition duration_Hours (d : Duration) : float64 :=
  float64_add (float64_of_int (Z.quot d Hour))
    (float64_div (float64_of_int (Z.rem d Hour)) (float64_of_int 3600000000000)).

Example hours_90min : duration_Hours (90 * Minute) = float64_div (float64_of_int 3) (float64_of_int 2).
Proof. vm_compute. reflexivity. Qed.

Example trunc_90min : int_of_float64 (duration_Hours (90 * Minute)) = 1.
Proof. vm_compute. reflexivity. Qed.

(** ** [time.ParseDuration]

    Its errors differ only in their wording: here there is one. *)
Definition invalid_duration (s : string) : error := Fresh ("time: invalid duration " +:+ s).

(** [leadingInt]: the digits of [s] as a number of at most 2^63, and the rest. *)
Fixpoint leadingInt (s : string) (x : Z) : option (Z * string) :=
  match s with
  | String c s' =>
      if is_digit c then
        if 2 ^ 63 / 10 <? x then None
        else let x := x * 10 + digit_val c in
             if 2 ^ 63 <? x then None else leadingInt s' x
      else Some (x, s)
  | EmptyString => Some (x, s)
  end.

(** [leadingFraction]: the digits that fit, the power of ten they are over, and
    the rest; further digits are skipped. *)
Fixpoint leadingFraction (s : string) (x scale : Z) (overflow : bool) : Z * Z * string :=
  match s with
  | String c s' =>
      if is_digit c then
        if overflow then leadingFraction s' x scale true
        else if (2 ^ 63 - 1) / 10 <? x then leadingFraction s' x scale true
        else let y := x * 10 + digit_val c in
             if 2 ^ 63 <? y then leadingFraction s' x scale true
             else leadingFraction s' y (scale * 10) false
      else (x, scale, s)
  | EmptyString => (x, scale, s)
  end.

Definition is_number_char (c : ascii) : bool := Ascii.eqb c "." || is_digit c.

(** The characters up to the next digit or period. *)
Fixpoint take_unit (s : string) : string * string :=
  match s with
  | String c s' => if is_number_char c then (EmptyString, s)
                   else let '(u, rest) := take_unit s' in (String c u, rest)
  | EmptyString => (EmptyString, s)
  end.

Definition unit_value (u : string) : option Z :=
  if String.eqb u "ns" then Some 1
  else if bool_decide (u ∈ ["us"%string; micro_s; bytes [206; 188; 115]%nat]) then Some 1000
  else if String.eqb u "ms" then Some Millisecond
  else if String.eqb u "s" then Some Second
  else if String.eqb u "m" then Some Minute
  else if String.eqb u "h" then Some Hour
  else None.

(** One number with its unit, and the rest of the text. *)
Definition parse_term (s : string) : option (Z * string) :=
  match s with
  | EmptyString => None
  | String c _ =>
      if negb (is_number_char c) then None
      else match leadingInt s 0 with
           | None => None
           | Some (v, s1) =>
               let pre := negb (String.length s1 =? String.length s)%nat in
               let '(f, scale, s2, post) :=
                 match s1 with
                 | String d s1' =>
                     if Ascii.eqb d "." then
                       let '(f, scale, s2) := leadingFraction s1' 0 1 false in
                       (f, scale, s2, negb (String.length s2 =? String.length s1')%nat)
                     else (0, 1, s1, false)
                 | EmptyString => (0, 1, s1, false)
                 end in
               if negb pre && negb post then None
               else
                 let '(u, rest) := take_unit s2 in
                 match unit_value u with
                 | None => None
                 | Some unit_ =>
                     if 2 ^ 63 / unit_ <? v then None
                     else
                       let v := v * unit_ in
                       let v := if 0 <? f then
                                  v + int_of_float64 (float64_mul (float64_of_int f)
                                        (float64_div (float64_of_int unit_) (float64_of_int scale)))
                                else v in
                       if 2 ^ 63 <? v then None else Some (v, rest)
                 end
           end
  end.

(** The loop; every term consumes a character. *)
Fixpoint parse_terms (fuel : nat) (s : string) (d : Z) : option Z :=
  match s, fuel with
  | EmptyString, _ => Some d
  | _, O => None
  | _, S fuel' =>
      match parse_term s with
      | None => None
      | Some (v, rest) => let d := d + v in if 2 ^ 63 <? d then None else parse_terms fuel' rest d
      end
  end.

Definition ParseDuration (s : string) : result Duration :=
  let '(neg, s1) := match s with
                    | String c s' => if Ascii.eqb c "-" then (true, s')
                                     else if Ascii.eqb c "+" then (false, s') else (false, s)
                    | EmptyString => (false, s)
                    end in
  if String.eqb s1 "0" then Ok 0
  else if String.eqb s1 "" then Err (invalid_duration s)
  else match parse_terms (String.length s1) s1 0 with
       | None => Err (invalid_duration s)
       | Some d => if neg : bool then Ok (- d)
                   else if 2 ^ 63 - 1 <? d then Err (invalid_duration s) else Ok d
       end.

Example parse_durations :
  map ParseDuration ["1h15m30.918s"; "-1.5h"; "+5s"; ".5m"; "0"]%string =
  [Ok 4530918000000; Ok (-5400000000000); Ok (5 * Second); Ok (30 * Second); Ok 0] /\
  map (fun s => is_ok (ParseDuration s)) ["30"; ""; "abc"; "1 s"; "3d"; "9223372036854775808ns"]%string =
  repeat false 6.
Proof. vm_compute. done. Qed.
