(* ===== verification/GoParseFloat.v ===== *)
(** * GoParseFloat: [strconv.ParseFloat] and the conversion of a float64 to [int]

    [ParseFloat(s, 64)] with the whole grammar: signs, decimal and hexadecimal
    digits, exponents, underscores, infinities and NaN.  The value is the
    float64 nearest to what the text denotes; strconv's several algorithms all
    compute it. *)

From Stdlib Require Import ZArith Lia SpecFloat Ascii.
From stdpp Require Import base list strings numbers.
From S2P Require Import Prelude GoStrings GoTime GoFloat.
Open Scope Z_scope.

(** [lower(c)]: [c | 0x20] *)
Definition lower (c : ascii) : ascii := ascii_of_nat (Z.to_nat (Z.lor (byte_val c) 32)).

Fixpoint lower_all (s : string) : string :=
  match s with EmptyString => EmptyString | String c s' => String (lower c) (lower_all s') end.

(** [special]: infinities, with a sign or without, and NaN. *)
Definition special (s : string) : option float64 :=
  let '(neg, signed, body) :=
    match s with
    | String c s' => if Ascii.eqb c "-" then (true, true, s')
                     else if Ascii.eqb c "+" then (false, true, s') else (false, false, s)
    | EmptyString => (false, false, s)
    end in
  if bool_decide (lower_all body ∈ ["inf"; "infinity"]%string) then Some (S754_infinity neg)
  else if negb signed && String.eqb (lower_all body) "nan" then Some S754_nan
  else None.

Definition digit_of (hex : bool) (c : ascii) : option Z :=
  if is_digit c then Some (digit_val c)
  else if hex && (97 <=? byte_val (lower c)) && (byte_val (lower c) <=? 102) then Some (byte_val (lower c) - 87)
  else None.

Record mantissa := mkMantissa {
  m_digits : Z;          (* the digits as one number *)
  m_frac : Z;            (* how many of them follow the period *)
  m_dot : bool;
  m_any : bool;
  m_underscores : bool;
}.
Definition no_digits : mantissa := mkMantissa 0 0 false false false.

(** The loop of [readFloat], and the rest of the text. *)
Fixpoint read_mantissa (hex : bool) (s : string) (m : mantissa) : mantissa * string :=
  match s with
  | EmptyString => (m, s)
  | String c s' =>
      if Ascii.eqb c "_" then read_mantissa hex s' (mkMantissa (m_digits m) (m_frac m) (m_dot m) (m_any m) true)
      else if Ascii.eqb c "." then
        if m_dot m then (m, s)
        else read_mantissa hex s' (mkMantissa (m_digits m) (m_frac m) true (m_any m) (m_underscores m))
      else match digit_of hex c with
           | Some d =>
               read_mantissa hex s' (mkMantissa (m_digits m * (if hex then 16 else 10) + d)
                 (if m_dot m then m_frac m + 1 else m_frac m) (m_dot m) true (m_underscores m))
           | None => (m, s)
           end
  end.

(** The digits of an exponent; further ones are dropped from 10000 on. *)
Fixpoint read_exponent (s : string) (e : Z) (underscores : bool) : option (Z * bool) :=
  match s with
  | EmptyString => Some (e, underscores)
  | String c s' =>
      if Ascii.eqb c "_" then read_exponent s' e true
      else if is_digit c then read_exponent s' (if e <? 10000 then e * 10 + digit_val c else e) underscores
      else None
  end.

(** The exponent after the letter [letter]: its value, and whether it has an
    underscore; [None] is a syntax error. *)
Definition exponent (hex : bool) (s : string) : option (Z * bool) :=
  match s with
  | EmptyString => if hex then None else Some (0, false)
  | String c s' =>
      if negb (Ascii.eqb (lower c) (if hex then "p" else "e")) then None
      else
        let '(neg, digits) :=
          match s' with
          | String d s'' => if Ascii.eqb d "+" then (false, s'')
                            else if Ascii.eqb d "-" then (true, s'') else (false, s')
          | EmptyString => (false, s')
          end in
        match digits with
        | String d _ =>
            if is_digit d then
              match read_exponent digits 0 false with
              | Some (e, u) => Some (if neg : bool then - e else e, u)
              | None => None
              end
            else None
        | EmptyString => None
        end
  end.

(** [underscoreOK]: an underscore stands between digits, or after the prefix. *)
Fixpoint underscores_ok (hex : bool) (saw : ascii) (s : string) : bool :=
  match s with
  | EmptyString => negb (Ascii.eqb saw "_")
  | String c s' =>
      match digit_of hex c with
      | Some _ => underscores_ok hex "0" s'
      | None =>
          if Ascii.eqb c "_" then Ascii.eqb saw "0" && underscores_ok hex "_" s'
          else negb (Ascii.eqb saw "_") && underscores_ok hex "!" s'
      end
  end.

(** [m * 10^k] and [m * 2^k], rounded to nearest even. *)
Definition round_decimal (neg : bool) (m k : Z) : float64 :=
  if m =? 0 then S754_zero neg
  else if 0 <=? k then binary_normalize 53 1024 (if neg then - (m * 10 ^ k) else m * 10 ^ k) 0 neg
  else SFdiv 53 1024 (S754_finite neg (Z.to_pos m) 0) (S754_finite false (Z.to_pos (10 ^ (- k))) 0).
Definition round_binary (neg : bool) (m k : Z) : float64 :=
  binary_normalize 53 1024 (if neg then - m else m) k neg.

Definition is_infinite (x : float64) : bool := match x with S754_infinity _ => true | _ => false end.

Definition syntax_error : float64 * option error := (S754_zero false, Some ErrSyntax).

Definition ParseFloat (s : string) : float64 * option error :=
  match special s with
  | Some x => (x, None)
  | None =>
      let '(neg, s1) :=
        match s with
        | String c s' => if Ascii.eqb c "-" then (true, s')
                         else if Ascii.eqb c "+" then (false, s') else (false, s)
        | EmptyString => (false, s)
        end in
      let '(hex, body) :=
        match s1 with
        | String z (String x (String _ _ as body)) =>
            if Ascii.eqb z "0" && Ascii.eqb (lower x) "x" then (true, body) else (false, s1)
        | _ => (false, s1)
        end in
      let '(m, rest) := read_mantissa hex body no_digits in
      if negb (m_any m) then syntax_error
      else match exponent hex rest with
           | None => syntax_error
           | Some (e, u) =>
               if (m_underscores m || u) && negb (underscores_ok hex (if hex : bool then "0"%char else "^"%char) body) then syntax_error
               else
                 let x := if hex : bool then round_binary neg (m_digits m) (e - 4 * m_frac m)
                          else round_decimal neg (m_digits m) (e - m_frac m) in
                 (x, if is_infinite x then Some ErrRange else None)
           end
  end.

(** [int(x)]: truncation; what it gives outside the range of [int] depends on
    the processor. *)
Definition int_of_float (outside : float64 -> Z) (x : float64) : Z :=
  let in_range n := (min_int64 <=? n) && (n <=? max_int64) in
  match x with
  | S754_zero _ => 0
  | S754_finite _ _ _ => if in_range (int_of_float64 x) then int_of_float64 x else outside x
  | _ => outside x
  end.

Example parse_floats :
  map ParseFloat ["5"; "-2.5"; "1e3"; ".5"; "0x1.8p1"; "1_000.5"; "-Inf"; "nan"]%string =
  [(float64_of_int 5, None); (float64_div (float64_of_int (-5)) (float64_of_int 2), None); (float64_of_int 1000, None);
   (float64_div (float64_of_int 1) (float64_of_int 2), None); (float64_of_int 3, None);
   (float64_div (float64_of_int 2001) (float64_of_int 2), None); (S754_infinity true, None); (S754_nan, None)] /\
  (* 0x1.999999999999ap-4 *)
  ParseFloat "0.1" = (S754_finite false 7205759403792794 (-56), None) /\
  ParseFloat "1e309" = (S754_infinity false, Some ErrRange) /\
  map (fun s => (ParseFloat s).2) [""; "5%"; "1e"; "0x1"; "_5"; "5_"; "1..2"; "infinit"]%string = repeat (Some ErrSyntax) 8.
Proof. vm_compute. done. Qed.

(** ** Integers *)
Lemma digit_plain c : is_digit c = true -> lower c = c /\ forallb (fun x => negb (Ascii.eqb c x)) ["_"; "."; "-"; "+"; "i"; "n"; "x"]%char = true.
Proof. destruct c as [[] [] [] [] [] [] [] []]; vm_compute; done. Qed.

(** Text of digits only: what [parse_digits] reads is the mantissa. *)
Lemma read_mantissa_digits s a v any :
  parse_digits s a = Some v -> exists any', read_mantissa false s (mkMantissa a 0 false any false) = (mkMantissa v 0 false any' false, ""%string) /\
    (any || negb (String.eqb s "") = any').
Proof.
  revert a any. induction s as [|c s IH]; intros a any; cbn [parse_digits read_mantissa].
  - intros [= ->]. exists any. split; [done |]. apply orb_false_r.
  - unfold digit_of. destruct (is_digit c) eqn:Hc; [| done]. intros Hp.
    destruct (digit_plain c Hc) as [_ Hall]. cbn in Hall. rewrite !andb_true_iff, !negb_true_iff in Hall.
    destruct Hall as (-> & -> & _). cbn. destruct (IH _ true Hp) as (any' & Hr & Ha). exists any'. by rewrite orb_true_r.
Qed.

Lemma digits_not_special s v :
  parse_digits s 0 = Some v -> s <> ""%string -> forall neg,
  special (if neg : bool then String "-" s else s) = None.
Proof.
  destruct s as [|c s]; [done |]. cbn [parse_digits]. destruct (is_digit c) eqn:Hc; [| done]. intros _ _ neg.
  destruct (digit_plain c Hc) as [Hl Hall]. cbn in Hall. rewrite !andb_true_iff, !negb_true_iff in Hall.
  destruct Hall as (_ & _ & Hm & Hp & Hi & Hn & _).
  assert (forall d t, Ascii.eqb c d = false -> lower_all (String c s) <> String d t) as Hne.
  { intros d t Hd [= He _]. rewrite Hl in He. by rewrite He, Ascii.eqb_refl in Hd. }
  unfold special. destruct neg.
  - change (Ascii.eqb "-" "-") with true. cbn iota. rewrite bool_decide_eq_false_2; [done |].
    intros [H|[H|[]%elem_of_nil]%elem_of_cons]%elem_of_cons; by apply Hne in H.
  - rewrite Hm, Hp. cbn iota. rewrite bool_decide_eq_false_2.
    + destruct (String.eqb_spec (lower_all (String c s)) "nan") as [H|_]; [by apply Hne in H | done].
    + intros [H|[H|[]%elem_of_nil]%elem_of_cons]%elem_of_cons; by apply Hne in H.
Qed.

(** A number that [Itoa] prints is read as the nearest float64. *)
Theorem ParseFloat_Itoa n : (ParseFloat (Itoa n)).1 = float64_of_int n.
Proof.
  assert (forall neg m, 0 <= m -> (ParseFloat (if neg : bool then String "-" (itoa_nonneg m) else itoa_nonneg m)).1
    = round_decimal neg m 0) as Hgen.
  { intros neg m Hm. pose proof (itoa_nonneg_parse m Hm) as Hp.
    destruct (itoa_fuel_head (Z.to_nat (Z.log2 m)) m EmptyString Hm) as (d & s & Hd & Hh). fold (itoa_nonneg m) in Hh.
    unfold ParseFloat. rewrite (digits_not_special _ m Hp) by (by rewrite Hh).
    assert ((match (if neg then String "-" (itoa_nonneg m) else itoa_nonneg m) with
             | String c s' => if Ascii.eqb c "-" then (true, s') else if Ascii.eqb c "+" then (false, s')
                              else (false, if neg then String "-" (itoa_nonneg m) else itoa_nonneg m)
             | EmptyString => (false, if neg then String "-" (itoa_nonneg m) else itoa_nonneg m) end) = (neg, itoa_nonneg m)) as ->.
    { destruct neg; [done |]. rewrite Hh. by rewrite !digit_not_sign by (done || lia). }
    assert ((match itoa_nonneg m with
             | String z (String x (String _ _ as body)) =>
                 if Ascii.eqb z "0" && Ascii.eqb (lower x) "x" then (true, body) else (false, itoa_nonneg m)
             | _ => (false, itoa_nonneg m) end) = (false, itoa_nonneg m)) as ->.
    { revert Hp. destruct (itoa_nonneg m) as [|z [|x [|y t]]]; [done .. |]. cbn [parse_digits].
      destruct (is_digit z); [| done]. destruct (is_digit x) eqn:Hx; [| done]. intros _.
      destruct (digit_plain x Hx) as [-> Hall]. cbn in Hall. rewrite !andb_true_iff, !negb_true_iff in Hall.
      destruct Hall as (_ & _ & _ & _ & _ & _ & -> & _). by rewrite andb_false_r. }
    destruct (read_mantissa_digits _ 0 m false Hp) as (any & Hr & Hany). unfold no_digits. rewrite Hr. cbn.
    rewrite Hh in Hany. cbn in Hany. by subst any. }
  unfold Itoa. destruct (Z.ltb_spec n 0) as [Hn|Hn].
  - rewrite (Hgen true (- n)) by lia. unfold round_decimal. destruct (Z.eqb_spec (- n) 0); [lia |]. cbn -[binary_normalize].
    rewrite Z.mul_1_r, Z.opp_involutive. by destruct n.
  - rewrite (Hgen false n) by lia. unfold round_decimal. destruct (Z.eqb_spec n 0) as [->|]; [done |]. cbn -[binary_normalize].
    by rewrite Z.mul_1_r.
Qed.
