(* ===== verification/Sha256.v ===== *)
(** * Sha256: [crypto/sha256.Sum256], executable

    FIPS 180-4 on 32-bit words kept as [Z] below 2^32.  The service hashes
    refresh tokens, CSRF tokens and rate limit keys with it. *)

From stdpp Require Import base list strings numbers.
From Stdlib Require Import ZArith Lia.
From S2P Require Import Prelude GoStrings.
Open Scope Z_scope.

Definition word (n : Z) : Z := n mod 2 ^ 32.
Definition rotr (n : Z) (x : Z) : Z := Z.lor (Z.shiftr x n) (word (Z.shiftl x (32 - n))).
Definition wnot (x : Z) : Z := 2 ^ 32 - 1 - x.

Definition big_sigma0 x := Z.lxor (rotr 2 x) (Z.lxor (rotr 13 x) (rotr 22 x)).
Definition big_sigma1 x := Z.lxor (rotr 6 x) (Z.lxor (rotr 11 x) (rotr 25 x)).
Definition small_sigma0 x := Z.lxor (rotr 7 x) (Z.lxor (rotr 18 x) (Z.shiftr x 3)).
Definition small_sigma1 x := Z.lxor (rotr 17 x) (Z.lxor (rotr 19 x) (Z.shiftr x 10)).
Definition choose x y z := Z.lxor (Z.land x y) (Z.land (wnot x) z).
Definition majority x y z := Z.lxor (Z.land x y) (Z.lxor (Z.land x z) (Z.land y z)).

(** The constants are the first 32 bits of the fractional parts of the cube
    roots of the first 64 primes, and of the square roots of the first 8. *)
Definition primes_below (n : nat) : list Z :=
  List.filter (fun p => forallb (fun d => negb (p mod Z.of_nat d =? 0)) (seq 2 (Z.to_nat p - 2)))
    (map Z.of_nat (seq 2 (n - 2))).

(** The bits of the integer cube root of [x], from the highest. *)
Fixpoint cube_root_bits (k : nat) (x root : Z) : Z :=
  match k with
  | O => root
  | S k' =>
      let r := root + 2 ^ Z.of_nat k' in
      cube_root_bits k' x (if r * r * r <=? x then r else root)
  end.

Definition round_constants : list Z := Eval vm_compute in
  map (fun p => word (cube_root_bits 36 (p * 2 ^ 96) 0)) (primes_below 312).
Definition initial_hash : list Z := Eval vm_compute in
  map (fun p => word (Z.sqrt (p * 2 ^ 64))) (primes_below 20).

Example constants_count : length round_constants = 64%nat /\ length initial_hash = 8%nat.
Proof. done. Qed.

(** Big-endian bytes of an integer, and the integer of big-endian bytes. *)
Fixpoint be_bytes (n : nat) (x : Z) : list Z :=
  match n with
  | O => []
  | S n' => be_bytes n' (x / 256) ++ [x mod 256]
  end.
Definition be_int (bs : list Z) : Z := foldl (fun a b => a * 256 + b) 0 bs.

(** The message followed by a one bit, zeros and its length in bits, a
    multiple of 64 bytes long. *)
Definition padded (m : list Z) : list Z :=
  let len := Z.of_nat (length m) in
  m ++ [0x80] ++ replicate (Z.to_nat ((55 - len) mod 64)) 0 ++ be_bytes 8 (8 * len).

Fixpoint chunks (fuel k : nat) (l : list Z) : list (list Z) :=
  match fuel, l with
  | S n, _ :: _ => take k l :: chunks n k (drop k l)
  | _, _ => []
  end.

(** The message schedule, newest word first. *)
Fixpoint schedule (n : nat) (ws : list Z) : list Z :=
  match n with
  | O => ws
  | S n' =>
      let w := word (small_sigma1 (nth 1 ws 0) + nth 6 ws 0
                     + small_sigma0 (nth 14 ws 0) + nth 15 ws 0) in
      schedule n' (w :: ws)
  end.

Definition round (st : list Z) (kw : Z * Z) : list Z :=
  match st with
  | [a; b; c; d; e; f; g; h] =>
      let t1 := h + big_sigma1 e + choose e f g + fst kw + snd kw in
      let t2 := big_sigma0 a + majority a b c in
      [word (t1 + t2); a; b; c; word (d + t1); e; f; g]
  | _ => st
  end.

Definition compress (hs : list Z) (block : list Z) : list Z :=
  let ws := rev (schedule 48 (rev (map be_int (chunks 16 4 block)))) in
  zip_with (fun x y => word (x + y)) hs (foldl round hs (zip round_constants ws)).

(** [sha256.Sum256] *)
Definition sha256 (s : string) : list Z :=
  let p := padded (string_bytes s) in
  let hs := foldl compress initial_hash (chunks (S (length p / 64)) 64 p) in
  concat (map (be_bytes 4) hs).

Arguments sha256 : simpl never.

Example sha256_abc :
  hex_encode (sha256 "abc") = "ba7816bf8f01cfea414140de5dae2223b00361a396177a9cb410ff61f20015ad".
Proof. vm_compute. reflexivity. Qed.

Example sha256_two_blocks :
  hex_encode (sha256 "abcdbcdecdefdefgefghfghighijhijkijkljklmklmnlmnomnopnopq") =
  "248d6a61d20638b8e5c026930c3e6039a33ce45964ff2167f6ecedd419db06c1".
Proof. vm_compute. reflexivity. Qed.
