(* ===== verification/Domain.v ===== *)
(** * Domain: the structs of the service and the meaning of their gorm tags

    One record per struct of [internal/modules/*/domain], with the fields in
    the source's order.  [Model] says what the struct's gorm tags ask of the
    database: the defaults filled in by an insert, the automatic update time,
    and which rows collide on the primary key or a unique index.  A
    [uuid.UUID] is a [16]byte array, here the number it spells; its text form
    belongs to the package [google/uuid], the class [Uuid]. *)

From stdpp Require Import base list strings numbers.
From Stdlib Require Import ZArith Lia.
From S2P Require Import Prelude GoStrings GoTime.
Open Scope Z_scope.

Abbreviation UUID := N (only parsing).

Class Uuid := {
  uuid_String : UUID -> string;
  uuid_Parse : string -> result UUID;
  (** how PostgreSQL compares a column of type uuid with a text: by value, so
      that the case of the digits does not matter *)
  uuid_column_eq : string -> string -> bool;
}.

(** ** Identity *)
Abbreviation RoleCode := string (only parsing).
Definition RoleCodeAdmin : RoleCode := "ADMIN".
Definition RoleCodeUser : RoleCode := "USER".

Record User := mkUser {
  user_ID : Z;
  user_CreatedAt : Time;
  user_UpdatedAt : Time;
  user_DeletedAt : option Time;
  user_Email : string;
  user_Password : string;
  user_RoleCode : RoleCode;
}.

Record AuthSession := mkAuthSession {
  session_ID : UUID;
  session_UserID : Z;
  session_ExpiresAt : Time;
  session_LastUsedAt : option Time;
  session_RevokedAt : option Time;
  session_IPAddress : string;
  session_UserAgent : string;
  session_CreatedAt : Time;
  session_UpdatedAt : Time;
}.

Record RefreshToken := mkRefreshToken {
  token_ID : UUID;
  token_SessionID : UUID;
  token_UserID : Z;
  token_TokenHash : string;
  token_ExpiresAt : Time;
  token_RevokedAt : option Time;
  token_ReplacedBy : option UUID;
  token_CreatedAt : Time;
  token_UpdatedAt : Time;
}.

(** ** Server management *)
Abbreviation ServerStatus := string (only parsing).
Definition ServerStatusOnline : ServerStatus := "ONLINE".
Definition ServerStatusOffline : ServerStatus := "OFFLINE".

Definition ServerStatus_IsValid (s : ServerStatus) : bool :=
  String.eqb s ServerStatusOnline || String.eqb s ServerStatusOffline.

Record Server := mkServer {
  server_ServerID : string;
  server_ServerName : string;
  server_IPv4 : string;
  server_CurrentStatus : ServerStatus;
  server_ConsecutiveFailures : Z;
  server_CreatedAt : Time;
  server_UpdatedAt : Time;
}.

(** ** Reporting *)
Definition ReportStatusPending : string := "PENDING".
Definition ReportStatusProcessing : string := "PROCESSING".
Definition ReportStatusCompleted : string := "COMPLETED".
Definition ReportStatusFailed : string := "FAILED".

Record ReportRequest := mkReportRequest {
  report_ID : UUID;
  report_RequestorEmail : string;
  report_StartTime : Time;
  report_EndTime : Time;
  report_Status : string;
  report_CorrelationID : string;
  report_CreatedAt : Time;
  report_UpdatedAt : Time;
}.

(** ** Monitoring *)
Record ServerState := mkServerState {
  state_Status : string;
  state_RetryCount : Z;
}.

Record ObservationLog := mkObservationLog {
  obs_ServerID : string;
  obs_IsSuccess : bool;
  obs_Timestamp : Time;
}.

#[export] Instance User_eq_dec : EqDecision User.
Proof. solve_decision. Defined.
#[export] Instance AuthSession_eq_dec : EqDecision AuthSession.
Proof. solve_decision. Defined.
#[export] Instance RefreshToken_eq_dec : EqDecision RefreshToken.
Proof. solve_decision. Defined.
#[export] Instance Server_eq_dec : EqDecision Server.
Proof. solve_decision. Defined.
#[export] Instance ReportRequest_eq_dec : EqDecision ReportRequest.
Proof. solve_decision. Defined.

(** ** The gorm tags *)

(** [with_defaults now gen serial r]: the row an insert of [r] stores, where
    [gen] is the value of [gen_random_uuid()] and [serial] the next value of
    an auto-increment key.  A field with a default takes it when it holds its
    zero value.  [touched now r]: the row after an update, whose [UpdatedAt]
    is set.  [clash r s]: the primary key or a unique index forbids both.
    [fits r]: every value is within the length or width its column declares. *)
Class Model (Row : Type) := {
  with_defaults : Time -> UUID -> Z -> Row -> Row;
  touched : Time -> Row -> Row;
  clash : Row -> Row -> bool;
  fits : Row -> bool;
}.

(** The length of a text in characters: the bytes of its UTF-8 form that do not
    continue a character. *)
Fixpoint char_count (s : string) : Z :=
  match s with
  | EmptyString => 0
  | String c s' => (if (128 <=? byte_val c) && (byte_val c <? 192) then 0 else 1) + char_count s'
  end.

Definition default_time (now t : Time) : Time := if IsZero t then now else t.
Definition default_uuid (gen id : UUID) : UUID := if N.eqb id 0 then gen else id.
Definition default_string (d s : string) : string := if String.eqb s "" then d else s.

#[export] Instance User_Model : Model User := {|
  with_defaults now _ serial u :=
    mkUser (if user_ID u =? 0 then serial else user_ID u)
      (default_time now (user_CreatedAt u)) (default_time now (user_UpdatedAt u))
      (user_DeletedAt u) (user_Email u) (user_Password u) (user_RoleCode u);
  touched now u :=
    mkUser (user_ID u) (user_CreatedAt u) now (user_DeletedAt u) (user_Email u)
      (user_Password u) (user_RoleCode u);
  clash u v := (user_ID u =? user_ID v) || String.eqb (user_Email u) (user_Email v);
  fits u := (char_count (user_Email u) <=? 255) && (char_count (user_RoleCode u) <=? 50);
|}.

#[export] Instance AuthSession_Model : Model AuthSession := {|
  with_defaults now gen _ s :=
    mkAuthSession (default_uuid gen (session_ID s)) (session_UserID s) (session_ExpiresAt s)
      (session_LastUsedAt s) (session_RevokedAt s) (session_IPAddress s)
      (session_UserAgent s) (default_time now (session_CreatedAt s))
      (default_time now (session_UpdatedAt s));
  touched now s :=
    mkAuthSession (session_ID s) (session_UserID s) (session_ExpiresAt s)
      (session_LastUsedAt s) (session_RevokedAt s) (session_IPAddress s)
      (session_UserAgent s) (session_CreatedAt s) now;
  clash s t := N.eqb (session_ID s) (session_ID t);
  fits s := char_count (session_IPAddress s) <=? 45;
|}.

#[export] Instance RefreshToken_Model : Model RefreshToken := {|
  with_defaults now gen _ t :=
    mkRefreshToken (default_uuid gen (token_ID t)) (token_SessionID t) (token_UserID t)
      (token_TokenHash t) (token_ExpiresAt t) (token_RevokedAt t) (token_ReplacedBy t)
      (default_time now (token_CreatedAt t)) (default_time now (token_UpdatedAt t));
  touched now t :=
    mkRefreshToken (token_ID t) (token_SessionID t) (token_UserID t) (token_TokenHash t)
      (token_ExpiresAt t) (token_RevokedAt t) (token_ReplacedBy t) (token_CreatedAt t) now;
  clash t u := N.eqb (token_ID t) (token_ID u)
               || String.eqb (token_TokenHash t) (token_TokenHash u);
  fits _ := true;
|}.

#[export] Instance Server_Model `{Uuid} : Model Server := {|
  with_defaults now gen _ s :=
    mkServer (default_string (uuid_String gen) (server_ServerID s)) (server_ServerName s)
      (server_IPv4 s) (default_string ServerStatusOnline (server_CurrentStatus s))
      (server_ConsecutiveFailures s) (default_time now (server_CreatedAt s))
      (default_time now (server_UpdatedAt s));
  touched now s :=
    mkServer (server_ServerID s) (server_ServerName s) (server_IPv4 s)
      (server_CurrentStatus s) (server_ConsecutiveFailures s) (server_CreatedAt s) now;
  clash s t := uuid_column_eq (server_ServerID s) (server_ServerID t)
               || String.eqb (server_ServerName s) (server_ServerName t)
               || String.eqb (server_IPv4 s) (server_IPv4 t);
  fits s := (char_count (server_ServerName s) <=? 255) && (char_count (server_IPv4 s) <=? 15)
            && (char_count (server_CurrentStatus s) <=? 20)
            && (int32 (server_ConsecutiveFailures s) =? server_ConsecutiveFailures s);
|}.

#[export] Instance ReportRequest_Model : Model ReportRequest := {|
  with_defaults now _ _ r :=
    mkReportRequest (report_ID r) (report_RequestorEmail r) (report_StartTime r)
      (report_EndTime r) (report_Status r) (report_CorrelationID r)
      (default_time now (report_CreatedAt r)) (default_time now (report_UpdatedAt r));
  touched now r :=
    mkReportRequest (report_ID r) (report_RequestorEmail r) (report_StartTime r)
      (report_EndTime r) (report_Status r) (report_CorrelationID r)
      (report_CreatedAt r) now;
  clash r s := N.eqb (report_ID r) (report_ID s);
  fits r := (char_count (report_RequestorEmail r) <=? 255) && (char_count (report_Status r) <=? 50)
            && (char_count (report_CorrelationID r) <=? 255);
|}.
