(* ===== verification/Env.v ===== *)
(** * Env: the code outside the repository, as an interface with laws

    The service runs on packages and servers whose code is not in the
    repository: gorm and PostgreSQL, go-redis and Redis, google/uuid,
    golang-jwt, bcrypt, the Unicode and time zone tables.  The class [Env]
    lists the calls the service makes to them; the class [EnvLaws] states the
    documented behaviour of those calls the theorems rely on.  Every
    definition of the development takes an [Env]; a theorem that needs a law
    takes an [EnvLaws].  [MemEnv] builds one instance of both.

    [World] is the state of one deployment: the tables of the PostgreSQL
    database, the Redis server, the clock, the source of identifiers, and the
    channels that connect the goroutines.

    Two simplifications of the database: a time is stored to the nanosecond,
    where a column of PostgreSQL keeps microseconds, and a text that is not the
    text of a uuid equals no uuid column, where PostgreSQL refuses the
    statement.  (The requests that carry an identifier are validated to hold a
    uuid; every other identifier is one the service stored.) *)

From stdpp Require Import base list strings gmap numbers sorting.
From Stdlib Require Import ZArith Lia.
From S2P Require Import Prelude GoStrings GoTime Domain.
Open Scope Z_scope.

(** ** gorm and PostgreSQL *)
Definition ErrRecordNotFound : error := Sentinel "gorm.ErrRecordNotFound" "record not found".

(** An [ORDER BY] clause: its raw text and what the database makes of it, the
    comparison "may stand before" of two rows, or nothing when it rejects the
    text (an unknown column, a syntax error).  A text that does not order rows
    by their columns, say [random()], is the comparison that always holds. *)
Record OrderBy (Row : Type) := mkOrderBy {
  order_text : string;
  order_le : option (Row -> Row -> bool);
}.
Arguments mkOrderBy {Row}.
Arguments order_text {Row}.
Arguments order_le {Row}.

(** A [SELECT]: the condition, the [ORDER BY] clause, offset and limit. *)
Record Query (Row : Type) := mkQuery {
  q_where : Row -> bool;
  q_order : option (OrderBy Row);
  q_offset : option Z;
  q_limit : option Z;
}.
Arguments mkQuery {Row}.
Arguments q_where {Row}.
Arguments q_order {Row}.
Arguments q_offset {Row}.
Arguments q_limit {Row}.

Definition select_where {Row} (p : Row -> bool) : Query Row := mkQuery p None None None.

(** gorm applies an offset only when it is positive and a limit only when it
    is not negative. *)
Definition window {Row} (q : Query Row) (l : list Row) : list Row :=
  let l1 := match q_offset q with
            | Some o => if 0 <? o then drop (Z.to_nat o) l else l
            | None => l
            end in
  match q_limit q with
  | Some n => if 0 <=? n then take (Z.to_nat n) l1 else l1
  | None => l1
  end.

Class Gorm (T : Type -> Type) := {
  gorm_Create : forall {Row} {Md : Model Row}, list Row -> T Row -> T Row * result (list Row);
  gorm_First : forall {Row} {Md : Model Row}, (Row -> bool) -> T Row -> T Row * result Row;
  gorm_Find : forall {Row} {Md : Model Row}, Query Row -> T Row -> T Row * result (list Row);
  gorm_Count : forall {Row} {Md : Model Row}, (Row -> bool) -> T Row -> T Row * result Z;
  (** [Where(p).Updates(f)]: the number of rows affected and the update time
      gorm stamps on the rows and on the model *)
  gorm_Updates : forall {Row} {Md : Model Row},
    (Row -> bool) -> (Row -> Row) -> T Row -> T Row * result (Z * Time);
  gorm_Delete : forall {Row} {Md : Model Row}, (Row -> bool) -> T Row -> T Row * result Z;
  (** [column ILIKE pattern] *)
  sql_ilike : string -> string -> bool;
  (** [ORDER BY text] on the table [servers] *)
  servers_order : string -> option (Server -> Server -> bool);
}.

(** The database accepts the ORDER BY clause of a query, if it has one. *)
Definition order_ok {Row} (q : Query Row) : bool :=
  match q_order q with
  | Some o => match order_le o with Some _ => true | None => false end
  | None => true
  end.

(** A list is in the order a query asks for. *)
Definition ordered {Row} (q : Query Row) (l : list Row) : Prop :=
  forall o le, q_order q = Some o -> order_le o = Some le -> StronglySorted (fun a b => le a b = true) l.

(** What an ORDER BY clause compares: any two rows, and transitively. *)
Definition preorder_on {Row} (le : Row -> Row -> bool) : Prop :=
  (forall a b, le a b = true \/ le b a = true) /\
  (forall a b c, le a b = true -> le b c = true -> le a c = true).
Definition orders_rows {Row} (q : Query Row) : Prop :=
  forall o le, q_order q = Some o -> order_le o = Some le -> preorder_on le.

(** No two rows share a primary key or a unique index entry. *)
Definition NoClash {Row} `{Model Row} (l : list Row) : Prop :=
  forall i j r s, l !! i = Some r -> l !! j = Some s -> i <> j -> clash r s = false.

Definition inserted {Row} `{Model Row} (rs rs' : list Row) : Prop :=
  Forall2 (fun r r' => exists now gen serial, r' = with_defaults now gen serial r) rs rs'.

Definition update_rows {Row} `{Model Row} (p : Row -> bool) (f : Row -> Row) (now : Time)
  (l : list Row) : list Row :=
  map (fun r => if p r then touched now (f r) else r) l.

(** The rows are within the lengths their columns declare; an update leaves
    every row it writes so that was so before. *)
Definition all_fit {Row} `{Model Row} (l : list Row) : Prop := Forall (fun r => fits r = true) l.
Definition stays_fit {Row} `{Model Row} (p : Row -> bool) (f : Row -> Row) (now : Time) (l : list Row) : Prop :=
  forall r, r ∈ l -> p r = true -> fits r = true -> fits (touched now (f r)) = true.

Definition count_rows {Row} (p : Row -> bool) (l : list Row) : Z :=
  Z.of_nat (length (List.filter p l)).

Class GormLaws (T : Type -> Type) {G : Gorm T} := {
  rows : forall {Row}, T Row -> list Row;
  (** the database answers: every statement is executed *)
  table_up : forall {Row}, T Row -> Prop;
  gorm_First_frame : forall {Row} {Md : Model Row} p (t : T Row),
    rows (gorm_First p t).1 = rows t /\ (table_up t -> table_up (gorm_First p t).1);
  gorm_First_spec : forall {Row} {Md : Model Row} p (t : T Row),
    match (gorm_First p t).2 with
    | Ok r => r ∈ rows t /\ p r = true
    | Err e => (errors_Is e ErrRecordNotFound = true -> forall r, r ∈ rows t -> p r = false) /\
               (table_up t -> e = ErrRecordNotFound)
    end;
  gorm_Find_spec : forall {Row} {Md : Model Row} q (t : T Row),
    rows (gorm_Find q t).1 = rows t /\ (table_up t -> table_up (gorm_Find q t).1) /\
    match (gorm_Find q t).2 with
    | Ok l => order_ok q = true /\
              exists s, s ≡ₚ List.filter (q_where q) (rows t) /\ (orders_rows q -> ordered q s) /\ l = window q s
    | Err _ => table_up t -> order_ok q = false
    end;
  gorm_Count_spec : forall {Row} {Md : Model Row} p (t : T Row),
    rows (gorm_Count p t).1 = rows t /\ (table_up t -> table_up (gorm_Count p t).1) /\
    match (gorm_Count p t).2 with
    | Ok n => n = count_rows p (rows t)
    | Err _ => ~ table_up t
    end;
  gorm_Create_spec : forall {Row} {Md : Model Row} rs (t : T Row),
    (table_up t -> table_up (gorm_Create rs t).1) /\
    match (gorm_Create rs t).2 with
    | Ok rs' => inserted rs rs' /\ rows (gorm_Create rs t).1 = rows t ++ rs' /\
                (NoClash (rows t) -> NoClash (rows t ++ rs')) /\ all_fit rs'
    | Err _ => rows (gorm_Create rs t).1 = rows t /\
               (table_up t -> exists rs', inserted rs rs' /\ ~ (NoClash (rows t ++ rs') /\ all_fit rs'))
    end;
  gorm_Updates_spec : forall {Row} {Md : Model Row} p f (t : T Row),
    (table_up t -> table_up (gorm_Updates p f t).1) /\
    match (gorm_Updates p f t).2 with
    | Ok (n, now) => n = count_rows p (rows t) /\
              rows (gorm_Updates p f t).1 = update_rows p f now (rows t) /\
              (NoClash (rows t) -> NoClash (update_rows p f now (rows t)))
    | Err _ => rows (gorm_Updates p f t).1 = rows t /\
               (table_up t -> exists now, ~ (NoClash (update_rows p f now (rows t)) /\
                                        stays_fit p f now (rows t)))
    end;
  gorm_Delete_spec : forall {Row} {Md : Model Row} p (t : T Row),
    (table_up t -> table_up (gorm_Delete p t).1) /\
    match (gorm_Delete p t).2 with
    | Ok n => n = count_rows p (rows t) /\
              rows (gorm_Delete p t).1 = List.filter (fun r => negb (p r)) (rows t)
    | Err _ => rows (gorm_Delete p t).1 = rows t /\ ~ table_up t
    end;
  servers_order_preorder : forall text le, servers_order text = Some le -> preorder_on le;
  servers_order_created : servers_order "created_at desc"
    = Some (fun a b => server_CreatedAt b <=? server_CreatedAt a);
}.

(** ** Redis *)
Definition RedisNil : error := Sentinel "redis.Nil" "redis: nil".

(** What Redis holds: hashes, sets, and strings with their expiry. *)
Record RedisData := mkRedisData {
  rd_hashes : gmap string (gmap string string);
  rd_sets : gmap string (gset string);
  rd_strings : gmap string (string * Time);
}.

(** The commands the service issues, on data. *)
Inductive RedisCmd :=
| HSET (key : string) (fields : list (string * string))
| SADD (key member : string)
| SREM (key member : string)
| DEL (key : string)
| SETEX (key value : string) (expires : Time).

Definition hash_of (d : RedisData) (key : string) : gmap string string :=
  default ∅ (rd_hashes d !! key).
Definition set_of (d : RedisData) (key : string) : gset string :=
  default ∅ (rd_sets d !! key).
(** A key with a string value that has not expired at [now]. *)
Definition live_string (d : RedisData) (now : Time) (key : string) : option string :=
  match rd_strings d !! key with
  | Some (v, e) => if now <? e then Some v else None
  | None => None
  end.

Definition exec_cmd (c : RedisCmd) (d : RedisData) : RedisData :=
  match c with
  | HSET k fs => mkRedisData (<[k := list_to_map fs ∪ hash_of d k]> (rd_hashes d))
                   (rd_sets d) (rd_strings d)
  | SADD k m => mkRedisData (rd_hashes d) (<[k := {[m]} ∪ set_of d k]> (rd_sets d)) (rd_strings d)
  | SREM k m => mkRedisData (rd_hashes d) (<[k := set_of d k ∖ {[m]}]> (rd_sets d)) (rd_strings d)
  | DEL k => mkRedisData (delete k (rd_hashes d)) (delete k (rd_sets d)) (delete k (rd_strings d))
  | SETEX k v e => mkRedisData (rd_hashes d) (rd_sets d) (<[k := (v, e)]> (rd_strings d))
  end.

Class Redis (R : Type) := {
  (** a pipeline; a single command is a pipeline of one *)
  redis_Exec : list RedisCmd -> R -> R * result ();
  redis_HGet : string -> string -> R -> R * result string;
  redis_HGetAll : string -> R -> R * result (gmap string string);
  redis_SMembers : string -> R -> R * result (list string);
  redis_Exists : Time -> string -> R -> R * result Z;
  (** [SetNX(key, value, expiration)], executed at an instant *)
  redis_SetNX : Time -> string -> string -> Duration -> R -> R * result bool;
}.

Class RedisLaws (R : Type) {D : Redis R} := {
  data : R -> RedisData;
  redis_up : R -> Prop;
  redis_Exec_spec : forall cs r,
    (redis_up r -> redis_up (redis_Exec cs r).1) /\
    match (redis_Exec cs r).2 with
    | Ok _ => data (redis_Exec cs r).1 = foldl (fun d c => exec_cmd c d) (data r) cs
    | Err _ => ~ redis_up r
    end;
  redis_HGet_spec : forall k f r,
    data (redis_HGet k f r).1 = data r /\ (redis_up r -> redis_up (redis_HGet k f r).1) /\
    match (redis_HGet k f r).2 with
    | Ok v => hash_of (data r) k !! f = Some v
    | Err e => (e = RedisNil -> hash_of (data r) k !! f = None) /\ (redis_up r -> e = RedisNil)
    end;
  redis_HGetAll_spec : forall k r,
    data (redis_HGetAll k r).1 = data r /\ (redis_up r -> redis_up (redis_HGetAll k r).1) /\
    match (redis_HGetAll k r).2 with
    | Ok m => m = hash_of (data r) k
    | Err _ => ~ redis_up r
    end;
  redis_SMembers_spec : forall k r,
    data (redis_SMembers k r).1 = data r /\ (redis_up r -> redis_up (redis_SMembers k r).1) /\
    match (redis_SMembers k r).2 with
    | Ok l => NoDup l /\ (forall x, x ∈ l <-> x ∈ set_of (data r) k)
    | Err _ => ~ redis_up r
    end;
  redis_Exists_spec : forall now k r,
    data (redis_Exists now k r).1 = data r /\ (redis_up r -> redis_up (redis_Exists now k r).1) /\
    match (redis_Exists now k r).2 with
    | Ok n => (is_Some (live_string (data r) now k) -> n = 1) /\
              (live_string (data r) now k = None -> rd_hashes (data r) !! k = None ->
               rd_sets (data r) !! k = None -> n = 0)
    | Err _ => ~ redis_up r
    end;
  (** for the durations the commands EX and PX express; 0 means no expiry *)
  redis_SetNX_spec : forall now k v d r, 0 < d -> d mod Millisecond = 0 ->
    (redis_up r -> redis_up (redis_SetNX now k v d r).1) /\
    match (redis_SetNX now k v d r).2 with
    | Ok true => live_string (data r) now k = None /\
                 data (redis_SetNX now k v d r).1 = exec_cmd (SETEX k v (now + d)) (data r)
    | Ok false => data (redis_SetNX now k v d r).1 = data r /\
                  (is_Some (live_string (data r) now k) \/
                   is_Some (rd_hashes (data r) !! k) \/ is_Some (rd_sets (data r) !! k))
    | Err _ => ~ redis_up r
    end;
}.

(** The Go interface value [redis.UniversalClient]: nil, a nil [*redis.Client]
    stored in the interface (which compares unequal to nil), or a client. *)
Inductive UniversalClient :=
| NilInterface
| TypedNilClient
| LiveClient.

(** [c == nil] for an interface value. *)
Definition iface_is_nil (c : UniversalClient) : bool :=
  match c with NilInterface => true | _ => false end.

(** ** golang-jwt and bcrypt *)
Record Claims := mkClaims {
  claims_UserID : string;
  claims_SessionID : string;
  claims_Username : string;
  claims_Email : string;
  claims_RoleID : string;
  claims_RoleCode : RoleCode;
  claims_Exp : Z;   (* seconds since the Unix epoch *)
  claims_Iat : Z;
}.

Class Jwt := {
  (** [NewWithClaims(HS256, c).SignedString(secret)] *)
  jwt_sign : string -> Claims -> result string;
  (** [ParseWithClaims] with the HS256 method and this secret, at an instant *)
  jwt_parse : string -> Time -> string -> result Claims;
}.

(** Seconds from year 1 to the Unix epoch, [t.Unix()]. *)
Definition unix_epoch : Z := 62135596800.
Definition time_Unix (t : Time) : Z := t / Second - unix_epoch.

Class JwtLaws `{Jwt} := {
  jwt_parse_sign : forall secret c tok now,
    jwt_sign secret c = Ok tok -> now < (claims_Exp c + unix_epoch) * Second ->
    jwt_parse secret now tok = Ok c;
  jwt_parse_expired : forall secret c tok now,
    jwt_parse secret now tok = Ok c -> now < (claims_Exp c + unix_epoch) * Second;
}.

Class Bcrypt := {
  (** [CompareHashAndPassword(hash, password) == nil] *)
  bcrypt_matches : string -> string -> bool;
  (** the hash [GenerateFromPassword(password, DefaultCost)] makes, given random bytes *)
  bcrypt_hash : N -> string -> string;
}.

(** A hash matches the password, of at most 72 bytes, it was made of; the empty
    text is no hash. *)
Class BcryptLaws `{Bcrypt} := {
  bcrypt_matches_hash : forall salt pw, (String.length pw <= 72)%nat -> bcrypt_matches (bcrypt_hash salt pw) pw = true;
  bcrypt_matches_empty : forall pw, bcrypt_matches "" pw = false;
}.

(** Offset of the local time zone, in seconds east of UTC, at an instant. *)
Class Zone := { local_offset : Time -> Z }.

(** ** Everything together *)
Class Env := {
  Table : Type -> Type;
  RedisServer : Type;
  env_gorm :: Gorm Table;
  env_redis :: Redis RedisServer;
  env_uuid :: Uuid;
  env_jwt :: Jwt;
  env_bcrypt :: Bcrypt;
  env_unicode :: Unicode;
  env_zone :: Zone;
}.

Class UuidLaws `{Uuid} := {
  uuid_Parse_String : forall u, uuid_Parse (uuid_String u) = Ok u;
  uuid_column_String : forall u v, uuid_column_eq (uuid_String u) (uuid_String v) = true -> u = v;
  uuid_column_refl : forall a, uuid_column_eq a a = true;
  uuid_column_sym : forall a b, uuid_column_eq a b = uuid_column_eq b a;
  uuid_column_trans : forall a b c,
    uuid_column_eq a b = true -> uuid_column_eq b c = true -> uuid_column_eq a c = true;
}.

Class EnvLaws (E : Env) := {
  laws_gorm :: GormLaws Table;
  laws_redis :: RedisLaws RedisServer;
  laws_uuid :: UuidLaws;
  laws_jwt :: JwtLaws;
  laws_bcrypt :: BcryptLaws;
}.

(** ** The state of a deployment *)
Record World `{Env} := mkWorld {
  w_users : Table User;
  w_sessions : Table AuthSession;
  w_tokens : Table RefreshToken;
  w_servers : Table Server;
  w_reports : Table ReportRequest;
  w_redis : RedisServer;
  w_clock : nat -> Time;      (* the readings of the clock, in order *)
  w_ticks : nat;              (* how many have been read *)
  w_uuids : nat -> UUID;      (* the identifiers uuid.New() yields, in order *)
  w_drawn : nat;              (* how many have been drawn *)
  w_random : nat -> result (list Z);      (* the outcomes of crypto/rand.Read, in order *)
  w_reads : nat;              (* how many have been read *)
  w_observations : Chan ObservationLog;   (* bufferedLogger.ch *)
  w_jobs : Chan ReportRequest;            (* reportingWorkerImpl.jobQueue *)
  w_headers : list (string * string);     (* grpc.SetHeader, in order *)
}.

Section World.
Context `{E : Env}.

Definition set_users (t : Table User) (w : World) : World :=
  mkWorld _ t (w_sessions w) (w_tokens w) (w_servers w) (w_reports w) (w_redis w) (w_clock w)
    (w_ticks w) (w_uuids w) (w_drawn w) (w_random w) (w_reads w) (w_observations w) (w_jobs w) (w_headers w).
Definition set_sessions (t : Table AuthSession) (w : World) : World :=
  mkWorld _ (w_users w) t (w_tokens w) (w_servers w) (w_reports w) (w_redis w) (w_clock w)
    (w_ticks w) (w_uuids w) (w_drawn w) (w_random w) (w_reads w) (w_observations w) (w_jobs w) (w_headers w).
Definition set_tokens (t : Table RefreshToken) (w : World) : World :=
  mkWorld _ (w_users w) (w_sessions w) t (w_servers w) (w_reports w) (w_redis w) (w_clock w)
    (w_ticks w) (w_uuids w) (w_drawn w) (w_random w) (w_reads w) (w_observations w) (w_jobs w) (w_headers w).
Definition set_servers (t : Table Server) (w : World) : World :=
  mkWorld _ (w_users w) (w_sessions w) (w_tokens w) t (w_reports w) (w_redis w) (w_clock w)
    (w_ticks w) (w_uuids w) (w_drawn w) (w_random w) (w_reads w) (w_observations w) (w_jobs w) (w_headers w).
Definition set_reports (t : Table ReportRequest) (w : World) : World :=
  mkWorld _ (w_users w) (w_sessions w) (w_tokens w) (w_servers w) t (w_redis w) (w_clock w)
    (w_ticks w) (w_uuids w) (w_drawn w) (w_random w) (w_reads w) (w_observations w) (w_jobs w) (w_headers w).
Definition set_redis (r : RedisServer) (w : World) : World :=
  mkWorld _ (w_users w) (w_sessions w) (w_tokens w) (w_servers w) (w_reports w) r (w_clock w)
    (w_ticks w) (w_uuids w) (w_drawn w) (w_random w) (w_reads w) (w_observations w) (w_jobs w) (w_headers w).
Definition set_ticks (n : nat) (w : World) : World :=
  mkWorld _ (w_users w) (w_sessions w) (w_tokens w) (w_servers w) (w_reports w) (w_redis w)
    (w_clock w) n (w_uuids w) (w_drawn w) (w_random w) (w_reads w) (w_observations w) (w_jobs w) (w_headers w).
Definition set_drawn (n : nat) (w : World) : World :=
  mkWorld _ (w_users w) (w_sessions w) (w_tokens w) (w_servers w) (w_reports w) (w_redis w)
    (w_clock w) (w_ticks w) (w_uuids w) n (w_random w) (w_reads w) (w_observations w) (w_jobs w) (w_headers w).
Definition set_reads (n : nat) (w : World) : World :=
  mkWorld _ (w_users w) (w_sessions w) (w_tokens w) (w_servers w) (w_reports w) (w_redis w)
    (w_clock w) (w_ticks w) (w_uuids w) (w_drawn w) (w_random w) n (w_observations w) (w_jobs w)
    (w_headers w).
Definition set_observations (c : Chan ObservationLog) (w : World) : World :=
  mkWorld _ (w_users w) (w_sessions w) (w_tokens w) (w_servers w) (w_reports w) (w_redis w)
    (w_clock w) (w_ticks w) (w_uuids w) (w_drawn w) (w_random w) (w_reads w) c (w_jobs w) (w_headers w).
Definition set_jobs (c : Chan ReportRequest) (w : World) : World :=
  mkWorld _ (w_users w) (w_sessions w) (w_tokens w) (w_servers w) (w_reports w) (w_redis w)
    (w_clock w) (w_ticks w) (w_uuids w) (w_drawn w) (w_random w) (w_reads w) (w_observations w) c (w_headers w).
Definition set_headers (h : list (string * string)) (w : World) : World :=
  mkWorld _ (w_users w) (w_sessions w) (w_tokens w) (w_servers w) (w_reports w) (w_redis w)
    (w_clock w) (w_ticks w) (w_uuids w) (w_drawn w) (w_random w) (w_reads w) (w_observations w) (w_jobs w) h.

(** Running a statement on one store of the world. *)
Definition on {S A} (get : World -> S) (set : S -> World -> World) (op : S -> S * A) : M World A :=
  fun w => let '(s, a) := op (get w) in (set s w, Done a).

Definition db_users {A} (op : Table User -> Table User * A) : M World A := on w_users set_users op.
Definition db_sessions {A} (op : Table AuthSession -> Table AuthSession * A) : M World A :=
  on w_sessions set_sessions op.
Definition db_tokens {A} (op : Table RefreshToken -> Table RefreshToken * A) : M World A :=
  on w_tokens set_tokens op.
Definition db_servers {A} (op : Table Server -> Table Server * A) : M World A :=
  on w_servers set_servers op.
Definition db_reports {A} (op : Table ReportRequest -> Table ReportRequest * A) : M World A :=
  on w_reports set_reports op.

(** A call on a [redis.UniversalClient]: calling a method of a nil client,
    whether the interface or the pointer in it is nil, panics. *)
Definition redis_call {A} (c : UniversalClient) (op : RedisServer -> RedisServer * A) : M World A :=
  match c with
  | LiveClient => on w_redis set_redis op
  | NilInterface | TypedNilClient => panic
  end.

(** [time.Now()] *)
Definition time_Now : M World Time :=
  fun w => (set_ticks (S (w_ticks w)) w, Done (w_clock w (w_ticks w))).

(** [uuid.New()] *)
Definition uuid_New : M World UUID :=
  fun w => (set_drawn (S (w_drawn w)) w, Done (w_uuids w (w_drawn w))).

(** [rand.Read(b)] *)
Definition rand_Read : M World (result (list Z)) :=
  fun w => (set_reads (S (w_reads w)) w, Done (w_random w (w_reads w))).

(** [grpc.SetHeader(ctx, metadata.Pairs(...))], the error ignored *)
Definition grpc_SetHeader (pairs : list (string * string)) : M World () :=
  modify (fun w => set_headers (w_headers w ++ pairs) w).

End World.

Lemma on_Done `{E : Env} {S A} (get : World -> S) set (op : S -> S * A) w w' a :
  on get set op w = (w', Done a) -> w' = set (op (get w)).1 w /\ a = (op (get w)).2.
Proof. unfold on. destruct (op (get w)). by intros [= <- <-]. Qed.

(** ** Frames *)
Section Frames.
Context `{E : Env}.

(** Nothing but Redis and the position of the clock has moved. *)
Definition same_db (w w' : World) : Prop :=
  w_users w' = w_users w /\ w_sessions w' = w_sessions w /\ w_tokens w' = w_tokens w /\
  w_servers w' = w_servers w /\ w_reports w' = w_reports w /\
  w_clock w' = w_clock w /\ (w_ticks w <= w_ticks w')%nat.

#[export] Instance same_db_preorder : PreOrder same_db.
Proof.
  split.
  - intros w. unfold same_db. auto 8.
  - intros w1 w2 w3 (?&?&?&?&?&?&?) (?&?&?&?&?&?&?). unfold same_db. intuition (congruence || lia).
Qed.

End Frames.
#[export] Hint Extern 1 (same_db _ _) => unfold same_db; cbn; auto 8 with lia : go.

(** ** The laws as facts about the outcome of a statement *)
Section Outcomes.
Context {T : Type -> Type} {G : Gorm T} {GL : GormLaws T}.
Context {Row : Type} {Md : Model Row}.
Implicit Types (t : T Row) (p : Row -> bool).

Lemma First_outcome p t t' r :
  gorm_First p t = (t', r) ->
  rows t' = rows t /\ (table_up t -> table_up t') /\
  match r with
  | Ok x => x ∈ rows t /\ p x = true
  | Err e => (errors_Is e ErrRecordNotFound = true -> forall x, x ∈ rows t -> p x = false) /\
             (table_up t -> e = ErrRecordNotFound)
  end.
Proof.
  intros H. pose proof (gorm_First_frame p t) as [? ?]. pose proof (gorm_First_spec p t) as Hs.
  rewrite H in *. done.
Qed.

Lemma Find_outcome q t t' r :
  gorm_Find q t = (t', r) ->
  rows t' = rows t /\ (table_up t -> table_up t') /\
  match r with
  | Ok l => order_ok q = true /\
            exists s, s ≡ₚ List.filter (q_where q) (rows t) /\ (orders_rows q -> ordered q s) /\ l = window q s
  | Err _ => table_up t -> order_ok q = false
  end.
Proof. intros H. pose proof (gorm_Find_spec q t) as Hs. by rewrite H in Hs. Qed.

(** Without an ORDER BY clause and a window: the rows that match, in any
    order. *)
Lemma Find_where_outcome p t t' r :
  gorm_Find (select_where p) t = (t', r) ->
  rows t' = rows t /\ (table_up t -> table_up t') /\
  match r with
  | Ok l => l ≡ₚ List.filter p (rows t)
  | Err _ => ~ table_up t
  end.
Proof.
  intros (Hr & Hu & Hm)%Find_outcome. split; [done |]. split; [done |]. destruct r as [l|e].
  - by destruct Hm as (_ & s & Hs & _ & ->).
  - intros Hup. by specialize (Hm Hup).
Qed.

Lemma Count_outcome p t t' r :
  gorm_Count p t = (t', r) ->
  rows t' = rows t /\ (table_up t -> table_up t') /\
  match r with Ok n => n = count_rows p (rows t) | Err _ => ~ table_up t end.
Proof. intros H. pose proof (gorm_Count_spec p t) as Hs. by rewrite H in Hs. Qed.

Lemma Create_outcome rs t t' r :
  gorm_Create rs t = (t', r) ->
  (table_up t -> table_up t') /\
  match r with
  | Ok rs' => inserted rs rs' /\ rows t' = rows t ++ rs' /\
              (NoClash (rows t) -> NoClash (rows t ++ rs')) /\ all_fit rs'
  | Err _ => rows t' = rows t /\
             (table_up t -> exists rs', inserted rs rs' /\ ~ (NoClash (rows t ++ rs') /\ all_fit rs'))
  end.
Proof. intros H. pose proof (gorm_Create_spec rs t) as Hs. by rewrite H in Hs. Qed.

Lemma Updates_outcome p f t t' r :
  gorm_Updates p f t = (t', r) ->
  (table_up t -> table_up t') /\
  match r with
  | Ok (n, now) => n = count_rows p (rows t) /\
            rows t' = update_rows p f now (rows t) /\
            (NoClash (rows t) -> NoClash (update_rows p f now (rows t)))
  | Err _ => rows t' = rows t /\
             (table_up t -> exists now, ~ (NoClash (update_rows p f now (rows t)) /\
                                        stays_fit p f now (rows t)))
  end.
Proof. intros H. pose proof (gorm_Updates_spec p f t) as Hs. by rewrite H in Hs. Qed.

Lemma Delete_outcome p t t' r :
  gorm_Delete p t = (t', r) ->
  (table_up t -> table_up t') /\
  match r with
  | Ok n => n = count_rows p (rows t) /\ rows t' = List.filter (fun x => negb (p x)) (rows t)
  | Err _ => rows t' = rows t /\ ~ table_up t
  end.
Proof. intros H. pose proof (gorm_Delete_spec p t) as Hs. by rewrite H in Hs. Qed.

Lemma inserted_one r rs' :
  inserted [r] rs' -> exists now gen serial, rs' = [with_defaults now gen serial r].
Proof.
  unfold inserted. intros H. inversion H as [| ? ? ? ? (now & gen & serial & ->) Hn]; subst.
  inversion Hn; subst. eauto.
Qed.

(** Rows that share an index entry are the same row. *)
Lemma NoClash_elem (l : list Row) r s :
  NoClash l -> r ∈ l -> s ∈ l -> clash r s = true -> r = s.
Proof.
  intros HN [i Hi]%list_elem_of_lookup [j Hj]%list_elem_of_lookup Hc.
  destruct (decide (i = j)) as [->|Hij]; [congruence |].
  rewrite (HN i j r s Hi Hj Hij) in Hc. done.
Qed.

(** Rows of two parts of a list without clashes do not clash. *)
Lemma NoClash_apart (l k : list Row) r s :
  NoClash (l ++ k) -> r ∈ l -> s ∈ k -> clash r s = true -> False.
Proof.
  intros HN [i Hi]%list_elem_of_lookup [j Hj]%list_elem_of_lookup Hc.
  pose proof (lookup_lt_Some _ _ _ Hi).
  rewrite (HN i (length l + j)%nat r s) in Hc; [done | by apply lookup_app_l_Some | | lia].
  rewrite lookup_app_r by lia. by replace (length l + j - length l)%nat with j by lia.
Qed.

Lemma NoClash_prefix (l k : list Row) : NoClash (l ++ k) -> NoClash l.
Proof. intros HN i j r s Hi Hj. apply HN; by apply lookup_app_l_Some. Qed.

Lemma NoClash_suffix (l k : list Row) : NoClash (l ++ k) -> NoClash k.
Proof.
  intros HN i j r s Hi Hj Hij. apply (HN (length l + i)%nat (length l + j)%nat); [by rewrite lookup_app_r, Nat.add_comm, Nat.add_sub by lia.. | lia].
Qed.

Lemma NoClash_last (l : list Row) r x : NoClash (l ++ [r]) -> x ∈ l -> clash x r = false.
Proof.
  intros HN [i Hi]%list_elem_of_lookup. pose proof (lookup_lt_Some _ _ _ Hi) as Hlt.
  apply (HN i (length l)); [by apply lookup_app_l_Some | | lia].
  rewrite lookup_app_r, Nat.sub_diag by lia. done.
Qed.

Lemma NoClash_snoc (l : list Row) r :
  NoClash l -> (forall x, x ∈ l -> clash x r = false /\ clash r x = false) -> NoClash (l ++ [r]).
Proof.
  intros HN Hr i j a b Hi Hj Hij. apply lookup_app_Some in Hi as [Hi|[Hi0 Hi]], Hj as [Hj|[Hj0 Hj]].
  - by apply (HN i j).
  - apply list_lookup_singleton_Some in Hj as [? <-]. by apply Hr, (list_elem_of_lookup_2 _ i).
  - apply list_lookup_singleton_Some in Hi as [? <-]. by apply Hr, (list_elem_of_lookup_2 _ j).
  - apply list_lookup_singleton_Some in Hi as [? _], Hj as [? _]. lia.
Qed.

Lemma elem_of_update_rows p f now (l : list Row) x :
  x ∈ update_rows p f now l <->
  exists y, y ∈ l /\ x = if p y then touched now (f y) else y.
Proof.
  unfold update_rows. rewrite list_elem_of_In, List.in_map_iff.
  split; intros (y & H1 & H2); exists y; rewrite list_elem_of_In in *; auto.
Qed.

Lemma count_rows_zero p (l : list Row) x : count_rows p l = 0 -> x ∈ l -> p x = false.
Proof.
  unfold count_rows. intros H Hx. destruct (p x) eqn:E; [| done].
  assert (x ∈ List.filter p l) as Hin
    by (rewrite list_elem_of_In, List.filter_In, <- list_elem_of_In; done).
  destruct (List.filter p l); [by apply not_elem_of_nil in Hin | cbn in H; lia].
Qed.

Lemma filter_NoClash p (l : list Row) : NoClash l -> NoClash (List.filter p l).
Proof.
  induction l as [|r l IH]; intros HN; cbn; [done |].
  assert (NoClash l) as HNl by (intros i j a b Hi Hj Hij; apply (HN (S i) (S j)); [done | done | lia]).
  destruct (p r); [| auto]. intros i j a b Hi Hj Hij. specialize (IH HNl).
  assert (forall k x, List.filter p l !! k = Some x -> exists k', l !! k' = Some x) as Hk.
  { intros k x Hx. apply list_elem_of_lookup_2, list_elem_of_In, List.filter_In in Hx as [Hx _].
    by apply list_elem_of_lookup, list_elem_of_In. }
  destruct i as [|i], j as [|j]; cbn in Hi, Hj; simplify_eq.
  - destruct (Hk _ _ Hj) as [k Hk']. by apply (HN 0%nat (S k)).
  - destruct (Hk _ _ Hi) as [k Hk']. by apply (HN (S k) 0%nat).
  - apply (IH i j); [done | done | lia].
Qed.

Lemma count_rows_le p (l : list Row) : 0 <= count_rows p l <= Z.of_nat (length l).
Proof.
  unfold count_rows. pose proof (List.filter_length_le p l). lia.
Qed.

Lemma elem_of_window (q : Query Row) l x : x ∈ window q l -> x ∈ l.
Proof.
  unfold window. intros Hx.
  assert (forall n (k : list Row), x ∈ take n k -> x ∈ k) as Ht
    by (intros n k H; rewrite <- (take_drop n k); apply elem_of_app; by left).
  assert (forall n (k : list Row), x ∈ drop n k -> x ∈ k) as Hd
    by (intros n k H; rewrite <- (take_drop n k); apply elem_of_app; by right).
  destruct (q_limit q) as [n|], (q_offset q) as [o|]; try destruct (0 <=? n); try destruct (0 <? o); eauto.
Qed.

Lemma window_length (q : Query Row) l n :
  q_limit q = Some n -> 0 <= n -> (length (window q l) <= Z.to_nat n)%nat.
Proof.
  intros Hq Hn. unfold window. rewrite Hq. destruct (Z.leb_spec 0 n); [| lia]. rewrite length_take. lia.
Qed.

Lemma update_rows_none p f now (l : list Row) : count_rows p l = 0 -> update_rows p f now l = l.
Proof.
  unfold count_rows, update_rows. induction l as [|r l IH]; cbn; [done |].
  destruct (p r); cbn; [lia |]. intros H. by rewrite IH.
Qed.

Lemma update_rows_all p f now (l : list Row) (P : Row -> Prop) :
  (forall y, y ∈ l -> p y = true -> P (touched now (f y))) ->
  (forall y, y ∈ l -> p y = false -> P y) ->
  forall x, x ∈ update_rows p f now l -> P x.
Proof. intros H1 H2 x (y & Hy & ->)%elem_of_update_rows. destruct (p y) eqn:?; auto. Qed.

(** The rows outside a condition [q] that holds of what is updated, before and
    after, are those they were. *)
Lemma update_rows_frame (q : Row -> Prop) p f now (l : list Row) x :
  (forall y, p y = true -> q y /\ q (touched now (f y))) -> ~ q x ->
  x ∈ update_rows p f now l <-> x ∈ l.
Proof.
  intros Hp Hx. rewrite elem_of_update_rows. split.
  - intros (y & Hy & ->). destruct (p y) eqn:E; [| done]. by destruct Hx, (Hp y E).
  - intros Hin. exists x. split; [done |]. destruct (p x) eqn:E; [| done]. by destruct Hx, (Hp x E).
Qed.

(** Updating only rows to which the index entries of [f] agree with the row
    keeps the constraints. *)
Lemma update_rows_NoClash p f now (l : list Row) :
  (forall r s, clash (touched now (f r)) s = clash r s) ->
  (forall r s, clash r (touched now (f s)) = clash r s) ->
  NoClash l -> NoClash (update_rows p f now l).
Proof.
  intros H1 H2 HN i j r s. unfold update_rows. rewrite !list_lookup_fmap.
  intros Hi Hj Hij. destruct (l !! i) as [a|] eqn:Ea; [| done]. destruct (l !! j) as [b|] eqn:Eb; [| done].
  cbn in Hi, Hj. specialize (HN i j a b Ea Eb Hij).
  injection Hi as <-. injection Hj as <-.
  destruct (p a), (p b); rewrite ?H1, ?H2; done.
Qed.

(** An update that leaves the index entries alone and writes nothing too long
    cannot be refused. *)
Definition keeps_keys (f : Row -> Row) : Prop :=
  (forall now r s, clash (touched now (f r)) s = clash r s /\ clash r (touched now (f s)) = clash r s) /\
  (forall now r, fits r = true -> fits (touched now (f r)) = true).

Lemma Updates_applied p f t t' r :
  gorm_Updates p f t = (t', r) -> keeps_keys f -> table_up t -> NoClash (rows t) ->
  table_up t' /\ NoClash (rows t') /\
  exists now, r = Ok (count_rows p (rows t), now) /\ rows t' = update_rows p f now (rows t).
Proof.
  intros [Hu Hr]%Updates_outcome Hk Hup HN.
  assert (forall now, NoClash (update_rows p f now (rows t))) as HN'
    by (intros now; apply update_rows_NoClash; [apply Hk.. | done]).
  destruct r as [[n now]|e].
  - destruct Hr as (-> & Hr & _). rewrite Hr. eauto 8.
  - destruct Hr as [_ Hc]. destruct (Hc Hup) as [now Hn]. destruct Hn. split; [apply HN' |].
    intros y _ _. apply Hk.
Qed.

(** Whether or not it is executed, an update keeps the constraints and relates
    every row to the row it was. *)
Lemma Updates_rows p f t t' r :
  gorm_Updates p f t = (t', r) ->
  (NoClash (rows t) -> NoClash (rows t')) /\
  (rows t' = rows t \/ exists now, rows t' = update_rows p f now (rows t)).
Proof.
  intros [Hu Hr]%Updates_outcome. destruct r as [[n now]|e].
  - destruct Hr as (-> & Hr & HN). rewrite Hr. eauto.
  - destruct Hr as [-> _]. auto.
Qed.
End Outcomes.

(** ** Symbolic execution

    One rule per effect of the world; [go_wp] runs a body up to the next
    statement of a store or the next branch of the code. *)
Section Rules.
Context `{E : Env}.

Lemma wp_on {S A} (get : World -> S) set (op : S -> S * A) w Q X :
  (forall s a, op (get w) = (s, a) -> Q a (set s w)) -> wp (on get set op) w Q X.
Proof. unfold wp, on. destruct (op (get w)) eqn:H. auto. Qed.

Lemma wp_time_Now w (Q : Time -> World -> Prop) X :
  Q (w_clock w (w_ticks w)) (set_ticks (S (w_ticks w)) w) -> wp time_Now w Q X.
Proof. done. Qed.

Lemma wp_uuid_New w (Q : UUID -> World -> Prop) X :
  Q (w_uuids w (w_drawn w)) (set_drawn (S (w_drawn w)) w) -> wp uuid_New w Q X.
Proof. done. Qed.

Lemma wp_rand_Read w (Q : result (list Z) -> World -> Prop) X :
  Q (w_random w (w_reads w)) (set_reads (S (w_reads w)) w) -> wp rand_Read w Q X.
Proof. done. Qed.

Lemma wp_SetHeader pairs w (Q : () -> World -> Prop) X :
  Q tt (set_headers (w_headers w ++ pairs) w) -> wp (grpc_SetHeader pairs) w Q X.
Proof. done. Qed.

Lemma wp_redis_call {A} c (op : RedisServer -> RedisServer * A) w Q X :
  (c = LiveClient -> forall s a, op (w_redis w) = (s, a) -> Q a (set_redis s w)) ->
  (c <> LiveClient -> X w) -> wp (redis_call c op) w Q X.
Proof. intros H HX. destruct c; [by apply HX | by apply HX | by apply wp_on, H]. Qed.
End Rules.

(** The stores of an updated world. *)
Ltac world_simpl :=
  cbn [w_users w_sessions w_tokens w_servers w_reports w_redis w_clock w_ticks w_uuids w_drawn
       w_random w_reads w_observations w_jobs w_headers
       set_users set_sessions set_tokens set_servers set_reports set_redis set_ticks set_drawn
       set_reads set_observations set_jobs set_headers] in *.

Ltac gorm_law H :=
  first [ apply First_outcome in H | apply Find_where_outcome in H | apply Find_outcome in H | apply Count_outcome in H
        | apply Delete_outcome in H
        | idtac ].

Ltac wp_store :=
  apply wp_on;
  let s := fresh "s" in let a := fresh "r" in let H := fresh "Hst" in
  intros s a H; world_simpl; gorm_law H.

Ltac wp_step :=
  lazymatch goal with
  | |- wp (bind _ _) _ _ _ => apply wp_bind
  | |- wp (ret _) _ _ _ => apply wp_ret; world_simpl
  | |- wp panic _ _ _ => apply wp_panic
  | |- wp time_Now _ _ _ => apply wp_time_Now; world_simpl
  | |- wp uuid_New _ _ _ => apply wp_uuid_New; world_simpl
  | |- wp rand_Read _ _ _ => apply wp_rand_Read; world_simpl
  | |- wp (grpc_SetHeader _) _ _ _ => apply wp_SetHeader; world_simpl
  | |- wp (db_users _) _ _ _ => unfold db_users at 1; wp_store
  | |- wp (db_sessions _) _ _ _ => unfold db_sessions at 1; wp_store
  | |- wp (db_tokens _) _ _ _ => unfold db_tokens at 1; wp_store
  | |- wp (db_servers _) _ _ _ => unfold db_servers at 1; wp_store
  | |- wp (db_reports _) _ _ _ => unfold db_reports at 1; wp_store
  | |- wp (match ?x with _ => _ end) _ _ _ => destruct x eqn:?
  end; cbn beta iota zeta.
Ltac go_wp := repeat wp_step.

(** ** Contexts

    Neither database/sql nor go-redis starts a statement under a cancelled
    context: the call returns the context's error. *)
Definition context_Canceled : error := Sentinel "context.Canceled" "context canceled".
Definition under_ctx {W A} (cancelled : bool) (m : M W (result A)) : M W (result A) :=
  if cancelled then ret (Err context_Canceled) else m.

Lemma under_ctx_run {W A} c (m : M W (result A)) w w' r :
  under_ctx c m w = (w', Done r) -> (c = true /\ w' = w /\ r = Err context_Canceled) \/ (c = false /\ m w = (w', Done r)).
Proof. destruct c; cbn; [intros [= <- <-]; by left | by right]. Qed.
