(* ===== verification/MemEnv.v ===== *)
(** * MemEnv: an in-memory instance of [Env] that satisfies [EnvLaws]

    Tables are lists of rows, Redis is a value of [RedisData]; each store
    carries the list of its coming faults, so that error paths can be run.
    The theorems that assume [EnvLaws] are applied to this instance by their
    witnesses, which shows that the laws are consistent. *)

From stdpp Require Import base list strings gmap numbers countable sorting.
From Stdlib Require Import ZArith Lia Ascii.
From S2P Require Import Prelude GoStrings GoTime Domain Env.
Open Scope Z_scope.

(** ** Tables *)
Record MemTable (Row : Type) := mkMemTable {
  mt_rows : list Row;
  mt_faults : list bool;   (* whether the next statements fail *)
  mt_seed : N;             (* the last identifier generated *)
  mt_now : Time;           (* the database clock *)
}.
Arguments mkMemTable {Row}.
Arguments mt_rows {Row}.
Arguments mt_faults {Row}.
Arguments mt_seed {Row}.
Arguments mt_now {Row}.

Definition mem_table {Row} (l : list Row) : MemTable Row := mkMemTable l [] 100 (1000 * Second).

Definition connection_lost : error := Fresh "connection lost".
Definition duplicate_key : error := Fresh "duplicate key value violates unique constraint".

(** Run a statement unless the next fault strikes. *)
Definition mt_run {Row A} (t : MemTable Row) (op : MemTable Row -> MemTable Row * result A)
  : MemTable Row * result A :=
  match mt_faults t with
  | true :: fs => (mkMemTable (mt_rows t) fs (mt_seed t) (mt_now t), Err connection_lost)
  | false :: fs => op (mkMemTable (mt_rows t) fs (mt_seed t) (mt_now t))
  | [] => op t
  end.

Definition with_rows {Row} (l : list Row) (t : MemTable Row) : MemTable Row :=
  mkMemTable l (mt_faults t) (mt_seed t) (mt_now t).

Fixpoint no_clash {Row} `{Model Row} (l : list Row) : bool :=
  match l with
  | [] => true
  | r :: l' => forallb (fun s => negb (clash r s) && negb (clash s r)) l' && no_clash l'
  end.

Fixpoint fill {Row} `{Model Row} (now : Time) (seed : N) (serial : Z) (rs : list Row) : list Row :=
  match rs with
  | [] => []
  | r :: rs' => with_defaults now (seed + 1)%N serial r :: fill now (seed + 1)%N (serial + 1) rs'
  end.

Definition mt_create {Row} `{Model Row} (rs : list Row) (t : MemTable Row)
  : MemTable Row * result (list Row) :=
  let rs' := fill (mt_now t) (mt_seed t) (Z.of_nat (length (mt_rows t)) + 1) rs in
  if no_clash (mt_rows t ++ rs') && forallb fits rs'
  then (mkMemTable (mt_rows t ++ rs') (mt_faults t)
          (mt_seed t + N.of_nat (length rs))%N (mt_now t), Ok rs')
  else (t, Err duplicate_key).

Definition mt_first {Row} (p : Row -> bool) (t : MemTable Row) : MemTable Row * result Row :=
  (t, match List.find p (mt_rows t) with Some r => Ok r | None => Err ErrRecordNotFound end).

Definition mt_updates {Row} `{Model Row} (p : Row -> bool) (f : Row -> Row) (t : MemTable Row)
  : MemTable Row * result (Z * Time) :=
  let l := update_rows p f (mt_now t) (mt_rows t) in
  if no_clash l && forallb (fun r => negb (p r) || negb (fits r) || fits (touched (mt_now t) (f r))) (mt_rows t)
  then (with_rows l t, Ok (count_rows p (mt_rows t), mt_now t)) else (t, Err duplicate_key).

Definition bad_order : error := Fresh "column does not exist".

Definition before {Row} (le : Row -> Row -> bool) (a b : Row) : Prop := le a b = true.
#[local] Instance before_dec {Row} (le : Row -> Row -> bool) a b : Decision (before le a b) := bool_eq_dec (le a b) true.

Definition mt_find {Row} (q : Query Row) (t : MemTable Row) : MemTable Row * result (list Row) :=
  let found := List.filter (q_where q) (mt_rows t) in
  (t, match q_order q with
      | None => Ok (window q found)
      | Some o => match order_le o with
                  | Some le => Ok (window q (merge_sort (before le) found))
                  | None => Err bad_order
                  end
      end).

(** The ORDER BY texts this database reads. *)
Definition mem_order (text : string) : option (Server -> Server -> bool) :=
  if String.eqb text "created_at desc" then Some (fun a b => server_CreatedAt b <=? server_CreatedAt a)
  else if String.eqb text "created_at asc" then Some (fun a b => server_CreatedAt a <=? server_CreatedAt b)
  else if String.eqb text "consecutive_failures asc" then Some (fun a b => server_ConsecutiveFailures a <=? server_ConsecutiveFailures b)
  else None.

#[local] Instance mem_gorm : Gorm MemTable := {|
  gorm_Create Row Md rs t := mt_run t (mt_create rs);
  gorm_First Row Md p t := mt_run t (mt_first p);
  gorm_Find Row Md q t := mt_run t (mt_find q);
  gorm_Count Row Md p t := mt_run t (fun t => (t, Ok (count_rows p (mt_rows t))));
  gorm_Updates Row Md p f t := mt_run t (mt_updates p f);
  gorm_Delete Row Md p t :=
    mt_run t (fun t => (with_rows (List.filter (fun r => negb (p r)) (mt_rows t)) t,
                        Ok (count_rows p (mt_rows t))));
  sql_ilike v pat := Contains v (TrimPrefix pat "%");
  servers_order := mem_order;
|}.

(** ** Redis *)
Record MemRedis := mkMemRedis {
  mr_data : RedisData;
  mr_faults : list bool;
}.

Definition mem_redis (d : RedisData) : MemRedis := mkMemRedis d [].
Definition no_data : RedisData := mkRedisData ∅ ∅ ∅.

Definition mr_run {A} (r : MemRedis) (op : RedisData -> RedisData * result A) : MemRedis * result A :=
  match mr_faults r with
  | true :: fs => (mkMemRedis (mr_data r) fs, Err connection_lost)
  | fs => let '(d, a) := op (mr_data r) in (mkMemRedis d (tail fs), a)
  end.

Definition key_exists (d : RedisData) (now : Time) (k : string) : bool :=
  bool_decide (is_Some (live_string d now k)) || bool_decide (is_Some (rd_hashes d !! k))
  || bool_decide (is_Some (rd_sets d !! k)).

#[local] Instance mem_redis_ops : Redis MemRedis := {|
  redis_Exec cs r := mr_run r (fun d => (foldl (fun d c => exec_cmd c d) d cs, Ok tt));
  redis_HGet k f r := mr_run r (fun d => (d,
    match hash_of d k !! f with Some v => Ok v | None => Err RedisNil end));
  redis_HGetAll k r := mr_run r (fun d => (d, Ok (hash_of d k)));
  redis_SMembers k r := mr_run r (fun d => (d, Ok (elements (set_of d k))));
  redis_Exists now k r := mr_run r (fun d => (d, Ok (if key_exists d now k then 1 else 0)));
  redis_SetNX now k v ex r := mr_run r (fun d =>
    if key_exists d now k then (d, Ok false) else (exec_cmd (SETEX k v (now + ex)) d, Ok true));
|}.

(** ** Identifiers and tokens *)
Definition lower_ascii (c : ascii) : ascii :=
  let n := nat_of_ascii c in
  if (65 <=? n)%nat && (n <=? 90)%nat then ascii_of_nat (n + 32) else c.
Fixpoint lower_string (s : string) : string :=
  match s with EmptyString => EmptyString | String c s' => String (lower_ascii c) (lower_string s') end.

#[local] Instance mem_uuid : Uuid := {|
  uuid_String u := itoa_nonneg (Z.of_N u);
  uuid_Parse s := match parse_digits s 0 with
                  | Some n => Ok (Z.to_N n)
                  | None => Err (Fresh "invalid UUID")
                  end;
  uuid_column_eq a b := String.eqb (lower_string a) (lower_string b);
|}.

Fixpoint pos_bits (p : positive) : string :=
  match p with
  | xH => EmptyString
  | xO q => String "0" (pos_bits q)
  | xI q => String "1" (pos_bits q)
  end.
Fixpoint bits_pos (s : string) : positive :=
  match s with
  | EmptyString => xH
  | String c s' => if Ascii.eqb c "0" then xO (bits_pos s') else xI (bits_pos s')
  end.

Definition claims_tuple (secret : string) (c : Claims) : list string * (Z * Z) :=
  ([secret; claims_UserID c; claims_SessionID c; claims_Username c; claims_Email c;
    claims_RoleID c; claims_RoleCode c], (claims_Exp c, claims_Iat c)).

#[local] Instance mem_jwt : Jwt := {|
  jwt_sign secret c := Ok (pos_bits (encode (claims_tuple secret c)));
  jwt_parse secret now tok :=
    match (decode (bits_pos tok) : option (list string * (Z * Z))) with
    | Some ([s; u; sid; n; e; ri; rc], (ex, ia)) =>
        if String.eqb s secret && (now <? (ex + unix_epoch) * Second)
        then Ok (mkClaims u sid n e ri rc ex ia)
        else Err (Fresh "token is invalid")
    | _ => Err (Fresh "token is malformed")
    end;
|}.

#[local] Instance mem_bcrypt : Bcrypt := {|
  bcrypt_hash salt pw := "$2a$" +:+ pw;
  bcrypt_matches h pw := String.eqb h ("$2a$" +:+ pw);
|}.
#[local] Instance mem_unicode : Unicode := {| unicode_lower s := s |}.
#[local] Instance mem_zone : Zone := {| local_offset _ := 0 |}.

#[local] Instance mem_env : Env := {| Table := MemTable; RedisServer := MemRedis |}.

(** ** The laws *)
Lemma no_clash_spec {Row} `{Model Row} (l : list Row) : no_clash l = true <-> NoClash l.
Proof.
  unfold NoClash. induction l as [|r l IH]; cbn; [split; [by intros _ ? ? ? ? [=] | done] |].
  rewrite andb_true_iff, forallb_forall, IH. split.
  - intros [Hr Hl] [|i] [|j] a b Ha Hb Hij; cbn in *; try done.
    + injection Ha as ->. apply list_elem_of_lookup_2, list_elem_of_In, Hr, andb_true_iff in Hb as [Hb _].
      by apply negb_true_iff.
    + injection Hb as ->. apply list_elem_of_lookup_2, list_elem_of_In, Hr, andb_true_iff in Ha as [_ Ha].
      by apply negb_true_iff.
    + eapply Hl; eauto.
  - intros Hall. split.
    + intros s Hs. apply list_elem_of_In, list_elem_of_lookup in Hs as [i Hi].
      rewrite (Hall 0%nat (S i) r s), (Hall (S i) 0%nat s r) by done. done.
    + intros i j a b Ha Hb Hij. apply (Hall (S i) (S j)); [done | done | lia].
Qed.

Lemma fill_inserted {Row} `{Model Row} now seed serial (rs : list Row) :
  inserted rs (fill now seed serial rs).
Proof.
  revert seed serial. induction rs as [|r rs IH]; intros seed serial; cbn; constructor; eauto.
  apply IH.
Qed.

Definition mt_up {Row} (t : MemTable Row) : Prop := Forall (fun b => b = false) (mt_faults t).

(** A fault leaves the rows as they are and means the table was not up. *)
Lemma mt_run_cases {Row A} (t : MemTable Row) (op : MemTable Row -> MemTable Row * result A) :
  (exists t', mt_run t op = (t', Err connection_lost) /\ mt_rows t' = mt_rows t /\ ~ mt_up t) \/
  (exists t0, mt_run t op = op t0 /\ mt_rows t0 = mt_rows t /\ (mt_up t -> mt_up t0)).
Proof.
  unfold mt_run, mt_up. destruct (mt_faults t) as [|[] fs] eqn:E.
  - right. exists t. rewrite E. done.
  - left. eexists. split; [done |]. split; [done |]. inversion 1; done.
  - right. eexists. split; [done |]. split; [done |]. by inversion 1.
Qed.

Lemma all_fit_spec {Row} `{Model Row} (l : list Row) : forallb fits l = true <-> all_fit l.
Proof.
  unfold all_fit. by rewrite List.forallb_forall, List.Forall_forall.
Qed.

Lemma stays_fit_spec {Row} `{Model Row} p f now (l : list Row) :
  forallb (fun r => negb (p r) || negb (fits r) || fits (touched now (f r))) l = true <-> stays_fit p f now l.
Proof.
  unfold stays_fit. rewrite List.forallb_forall. setoid_rewrite list_elem_of_In.
  split; intros Hl r Hr; specialize (Hl r Hr); destruct (p r), (fits r), (fits (touched now (f r))); naive_solver.
Qed.

Lemma mt_find_spec {Row} (q : Query Row) (l : list Row) (P : Prop) :
  let found := List.filter (q_where q) l in
  match (match q_order q with
         | None => Ok (window q found)
         | Some o => match order_le o with
                     | Some le => Ok (window q (merge_sort (before le) found))
                     | None => Err bad_order
                     end
         end) with
  | Ok l' => order_ok q = true /\ exists s, s ≡ₚ found /\ (orders_rows q -> ordered q s) /\ l' = window q s
  | Err _ => P -> order_ok q = false
  end.
Proof.
  unfold order_ok, ordered, orders_rows. destruct (q_order q) as [o|]; cbn; [| split; [done |]; eexists; by split].
  destruct (order_le o) as [le|] eqn:Ho; [| done]. split; [done |]. eexists. split; [apply (merge_sort_Permutation (before le)) |].
  split; [| done]. intros Hpre o' le' [= <-] Hle. rewrite Ho in Hle. injection Hle as <-.
  destruct (Hpre o le eq_refl Ho) as [Htot Htr]. pose proof (Htr : Transitive (before le)). pose proof (Htot : Total (before le)).
  apply (StronglySorted_merge_sort (before le)).
Qed.

Lemma mem_order_preorder text le : mem_order text = Some le -> preorder_on le.
Proof.
  unfold mem_order, preorder_on.
  destruct (String.eqb _ _); [| destruct (String.eqb _ _); [| destruct (String.eqb _ _)]]; intros [= <-];
    (split; [intros a b; rewrite !Z.leb_le; lia | intros a b c; rewrite !Z.leb_le; lia]).
Qed.

#[local] Program Instance mem_gorm_laws : GormLaws MemTable := {|
  rows Row t := mt_rows t;
  table_up Row t := mt_up t;
|}.
Next Obligation.
  cbn. intros Row Md p t. destruct (mt_run_cases t (mt_first p)) as [(t' & -> & ? & ?)|(t0 & -> & ? & ?)];
    cbn; [naive_solver | auto].
Qed.
Next Obligation.
  cbn. intros Row Md p t.
  destruct (mt_run_cases t (mt_first p)) as [(t' & -> & ? & ?)|(t0 & -> & Hr & ?)]; cbn; [naive_solver |].
  rewrite Hr. destruct (List.find p (mt_rows t)) as [r|] eqn:E.
  - apply List.find_some in E as [? ?]. by rewrite list_elem_of_In.
  - split; [| done]. intros _ r Hin. eapply List.find_none; [exact E |]. by apply list_elem_of_In.
Qed.
Next Obligation.
  cbn. intros Row Md q t.
  destruct (mt_run_cases t (mt_find q)) as [(t' & -> & ? & ?)|(t0 & -> & Hr & ?)]; cbn; [naive_solver |].
  split; [done |]. split; [done |]. rewrite Hr. apply mt_find_spec.
Qed.
Next Obligation.
  cbn. intros Row Md p t.
  destruct (mt_run_cases t (fun t => (t, Ok (count_rows p (mt_rows t)))))
    as [(t' & -> & ? & ?)|(t0 & -> & Hr & ?)]; cbn; [naive_solver |].
  by rewrite Hr.
Qed.
Next Obligation.
  cbn. intros Row Md rs t.
  destruct (mt_run_cases t (mt_create rs)) as [(t' & -> & ? & ?)|(t0 & -> & Hr & Hu)]; cbn; [naive_solver |].
  unfold mt_create. rewrite Hr. set (rs' := fill _ _ _ _). 
  assert (inserted rs rs') by apply fill_inserted.
  destruct (no_clash (mt_rows t ++ rs') && forallb fits rs') eqn:E; cbn.
  - apply andb_true_iff in E as [E%no_clash_spec Ef%all_fit_spec]. done.
  - split; [done |]. split; [done |]. intros _. exists rs'. split; [done |].
    intros [HN%no_clash_spec Hf%all_fit_spec]. by rewrite HN, Hf in E.
Qed.
Next Obligation.
  cbn. intros Row Md p f t.
  destruct (mt_run_cases t (mt_updates p f)) as [(t' & -> & ? & ?)|(t0 & -> & Hr & Hu)]; cbn; [naive_solver |].
  unfold mt_updates. rewrite Hr. set (l := update_rows _ _ _ _).
  match goal with |- context [no_clash l && ?b] => destruct (no_clash l && b) eqn:E end; cbn.
  - apply andb_true_iff in E as [E%no_clash_spec _]. done.
  - split; [done |]. split; [done |]. intros _. exists (mt_now t0).
    intros [HN%no_clash_spec Hf%stays_fit_spec]. fold (update_rows p f (mt_now t0) (mt_rows t)) in HN. fold l in HN. by rewrite HN, Hf in E.
Qed.
Next Obligation.
  cbn. intros Row Md p t.
  destruct (mt_run_cases t (fun t => (with_rows (List.filter (fun r => negb (p r)) (mt_rows t)) t,
                        Ok (count_rows p (mt_rows t)))))
    as [(t' & -> & ? & ?)|(t0 & -> & Hr & ?)]; cbn; [naive_solver |].
  by rewrite Hr.
Qed.
Next Obligation. exact mem_order_preorder. Qed.
Next Obligation. reflexivity. Qed.

Lemma mr_run_cases {A} (r : MemRedis) (op : RedisData -> RedisData * result A) :
  (exists fs, mr_run r op = (mkMemRedis (mr_data r) fs, Err connection_lost) /\
              ~ Forall (fun b => b = false) (mr_faults r)) \/
  (exists fs, mr_run r op = (mkMemRedis (op (mr_data r)).1 fs, (op (mr_data r)).2) /\
              (Forall (fun b => b = false) (mr_faults r) -> Forall (fun b => b = false) fs)).
Proof.
  unfold mr_run. destruct (op (mr_data r)) as [d a]. destruct (mr_faults r) as [|[] fs]; cbn.
  - right. by exists [].
  - left. exists fs. split; [done |]. by inversion 1.
  - right. exists fs. split; [done |]. by inversion 1.
Qed.

(** A statement fails, or runs. *)
Ltac mr_cases r :=
  match goal with |- context [mr_run r ?op] => destruct (mr_run_cases r op) as [(?fs & -> & ?)|(?fs & -> & ?)] end.

#[local] Program Instance mem_redis_laws : RedisLaws MemRedis := {|
  data r := mr_data r;
  redis_up r := Forall (fun b => b = false) (mr_faults r);
|}.
Next Obligation.
  cbn. intros cs r.
  mr_cases r;
    cbn; [naive_solver | done].
Qed.
Next Obligation.
  cbn. intros k f r.
  mr_cases r;
    cbn; [naive_solver |]. by destruct (hash_of (mr_data r) k !! f) eqn:E.
Qed.
Next Obligation.
  cbn. intros k r.
  mr_cases r;
    cbn; [naive_solver | done].
Qed.
Next Obligation.
  cbn. intros k r.
  mr_cases r;
    cbn; [naive_solver |]. split; [done |]. split; [done |]. split; [apply NoDup_elements |].
  intros x. apply elem_of_elements.
Qed.
Next Obligation.
  cbn. intros now k r.
  mr_cases r;
    cbn; [naive_solver |]. split; [done |]. split; [done |]. unfold key_exists. split.
  - intros Hl. by rewrite bool_decide_eq_true_2.
  - intros -> -> ->. done.
Qed.
Next Obligation.
  cbn. intros now k v ex r _ _.
  mr_cases r;
    cbn; [naive_solver |]. unfold key_exists. destruct (live_string (mr_data r) now k) eqn:El; cbn.
  - split; [done |]. split; [done |]. by left.
  - case_bool_decide as Hh; cbn; [split; [done |]; split; [done |]; auto |].
    case_bool_decide as Hs; cbn; [split; [done |]; split; [done |]; auto |]. done.
Qed.

Lemma bits_pos_bits p : bits_pos (pos_bits p) = p.
Proof. induction p; cbn; congruence. Qed.

Lemma lower_digits k n acc :
  0 <= n -> lower_string acc = acc -> lower_string (itoa_fuel k n acc) = itoa_fuel k n acc.
Proof.
  assert (forall d, 0 <= d < 10 -> lower_ascii (digit d) = digit d) as Hd.
  { intros d Hd. assert (d ∈ [0;1;2;3;4;5;6;7;8;9]) as Hin by (rewrite !elem_of_cons; lia).
    repeat (apply elem_of_cons in Hin as [->|Hin]; [reflexivity |]). by apply not_elem_of_nil in Hin. }
  revert n acc. induction k as [|k IH]; intros n acc Hn Ha; cbn;
    pose proof (Z.mod_pos_bound n 10 ltac:(lia));
    (assert (lower_string (String (digit (n mod 10)) acc) = String (digit (n mod 10)) acc) as Hl
      by (cbn; by rewrite Hd, Ha)); [done |].
  destruct (n / 10 =? 0); [done |]. apply IH; [| done]. apply Z.div_pos; lia.
Qed.

#[local] Program Instance mem_uuid_laws : UuidLaws.
Next Obligation.
  intros u. cbn. rewrite itoa_nonneg_parse by lia. by rewrite N2Z.id.
Qed.
Next Obligation.
  intros u v. cbn. unfold itoa_nonneg. rewrite !lower_digits by (lia || done).
  fold (itoa_nonneg (Z.of_N u)) (itoa_nonneg (Z.of_N v)). intros Heq%String.eqb_eq.
  pose proof (itoa_nonneg_parse (Z.of_N u) ltac:(lia)) as Hu. rewrite Heq, itoa_nonneg_parse in Hu by lia.
  injection Hu as Hu. by apply N2Z.inj.
Qed.
Next Obligation. intros a. apply String.eqb_refl. Qed.
Next Obligation. intros a b. apply String.eqb_sym. Qed.
Next Obligation. intros a b c. cbn. intros ->%String.eqb_eq ->%String.eqb_eq. apply String.eqb_refl. Qed.

#[local] Program Instance mem_jwt_laws : JwtLaws.
Next Obligation.
  intros secret [u sid n e ri rc ex ia] tok now [= <-] Ht. cbn [jwt_parse mem_jwt].
  rewrite bits_pos_bits, decode_encode. unfold claims_tuple. cbn in *.
  rewrite String.eqb_refl. apply Z.ltb_lt in Ht. by rewrite Ht.
Qed.
Next Obligation.
  intros secret c tok now. cbn [jwt_parse mem_jwt]. intros H.
  repeat case_match; simplify_eq. cbn.
  match goal with Hb : (_ && _)%bool = true |- _ => apply andb_true_iff in Hb as [_ Hb] end. lia.
Qed.

#[local] Instance mem_bcrypt_laws : BcryptLaws.
Proof. split; [intros salt pw _; apply String.eqb_refl | done]. Qed.

#[local] Instance mem_laws : EnvLaws mem_env := {|
  laws_gorm := mem_gorm_laws;
  laws_redis := mem_redis_laws;
  laws_uuid := mem_uuid_laws;
  laws_jwt := mem_jwt_laws;
  laws_bcrypt := mem_bcrypt_laws;
|}.

(** ** Worlds

    The clock ticks once a second, [uuid.New] counts, [rand.Read] yields zeros. *)
Definition mem_world (us : list User) (ss : list AuthSession) (ts : MemTable RefreshToken)
  (srv : MemTable Server) (rp : MemTable ReportRequest) (r : MemRedis) : @World mem_env :=
  @mkWorld mem_env (mem_table us) (mem_table ss) ts srv rp r
    (fun n => (63000000000 + Z.of_nat n) * Second) 0 (fun n => N.of_nat n + 7)%N 0
    (fun _ => Ok (repeat 0 32)) 0 (mkChan [] 100 false) (mkChan [] 100 false) [].

Definition mem_start : Time := 63000000000 * Second.

Lemma mem_NoClash {Row} `{Model Row} (l : list Row) : no_clash l = true -> NoClash l.
Proof. apply no_clash_spec. Qed.
