(* ===== verification/Security.v ===== *)
(** * Security: [internal/infrastructure/security]

    Permissions and the role table ([Authorizer]), access tokens
    ([TokenManager], [Authenticator]) and CSRF tokens ([CSRFManager]).  JWT
    signing and parsing belong to golang-jwt and are parameters ([Jwt]);
    SHA-256 and hex are executable.  The section variables of the code (the
    secret, the Redis client) are arguments. *)

From stdpp Require Import base list strings gmap numbers.
From Stdlib Require Import ZArith Lia.
From S2P Require Import Prelude GoStrings GoTime Sha256 Domain Env MemEnv.
Open Scope Z_scope.

(** ** Permissions *)
Abbreviation PermissionCode := string (only parsing).
Definition PermServerCreate : PermissionCode := "server:create".
Definition PermServerRead : PermissionCode := "server:read".
Definition PermServerUpdate : PermissionCode := "server:update".
Definition PermServerDelete : PermissionCode := "server:delete".
Definition PermServerImport : PermissionCode := "server:import".
Definition PermServerExport : PermissionCode := "server:export".
Definition PermReportRequest : PermissionCode := "report:request".

Record Principal := mkPrincipal {
  principal_UserID : string;
  principal_Username : string;
  principal_Email : string;
  principal_RoleID : string;
  principal_RoleCode : RoleCode;
  principal_SessionID : string;
}.

#[export] Instance Principal_eq_dec : EqDecision Principal.
Proof. solve_decision. Defined.

(** ** Authorizer *)
Abbreviation Authorizer := (gmap string (gmap string bool)) (only parsing).

Definition NewAuthorizer : Authorizer :=
  let adminPerms : gmap string bool := list_to_map
    [ (PermServerCreate, true); (PermServerRead, true); (PermServerUpdate, true);
      (PermServerDelete, true); (PermServerImport, true); (PermServerExport, true);
      (PermReportRequest, true) ] in
  let userPerms : gmap string bool := list_to_map [ (PermServerRead, true) ] in
  list_to_map [ (RoleCodeAdmin, adminPerms); (RoleCodeUser, userPerms) ].

(** The principal is a pointer: [None] is nil. *)
Definition HasPermission (a : Authorizer) (principal : option Principal)
  (requiredPermission : PermissionCode) : bool :=
  if String.eqb requiredPermission "" then true
  else match principal with
       | None => false
       | Some p =>
           if String.eqb (principal_RoleCode p) RoleCodeAdmin then true
           else match a !! principal_RoleCode p with
                | None => false
                | Some perms => default false (perms !! requiredPermission)
                end
       end.

(** ** CSRF tokens *)
Definition csrfTokenLength : Z := 32.

Definition ValidateCSRFToken (cookieValue headerValue : string) : result () :=
  if String.eqb cookieValue "" || String.eqb headerValue "" then Err (Fresh "missing CSRF token")
  else
    let cookieHash := sha256 cookieValue in
    let headerHash := sha256 headerValue in
    if bool_decide (cookieHash = headerHash) then Ok tt
    else Err (Fresh "CSRF token mismatch").

Section Security.
Context `{E : Env}.

Definition GenerateCSRFToken : M World (result string) :=
  b <-? rand_Read ;; ret (Ok (hex_encode b)).

(** ** Token manager *)
Definition HashToken (token : string) : string := hex_encode (sha256 token).

Definition GenerateRefreshToken : M World string :=
  u <-- uuid_New ;; ret (uuid_String u).

(** The claims the code signs: the fields it does not set are absent from the
    token, so they parse as empty strings. *)
Definition access_claims (userID : Z) (roleCode : RoleCode) (sessionID : UUID)
  (t1 t2 : Time) : Claims :=
  mkClaims (Itoa userID) (uuid_String sessionID) "" "" "" roleCode
    (time_Unix (time_Add t1 (15 * Minute))) (time_Unix t2).

Definition GenerateAccessToken (jwtSecret : string) (userID : Z) (roleCode : RoleCode)
  (sessionID : UUID) : M World (result string) :=
  t1 <-- time_Now ;;
  t2 <-- time_Now ;;
  ret (jwt_sign jwtSecret (access_claims userID roleCode sessionID t1 t2)).

(** ** Authenticator *)
Record Authenticator := mkAuthenticator {
  auth_secret : string;
  auth_redisClient : UniversalClient;
}.

Definition revoked_key (sessionID : string) : string := "revoked_session:" +:+ sessionID.

Definition principal_of_claims (c : Claims) : Principal :=
  mkPrincipal (claims_UserID c) (claims_Username c) (claims_Email c) (claims_RoleID c)
    (claims_RoleCode c) (claims_SessionID c).

Definition Authenticate (a : Authenticator) (tokenString : string) : M World (result Principal) :=
  now <-- time_Now ;;
  match jwt_parse (auth_secret a) now tokenString with
  | Err _ => ret (Err (Fresh "invalid token"))
  | Ok parsedClaims =>
      revoked <--
        (if negb (iface_is_nil (auth_redisClient a))
            && negb (String.eqb (claims_SessionID parsedClaims) "")
         then rnow <-- time_Now ;;
              isRevoked <-- redis_call (auth_redisClient a)
                (redis_Exists rnow (revoked_key (claims_SessionID parsedClaims))) ;;
              ret (match isRevoked with Ok n => 0 <? n | Err _ => false end)
         else ret false) ;;
      if (revoked : bool) then ret (Err (Fresh "session is already revoked"))
      else ret (Ok (principal_of_claims parsedClaims))
  end.

End Security.

(** ** Properties *)
Section SecurityProperties.
Context `{E : Env} {L : EnvLaws E}.

(** An administrator holds every permission, a user only [server:read], any
    other role none. *)
Lemma HasPermission_cases p req :
  HasPermission NewAuthorizer (Some p) req = true <->
  req = ""%string \/ principal_RoleCode p = RoleCodeAdmin \/
  (principal_RoleCode p = RoleCodeUser /\ req = PermServerRead).
Proof.
  unfold HasPermission. destruct (String.eqb_spec req ""); [naive_solver |].
  destruct (String.eqb_spec (principal_RoleCode p) RoleCodeAdmin) as [->|Hna]; [naive_solver |].
  assert (NewAuthorizer = <[RoleCodeAdmin := default ∅ (NewAuthorizer !! RoleCodeAdmin)]>
            {[RoleCodeUser := {[PermServerRead := true]}]}) as -> by reflexivity.
  rewrite lookup_insert_ne by congruence. change ({[RoleCodeUser := {[PermServerRead := true]}]} : gmap string (gmap string bool))
    with (<[RoleCodeUser := {[PermServerRead := true]}]> (∅ : gmap string (gmap string bool))).
  destruct (decide (principal_RoleCode p = RoleCodeUser)) as [Hu|Hnu].
  - rewrite Hu, lookup_insert_eq.
    destruct (decide (req = PermServerRead)) as [->|Hr]; [naive_solver |].
    rewrite lookup_singleton_ne by congruence. cbn. split; [done | intros [?|[?|[_ ?]]]; congruence].
  - rewrite lookup_insert_ne, lookup_empty by congruence.
    split; [done | intros [?|[?|[? _]]]; congruence].
Qed.

Theorem ValidateCSRFToken_spec c h :
  ValidateCSRFToken c h = Ok tt <-> c <> ""%string /\ h <> ""%string /\ sha256 c = sha256 h.
Proof.
  unfold ValidateCSRFToken.
  destruct (String.eqb_spec c "") as [->|Hc]; [split; [done | by intros [? _]] |].
  destruct (String.eqb_spec h "") as [->|Hh]; [split; [done | by intros (_ & ? & _)] |].
  cbn [orb]. case_bool_decide as Hd; split; [done | done | done |].
  intros (_ & _ & He). by destruct (Hd He).
Qed.

(** Authentication writes to no table. *)
Lemma Authenticate_tables a tok w : w_servers (Authenticate a tok w).1 = w_servers w.
Proof.
  unfold Authenticate, bind, time_Now. destruct (jwt_parse _ _ _) as [c|]; [| done].
  destruct (_ && _)%bool; [| done]. cbn. unfold redis_call, on.
  destruct (auth_redisClient a); cbn; [done | done |].
  destruct (redis_Exists _ _ _) as [s [n|e]]; [by destruct (0 <? n) | done].
Qed.

(** The revocation lookup of [Authenticate], by outcome. *)
Lemma Authenticate_unfold a tok w c :
  jwt_parse (auth_secret a) (w_clock w (w_ticks w)) tok = Ok c ->
  auth_redisClient a = LiveClient -> claims_SessionID c <> ""%string ->
  let r := redis_Exists (w_clock w (S (w_ticks w))) (revoked_key (claims_SessionID c)) (w_redis w) in
  (Authenticate a tok w).2 =
  Done (if match r.2 with Ok n => 0 <? n | Err _ => false end
        then Err (Fresh "session is already revoked") else Ok (principal_of_claims c)).
Proof.
  intros Hp Hc Hs. unfold Authenticate, bind, time_Now at 1. rewrite Hp, Hc.
  destruct (String.eqb_spec (claims_SessionID c) ""); [done |]. cbn -[redis_Exists].
  unfold on. cbn -[redis_Exists].
  destruct (redis_Exists _ _ _) as [s [k|e]]; cbn; [by destruct (0 <? k) | done].
Qed.

(** While a session's revocation mark is live in Redis, a token of that
    session does not authenticate. *)
Lemma Authenticate_revoked a tok w c :
  jwt_parse (auth_secret a) (w_clock w (w_ticks w)) tok = Ok c ->
  auth_redisClient a = LiveClient -> claims_SessionID c <> ""%string ->
  redis_up (w_redis w) ->
  is_Some (live_string (data (w_redis w)) (w_clock w (S (w_ticks w)))
             (revoked_key (claims_SessionID c))) ->
  (Authenticate a tok w).2 = Done (Err (Fresh "session is already revoked")).
Proof.
  intros Hp Hc Hs Hup Hl. rewrite (Authenticate_unfold _ _ _ _ Hp Hc Hs). cbn zeta.
  pose proof (redis_Exists_spec (w_clock w (S (w_ticks w))) (revoked_key (claims_SessionID c)) (w_redis w))
    as (_ & _ & Hx).
  destruct (redis_Exists _ _ _).2; [| done]. destruct Hx as [-> _]; done.
Qed.

(** C33: An access token authenticates, for the 15 minutes less the second lost by
    rounding its expiry, as the user, role and session it was issued for. *)
Theorem access_token_authenticates secret uid role sid w w1 tok w2 :
  GenerateAccessToken secret uid role sid w = (w1, Done (Ok tok)) ->
  w_clock w2 (w_ticks w2) <= w_clock w (w_ticks w) + 15 * Minute - Second ->
  live_string (data (w_redis w2)) (w_clock w2 (S (w_ticks w2)))
    (revoked_key (uuid_String sid)) = None ->
  rd_hashes (data (w_redis w2)) !! revoked_key (uuid_String sid) = None ->
  rd_sets (data (w_redis w2)) !! revoked_key (uuid_String sid) = None ->
  uuid_String sid <> ""%string ->
  (Authenticate (mkAuthenticator secret LiveClient) tok w2).2 =
  Done (Ok (mkPrincipal (Itoa uid) "" "" "" role (uuid_String sid))).
Proof.
  intros Hg Ht Hl Hh Hs Hne.
  unfold GenerateAccessToken, bind, time_Now, ret in Hg. cbn in Hg. injection Hg as _ Hsign.
  set (c := access_claims _ _ _ _ _) in Hsign.
  assert (jwt_parse secret (w_clock w2 (w_ticks w2)) tok = Ok c) as Hp.
  { apply jwt_parse_sign; [done |]. cbn. unfold time_Unix, time_Add.
    pose proof (Z.div_mod (w_clock w (w_ticks w) + 15 * Minute) Second ltac:(done)).
    pose proof (Z.mod_pos_bound (w_clock w (w_ticks w) + 15 * Minute) Second ltac:(done)). lia. }
  rewrite (Authenticate_unfold (mkAuthenticator secret LiveClient) _ _ _ Hp eq_refl Hne). cbn zeta.
  pose proof (redis_Exists_spec (w_clock w2 (S (w_ticks w2))) (revoked_key (claims_SessionID c)) (w_redis w2))
    as (_ & _ & Hx).
  destruct (redis_Exists _ _ _).2; [| done]. destruct Hx as [_ ->]; done.
Qed.

(** A nil [*redis.Client] in the interface passes the nil check, so the
    revocation lookup dereferences it: authentication panics. *)
Theorem typed_nil_client_panics secret tok w c :
  jwt_parse secret (w_clock w (w_ticks w)) tok = Ok c -> claims_SessionID c <> ""%string ->
  (Authenticate (mkAuthenticator secret TypedNilClient) tok w).2 = Panicked.
Proof.
  intros Hp Hs. unfold Authenticate, bind, time_Now at 1. cbn. rewrite Hp.
  by destruct (String.eqb_spec (claims_SessionID c) "").
Qed.

End SecurityProperties.

(** ** Concrete runs *)
Section SecurityRuns.
#[local] Existing Instance mem_env.
#[local] Existing Instance mem_laws.

Definition empty_world : World :=
  mem_world [] [] (mem_table []) (mem_table []) (mem_table []) (mem_redis no_data).

Lemma access_token_authenticates_witness :
  exists w1 tok, GenerateAccessToken "key" 1 RoleCodeUser 5 empty_world = (w1, Done (Ok tok)) /\
    (Authenticate (mkAuthenticator "key" LiveClient) tok w1).2 =
    Done (Ok (mkPrincipal "1" "" "" "" RoleCodeUser "5")).
Proof.
  assert (match (GenerateAccessToken "key" 1 RoleCodeUser 5 empty_world).2 with Done (Ok _) => True | _ => False end)
    as Hok by (vm_compute; exact I).
  destruct (GenerateAccessToken "key" 1 RoleCodeUser 5 empty_world) as [w1 [[tok|]|]] eqn:Hg; [| destruct Hok ..].
  exists w1, tok. split; [reflexivity |].
  apply (access_token_authenticates "key" 1 RoleCodeUser 5 empty_world w1 tok w1 Hg);
    (pose proof (f_equal fst Hg) as Hw; cbn [fst] in Hw; try rewrite <- Hw).
  - vm_compute. discriminate.
  - reflexivity.
  - reflexivity.
  - reflexivity.
  - discriminate.
Defined.

Lemma typed_nil_client_panics_witness :
  exists tok, (Authenticate (mkAuthenticator "key" TypedNilClient) tok empty_world).2 = Panicked.
Proof.
  set (c := mkClaims "1" "5" "" "" "" RoleCodeUser (2 ^ 40) 0).
  exists (match jwt_sign "key" c with Ok t => t | Err _ => ""%string end).
  apply (typed_nil_client_panics "key" _ empty_world c); [vm_compute; reflexivity | discriminate].
Defined.
End SecurityRuns.
