(* ===== verification/Identity.v ===== *)
(** * Identity: [internal/modules/identity] (repositories and service)

    The repositories are the gorm statements of
    [repository/impl/*_repository_impl.go] and the Redis command of
    [revocation_store_redis.go]; the service is [service/auth_service.go].
    A pointer argument a statement fills in (the ID of a created row) is
    returned.  Errors the code discards ([_ = ...]) are discarded here. *)

From stdpp Require Import base list strings gmap numbers.
From Stdlib Require Import ZArith Lia.
From S2P Require Import Prelude GoStrings GoTime Sha256 Domain Env MemEnv Security.
Open Scope Z_scope.

Definition ErrInvalidCredentials : error :=
  Sentinel "service.ErrInvalidCredentials" "invalid credentials".
Definition ErrInvalidRefreshToken : error :=
  Sentinel "service.ErrInvalidRefreshToken" "invalid refresh token".
Definition ErrUserNotFound : error := Sentinel "service.ErrUserNotFound" "user not found".

Section Repositories.
Context `{E : Env}.

(** ** [userRepositoryImpl]; gorm.Model hides soft-deleted rows *)
Definition not_deleted (u : User) : bool := bool_decide (user_DeletedAt u = None).

Definition found_or_nil {A} (r : result A) : result (option A) :=
  match r with
  | Ok a => Ok (Some a)
  | Err e => if errors_Is e ErrRecordNotFound then Ok None else Err e
  end.

Definition userRepo_FindByEmail (email : string) : M World (result (option User)) :=
  r <-- db_users (gorm_First (fun u => String.eqb (user_Email u) email && not_deleted u)) ;;
  ret (found_or_nil r).

Definition userRepo_FindByID (id : Z) : M World (result (option User)) :=
  r <-- db_users (gorm_First (fun u => (user_ID u =? id) && not_deleted u)) ;;
  ret (found_or_nil r).

(** ** [authSessionRepoImpl] *)
Definition created {A} (m : A) (r : result (list A)) : result A :=
  match r with
  | Ok (m' :: _) => Ok m'
  | Ok [] => Ok m
  | Err e => Err e
  end.

Definition sessionRepo_Create (s : AuthSession) : M World (result AuthSession) :=
  r <-- db_sessions (gorm_Create [s]) ;; ret (created s r).

Definition active_at (now : Time) (s : AuthSession) : bool :=
  bool_decide (session_RevokedAt s = None) && (now <? session_ExpiresAt s).

Definition sessionRepo_FindActiveByID (id : UUID) : M World (result AuthSession) :=
  now <-- time_Now ;;
  db_sessions (gorm_First (fun s => N.eqb (session_ID s) id && active_at now s)).

Definition sessionRepo_ListActiveByUserID (userID : Z) : M World (result (list AuthSession)) :=
  now <-- time_Now ;;
  db_sessions (gorm_Find (select_where (fun s => (session_UserID s =? userID) && active_at now s))).

Definition revoke_session (now : Time) (s : AuthSession) : AuthSession :=
  mkAuthSession (session_ID s) (session_UserID s) (session_ExpiresAt s) (session_LastUsedAt s)
    (Some now) (session_IPAddress s) (session_UserAgent s) (session_CreatedAt s)
    (session_UpdatedAt s).

Definition sessionRepo_RevokeByID (id : UUID) : M World (result (Z * Time)) :=
  now <-- time_Now ;;
  db_sessions (gorm_Updates (fun s => N.eqb (session_ID s) id) (revoke_session now)).

Definition sessionRepo_RevokeAllByUserID (userID : Z) : M World (result (Z * Time)) :=
  now <-- time_Now ;;
  db_sessions (gorm_Updates
    (fun s => (session_UserID s =? userID) && bool_decide (session_RevokedAt s = None))
    (revoke_session now)).

(** ** [refreshTokenRepoImpl] *)
Definition refreshRepo_Create (t : RefreshToken) : M World (result RefreshToken) :=
  r <-- db_tokens (gorm_Create [t]) ;; ret (created t r).

Definition refreshRepo_FindByTokenHash (tokenHash : string) : M World (result RefreshToken) :=
  db_tokens (gorm_First (fun t => String.eqb (token_TokenHash t) tokenHash)).

Definition revoke_token (now : Time) (replacedBy : option UUID) (t : RefreshToken) : RefreshToken :=
  mkRefreshToken (token_ID t) (token_SessionID t) (token_UserID t) (token_TokenHash t)
    (token_ExpiresAt t) (Some now)
    (match replacedBy with Some u => Some u | None => token_ReplacedBy t end)
    (token_CreatedAt t) (token_UpdatedAt t).

Definition refreshRepo_RevokeByID (id : UUID) : M World (result (Z * Time)) :=
  now <-- time_Now ;;
  db_tokens (gorm_Updates (fun t => N.eqb (token_ID t) id) (revoke_token now None)).

Definition not_revoked (t : RefreshToken) : bool := bool_decide (token_RevokedAt t = None).

Definition refreshRepo_RevokeBySessionID (sessionID : UUID) : M World (result (Z * Time)) :=
  now <-- time_Now ;;
  db_tokens (gorm_Updates (fun t => N.eqb (token_SessionID t) sessionID && not_revoked t)
    (revoke_token now None)).

Definition refreshRepo_RevokeByUserID (userID : Z) : M World (result (Z * Time)) :=
  now <-- time_Now ;;
  db_tokens (gorm_Updates (fun t => (token_UserID t =? userID) && not_revoked t)
    (revoke_token now None)).

Definition refreshRepo_MarkReplacement (oldTokenID newTokenID : UUID) : M World (result (Z * Time)) :=
  now <-- time_Now ;;
  db_tokens (gorm_Updates (fun t => N.eqb (token_ID t) oldTokenID)
    (revoke_token now (Some newTokenID))).

(** ** [revocationStoreRedis] *)
Definition revoStore_MarkRevoked (client : UniversalClient) (sessionID : UUID) (expiresAt : Time)
  : M World (result ()) :=
  now <-- time_Now ;;
  let ttl := duration_Round (time_Sub expiresAt now) Second in
  if ttl <=? 0 then ret (Ok tt)
  else
    rnow <-- time_Now ;;
    redis_call client
      (redis_Exec [SETEX (revoked_key (uuid_String sessionID)) "revoked" (rnow + ttl)]).

End Repositories.

Section AuthService.
Context `{E : Env}.

(** [authServiceImpl]: the repositories are the statements above; what they
    close over is the Redis client and the signing secret. *)
Record authServiceImpl := mkAuthService {
  svc_revoClient : UniversalClient;
  svc_jwtSecret : string;
}.

Record LoginResult := mkLoginResult {
  login_AccessToken : string;
  login_RefreshToken : string;
  login_ExpiresIn : Z;
  login_User : User;
}.

Record RefreshResult := mkRefreshResult {
  refresh_AccessToken : string;
  refresh_RefreshToken : string;
  refresh_ExpiresIn : Z;
}.

Definition refresh_ttl : Duration := 7 * 24 * Hour.

Definition new_session (user : User) (now : Time) (ipAddress userAgent : string) : AuthSession :=
  mkAuthSession 0 (user_ID user) (time_Add now refresh_ttl) (Some now) None ipAddress userAgent 0 0.

Definition new_token (sessionID : UUID) (userID : Z) (hash : string) (expiresAt : Time) : RefreshToken :=
  mkRefreshToken 0 sessionID userID hash expiresAt None None 0 0.

Definition Login (s : authServiceImpl) (email password ipAddress userAgent : string)
  : M World (result LoginResult) :=
  user <-? userRepo_FindByEmail email orelse Wrapped "failed to find user" ;;
  match user with
  | None => ret (Err ErrInvalidCredentials)
  | Some user =>
    if negb (bcrypt_matches (user_Password user) password) then ret (Err ErrInvalidCredentials)
    else
      now <-- time_Now ;;
      rawRefreshToken <-- GenerateRefreshToken ;;
      let hashedToken := HashToken rawRefreshToken in
      let refreshExpiresAt := time_Add now refresh_ttl in
      session <-? sessionRepo_Create (new_session user now ipAddress userAgent)
        orelse Wrapped "failed to create session" ;;
      _token <-? refreshRepo_Create
        (new_token (session_ID session) (user_ID user) hashedToken refreshExpiresAt)
        orelse Wrapped "failed to create refresh token" ;;
      accessToken <-? GenerateAccessToken (svc_jwtSecret s) (user_ID user) (user_RoleCode user)
        (session_ID session) orelse Wrapped "failed to sign access token" ;;
      ret (Ok (mkLoginResult accessToken rawRefreshToken (15 * 60) user))
  end.

Definition LogoutAll (s : authServiceImpl) (userID : Z) : M World (result ()) :=
  sessions <-? sessionRepo_ListActiveByUserID userID ;;
  sessionRepo_RevokeAllByUserID userID ;;;
  refreshRepo_RevokeByUserID userID ;;;
  for_each sessions (fun session =>
    revoStore_MarkRevoked (svc_revoClient s) (session_ID session) (session_ExpiresAt session) ;;;
    ret tt) ;;;
  ret (Ok tt).

Definition Logout (s : authServiceImpl) (sessionIDStr : string) : M World (result ()) :=
  match uuid_Parse sessionIDStr with
  | Err _ => ret (Err ErrInvalidRefreshToken)
  | Ok sessionID =>
      session <-- sessionRepo_FindActiveByID sessionID ;;
      match session with
      | Err _ => ret (Ok tt)   (* idempotent *)
      | Ok session =>
          sessionRepo_RevokeByID sessionID ;;;
          refreshRepo_RevokeBySessionID sessionID ;;;
          revoStore_MarkRevoked (svc_revoClient s) (session_ID session) (session_ExpiresAt session) ;;;
          ret (Ok tt)
      end
  end.

Definition Refresh (s : authServiceImpl) (refreshToken : string) : M World (result RefreshResult) :=
  if String.eqb refreshToken "" then ret (Err ErrInvalidRefreshToken)
  else
    let tokenHash := HashToken refreshToken in
    found <-- refreshRepo_FindByTokenHash tokenHash ;;
    match found with
    | Err _ => ret (Err ErrInvalidRefreshToken)
    | Ok foundToken =>
      match token_RevokedAt foundToken with
      | Some _ =>
          (* token reuse detected *)
          LogoutAll s (token_UserID foundToken) ;;;
          ret (Err ErrInvalidRefreshToken)
      | None =>
        now0 <-- time_Now ;;
        if time_Before (token_ExpiresAt foundToken) now0 then ret (Err ErrInvalidRefreshToken)
        else
          session <-- sessionRepo_FindActiveByID (token_SessionID foundToken) ;;
          match session with
          | Err _ => ret (Err ErrInvalidRefreshToken)
          | Ok session =>
            user <-- userRepo_FindByID (session_UserID session) ;;
            match user with
            | Err _ | Ok None => ret (Err ErrUserNotFound)
            | Ok (Some user) =>
              rawRefreshToken <-- GenerateRefreshToken ;;
              let newHash := HashToken rawRefreshToken in
              now <-- time_Now ;;
              let newRefreshExpiresAt :=
                if time_After (time_Add now refresh_ttl) (session_ExpiresAt session)
                then session_ExpiresAt session else time_Add now refresh_ttl in
              let model := new_token (session_ID session) (user_ID user) newHash newRefreshExpiresAt in
              refreshRepo_RevokeByID (token_ID foundToken) ;;;
              createdToken <-- refreshRepo_Create model ;;
              let newID := match createdToken with Ok m => token_ID m | Err _ => token_ID model end in
              refreshRepo_MarkReplacement (token_ID foundToken) newID ;;;
              accessToken <-? GenerateAccessToken (svc_jwtSecret s) (user_ID user)
                (user_RoleCode user) (session_ID session)
                orelse Wrapped "failed to generate new access token" ;;
              ret (Ok (mkRefreshResult accessToken rawRefreshToken (15 * 60)))
            end
          end
      end
    end.

End AuthService.

(** ** Login *)
Section LoginProperties.
Context `{E : Env} {L : EnvLaws E}.
Implicit Types (w : World) (u : User).

(** The user a login is for: the row with this address that is not deleted. *)
Definition account (w : World) (email : string) (u : User) : Prop :=
  u ∈ rows (w_users w) /\ user_Email u = email /\ user_DeletedAt u = None.

(** The rows a successful login adds. *)
Definition login_rows (u : User) (now : Time) (ip ua raw : string)
  (sess : AuthSession) (tok : RefreshToken) : Prop :=
  session_UserID sess = user_ID u /\ session_RevokedAt sess = None /\
  session_ExpiresAt sess = now + 7 * Day /\
  session_IPAddress sess = ip /\ session_UserAgent sess = ua /\
  token_SessionID tok = session_ID sess /\ token_UserID tok = user_ID u /\
  token_TokenHash tok = HashToken raw /\ token_ExpiresAt tok = session_ExpiresAt sess /\
  token_RevokedAt tok = None /\ token_ReplacedBy tok = None.

Lemma created_one {A} `{Model A} (m : A) t t' r m' :
  gorm_Create [m] t = (t', r) -> created m r = Ok m' ->
  exists now gen serial, m' = with_defaults now gen serial m /\ rows t' = rows t ++ [m'] /\
                         (NoClash (rows t) -> NoClash (rows t ++ [m'])).
Proof.
  intros [_ Hr]%Create_outcome Hc. destruct r as [rs|e]; [| done]. destruct Hr as (Hi & Hrows & HN & _).
  apply inserted_one in Hi as (now & gen & serial & ->). cbn in Hc. simplify_eq. eauto 7.
Qed.

Lemma created_none {A} `{Model A} (m : A) t t' r e :
  gorm_Create [m] t = (t', r) -> created m r = Err e -> rows t' = rows t.
Proof.
  intros [_ Hr]%Create_outcome Hc. destruct r as [[|]|]; [done | done |]. by destruct Hr.
Qed.

(** A row that is stored is within its columns. *)
Lemma created_fits {A} `{Model A} (m : A) t t' r m' :
  gorm_Create [m] t = (t', r) -> created m r = Ok m' -> fits m' = true.
Proof.
  intros [_ Hr]%Create_outcome Hc. destruct r as [rs|e]; [| done]. destruct Hr as (Hi & _ & _ & Hf).
  apply inserted_one in Hi as (now & gen & serial & ->). cbn in Hc. simplify_eq.
  by apply Forall_cons_1 in Hf as [? _].
Qed.

Lemma account_unique w email u v :
  NoClash (rows (w_users w)) -> account w email u -> account w email v -> u = v.
Proof.
  intros HN (Hu & He & _) (Hv & He' & _). eapply NoClash_elem; [done.. |].
  cbn. rewrite He, He', String.eqb_refl. apply orb_true_r.
Qed.

Lemma FindByEmail_outcome email w Q X :
  (forall r s, rows s = rows (w_users w) ->
     match r with
     | Ok (Some u) => account w email u
     | Ok None => forall u, ~ account w email u
     | Err e => ~ table_up (w_users w)
     end -> Q r (set_users s w)) ->
  wp (userRepo_FindByEmail email) w Q X.
Proof.
  intros HQ. unfold userRepo_FindByEmail. go_wp. destruct Hst as (Hr & Hup & Hs).
  apply HQ; [done |]. unfold account, not_deleted in *. destruct r as [u|e]; cbn in *.
  - destruct Hs as [Hin Hb]. apply andb_true_iff in Hb as [He Hd].
    apply String.eqb_eq in He. by apply bool_decide_eq_true_1 in Hd.
  - destruct Hs as [Hnf Hupe]. destruct (errors_Is e ErrRecordNotFound) eqn:Hie.
    + intros u (Hin & He & Hd). specialize (Hnf eq_refl u Hin).
      rewrite He, String.eqb_refl, bool_decide_eq_true_2 in Hnf by done. done.
    + intros Hu. rewrite (Hupe Hu), errors_Is_refl in Hie. done.
Qed.

(** C31: Success means the credentials were those of an account, and adds one
    session and one refresh token, stored only as its hash, both of which
    expire seven days after the instant the login read from the clock; the
    access token is signed for the session and expires a quarter of an hour
    after the next reading. *)
Theorem Login_success s email pw ip ua w w' res :
  Login s email pw ip ua w = (w', Done (Ok res)) ->
  account w email (login_User res) /\
  bcrypt_matches (user_Password (login_User res)) pw = true /\
  login_ExpiresIn res = 15 * 60 /\
  exists sess tok,
    login_rows (login_User res) (w_clock w (w_ticks w)) ip ua (login_RefreshToken res) sess tok /\
    rows (w_sessions w') = rows (w_sessions w) ++ [sess] /\
    rows (w_tokens w') = rows (w_tokens w) ++ [tok] /\
    jwt_sign (svc_jwtSecret s)
      (access_claims (user_ID (login_User res)) (user_RoleCode (login_User res)) (session_ID sess)
         (w_clock w (1 + w_ticks w)) (w_clock w (2 + w_ticks w))) = Ok (login_AccessToken res).
Proof.
  intros Hrun. eapply run_wp; [exact Hrun |]. clear Hrun.
  unfold Login, GenerateRefreshToken, sessionRepo_Create, refreshRepo_Create, GenerateAccessToken.
  apply wp_bind, FindByEmail_outcome. intros r t Hrows Hacc. cbn beta.
  go_wp; intros Hres <-; simplify_eq; cbn.
  destruct (created_one _ _ _ _ _ Hst ltac:(done)) as (n1 & g1 & k1 & -> & Hs1 & _).
  destruct (created_one _ _ _ _ _ Hst0 ltac:(done)) as (n2 & g2 & k2 & -> & Hs2 & _).
  split; [done |]. split; [by apply negb_false_iff |]. split; [done |].
  do 2 eexists. split; [| split; [exact Hs1 | split; [exact Hs2 | done]]].
  unfold login_rows, refresh_ttl, Day. repeat split.
Qed.

(** A session whose address is too long for its column is not stored. *)
Lemma Login_address_fits s email pw ip ua w :
  wp (Login s email pw ip ua) w (fun r _ => is_ok r = true -> char_count ip <= 45) (fun _ => True).
Proof.
  unfold Login, GenerateRefreshToken, sessionRepo_Create, refreshRepo_Create, GenerateAccessToken.
  apply wp_bind, FindByEmail_outcome. intros r t Hrows Hacc. cbn beta.
  go_wp; intros Hok; try done.
  pose proof (created_fits _ _ _ _ _ Hst ltac:(done)) as Hf.
  destruct (created_one _ _ _ _ _ Hst ltac:(done)) as (n1 & g1 & k1 & -> & _). cbn in Hf. lia.
Qed.

Lemma Login_refused s email pw ip ua w :
  table_up (w_users w) ->
  (forall u, account w email u -> bcrypt_matches (user_Password u) pw = false) ->
  exists w', Login s email pw ip ua w = (w', Done (Err ErrInvalidCredentials)) /\
    w_sessions w' = w_sessions w /\ w_tokens w' = w_tokens w /\ w_redis w' = w_redis w /\
    rows (w_users w') = rows (w_users w).
Proof.
  intros Hup Hbad.
  apply (wp_outcome (Login s email pw ip ua) w (fun w' => w_sessions w' = w_sessions w /\
    w_tokens w' = w_tokens w /\ w_redis w' = w_redis w /\ rows (w_users w') = rows (w_users w))).
  unfold Login. apply wp_bind, FindByEmail_outcome. intros r t Hrows Hacc. cbn beta.
  destruct r as [[u|]|e]; [| go_wp; auto | done].
  rewrite (Hbad u Hacc). cbn [negb]. go_wp; auto.
Qed.

(** C32: An unknown address and a wrong password give the same error, and the
    attempt leaves sessions, tokens and Redis untouched. *)
Theorem Login_rejects s email pw ip ua w :
  table_up (w_users w) ->
  (forall u, account w email u -> bcrypt_matches (user_Password u) pw = false) ->
  exists w', Login s email pw ip ua w = (w', Done (Err ErrInvalidCredentials)) /\
    w_sessions w' = w_sessions w /\ w_tokens w' = w_tokens w /\ w_redis w' = w_redis w /\
    rows (w_users w') = rows (w_users w).
Proof. apply Login_refused. Qed.

(** A login sets no header and reads no randomness. *)
Lemma Login_frame s email pw ip ua w X :
  wp (Login s email pw ip ua) w (fun r w' =>
    w_headers w' = w_headers w /\ w_random w' = w_random w /\ w_reads w' = w_reads w /\
    forall res, r = Ok res -> login_ExpiresIn res = 15 * 60) X.
Proof.
  unfold Login, userRepo_FindByEmail, GenerateRefreshToken, sessionRepo_Create, refreshRepo_Create,
    GenerateAccessToken.
  go_wp; (split_and!; [done.. | intros res Hres; by simplify_eq]).
Qed.

(** With the right credentials, on a database that answers, only storing the
    session, storing the token or signing can fail. *)
Theorem Login_accepts s email pw ip ua w u :
  table_up (w_users w) -> NoClash (rows (w_users w)) ->
  account w email u -> bcrypt_matches (user_Password u) pw = true ->
  exists w' r, Login s email pw ip ua w = (w', Done r) /\
    match r with
    | Ok res => login_User res = u
    | Err (Wrapped p _) => p ∈ ["failed to create session"; "failed to create refresh token";
                                "failed to sign access token"]
    | Err _ => False
    end.
Proof.
  intros Hup HN Hacc Hpw. apply wp_total.
  unfold Login, GenerateRefreshToken, sessionRepo_Create, refreshRepo_Create, GenerateAccessToken.
  apply wp_bind, FindByEmail_outcome. intros r t Hrows Hr. cbn beta.
  destruct r as [[v|]|e]; [| by destruct (Hr u) | done].
  assert (v = u) as -> by (eapply account_unique; eauto). rewrite Hpw. cbn [negb].
  go_wp; set_solver.
Qed.

(** The first row of a table that answers is stored if it fits. *)
Lemma first_row_stored {A} `{Model A} (m : A) t t' r :
  gorm_Create [m] t = (t', r) -> table_up t -> rows t = [] ->
  (forall now gen serial, fits (with_defaults now gen serial m) = true) ->
  exists m', created m r = Ok m' /\ rows t' = [m'].
Proof.
  intros Hc Hup Hr Hfit. pose proof (Create_outcome _ _ _ _ Hc) as [_ Ho]. destruct r as [rs|e].
  - destruct Ho as (Hi & Hrows & _). apply inserted_one in Hi as (now & gen & serial & ->).
    eexists. split; [reflexivity |]. by rewrite Hrows, Hr.
  - destruct Ho as [_ Hn]. destruct (Hn Hup) as (rs' & (now & gen & serial & ->)%inserted_one & Hbad).
    destruct Hbad. rewrite Hr. split; [| apply Forall_cons_2; [apply Hfit | by apply Forall_nil_2]].
    intros [|i] [|j] x y Hx Hy Hij; done.
Qed.

(** The first login of a deployment: with the password of the account it
    succeeds when the database answers and the token can be signed. *)
Lemma first_Login_succeeds s email pw ip ua w u :
  table_up (w_users w) -> NoClash (rows (w_users w)) ->
  account w email u -> bcrypt_matches (user_Password u) pw = true ->
  table_up (w_sessions w) -> rows (w_sessions w) = [] -> table_up (w_tokens w) -> rows (w_tokens w) = [] ->
  char_count ip <= 45 -> (forall c, is_ok (jwt_sign (svc_jwtSecret s) c) = true) ->
  exists w' res, Login s email pw ip ua w = (w', Done (Ok res)) /\ login_User res = u /\
    exists sess t1 t2, rows (w_sessions w') = [sess] /\
      jwt_sign (svc_jwtSecret s) (access_claims (user_ID u) (user_RoleCode u) (session_ID sess) t1 t2)
      = Ok (login_AccessToken res).
Proof.
  intros Hup HN Hacc Hpw Hus Hs Hut Ht Hip Hsign.
  assert (exists w' r, Login s email pw ip ua w = (w', Done r) /\
            exists res, r = Ok res /\ login_User res = u /\
              exists sess t1 t2, rows (w_sessions w') = [sess] /\
                jwt_sign (svc_jwtSecret s) (access_claims (user_ID u) (user_RoleCode u) (session_ID sess) t1 t2)
                = Ok (login_AccessToken res)) as (w' & r & Hrun & res & -> & H); [| eauto].
  apply wp_total.
  unfold Login, GenerateRefreshToken, sessionRepo_Create, refreshRepo_Create, GenerateAccessToken.
  apply wp_bind, FindByEmail_outcome. intros r t Hrows Hr. cbn beta.
  destruct r as [[v|]|e]; [| by destruct (Hr u) | done].
  assert (v = u) as -> by (eapply account_unique; eauto). rewrite Hpw. cbn [negb]. go_wp.
  all: destruct (first_row_stored _ _ _ _ Hst Hus Hs) as (sess & Hc & Hrs); [intros; cbn; by apply Z.leb_le |].
  all: try congruence.
  all: destruct (first_row_stored _ _ _ _ Hst0 Hut Ht) as (tok & Hc' & _); [done |]; try congruence.
  - eexists. split; [reflexivity |]. split; [done |]. exists sess. world_simpl. do 2 eexists. split; [done |]. cbn. assert (a = sess) as -> by congruence. exact Heqr2.
  - match goal with Hj : jwt_sign _ ?c = Err _ |- _ => specialize (Hsign c); by rewrite Hj in Hsign end.
Qed.

End LoginProperties.

(** ** Revocation *)
Section Revocation.
Context `{E : Env} {L : EnvLaws E}.
Implicit Types (w : World).

Definition monotone (clock : nat -> Time) : Prop := forall i j, (i <= j)%nat -> clock i <= clock j.

(** From [from] until half a second before [expiresAt] Redis answers that the
    session is revoked. *)
Definition marked (d : RedisData) (sid : UUID) (from expiresAt : Time) : Prop :=
  forall t, from <= t -> t < expiresAt - Second / 2 ->
    live_string d t (revoked_key (uuid_String sid)) = Some "revoked"%string.

(** What marking a session at [from] does to the data of Redis. *)
Definition mark_step (d d' : RedisData) (sid : UUID) (from expiresAt : Time) : Prop :=
  (d' = d /\ expiresAt - from <= Second / 2) \/
  exists e, expiresAt - Second / 2 <= e /\
            d' = exec_cmd (SETEX (revoked_key (uuid_String sid)) "revoked" e) d.

Lemma MarkRevoked_outcome c sid expiresAt w Q X :
  (forall w' r, same_db w w' -> (w_ticks w < w_ticks w')%nat ->
    (redis_up (w_redis w) -> redis_up (w_redis w') /\
      mark_step (data (w_redis w)) (data (w_redis w')) sid (w_clock w (w_ticks w)) expiresAt) ->
    Q r w') ->
  (forall w', same_db w w' -> c <> LiveClient -> X w') ->
  expiresAt - w_clock w (w_ticks w) <= max_duration -> monotone (w_clock w) ->
  wp (revoStore_MarkRevoked c sid expiresAt) w Q X.
Proof.
  intros HQ HX Hr Hmono. pose proof (Hmono (w_ticks w) (S (w_ticks w)) ltac:(lia)) as Hle. unfold revoStore_MarkRevoked. apply wp_bind, wp_time_Now. world_simpl.
  set (now := w_clock w (w_ticks w)) in *.
  pose proof (duration_Round_near (time_Sub expiresAt now) Second eq_refl) as Hround.
  unfold time_Sub in *. set (d := Z.max _ _) in *.
  assert (expiresAt - now <= d <= max_duration) as Hd.
  { unfold d, max_duration, min_duration, min_int64, max_int64 in *. lia. }
  specialize (Hround ltac:(lia)). assert (Second / 2 * 2 = Second) as Hs by done.
  destruct (Z.leb_spec (duration_Round d Second) 0).
  - apply wp_ret. apply HQ; world_simpl; [unfold same_db; cbn; auto 8 with lia | lia |].
    intros Hup. split; [done |]. left. split; [done | lia].
  - apply wp_bind, wp_time_Now. world_simpl. apply wp_redis_call.
    + intros -> s a Hx. world_simpl. pose proof (redis_Exec_spec [SETEX (revoked_key (uuid_String sid)) "revoked"
        (w_clock w (S (w_ticks w)) + duration_Round d Second)] (w_redis w)) as [Hu Hd'].
      rewrite Hx in Hu, Hd'. cbn [foldl fst snd] in Hu, Hd'.
      apply HQ; world_simpl; [unfold same_db; cbn; auto 8 with lia | lia |].
      intros Hup. split; [auto |]. right. destruct a as [[]|]; [| done].
      eexists. split; [| exact Hd']. lia.
    + intros Hc. apply HX; [unfold same_db; cbn; auto 8 with lia | done].
Qed.

Lemma revoked_key_inj u v :
  revoked_key (uuid_String u) = revoked_key (uuid_String v) -> u = v.
Proof.
  unfold revoked_key. intros H. assert (uuid_String u = uuid_String v) as Huv
    by (by apply (inj (String.append "revoked_session:"))).
  pose proof (uuid_Parse_String u) as Hu. rewrite Huv, uuid_Parse_String in Hu. congruence.
Qed.

Lemma mark_step_marked d d' sid from from' expiresAt :
  mark_step d d' sid from expiresAt -> from <= from' -> marked d' sid from' expiresAt.
Proof.
  intros [[-> ?]|(e & He & ->)] Hf t ? Ht; [lia |].
  unfold live_string. cbn. rewrite lookup_insert_eq. destruct (Z.ltb_spec t e); [done | lia].
Qed.

Lemma marked_later d sid from from' expiresAt :
  marked d sid from expiresAt -> from <= from' -> marked d sid from' expiresAt.
Proof. intros H ? t ? ?. apply H; lia. Qed.

Lemma mark_step_other d d' sid sid' from expiresAt from' expiresAt' :
  mark_step d d' sid' from' expiresAt' -> marked d sid from expiresAt -> sid <> sid' ->
  marked d' sid from expiresAt.
Proof.
  intros [[-> ?]|(e & He & ->)] Hm Hne t ? ?; [by apply Hm |].
  unfold live_string. cbn. rewrite lookup_insert_ne; [by apply Hm |].
  intros Hk. by apply Hne, revoked_key_inj.
Qed.

Lemma revoke_session_keys now : keeps_keys (revoke_session now).
Proof. by split. Qed.
Lemma revoke_token_keys now by_ : keeps_keys (revoke_token now by_).
Proof. by split. Qed.

Lemma FindActive_finds sid s w X :
  table_up (w_sessions w) -> NoClash (rows (w_sessions w)) ->
  s ∈ rows (w_sessions w) -> session_ID s = sid ->
  active_at (w_clock w (w_ticks w)) s = true ->
  wp (sessionRepo_FindActiveByID sid) w (fun r w' =>
    r = Ok s /\ rows (w_sessions w') = rows (w_sessions w) /\ table_up (w_sessions w') /\
    exists t, w' = set_sessions t (set_ticks (S (w_ticks w)) w)) X.
Proof.
  intros Hup HN Hin <- Hact. unfold sessionRepo_FindActiveByID. go_wp.
  destruct Hst as (Hr & Hu & Hs). split; [| eauto].
  destruct r as [s'|e].
  - destruct Hs as [Hin' [Hid _]%andb_true_iff]. f_equal. eapply NoClash_elem; eauto.
  - destruct Hs as [Hn He]. specialize (He Hup). subst e. specialize (Hn (errors_Is_refl _) s Hin).
    by rewrite Hact, N.eqb_refl in Hn.
Qed.

Lemma mark_loop secret c l w :
  c = LiveClient -> monotone (w_clock w) -> redis_up (w_redis w) ->
  (forall s, s ∈ l -> session_ExpiresAt s - w_clock w (w_ticks w) <= max_duration) ->
  (forall s s', s ∈ l -> s' ∈ l -> session_ID s = session_ID s' -> s = s') ->
  wp (for_each l (fun session =>
        revoStore_MarkRevoked (svc_revoClient (mkAuthService c secret)) (session_ID session)
          (session_ExpiresAt session) ;;; ret tt)) w
    (fun _ w' => same_db w w' /\ redis_up (w_redis w') /\
       forall s, s ∈ l -> marked (data (w_redis w')) (session_ID s) (w_clock w (w_ticks w'))
                            (session_ExpiresAt s)) (fun _ => False).
Proof.
  intros -> Hmono Hup Hrange Hinj. eapply wp_mono; [apply (wp_for_each (fun xs w' =>
    same_db w w' /\ redis_up (w_redis w') /\ exists ys, l = ys ++ xs /\
    forall s, s ∈ ys -> marked (data (w_redis w')) (session_ID s) (w_clock w (w_ticks w'))
                          (session_ExpiresAt s))) |].
  - intros x xs w1 (Hdb & Hu & ys & -> & Hm). cbn [svc_revoClient].
    pose proof Hdb as (_ & _ & _ & _ & _ & Hck & Htk). apply wp_bind, MarkRevoked_outcome; [| done | |].
    + intros w2 r Hdb2 Htk2 Hred. apply wp_ret. destruct (Hred Hu) as [Hu2 Hstep].
      split; [by etrans |]. split; [done |]. exists (ys ++ [x]). split; [by rewrite <- app_assoc |].
      assert (w_clock w (w_ticks w1) <= w_clock w (w_ticks w2)) as Hle by (apply Hmono; lia).
      rewrite Hck in Hstep. intros s [Hs| ->%list_elem_of_singleton]%elem_of_app;
        [| by eapply mark_step_marked].
      destruct (decide (session_ID s = session_ID x)) as [He|Hne].
      * rewrite (Hinj s x); [by eapply mark_step_marked | by apply elem_of_app; left | | done].
        apply elem_of_app; right. by left.
      * eapply mark_step_other; [done | | done]. eapply marked_later; [by apply Hm | done].
    + rewrite Hck. pose proof (Hmono _ _ Htk). specialize (Hrange x ltac:(apply elem_of_app; right; by left)). lia.
    + by rewrite Hck.
  - split; [done |]. split; [done |]. exists []. split; [done |]. set_solver.
  - intros _ w' (Hdb & Hu & ys & Hys & Hm). rewrite app_nil_r in Hys. subst ys. done.
Qed.

(** Every session and refresh token of the user is revoked, those of other
    users are untouched, and each session that was active is marked in Redis. *)
Definition logged_out_everywhere (w w' : World) (uid : Z) : Prop :=
  (forall s, s ∈ rows (w_sessions w') -> session_UserID s = uid -> session_RevokedAt s <> None) /\
  (forall s, session_UserID s <> uid -> s ∈ rows (w_sessions w') <-> s ∈ rows (w_sessions w)) /\
  (forall t, t ∈ rows (w_tokens w') -> token_UserID t = uid -> token_RevokedAt t <> None) /\
  (forall t, token_UserID t <> uid -> t ∈ rows (w_tokens w') <-> t ∈ rows (w_tokens w)) /\
  (forall s, s ∈ rows (w_sessions w) -> session_UserID s = uid ->
     active_at (w_clock w (w_ticks w)) s = true ->
     marked (data (w_redis w')) (session_ID s) (w_clock w (w_ticks w')) (session_ExpiresAt s)).

(** The stores answer, their constraints hold, and time behaves. *)
Definition healthy (w : World) : Prop :=
  monotone (w_clock w) /\ table_up (w_sessions w) /\ table_up (w_tokens w) /\
  redis_up (w_redis w) /\ NoClash (rows (w_sessions w)) /\ NoClash (rows (w_tokens w)) /\
  (forall s, s ∈ rows (w_sessions w) -> session_ExpiresAt s - w_clock w (w_ticks w) <= max_duration).

Lemma LogoutAll_outcome secret uid w :
  healthy w ->
  wp (LogoutAll (mkAuthService LiveClient secret) uid) w
    (fun r w' => r = Ok tt /\ logged_out_everywhere w w' uid) (fun _ => False).
Proof.
  intros (Hmono & Hus & Hut & Hur & HNs & HNt & Hrange).
  unfold LogoutAll, sessionRepo_ListActiveByUserID, sessionRepo_RevokeAllByUserID,
    refreshRepo_RevokeByUserID. go_wp; [| by destruct Hst as (_ & _ & ?)].
  destruct Hst as (Hr0 & Hu0 & Hl). rename a into l.
  apply Updates_applied in Hst0 as (_ & _ & n1 & _ & Hs1);
    [| apply revoke_session_keys | auto | by rewrite Hr0].
  apply Updates_applied in Hst1 as (_ & _ & n2 & _ & Hs2); [| apply revoke_token_keys | done..].
  assert (forall s, s ∈ l <-> s ∈ rows (w_sessions w) /\
            (session_UserID s =? uid) && active_at (w_clock w (w_ticks w)) s = true) as Hin.
  { intros s'. rewrite Hl, !list_elem_of_In, List.filter_In. done. }
  eapply wp_mono; [apply mark_loop; world_simpl; [done | done | done | | ] |].
  - intros s' [Hs' _]%Hin. specialize (Hrange s' Hs').
    pose proof (Hmono (w_ticks w) (S (S (S (w_ticks w)))) ltac:(lia)). lia.
  - intros x y [Hx _]%Hin [Hy _]%Hin He. eapply NoClash_elem; eauto. by apply N.eqb_eq.
  - intros _ w' ((_ & Ess & Ets & _) & _ & Hm). world_simpl. go_wp. split; [done |].
    unfold logged_out_everywhere. rewrite Ess, Ets, Hs1, Hs2, Hr0.
    split; [| split; [| split; [| split]]].
    + apply (update_rows_all _ _ _ _ (fun s => session_UserID s = uid -> session_RevokedAt s <> None));
        [done |]. intros y _ Hy Huid. rewrite Huid, Z.eqb_refl in Hy. by apply bool_decide_eq_false_1 in Hy.
    + intros s' Hne. apply (update_rows_frame (fun s => session_UserID s = uid)); [| done].
      by intros y [?%Z.eqb_eq _]%andb_true_iff.
    + apply (update_rows_all _ _ _ _ (fun t => token_UserID t = uid -> token_RevokedAt t <> None));
        [done |]. intros y _ Hy Huid. rewrite Huid, Z.eqb_refl in Hy. by apply bool_decide_eq_false_1 in Hy.
    + intros t' Hne. apply (update_rows_frame (fun t => token_UserID t = uid)); [| done].
      by intros y [?%Z.eqb_eq _]%andb_true_iff.
    + intros s' Hs' Huid Hact. apply Hm, Hin. by rewrite Huid, Z.eqb_refl.
Qed.

Lemma Logout_no_panic secret sid w :
  wp (Logout (mkAuthService LiveClient secret) sid) w (fun _ _ => True) (fun _ => False).
Proof.
  unfold Logout, sessionRepo_FindActiveByID, sessionRepo_RevokeByID, refreshRepo_RevokeBySessionID,
    revoStore_MarkRevoked, svc_revoClient, redis_call. go_wp; try done.
  apply wp_on. intros. by apply wp_ret.
Qed.

(** Logging out of an active session revokes it, revokes its refresh tokens,
    leaves the other sessions alone and marks the session in Redis until it
    would have expired. *)
Lemma Logout_revokes secret sid s w :
  healthy w -> s ∈ rows (w_sessions w) -> session_ID s = sid ->
  active_at (w_clock w (w_ticks w)) s = true ->
  exists w', Logout (mkAuthService LiveClient secret) (uuid_String sid) w = (w', Done (Ok tt)) /\
    (forall s', s' ∈ rows (w_sessions w') -> session_ID s' = sid -> session_RevokedAt s' <> None) /\
    (forall s', session_ID s' <> sid -> s' ∈ rows (w_sessions w') <-> s' ∈ rows (w_sessions w)) /\
    (forall t, t ∈ rows (w_tokens w') -> token_SessionID t = sid -> token_RevokedAt t <> None) /\
    w_clock w' = w_clock w /\ redis_up (w_redis w') /\
    marked (data (w_redis w')) sid (w_clock w (w_ticks w')) (session_ExpiresAt s).
Proof.
  intros (Hmono & Hus & Hut & Hur & HNs & HNt & Hrange) Hin <- Hact. specialize (Hrange s Hin) as Hexp.
  apply wp_outcome.
  unfold Logout. rewrite uuid_Parse_String.
  unfold sessionRepo_RevokeByID, refreshRepo_RevokeBySessionID.
  apply wp_bind. eapply wp_mono; [by apply (FindActive_finds _ s) |].
  cbn beta. intros r w1 (-> & Hs1 & Hu1 & t & ->). world_simpl. cbn iota. go_wp.
  apply Updates_applied in Hst as (_ & _ & n1 & _ & Hs2);
    [| apply revoke_session_keys | done | by rewrite Hs1].
  apply Updates_applied in Hst0 as (_ & _ & n2 & _ & Hs3); [| apply revoke_token_keys | done..].
  rewrite Hs1 in Hs2. set (k := S (S (S (w_ticks w)))) in *.
  apply MarkRevoked_outcome; [| done | | done].
  - intros w' r' (_ & Ess & Ets & _ & _ & Eck & _) Htk Hred. world_simpl. go_wp.
    destruct (Hred Hur) as [Hup' Hmark]. rewrite Ess, Ets, Eck, Hs2, Hs3.
    split; [done |]. split; [| split; [| split; [| split; [done | split; [done |]]]]].
    + apply (update_rows_all _ _ _ _ (fun s' => session_ID s' = session_ID s -> session_RevokedAt s' <> None));
        [done |]. by intros y _ ?%N.eqb_neq.
    + intros s' Hne. apply (update_rows_frame (fun s' => session_ID s' = session_ID s)); [| done].
      by intros y ?%N.eqb_eq.
    + apply (update_rows_all _ _ _ _ (fun t' => token_SessionID t' = session_ID s -> token_RevokedAt t' <> None));
        [done |].
      intros y _ Hy Hsid. rewrite Hsid, N.eqb_refl in Hy. by apply bool_decide_eq_false_1 in Hy.
    + eapply mark_step_marked; [done |]. apply Hmono. lia.
  - world_simpl. pose proof (Hmono (w_ticks w) k ltac:(lia)). lia.
Qed.
End Revocation.

(** ** Refresh: the ways a call can go *)
Section RefreshCases.
Context `{E : Env} {L : EnvLaws E}.
Implicit Types (w : World).

(** The presented token is live, its session active and its user present. *)
Record refreshable (raw : string) (w : World) (t : RefreshToken) (s : AuthSession) (u : User) : Prop := {
  rf_token : t ∈ rows (w_tokens w);
  rf_hash : token_TokenHash t = HashToken raw;
  rf_live : token_RevokedAt t = None;
  rf_unexpired : w_clock w (w_ticks w) <= token_ExpiresAt t;
  rf_session : s ∈ rows (w_sessions w);
  rf_sid : session_ID s = token_SessionID t;
  rf_active : active_at (w_clock w (S (w_ticks w))) s = true;
  rf_user : u ∈ rows (w_users w);
  rf_uid : user_ID u = session_UserID s;
  rf_undeleted : user_DeletedAt u = None;
}.

(** The three statements of the rotation, from the token table [t0] to [t3]. *)
Definition rotation (t : RefreshToken) (model : RefreshToken) (t0 t3 : Table RefreshToken) : Prop :=
  exists n1 n2 t1 t2 r1 r2 r3,
    gorm_Updates (fun x => N.eqb (token_ID x) (token_ID t)) (revoke_token n1 None) t0 = (t1, r1) /\
    gorm_Create [model] t1 = (t2, r2) /\
    gorm_Updates (fun x => N.eqb (token_ID x) (token_ID t))
      (revoke_token n2 (Some (match created model r2 with Ok m => token_ID m | Err _ => token_ID model end)))
      t2 = (t3, r3).

Definition rotated_model (s : AuthSession) (u : User) (raw' : string) (now : Time) : RefreshToken :=
  new_token (session_ID s) (user_ID u) (HashToken raw')
    (if time_After (time_Add now refresh_ttl) (session_ExpiresAt s)
     then session_ExpiresAt s else time_Add now refresh_ttl).

Lemma FindByID_outcome id w Q X :
  (forall r s, rows s = rows (w_users w) ->
     match r with
     | Ok (Some u) => u ∈ rows (w_users w) /\ user_ID u = id /\ user_DeletedAt u = None
     | _ => True
     end -> Q r (set_users s w)) ->
  wp (userRepo_FindByID id) w Q X.
Proof.
  intros HQ. unfold userRepo_FindByID. go_wp. destruct Hst as (Hr & Hup & Hs).
  apply HQ; [done |]. unfold not_deleted in *. destruct r as [u|e]; cbn in *.
  - destruct Hs as [Hin [?%Z.eqb_eq ?%bool_decide_eq_true_1]%andb_true_iff]. done.
  - by destruct (errors_Is e ErrRecordNotFound).
Qed.

Lemma Refresh_cases s raw w (Q : result RefreshResult -> World -> Prop) X :
  (forall w' e, rows (w_sessions w') = rows (w_sessions w) -> rows (w_tokens w') = rows (w_tokens w) ->
     rows (w_users w') = rows (w_users w) -> w_redis w' = w_redis w ->
     (forall t, t ∈ rows (w_tokens w) -> token_TokenHash t = HashToken raw -> raw <> ""%string ->
        table_up (w_tokens w) -> NoClash (rows (w_tokens w)) -> token_RevokedAt t = None) ->
     e = ErrInvalidRefreshToken \/ e = ErrUserNotFound -> Q (Err e) w') ->
  (forall t tbl, t ∈ rows (w_tokens w) -> token_TokenHash t = HashToken raw ->
     token_RevokedAt t <> None -> rows tbl = rows (w_tokens w) ->
     (table_up (w_tokens w) -> table_up tbl) ->
     wp (LogoutAll s (token_UserID t)) (set_tokens tbl w)
        (fun _ w' => Q (Err ErrInvalidRefreshToken) w') X) ->
  (forall t sess u w' t0 r, refreshable raw w t sess u ->
     rows (w_sessions w') = rows (w_sessions w) -> rows (w_users w') = rows (w_users w) ->
     w_redis w' = w_redis w -> rows t0 = rows (w_tokens w) ->
     (table_up (w_tokens w) -> table_up t0) ->
     rotation t (rotated_model sess u (uuid_String (w_uuids w (w_drawn w)))
                   (w_clock w (S (S (w_ticks w))))) t0 (w_tokens w') ->
     (forall res, r = Ok res -> refresh_RefreshToken res = uuid_String (w_uuids w (w_drawn w)) /\
        refresh_ExpiresIn res = 15 * 60 /\
        exists n1 n2, jwt_sign (svc_jwtSecret s)
          (access_claims (user_ID u) (user_RoleCode u) (session_ID sess) n1 n2)
          = Ok (refresh_AccessToken res)) ->
     Q r w') ->
  wp (Refresh s raw) w Q X.
Proof.
  intros HQrej HQreuse HQrot.
  unfold Refresh, refreshRepo_FindByTokenHash, sessionRepo_FindActiveByID, GenerateRefreshToken,
    refreshRepo_RevokeByID, refreshRepo_Create, refreshRepo_MarkReplacement, GenerateAccessToken.
  destruct (String.eqb_spec raw "") as [Hraw|Hraw].
  { go_wp. apply HQrej; [done.. | | by left]. intros t _ _ Hne. by destruct Hne. }
  apply wp_bind. wp_step. destruct Hst as (Ht0 & Hut & Hfound).
  destruct r as [t|e].
  2: { go_wp. apply HQrej; auto. intros t Hin Hh _ Hup _.
       destruct Hfound as [Hnone He]. rewrite (He Hup) in Hnone.
       specialize (Hnone (errors_Is_refl _) t Hin). by rewrite Hh, String.eqb_refl in Hnone. }
  destruct Hfound as [Hin Hh%String.eqb_eq].
  destruct (token_RevokedAt t) as [n|] eqn:Hrev.
  - apply wp_bind. eapply wp_mono; [apply (HQreuse t s0); auto; congruence |].
    intros a w' H. by apply wp_ret.
  - assert (forall t', t' ∈ rows (w_tokens w) -> token_TokenHash t' = HashToken raw ->
              raw <> ""%string -> table_up (w_tokens w) -> NoClash (rows (w_tokens w)) ->
              token_RevokedAt t' = None) as Hlive.
    { intros t' Hin' Hh' _ _ HN. rewrite (NoClash_elem _ t' t HN Hin' Hin); [done |].
      cbn. rewrite Hh, Hh', String.eqb_refl. apply orb_true_r. }
    apply wp_bind, wp_time_Now. cbn beta. world_simpl. unfold time_Before.
    destruct (Z.ltb_spec (token_ExpiresAt t) (w_clock w (w_ticks w))); [go_wp; apply HQrej; auto |].
    apply wp_bind. do 3 wp_step. destruct Hst as (Hs0 & _ & Hsess).
    destruct r as [sess|e]; [| go_wp; apply HQrej; auto].
    destruct Hsess as [Hsin [Hsid%N.eqb_eq Hact]%andb_true_iff].
    apply wp_bind, FindByID_outcome. intros r s2 Hs2 Hu. cbn beta. world_simpl.
    destruct r as [[u|]|e]; [| go_wp; apply HQrej; auto ..].
    destruct Hu as (Hu & Huid & Hud). go_wp.
    all: eapply HQrot; [by constructor | done.. | | intros res ?; simplify_eq; cbn; eauto].
    all: do 7 eexists; eauto.
Qed.

End RefreshCases.

(** ** The invariant of the two tables *)
Section IdentityInvariant.
Context `{E : Env} {L : EnvLaws E}.
Implicit Types (w : World) (ss : list AuthSession) (ts : list RefreshToken).

(** A refresh token belongs to a stored session of the same user and does not
    outlive it; a replaced token is revoked. *)
Definition token_ok ss (t : RefreshToken) : Prop :=
  (exists s, s ∈ ss /\ session_ID s = token_SessionID t /\ session_UserID s = token_UserID t /\
             token_ExpiresAt t <= session_ExpiresAt s) /\
  (token_ReplacedBy t <> None -> token_RevokedAt t <> None).

Definition stores_ok ss ts : Prop :=
  NoClash ss /\ NoClash ts /\ forall t, t ∈ ts -> token_ok ss t.

Definition identity_inv (w : World) : Prop := stores_ok (rows (w_sessions w)) (rows (w_tokens w)).

Lemma stores_add_session ss ts s :
  stores_ok ss ts -> NoClash (ss ++ [s]) -> stores_ok (ss ++ [s]) ts.
Proof.
  intros (_ & HT & Hok) HN. split; [done |]. split; [done |]. intros t Ht.
  destruct (Hok t Ht) as [(s' & Hs' & ?) Hr]. split; [| done]. exists s'. by rewrite elem_of_app; auto.
Qed.

Lemma stores_add_token ss ts t :
  stores_ok ss ts -> NoClash (ts ++ [t]) -> token_ok ss t -> stores_ok ss (ts ++ [t]).
Proof.
  intros (HS & _ & Hok) HN Ht. split; [done |]. split; [done |].
  intros t' [?| ->%list_elem_of_singleton]%elem_of_app; auto.
Qed.

Lemma stores_revoke_sessions ss ts p n now :
  stores_ok ss ts -> stores_ok (update_rows p (revoke_session n) now ss) ts.
Proof.
  intros (HS & HT & Hok). split; [by apply update_rows_NoClash |]. split; [done |].
  intros t Ht. destruct (Hok t Ht) as [(s & Hs & Hk) Hr]. split; [| done].
  exists (if p s then touched now (revoke_session n s) else s).
  split; [apply elem_of_update_rows; eauto |]. by destruct (p s).
Qed.

Lemma stores_revoke_tokens ss ts p n by_ now :
  stores_ok ss ts -> stores_ok ss (update_rows p (revoke_token n by_) now ts).
Proof.
  intros (HS & HT & Hok). split; [done |]. split; [by apply update_rows_NoClash |].
  apply update_rows_all; [| auto]. intros y Hy _. destruct (Hok y Hy) as [Hs _]. by split.
Qed.
#[local] Hint Resolve stores_add_session stores_add_token stores_revoke_sessions
  stores_revoke_tokens : core.

Lemma inv_sessions_update p n t t' r ts :
  gorm_Updates p (revoke_session n) t = (t', r) -> stores_ok (rows t) ts -> stores_ok (rows t') ts.
Proof. intros [_ [->|[now ->]]]%Updates_rows; auto. Qed.

Lemma inv_tokens_update p n by_ t t' r ss :
  gorm_Updates p (revoke_token n by_) t = (t', r) -> stores_ok ss (rows t) -> stores_ok ss (rows t').
Proof. intros [_ [->|[now ->]]]%Updates_rows; auto. Qed.

Lemma MarkRevoked_same_db c sid expiresAt w Q (X : World -> Prop) :
  (forall w' r, same_db w w' -> Q r w') -> (forall w', same_db w w' -> X w') ->
  wp (revoStore_MarkRevoked c sid expiresAt) w Q X.
Proof.
  intros HQ HX. unfold revoStore_MarkRevoked. go_wp.
  - apply HQ. unfold same_db. cbn. auto 8.
  - apply wp_redis_call; [intros _ s a _; apply HQ | intros _; apply HX];
      unfold same_db; cbn; auto 8 with lia.
Qed.

Lemma identity_inv_same w w' : same_db w w' -> identity_inv w -> identity_inv w'.
Proof. intros (_ & Hs & Ht & _). unfold identity_inv. by rewrite Hs, Ht. Qed.

Lemma Logout_preserves s sid : preserves identity_inv (Logout s sid).
Proof.
  intros w Hinv. unfold Logout, sessionRepo_FindActiveByID, sessionRepo_RevokeByID,
    refreshRepo_RevokeBySessionID, identity_inv in *. go_wp; try done.
  - destruct Hst as (Hr & _). rewrite <- Hr in Hinv.
    eapply inv_sessions_update in Hinv; [| done]. eapply inv_tokens_update in Hinv; [| done].
    apply MarkRevoked_same_db; intros; [apply wp_ret |]; by eapply identity_inv_same.
  - destruct Hst as (Hr & _). by rewrite Hr.
Qed.

Lemma LogoutAll_preserves s uid : preserves identity_inv (LogoutAll s uid).
Proof.
  intros w Hinv. unfold LogoutAll, sessionRepo_ListActiveByUserID, sessionRepo_RevokeAllByUserID,
    refreshRepo_RevokeByUserID, identity_inv in *. go_wp; destruct Hst as (Hr & _); [| by rewrite Hr].
  rewrite <- Hr in Hinv.
  eapply inv_sessions_update in Hinv; [| done]. eapply inv_tokens_update in Hinv; [| done].
  eapply wp_mono; [apply (preserves_for_each identity_inv); [| done] |].
  - intros x w1 Hw1. apply wp_bind, MarkRevoked_same_db; intros; [apply wp_ret |]; by eapply identity_inv_same.
  - intros u w' Hw'. by apply wp_ret.
Qed.

Lemma Login_preserves s email pw ip ua : preserves identity_inv (Login s email pw ip ua).
Proof.
  intros w Hinv. unfold Login, userRepo_FindByEmail, GenerateRefreshToken, sessionRepo_Create,
    refreshRepo_Create, GenerateAccessToken, identity_inv in *. go_wp; try done.
  all: try (by rewrite (created_none _ _ _ _ _ Hst0 ltac:(done))).
  all: destruct (created_one _ _ _ _ _ Hst0 ltac:(done)) as (n1 & g1 & k1 & -> & Hs1 & HN1).
  all: assert (stores_ok (rows s1) (rows (w_tokens w))) as Hok1
         by (rewrite Hs1; apply stores_add_session; [| apply HN1; apply Hinv]; done).
  all: try (by rewrite (created_none _ _ _ _ _ Hst1 ltac:(done))).
  all: destruct (created_one _ _ _ _ _ Hst1 ltac:(done)) as (n2 & g2 & k2 & -> & Hs2 & HN2).
  all: rewrite Hs2; apply stores_add_token; [done | apply HN2, Hinv |].
  all: split; [| done]; eexists; split; [rewrite Hs1; apply elem_of_app; right; by left |].
  all: by split_and!.
Qed.

Lemma Refresh_preserves s raw : preserves identity_inv (Refresh s raw).
Proof.
  intros w Hinv. apply Refresh_cases.
  - intros w' e Hs Ht _ _ _ _. unfold identity_inv. by rewrite Hs, Ht.
  - intros t tbl _ _ _ Htbl _. eapply wp_mono; [apply LogoutAll_preserves |]; [| done].
    unfold identity_inv. world_simpl. by rewrite Htbl.
  - intros t sess u w' t0 r Hrf Hs _ _ Ht0 _ (n1 & n2 & t1 & t2 & r1 & r2 & r3 & H1 & H2 & H3) _.
    unfold identity_inv in *. rewrite Hs. rewrite <- Ht0 in Hinv.
    eapply inv_tokens_update in Hinv; [| exact H1]. eapply inv_tokens_update; [exact H3 |].
    destruct (created _ r2) as [tok|e] eqn:Hc; [| by rewrite (created_none _ _ _ _ _ H2 Hc)].
    destruct (created_one _ _ _ _ _ H2 Hc) as (n & g & k & -> & -> & HN).
    apply stores_add_token; [done | apply HN, Hinv |]. split; [| done].
    exists sess. destruct Hrf. split; [done |]. cbn. split; [done |]. split; [done |].
    unfold time_After. destruct (Z.ltb_spec (session_ExpiresAt sess)
      (time_Add (w_clock w (S (S (w_ticks w)))) refresh_ttl)); lia.
Qed.

(** The operations of the service, for sequences of calls. *)
Inductive auth_call :=
| CallLogin (email password ip ua : string)
| CallRefresh (raw : string)
| CallLogout (sid : string)
| CallLogoutAll (uid : Z).

Definition auth_run (s : authServiceImpl) (c : auth_call) : M World () :=
  match c with
  | CallLogin email password ip ua => Login s email password ip ua ;;; ret tt
  | CallRefresh raw => Refresh s raw ;;; ret tt
  | CallLogout sid => Logout s sid ;;; ret tt
  | CallLogoutAll uid => LogoutAll s uid ;;; ret tt
  end.

(** C17: Whatever calls are made, and whichever statements fail, the tables keep
    their invariant. *)
Theorem identity_inv_always s (calls : list auth_call) w :
  identity_inv w ->
  wp (for_each calls (auth_run s)) w (fun _ => identity_inv) identity_inv.
Proof.
  apply preserves_for_each. intros [] ; cbn; apply preserves_bind; intros;
    eauto using Login_preserves, Refresh_preserves, Logout_preserves, LogoutAll_preserves, preserves_ret.
Qed.

(** ** Rotation *)

(** A refresh that succeeds was given the current token of an active session,
    and answers with a new token of that session and user. *)
Theorem Refresh_success s raw w w' res :
  Refresh s raw w = (w', Done (Ok res)) ->
  exists t sess u, refreshable raw w t sess u /\ refresh_ExpiresIn res = 15 * 60 /\
    rows (w_sessions w') = rows (w_sessions w) /\
    (forall x, x ∈ rows (w_tokens w') -> token_RevokedAt x = None -> x ∉ rows (w_tokens w) ->
       token_SessionID x = session_ID sess /\ token_UserID x = user_ID u /\
       token_TokenHash x = HashToken (refresh_RefreshToken res) /\
       token_ExpiresAt x <= session_ExpiresAt sess) /\
    exists n1 n2, jwt_sign (svc_jwtSecret s)
      (access_claims (user_ID u) (user_RoleCode u) (session_ID sess) n1 n2) = Ok (refresh_AccessToken res).
Proof.
  intros Hrun. eapply run_wp; [exact Hrun |]. clear Hrun. apply Refresh_cases; [done | |].
  { intros. unfold wp. by destruct (LogoutAll _ _ _) as [? []]. }
  intros t sess u w1 t0 r Hrf Hs _ _ Ht0 _ (n1 & n2 & t1 & t2 & r1 & r2 & r3 & H1 & H2 & H3) Hres -> ->.
  destruct (Hres res eq_refl) as (Htok & He & Hsign). exists t, sess, u.
  split; [done |]. split; [done |]. split; [done |]. split; [| done].
  intros x Hx Hlive Hnew. rewrite Htok.
  assert (x ∈ rows t2) as Hx2.
  { apply Updates_rows in H3 as [_ [Hr|[now Hr]]]; rewrite Hr in Hx; [done |].
    apply elem_of_update_rows in Hx as (y & Hy & ->). by destruct (N.eqb _ _). }
  assert (x ∉ rows t1) as Hx1.
  { intros Hx1. apply Updates_rows in H1 as [_ [Hr|[now Hr]]]; rewrite Hr in Hx1; [by apply Hnew; rewrite <- Ht0 |].
    apply elem_of_update_rows in Hx1 as (y & Hy & ->). destruct (N.eqb _ _); [done |]. apply Hnew. by rewrite <- Ht0. }
  destruct (created _ r2) as [m|e] eqn:Hc; [| by rewrite (created_none _ _ _ _ _ H2 Hc) in Hx2].
  destruct (created_one _ _ _ _ _ H2 Hc) as (n & g & k & -> & Hr & _). rewrite Hr in Hx2.
  apply elem_of_app in Hx2 as [?| ->%list_elem_of_singleton]; [done |]. cbn.
  split; [done |]. split; [done |]. split; [done |]. unfold time_After.
  destruct (Z.ltb_spec (session_ExpiresAt sess) (time_Add (w_clock w (S (S (w_ticks w)))) refresh_ttl)); lia.
Qed.

(** At most one refresh token of a session is live. *)
Definition one_live (ts : list RefreshToken) : Prop :=
  forall t t', t ∈ ts -> t' ∈ ts -> token_SessionID t = token_SessionID t' ->
    token_RevokedAt t = None -> token_RevokedAt t' = None -> t = t'.

(** The token table after a rotation on a database that answers. *)
Lemma rotation_applied t model t0 t3 :
  rotation t model t0 t3 -> table_up t0 -> NoClash (rows t0) -> t ∈ rows t0 ->
  exists now new, NoClash (rows t3) /\
    (forall x, x ∈ rows t3 -> token_RevokedAt x = None -> (x ∈ rows t0 \/ x ∈ new) /\ token_ID x <> token_ID t) /\
    (new = [] \/ exists g k, new = [with_defaults now g k model]) /\
    (forall x, x ∈ new -> x ∈ rows t3) /\
    (exists x, x ∈ rows t3 /\ token_ID x = token_ID t /\ token_TokenHash x = token_TokenHash t /\ token_RevokedAt x <> None).
Proof.
  intros (n1 & n2 & t1 & t2 & r1 & r2 & r3 & H1 & H2 & H3) Hup HN Ht.
  apply Updates_applied in H1 as (Hu1 & HN1 & now1 & _ & Hr1); [| done..].
  pose proof (Create_outcome _ _ _ _ H2) as [Hu2 Hc2].
  assert (exists now new, rows t2 = rows t1 ++ new /\ NoClash (rows t2) /\
            (new = [] \/ exists g k, new = [with_defaults now g k model])) as (now & new & Hr2 & HN2 & Hnew).
  { destruct r2 as [rs|e].
    - destruct Hc2 as (Hi & Hr & Hn & _). apply inserted_one in Hi as (now & g & k & ->).
      exists now, [with_defaults now g k model]. rewrite Hr. split; [done |]. split; [auto |]. eauto.
    - destruct Hc2 as [Hr _]. exists 0, []. rewrite Hr, app_nil_r. auto. }
  apply Updates_applied in H3 as (_ & HN3 & now3 & _ & Hr3); [| done | auto | done].
  assert (exists y, y ∈ rows t1 /\ token_ID y = token_ID t /\ token_TokenHash y = token_TokenHash t) as (y & Hy & Hid & Hh).
  { eexists. split; [rewrite Hr1; apply elem_of_update_rows; exists t; split; [done | reflexivity] |]. by rewrite N.eqb_refl. }
  exists now, new. split; [done |]. split; [| split; [done |]; split].
  - rewrite Hr3, Hr2, Hr1. intros x (z & Hz & ->)%elem_of_update_rows Hlive.
    destruct (N.eqb_spec (token_ID z) (token_ID t)) as [?|Hne]; [done |]. split; [| done].
    apply elem_of_app in Hz as [(z' & Hz & ->)%elem_of_update_rows|?]; [| by right].
    left. by destruct (N.eqb _ _).
  - intros x Hx. rewrite Hr3. apply elem_of_update_rows. exists x. split; [rewrite Hr2, elem_of_app; by right |].
    destruct (N.eqb_spec (token_ID x) (token_ID t)) as [He|]; [exfalso | done].
    rewrite Hr2 in HN2. refine (NoClash_apart _ _ _ _ HN2 Hy Hx _). cbn. by rewrite Hid, He, N.eqb_refl.
  - eexists. split; [rewrite Hr3; apply elem_of_update_rows; exists y; split; [rewrite Hr2, elem_of_app; by left | reflexivity] |].
    rewrite Hid, N.eqb_refl. cbn. by rewrite Hh.
Qed.

(** C10: Rotation: on a database that answers, a refresh that succeeds was given
    a live token.  After it that token is revoked, every row with its hash is,
    so that it can never be used again; each session still has at most one live
    token; and the one of this session, if it has any, is the new token the
    answer carries.  (It has none when the database refused the row, an error
    the service drops.) *)
Theorem Refresh_rotates s raw w w' res :
  table_up (w_tokens w) -> identity_inv w -> one_live (rows (w_tokens w)) ->
  Refresh s raw w = (w', Done (Ok res)) ->
  one_live (rows (w_tokens w')) /\
  (forall x, x ∈ rows (w_tokens w') -> token_TokenHash x = HashToken raw -> token_RevokedAt x <> None) /\
  exists t, t ∈ rows (w_tokens w) /\ token_TokenHash t = HashToken raw /\ token_RevokedAt t = None /\
    (exists t', t' ∈ rows (w_tokens w') /\ token_ID t' = token_ID t /\ token_RevokedAt t' <> None) /\
    forall x, x ∈ rows (w_tokens w') -> token_SessionID x = token_SessionID t -> token_RevokedAt x = None ->
      token_TokenHash x = HashToken (refresh_RefreshToken res).
Proof.
  intros Hup (HNs & HNt & Hok) Hone Hrun. eapply run_wp; [exact Hrun |]. clear Hrun.
  apply Refresh_cases; [done | |].
  { intros. unfold wp. by destruct (LogoutAll _ _ _) as [? []]. }
  intros t sess u w1 t0 r Hrf Hs _ _ Ht0 Hut Hrot Hres -> ->. destruct (Hres res eq_refl) as (Htok & _).
  rewrite <- Ht0 in HNt.
  destruct (rotation_applied _ _ _ _ Hrot (Hut Hup) HNt) as (now & new & HN3 & Hx & Hnew & Hin3 & t' & Ht' & Hid' & Hh' & Hrev');
    [rewrite Ht0; apply Hrf |].
  rewrite Ht0 in Hx, HNt.
  assert (forall x, x ∈ new -> token_SessionID x = token_SessionID t /\
            token_TokenHash x = HashToken (refresh_RefreshToken res)) as Hn.
  { intros x Hin. destruct Hnew as [->|(g & k & ->)]; [by apply not_elem_of_nil in Hin |].
    apply list_elem_of_singleton in Hin as ->. rewrite Htok. split; [apply Hrf | done]. }
  assert (forall x y, x ∈ new -> y ∈ new -> x = y) as Hsame.
  { intros x y Hin Hin'. destruct Hnew as [->|(g & k & ->)]; [by apply not_elem_of_nil in Hin |].
    apply list_elem_of_singleton in Hin, Hin'. congruence. }
  assert (forall x y, x ∈ rows (w_tokens w) -> token_RevokedAt x = None -> token_ID x <> token_ID t ->
            y ∈ new -> token_SessionID x <> token_SessionID y) as Hdisj.
  { intros x y Hin Hl Hid Hy Hsid. apply Hid. f_equal. destruct (Hn y Hy) as [He _].
    apply Hone; [done | apply Hrf | congruence | done | apply Hrf]. }
  split; [| split].
  - intros x y Hx3 Hy3 Hsid Hlx Hly.
    destruct (Hx x Hx3 Hlx) as [[?|?] ?], (Hx y Hy3 Hly) as [[?|?] ?].
    + by apply Hone.
    + by destruct (Hdisj x y).
    + by destruct (Hdisj y x).
    + by apply Hsame.
  - intros x Hx3 Hh Hl. destruct (Hx x Hx3 Hl) as [_ Hid]. destruct Hid. rewrite <-Hid'. f_equal.
    eapply NoClash_elem; [exact HN3 | done | done |].
    cbn. rewrite Hh, Hh', (rf_hash _ _ _ _ _ Hrf), String.eqb_refl. apply orb_true_r.
  - exists t. split; [apply Hrf |]. split; [apply Hrf |]. split; [apply Hrf |]. split; [eauto |].
    intros x Hx3 Hsid Hl. destruct (Hx x Hx3 Hl) as [[Hin|Hin] Hid]; [| by apply Hn].
    destruct Hid. f_equal. apply Hone; [done | apply Hrf | done | done | apply Hrf].
Qed.

(** C18: Reuse detection: presenting a revoked token fails and logs its user out
    everywhere. *)
Theorem Refresh_reuse_logs_out secret raw w t :
  healthy w -> raw <> ""%string -> t ∈ rows (w_tokens w) ->
  token_TokenHash t = HashToken raw -> token_RevokedAt t <> None ->
  exists w', Refresh (mkAuthService LiveClient secret) raw w
             = (w', Done (Err ErrInvalidRefreshToken)) /\
             logged_out_everywhere w w' (token_UserID t).
Proof.
  intros Hh Hraw Hin Hhash Hrev. apply wp_outcome. pose proof Hh as (Hm & Hus & Hut & Hur & HNs & HNt & Hrg).
  apply Refresh_cases.
  - intros w' e _ _ _ _ Hl _. by destruct Hrev, (Hl t).
  - intros t' tbl Hin' Hh' _ Htbl Hutbl.
    assert (t' = t) as ->.
    { eapply NoClash_elem; [exact HNt | done.. |]. cbn. rewrite Hhash, Hh', String.eqb_refl. apply orb_true_r. }
    eapply wp_mono; [apply LogoutAll_outcome |].
    + unfold healthy. world_simpl. rewrite Htbl. auto 10.
    + intros r w' (-> & Ho). split; [done |]. unfold logged_out_everywhere in *. world_simpl.
      by rewrite Htbl in Ho.
  - intros t' sess u w' t0 r Hrf _ _ _ _ _ _ _. destruct Hrev.
    rewrite (NoClash_elem _ t t' HNt Hin (rf_token _ _ _ _ _ Hrf)); [apply Hrf |].
    cbn. rewrite Hhash, (rf_hash _ _ _ _ _ Hrf), String.eqb_refl. apply orb_true_r.
Qed.

(** LogoutAll, on stores that answer. *)
Theorem LogoutAll_revokes secret uid w :
  healthy w ->
  exists w', LogoutAll (mkAuthService LiveClient secret) uid w = (w', Done (Ok tt)) /\
             logged_out_everywhere w w' uid.
Proof. intros Hh. apply wp_outcome. by apply LogoutAll_outcome. Qed.

(** C19: Logging out of an active session ends every access it gave: its row and its
    refresh tokens are revoked, other sessions are untouched, and until half a
    second before the session would have expired no access token of it
    authenticates. *)
Theorem Logout_ends_access secret s w :
  healthy w -> s ∈ rows (w_sessions w) -> active_at (w_clock w (w_ticks w)) s = true ->
  uuid_String (session_ID s) <> ""%string ->
  exists w', Logout (mkAuthService LiveClient secret) (uuid_String (session_ID s)) w = (w', Done (Ok tt)) /\
    (forall s', s' ∈ rows (w_sessions w') -> session_ID s' = session_ID s -> session_RevokedAt s' <> None) /\
    (forall s', session_ID s' <> session_ID s ->
       s' ∈ rows (w_sessions w') <-> s' ∈ rows (w_sessions w)) /\
    (forall t, t ∈ rows (w_tokens w') -> token_SessionID t = session_ID s -> token_RevokedAt t <> None) /\
    forall w2 tok c,
      w_redis w2 = w_redis w' -> w_clock w2 = w_clock w -> (w_ticks w' <= w_ticks w2)%nat ->
      w_clock w (S (w_ticks w2)) < session_ExpiresAt s - Second / 2 ->
      jwt_parse secret (w_clock w2 (w_ticks w2)) tok = Ok c ->
      claims_SessionID c = uuid_String (session_ID s) ->
      (Authenticate (mkAuthenticator secret LiveClient) tok w2).2 =
      Done (Err (Fresh "session is already revoked")).
Proof.
  intros Hh Hin Hact Hne. pose proof Hh as (Hmono & _).
  destruct (Logout_revokes secret (session_ID s) s w Hh Hin eq_refl Hact)
    as (w' & Hrun & H1 & H2 & H3 & Hck & Hup & Hm).
  exists w'. split_and!; [done..|]. intros w2 tok c Hred Hck2 Htk Hlt Hp Hc.
  apply (Authenticate_revoked (mkAuthenticator secret LiveClient) tok w2 c);
    [done | done | by rewrite Hc | by rewrite Hred |].
  rewrite Hred, Hck2, Hc. exists "revoked"%string. apply Hm; [| done]. apply Hmono. lia.
Qed.

End IdentityInvariant.

(** ** Concrete runs *)
Section IdentityRuns.
#[local] Existing Instance mem_env.
#[local] Existing Instance mem_laws.

Definition demo_user : User :=
  mkUser 1 1 1 None "ops@example.com" "$2a$secret" RoleCodeAdmin.
Definition demo_service : authServiceImpl := mkAuthService LiveClient "key".
Definition demo_session : AuthSession :=
  mkAuthSession 5 1 (mem_start + 7 * Day) None None "ip" "ua" 1 1.
Definition demo_token (revoked : option Time) : RefreshToken :=
  mkRefreshToken 6 5 1 (HashToken "raw") (mem_start + 7 * Day) revoked None 1 1.
Definition demo_world (revoked : option Time) (faults : list bool) : World :=
  mem_world [demo_user] [demo_session] (mkMemTable [demo_token revoked] faults 100 1)
    (mem_table []) (mem_table []) (mem_redis no_data).

Definition outcome_ok {A} (r : World * exec (result A)) : bool :=
  match r.2 with Done (Ok _) => true | _ => false end.

Lemma outcome_ok_run {A} (r : World * exec (result A)) :
  outcome_ok r = true -> exists w' a, r = (w', Done (Ok a)).
Proof. destruct r as [w [[a|]|]]; [eauto | done | done]. Qed.

(** The errors of the three statements of a rotation are discarded: when the
    update statements fail, the caller receives new tokens and the token it
    presented remains valid; when the insert fails, the caller receives a
    refresh token that was never stored. *)
Theorem Refresh_discards_errors :
  (let '(w1, r1) := Refresh demo_service "raw" (demo_world None [false; true; false; true]) in
   outcome_ok (w1, r1) = true /\ outcome_ok (Refresh demo_service "raw" w1) = true) /\
  match Refresh demo_service "raw" (demo_world None [false; false; true; false]) with
  | (w1, Done (Ok res)) =>
      (Refresh demo_service (refresh_RefreshToken res) w1).2 = Done (Err ErrInvalidRefreshToken)
  | _ => False
  end.
Proof. vm_compute. auto. Qed.

Lemma demo_healthy revoked : healthy (demo_world revoked []).
Proof.
  unfold healthy. split; [intros i j Hij; cbn; unfold Second; lia |].
  split; [by constructor |]. split; [by constructor |]. split; [by constructor |].
  split; [by apply mem_NoClash |]. split; [by apply mem_NoClash |].
  cbn. intros s ->%list_elem_of_singleton. by vm_compute.
Qed.

Lemma demo_inv : identity_inv (demo_world None []).
Proof.
  split; [by apply mem_NoClash |]. split; [by apply mem_NoClash |].
  cbn. intros t ->%list_elem_of_singleton. split; [| done].
  exists demo_session. split; [by left | by vm_compute].
Qed.

Lemma Login_success_witness :
  exists w' res, Login demo_service "ops@example.com" "secret" "ip" "ua" (demo_world None []) = (w', Done (Ok res)) /\
    login_ExpiresIn res = 15 * 60.
Proof.
  destruct (outcome_ok_run (Login demo_service "ops@example.com" "secret" "ip" "ua" (demo_world None []))) as (w' & res & H); [by vm_compute |].
  exists w', res. split; [exact H |]. exact (proj1 (proj2 (proj2 (Login_success _ _ _ _ _ _ _ _ H)))).
Defined.

Lemma Login_rejects_witness :
  exists w', Login demo_service "ops@example.com" "guess" "ip" "ua" (demo_world None [])
    = (w', Done (Err ErrInvalidCredentials)) /\ w_sessions w' = w_sessions (demo_world None []).
Proof.
  destruct (Login_rejects demo_service "ops@example.com" "guess" "ip" "ua" (demo_world None []))
    as (w' & H & Hs & _); [by constructor | | exists w'; split; [exact H | exact Hs]].
  intros u (Hin & _). apply list_elem_of_singleton in Hin as ->. reflexivity.
Defined.

Lemma Login_accepts_witness :
  exists w' res, Login demo_service "ops@example.com" "secret" "ip" "ua" (demo_world None []) = (w', Done (Ok res)) /\
    login_User res = demo_user.
Proof.
  destruct (Login_accepts demo_service "ops@example.com" "secret" "ip" "ua" (demo_world None []) demo_user)
    as (w' & [res|e] & H & Hr); [by constructor | by apply mem_NoClash | by repeat split; left | done | |].
  - exists w', res. split; [exact H | exact Hr].
  - destruct (outcome_ok_run (Login demo_service "ops@example.com" "secret" "ip" "ua" (demo_world None [])))
      as (w2 & res & H'); [by vm_compute | congruence].
Defined.

Lemma identity_inv_always_witness :
  wp (for_each [CallLogin "ops@example.com" "secret" "ip" "ua"; CallRefresh "raw"; CallLogoutAll 1]
        (auth_run demo_service)) (demo_world None []) (fun _ => identity_inv) identity_inv.
Proof. apply identity_inv_always. exact demo_inv. Defined.

Lemma Refresh_success_witness :
  exists w' res, Refresh demo_service "raw" (demo_world None []) = (w', Done (Ok res)) /\
    refresh_ExpiresIn res = 15 * 60.
Proof.
  destruct (outcome_ok_run (Refresh demo_service "raw" (demo_world None []))) as (w' & res & H); [by vm_compute |].
  exists w', res. split; [exact H |].
  destruct (Refresh_success _ _ _ _ _ H) as (t & s & u & _ & He & _). exact He.
Defined.

Lemma Refresh_rotates_witness :
  exists w' res, Refresh demo_service "raw" (demo_world None []) = (w', Done (Ok res)) /\
    one_live (rows (w_tokens w')) /\
    forall x, x ∈ rows (w_tokens w') -> token_TokenHash x = HashToken "raw" -> token_RevokedAt x <> None.
Proof.
  destruct (outcome_ok_run (Refresh demo_service "raw" (demo_world None []))) as (w' & res & H); [by vm_compute |].
  exists w', res. split; [exact H |].
  destruct (Refresh_rotates demo_service "raw" (demo_world None []) w' res) as (Hone & Hrev & _);
    [by constructor | exact demo_inv | | exact H | split; [exact Hone | exact Hrev]].
  intros t t' ->%list_elem_of_singleton ->%list_elem_of_singleton. done.
Defined.

Lemma Refresh_reuse_logs_out_witness :
  exists w', Refresh demo_service "raw" (demo_world (Some 5) []) = (w', Done (Err ErrInvalidRefreshToken)) /\
    logged_out_everywhere (demo_world (Some 5) []) w' 1.
Proof.
  apply (Refresh_reuse_logs_out "key" "raw" (demo_world (Some 5) []) (demo_token (Some 5)));
    [apply demo_healthy | done | by left | done | done].
Defined.

Lemma LogoutAll_revokes_witness :
  exists w', LogoutAll demo_service 1 (demo_world None []) = (w', Done (Ok tt)) /\
    logged_out_everywhere (demo_world None []) w' 1.
Proof. apply LogoutAll_revokes, demo_healthy. Defined.

Lemma Logout_ends_access_witness :
  exists w', Logout demo_service "5" (demo_world None []) = (w', Done (Ok tt)) /\
    forall t, t ∈ rows (w_tokens w') -> token_SessionID t = session_ID demo_session -> token_RevokedAt t <> None.
Proof.
  destruct (Logout_ends_access "key" demo_session (demo_world None [])) as (w' & H & _ & _ & Ht & _);
    [apply demo_healthy | by left | done | done | exists w'; split; [exact H | exact Ht]].
Defined.
End IdentityRuns.
