(* ===== verification/Rotation.v ===== *)
(** * Rotation: refresh tokens under concurrent calls

    [Refresh] of [identity/service/auth_service.go] makes its statements one
    by one, without a transaction: it finds the token, finds the session and
    the user, revokes the token, stores the new one and links the two.
    [Identity.Refresh_rotates] runs a refresh alone; here refreshes, logins and
    logouts interleave between statements.

    As long as no two calls work on one session at a time, every session has
    at most one live refresh token at every moment; two refreshes at once break
    this.  A session that a logout has revoked lets no further refresh pass,
    whatever interleaves. *)

From stdpp Require Import base list strings gmap numbers relations functions.
From Stdlib Require Import ZArith Lia.
From S2P Require Import Prelude Interleave GoStrings GoTime Domain Env MemEnv Security Identity.
Open Scope Z_scope.

(** Where a call is. *)
Inductive auth_pc :=
| AIdle
| AFound (t : RefreshToken)                       (* Refresh: the token is read and not revoked *)
| AReady (t : RefreshToken)                       (* the session is read and active *)
| ARevoked (t : RefreshToken)                     (* the token is revoked, the new one not stored *)
| AStored (t : RefreshToken) (new : UUID)
| ALogin (sid : UUID).                            (* Login: the session is stored *)

(** The session a call works on. *)
Definition works_on (p : auth_pc) : option UUID :=
  match p with
  | AIdle => None
  | AFound t | AReady t | ARevoked t | AStored t _ => Some (token_SessionID t)
  | ALogin sid => Some sid
  end.

Section Rotation.
Context `{E : Env} {L : EnvLaws E}.
(** Whether the calls on a session exclude each other. *)
Variable serial : bool.

Record AuthState := mkAuth { au_world : World; au_calls : nat -> auth_pc }.

(** The statements of [Logout] and [LogoutAll] on the two tables. *)
Inductive revocation : M World (result (Z * Time)) -> Prop :=
| rev_session id : revocation (sessionRepo_RevokeByID id)
| rev_sessions uid : revocation (sessionRepo_RevokeAllByUserID uid)
| rev_tokens id : revocation (refreshRepo_RevokeBySessionID id)
| rev_user_tokens uid : revocation (refreshRepo_RevokeByUserID uid).

Inductive auth_step : AuthState -> AuthState -> Prop :=
(* Refresh *)
| a_find i hash t cs w w' :
    cs i = AIdle -> refreshRepo_FindByTokenHash hash w = (w', Done (Ok t)) -> token_RevokedAt t = None ->
    (serial = true -> forall j, works_on (cs j) <> Some (token_SessionID t)) ->
    auth_step (mkAuth w cs) (mkAuth w' (<[i := AFound t]> cs))
| a_check i t s cs w w' :
    cs i = AFound t -> sessionRepo_FindActiveByID (token_SessionID t) w = (w', Done (Ok s)) ->
    auth_step (mkAuth w cs) (mkAuth w' (<[i := AReady t]> cs))
| a_revoke i t r cs w w' :
    cs i = AReady t -> refreshRepo_RevokeByID (token_ID t) w = (w', Done r) ->
    auth_step (mkAuth w cs) (mkAuth w' (<[i := ARevoked t]> cs))
| a_store i t uid hash expiresAt r cs w w' :
    let model := new_token (token_SessionID t) uid hash expiresAt in
    cs i = ARevoked t -> refreshRepo_Create model w = (w', Done r) ->
    auth_step (mkAuth w cs)
      (mkAuth w' (<[i := AStored t (match r with Ok m => token_ID m | Err _ => token_ID model end)]> cs))
| a_link i t new r cs w w' :
    cs i = AStored t new -> refreshRepo_MarkReplacement (token_ID t) new w = (w', Done r) ->
    auth_step (mkAuth w cs) (mkAuth w' (<[i := AIdle]> cs))
| a_refused i t cs w :
    cs i = AFound t \/ cs i = AReady t -> auth_step (mkAuth w cs) (mkAuth w (<[i := AIdle]> cs))
(* Login *)
| a_session i user now ip ua s cs w w' :
    cs i = AIdle -> sessionRepo_Create (new_session user now ip ua) w = (w', Done (Ok s)) ->
    auth_step (mkAuth w cs) (mkAuth w' (<[i := ALogin (session_ID s)]> cs))
| a_first_token i sid uid hash expiresAt r cs w w' :
    cs i = ALogin sid -> refreshRepo_Create (new_token sid uid hash expiresAt) w = (w', Done r) ->
    auth_step (mkAuth w cs) (mkAuth w' (<[i := AIdle]> cs))
(* Logout, LogoutAll *)
| a_logout m r cs w w' :
    revocation m -> m w = (w', Done r) -> auth_step (mkAuth w cs) (mkAuth w' cs)
(* statements that read, and everything else that leaves the two tables alone *)
| a_other cs w w' :
    rows (w_tokens w') = rows (w_tokens w) -> rows (w_sessions w') = rows (w_sessions w) ->
    (table_up (w_tokens w) -> table_up (w_tokens w')) ->
    auth_step (mkAuth w cs) (mkAuth w' cs).
End Rotation.

(** ** Statements *)
Section Statements.
Context `{E : Env} {L : EnvLaws E}.
#[local] Abbreviation tokens w := (rows (w_tokens w)).
#[local] Abbreviation sessions w := (rows (w_sessions w)).

(** [w'] has the sessions of [w], perhaps revoked, and no further live token;
    the live tokens with [gone] are revoked. *)
Record revokes (gone : RefreshToken -> bool) (w w' : World) : Prop := {
  rv_up : table_up (w_tokens w) -> table_up (w_tokens w');
  rv_tokens : NoClash (tokens w) -> NoClash (tokens w');
  rv_sessions : NoClash (sessions w) -> NoClash (sessions w');
  rv_kept : forall s, s ∈ sessions w -> exists s', s' ∈ sessions w' /\ session_ID s' = session_ID s;
  rv_from : forall t', t' ∈ tokens w' -> exists t, t ∈ tokens w /\ token_SessionID t = token_SessionID t';
  rv_live : forall t, t ∈ tokens w' -> token_RevokedAt t = None -> t ∈ tokens w /\ (table_up (w_tokens w) -> NoClash (tokens w) -> gone t = false);
  rv_dead : forall s', s' ∈ sessions w' -> session_RevokedAt s' = None -> s' ∈ sessions w;
  rv_ids : forall s', s' ∈ sessions w' -> exists s, s ∈ sessions w /\ session_ID s = session_ID s';
}.

(** An update of tokens that revokes. *)
Lemma token_update p by_ w w' r :
  (now <-- time_Now ;; db_tokens (gorm_Updates p (revoke_token now by_)))%go w = (w', Done r) -> revokes p w w'.
Proof.
  intros Hrun. eapply run_wp; [exact Hrun |]. clear Hrun. apply wp_bind, wp_time_Now. unfold db_tokens. apply wp_on.
  intros t a Hst _ <-. world_simpl.
  pose proof (Updates_outcome _ _ _ _ _ Hst) as [Hup _]. pose proof (Updates_rows _ _ _ _ _ Hst) as [HN Hr].
  split; world_simpl; [done | done | done | eauto | | | done | eauto].
  - intros t' Ht'. destruct Hr as [Hr|[now Hr]]; rewrite Hr in Ht'; [eauto |].
    apply elem_of_update_rows in Ht' as (y & Hy & ->). exists y. split; [done |]. by destruct (p y).
  - intros t' Ht' Hl. split.
    + destruct Hr as [Hr|[now Hr]]; rewrite Hr in Ht'; [done |].
      apply elem_of_update_rows in Ht' as (y & Hy & ->). by destruct (p y).
    + intros Hu Hc. destruct (Updates_applied _ _ _ _ _ Hst (revoke_token_keys _ _) Hu Hc) as (_ & _ & now & _ & Hr').
      rewrite Hr' in Ht'. apply elem_of_update_rows in Ht' as (y & Hy & ->). by destruct (p y) eqn:Hp.
Qed.

(** An update of sessions that revokes. *)
Lemma session_update p w w' r :
  (now <-- time_Now ;; db_sessions (gorm_Updates p (revoke_session now)))%go w = (w', Done r) -> revokes (fun _ => false) w w'.
Proof.
  intros Hrun. eapply run_wp; [exact Hrun |]. clear Hrun. apply wp_bind, wp_time_Now. unfold db_sessions. apply wp_on.
  intros t a Hst _ <-. world_simpl. pose proof (Updates_rows _ _ _ _ _ Hst) as [HN Hr].
  split; world_simpl; [done | done | done | | eauto | by auto | |].
  - intros s Hs. destruct Hr as [->|[now ->]]; [eauto |].
    exists (if p s then touched now (revoke_session (w_clock w (w_ticks w)) s) else s).
    split; [apply elem_of_update_rows; eauto | by destruct (p s)].
  - intros s' Hs' Hl. destruct Hr as [Hr|[now Hr]]; rewrite Hr in Hs'; [done |].
    apply elem_of_update_rows in Hs' as (y & Hy & ->). by destruct (p y).
  - intros s' Hs'. destruct Hr as [Hr|[now Hr]]; rewrite Hr in Hs'; [eauto |].
    apply elem_of_update_rows in Hs' as (y & Hy & ->). exists y. split; [done |]. by destruct (p y).
Qed.

Lemma revocation_revokes m w w' r : revocation m -> m w = (w', Done r) -> exists gone, revokes gone w w'.
Proof. intros [] Hrun; eexists; first [by eapply session_update | by eapply (token_update _ None)]. Qed.

(** A token that is stored, or refused. *)
Lemma token_stored model w w' r :
  refreshRepo_Create model w = (w', Done r) ->
  sessions w' = sessions w /\ (table_up (w_tokens w) -> table_up (w_tokens w')) /\
  exists new, tokens w' = tokens w ++ new /\ (NoClash (tokens w) -> NoClash (tokens w')) /\
    (new = [] \/ exists x, new = [x] /\ token_SessionID x = token_SessionID model).
Proof.
  intros Hrun. eapply run_wp; [exact Hrun |]. clear Hrun. unfold refreshRepo_Create. go_wp. intros _ <-.
  apply Create_outcome in Hst as [Hup Hc]. world_simpl. split; [done |]. split; [done |]. destruct r0 as [rs|e].
  - destruct Hc as (Hi & Hr & HN & _). apply inserted_one in Hi as (now & g & k & ->).
    exists [with_defaults now g k model]. rewrite Hr. split; [done |]. split; [done |]. right. eexists. by split.
  - destruct Hc as [Hr _]. exists []. rewrite Hr, app_nil_r. auto.
Qed.

Lemma session_stored s w w' s' :
  sessionRepo_Create s w = (w', Done (Ok s')) ->
  w_tokens w' = w_tokens w /\ sessions w' = sessions w ++ [s'] /\ (NoClash (sessions w) -> NoClash (sessions w')).
Proof.
  intros Hrun. eapply run_wp; [exact Hrun |]. clear Hrun. unfold sessionRepo_Create. go_wp. intros Hc <-. world_simpl.
  destruct (created_one _ _ _ _ _ Hst Hc) as (now & g & k & -> & Hr & HN). rewrite Hr. done.
Qed.

Lemma token_found hash w w' t :
  refreshRepo_FindByTokenHash hash w = (w', Done (Ok t)) ->
  tokens w' = tokens w /\ sessions w' = sessions w /\ (table_up (w_tokens w) -> table_up (w_tokens w')) /\ t ∈ tokens w.
Proof.
  intros Hrun. eapply run_wp; [exact Hrun |]. clear Hrun. unfold refreshRepo_FindByTokenHash. go_wp. intros -> <-.
  destruct Hst as (Hr & Hup & Ht & _). done.
Qed.

Lemma session_found id w w' s :
  sessionRepo_FindActiveByID id w = (w', Done (Ok s)) ->
  tokens w' = tokens w /\ sessions w' = sessions w /\ w_tokens w' = w_tokens w /\
  s ∈ sessions w /\ session_ID s = id /\ session_RevokedAt s = None.
Proof.
  intros Hrun. eapply run_wp; [exact Hrun |]. clear Hrun. unfold sessionRepo_FindActiveByID. go_wp. intros -> <-.
  destruct Hst as (Hr & _ & Hs & [Hid%N.eqb_eq [Ha%bool_decide_eq_true_1 _]%andb_true_iff]%andb_true_iff). world_simpl. done.
Qed.
End Statements.

(** ** Calls that exclude each other *)
Section OneLive.
Context `{E : Env} {L : EnvLaws E}.
#[local] Abbreviation tokens w := (rows (w_tokens w)).
#[local] Abbreviation sessions w := (rows (w_sessions w)).
#[local] Abbreviation step := (auth_step true).

Definition has_session (w : World) (sid : UUID) : Prop := exists s, s ∈ sessions w /\ session_ID s = sid.
Definition live_in (w : World) (sid : UUID) (t : RefreshToken) : Prop :=
  t ∈ tokens w /\ token_RevokedAt t = None /\ token_SessionID t = sid.

(** What a call knows: the one token that may be live, or that none is. *)
Definition aware (w : World) (p : auth_pc) : Prop :=
  match p with
  | AIdle | AStored _ _ => True
  | AFound t | AReady t => forall x, live_in w (token_SessionID t) x -> token_ID x = token_ID t
  | ARevoked t => forall x, ~ live_in w (token_SessionID t) x
  | ALogin sid => forall x, ~ live_in w sid x
  end.

Record rotation_inv (w : World) (cs : nat -> auth_pc) : Prop := {
  ri_up : table_up (w_tokens w);
  ri_tokens : NoClash (tokens w);
  ri_sessions : NoClash (sessions w);
  ri_owned : forall t, t ∈ tokens w -> has_session w (token_SessionID t);
  ri_held : forall i h, works_on (cs i) = Some h -> has_session w h;
  ri_one : one_live (tokens w);
  ri_exclusive : forall i j h, works_on (cs i) = Some h -> works_on (cs j) = Some h -> i = j;
  ri_aware : forall i, aware w (cs i);
}.

(** What a call knows stays true while its session gets no live token. *)
Lemma aware_less w w' p :
  aware w p -> (forall h x, works_on p = Some h -> live_in w' h x -> live_in w h x) -> aware w' p.
Proof.
  intros Hp Hless. destruct p; cbn in *; try done; intros x Hx;
    first [apply Hp; by apply Hless | eapply Hp; by apply Hless].
Qed.

(** A step of the call [i]: only its own session may get a live token. *)
Lemma inv_move w w' cs i p :
  rotation_inv w cs ->
  table_up (w_tokens w') -> NoClash (tokens w') -> NoClash (sessions w') ->
  (forall h, has_session w h -> has_session w' h) ->
  (forall t, t ∈ tokens w' -> has_session w' (token_SessionID t)) ->
  (forall h x, live_in w' h x -> live_in w h x \/ works_on (cs i) = Some h) ->
  (forall h, works_on p = Some h -> has_session w' h /\ forall j, j <> i -> works_on (cs j) <> Some h) ->
  one_live (tokens w') -> aware w' p -> rotation_inv w' (<[i := p]> cs).
Proof.
  intros Hinv Hup HNt HNs Hkeep Hown Hlive Hp Hone Haw. split; try done.
  - intros j h. destruct (decide (j = i)) as [->|Hne].
    + rewrite fn_lookup_insert. intros Hh. by apply Hp.
    + rewrite fn_lookup_insert_ne by done. intros Hh. by eapply Hkeep, (ri_held _ _ Hinv).
  - intros a b h. destruct (decide (a = i)) as [->|Ha], (decide (b = i)) as [->|Hb];
      rewrite ?fn_lookup_insert, ?fn_lookup_insert_ne by done; intros H1 H2; [done | | |].
    + by apply Hp in H1 as [_ ?%(fun f => f b Hb)].
    + by apply Hp in H2 as [_ ?%(fun f => f a Ha)].
    + by apply (ri_exclusive _ _ Hinv a b h).
  - intros j. destruct (decide (j = i)) as [->|Hne]; [by rewrite fn_lookup_insert |].
    rewrite fn_lookup_insert_ne by done. apply (aware_less w); [apply Hinv |].
    intros h x Hj Hx. destruct (Hlive h x Hx) as [?|Hi]; [done |]. destruct Hne. by apply (ri_exclusive _ _ Hinv j i h).
Qed.

(** Revocations, and statements that only read, keep the invariant. *)
Lemma inv_revokes gone w w' cs : revokes gone w w' -> rotation_inv w cs -> rotation_inv w' cs.
Proof.
  intros Hr Hinv.
  assert (forall h, has_session w h -> has_session w' h) as Hkeep.
  { intros h (s & Hs & <-). by apply (rv_kept _ _ _ Hr). }
  split.
  - by apply (rv_up _ _ _ Hr), Hinv.
  - by apply (rv_tokens _ _ _ Hr), Hinv.
  - by apply (rv_sessions _ _ _ Hr), Hinv.
  - intros t Ht. destruct (rv_from _ _ _ Hr t Ht) as (t0 & Ht0 & <-). by apply Hkeep, (ri_owned _ _ Hinv).
  - intros i h Hi. by eapply Hkeep, (ri_held _ _ Hinv).
  - intros t t' Ht Ht' Hs Hl Hl'. apply (ri_one _ _ Hinv); [by apply (rv_live _ _ _ Hr) .. | done | done | done].
  - apply Hinv.
  - intros i. apply (aware_less w); [apply Hinv |]. intros h x _ (Hx & Hl & Hh).
    split; [by apply (rv_live _ _ _ Hr) | done].
Qed.

Lemma same_revokes w w' :
  tokens w' = tokens w -> sessions w' = sessions w -> (table_up (w_tokens w) -> table_up (w_tokens w')) ->
  revokes (fun _ => false) w w'.
Proof. intros Ht Hs Hup. split; rewrite ?Ht, ?Hs; eauto. Qed.

(** A call that moves within a world. *)
Lemma inv_pc w cs i p :
  rotation_inv w cs -> (forall h, works_on p = Some h -> has_session w h /\ forall j, j <> i -> works_on (cs j) <> Some h) ->
  aware w p -> rotation_inv w (<[i := p]> cs).
Proof. intros Hinv Hp Ha. apply (inv_move w); auto; try apply Hinv. Qed.

Lemma inv_same_session w cs i p :
  rotation_inv w cs -> (forall h, works_on p = Some h -> works_on (cs i) = Some h) -> aware w p -> rotation_inv w (<[i := p]> cs).
Proof.
  intros Hinv Hp Ha. apply inv_pc; [done | | done]. intros h Hh%Hp. split; [by eapply ri_held |].
  intros j Hne Hj. destruct Hne. by apply (ri_exclusive _ _ Hinv j i h).
Qed.

(** The token a call stores for its session, which has no live one. *)
Lemma inv_stored w w' cs i p model r :
  rotation_inv w cs -> refreshRepo_Create model w = (w', Done r) ->
  works_on (cs i) = Some (token_SessionID model) -> (forall x, ~ live_in w (token_SessionID model) x) ->
  (forall h, works_on p = Some h -> works_on (cs i) = Some h) -> (forall w, aware w p) -> rotation_inv w' (<[i := p]> cs).
Proof.
  intros Hinv Hrun Hi Hno Hp Ha. destruct (token_stored _ _ _ _ Hrun) as (Hs & Hup & new & Ht & HN & Hnew).
  assert (forall h, has_session w h -> has_session w' h) as Hkeep by (unfold has_session; by rewrite Hs).
  assert (forall x, x ∈ new -> token_SessionID x = token_SessionID model) as Hsid.
  { intros x Hx. destruct Hnew as [->|(y & -> & Hy)]; [by apply not_elem_of_nil in Hx |]. by apply list_elem_of_singleton in Hx as ->. }
  apply (inv_move w); try done.
  - by apply Hup, Hinv.
  - by apply HN, Hinv.
  - rewrite Hs. apply Hinv.
  - rewrite Ht. intros t [Hin|Hin]%elem_of_app; apply Hkeep; [by apply Hinv |]. rewrite (Hsid t Hin). by eapply ri_held.
  - intros h x (Hx & Hl & <-). rewrite Ht in Hx. apply elem_of_app in Hx as [Hx|Hx]; [by left |]. right. by rewrite (Hsid x Hx).
  - intros h Hh%Hp. split; [by eapply Hkeep, ri_held |]. intros j Hne Hj. destruct Hne. by apply (ri_exclusive _ _ Hinv j i h).
  - rewrite Ht. intros x y Hx Hy Hxy Hlx Hly. apply elem_of_app in Hx, Hy. destruct Hx as [Hx|Hx], Hy as [Hy|Hy].
    + by apply (ri_one _ _ Hinv).
    + destruct (Hno x). split; [done |]. split; [done |]. by rewrite Hxy, (Hsid y Hy).
    + destruct (Hno y). split; [done |]. split; [done |]. by rewrite <- Hxy, (Hsid x Hx).
    + destruct Hnew as [->|(z & -> & _)]; [by apply not_elem_of_nil in Hx |]. apply list_elem_of_singleton in Hx, Hy. congruence.
Qed.

Lemma rotation_inv_step s s' :
  step s s' -> rotation_inv (au_world s) (au_calls s) -> rotation_inv (au_world s') (au_calls s').
Proof.
  intros Hstep Hinv. destruct Hstep as [i hash t cs w w' Hi Hrun Hl Hfree | i t s cs w w' Hi Hrun
    | i t r cs w w' Hi Hrun | i t uid hash e r cs w w' model Hi Hrun | i t new r cs w w' Hi Hrun | i t cs w Hi
    | i user now ip ua s cs w w' Hi Hrun | i sid uid hash e r cs w w' Hi Hrun | m r cs w w' Hm Hrun | cs w w' Ht Hs Hup];
    cbn [au_world au_calls] in *.
  - destruct (token_found _ _ _ _ Hrun) as (Ht & Hs & Hup & Hin).
    pose proof (inv_revokes _ _ _ _ (same_revokes _ _ Ht Hs Hup) Hinv) as Hinv'. rewrite <- Ht in Hin.
    apply inv_pc; [done | intros h [= <-]; split; [by apply Hinv' | auto] |].
    intros x (Hx & Hlx & Hsx). f_equal. by apply (ri_one _ _ Hinv').
  - destruct (session_found _ _ _ _ Hrun) as (Ht & Hs & Hwt & Hin & Hid & _).
    pose proof (inv_revokes _ _ _ _ (same_revokes _ _ Ht Hs ltac:(by rewrite Hwt)) Hinv) as Hinv'.
    apply inv_same_session; [done | by rewrite Hi |]. pose proof (ri_aware _ _ Hinv' i) as Ha. rewrite Hi in Ha. done.
  - pose proof (token_update _ None _ _ _ Hrun) as Hr. pose proof (inv_revokes _ _ _ _ Hr Hinv) as Hinv'.
    apply inv_same_session; [done | by rewrite Hi |]. pose proof (ri_aware _ _ Hinv' i) as Ha. rewrite Hi in Ha.
    intros x Hx. pose proof (Ha x Hx) as Hid. destruct Hx as (Hx & Hl & _).
    destruct (rv_live _ _ _ Hr x Hx Hl) as [_ Hg]. specialize (Hg (ri_up _ _ Hinv) (ri_tokens _ _ Hinv)). cbn in Hg.
    by rewrite Hid, N.eqb_refl in Hg.
  - pose proof (ri_aware _ _ Hinv i) as Hno. rewrite Hi in Hno.
    by apply (inv_stored w w' cs i _ model r); rewrite ?Hi.
  - pose proof (inv_revokes _ _ _ _ (token_update _ (Some new) _ _ _ Hrun) Hinv) as Hinv'. by apply inv_same_session.
  - by apply inv_same_session.
  - destruct (session_stored _ _ _ _ Hrun) as (Hwt & Hs & HN).
    assert (forall h, has_session w h -> has_session w' h /\ h <> session_ID s) as Hnew.
    { intros h (x & Hx & <-). split; [exists x; rewrite Hs; split; [apply elem_of_app; by left | done] |]. intros He.
      specialize (HN (ri_sessions _ _ Hinv)). rewrite Hs in HN. apply (NoClash_last _ _ _ HN) in Hx. cbn in Hx.
      by rewrite He, N.eqb_refl in Hx. }
    apply (inv_move w); rewrite ?Hwt;
      [done | apply Hinv | apply Hinv | apply HN, Hinv | | | | | apply (ri_one _ _ Hinv) |].
    + intros h Hh. by apply (Hnew h Hh).
    + intros t Ht. apply (Hnew _ (ri_owned _ _ Hinv t Ht)).
    + intros h x Hx. left. unfold live_in in *. by rewrite Hwt in Hx.
    + intros h [= <-]. split; [exists s; rewrite Hs; split; [apply elem_of_app; right; by left | done] |].
      intros j _ Hj. by apply (ri_held _ _ Hinv), Hnew in Hj as [_ []].
    + intros x (Hx & _ & Hsx). rewrite Hwt in Hx. rewrite <- Hsx in Hnew. by destruct (Hnew _ (ri_owned _ _ Hinv x Hx)) as [_ []].
  - pose proof (ri_aware _ _ Hinv i) as Hno. rewrite Hi in Hno.
    by apply (inv_stored w w' cs i _ (new_token sid uid hash e) r); rewrite ?Hi.
  - destruct (revocation_revokes _ _ _ _ Hm Hrun) as [gone Hr]. by eapply inv_revokes.
  - by eapply inv_revokes; [apply same_revokes |].
Qed.

(** C8: Rotation under concurrency: when the calls on one session exclude each
    other and the database answers, every session has at most one live refresh
    token at every moment of every interleaving of refreshes, logins and
    logouts. *)
Theorem one_live_token_always w cs s :
  table_up (w_tokens w) -> identity_inv w -> one_live (rows (w_tokens w)) -> (forall i, cs i = AIdle) ->
  rtc (auth_step true) (mkAuth w cs) s -> one_live (rows (w_tokens (au_world s))).
Proof.
  intros Hup (HNs & HNt & Hok) Hone Hidle Hrun.
  assert (rotation_inv (au_world s) (au_calls s)) as Hinv; [| apply Hinv].
  revert s Hrun. apply (rtc_ind_r (fun s => rotation_inv (au_world s) (au_calls s))).
  - split; cbn; try done.
    + intros t Ht. destruct (Hok t Ht) as [(x & Hx & Hid & _) _]. by exists x.
    + intros i h. by rewrite Hidle.
    + intros i j h. by rewrite Hidle.
    + intros i. by rewrite Hidle.
  - intros s s' _ Hstep IH. by eapply rotation_inv_step.
Qed.
End OneLive.

(** ** Logged out *)
Section LoggedOut.
Context `{E : Env} {L : EnvLaws E}.
Variable serial : bool.
#[local] Abbreviation tokens w := (rows (w_tokens w)).
#[local] Abbreviation sessions w := (rows (w_sessions w)).
#[local] Abbreviation step := (auth_step serial).

Definition session_revoked (w : World) (sid : UUID) : Prop :=
  has_session w sid /\ forall s, s ∈ sessions w -> session_ID s = sid -> session_RevokedAt s <> None.

(** A call that will store a token of the session without looking at the
    session again. *)
Definition past_check (sid : UUID) (p : auth_pc) : Prop :=
  match p with
  | AIdle | AFound _ | AStored _ _ => False
  | AReady t | ARevoked t => token_SessionID t = sid
  | ALogin s => s = sid
  end.

Record logged_out (sid : UUID) (w0 w : World) (cs : nat -> auth_pc) : Prop := {
  lo_NoClash : NoClash (sessions w);
  lo_revoked : session_revoked w sid;
  lo_none : forall i, ~ past_check sid (cs i);
  lo_live : forall t, live_in w sid t -> live_in w0 sid t;
}.

Lemma out_moves sid w0 w cs i p : logged_out sid w0 w cs -> ~ past_check sid p -> logged_out sid w0 w (<[i := p]> cs).
Proof.
  intros [HN Hr Hno Hl] Hp. split; [done | done | | done].
  intros j. destruct (decide (j = i)) as [->|Hne]; [by rewrite fn_lookup_insert | by rewrite fn_lookup_insert_ne].
Qed.

Lemma out_revokes gone sid w0 w w' cs : revokes gone w w' -> logged_out sid w0 w cs -> logged_out sid w0 w' cs.
Proof.
  intros Hrv [HN [(s & Hs & Hsid) Hr] Hno Hl]. split; [by apply (rv_sessions _ _ _ Hrv) | | done |].
  - split; [destruct (rv_kept _ _ _ Hrv s Hs) as (s' & Hs' & Heq); exists s'; by rewrite Heq |].
    intros x Hx Hid Hn. by apply (Hr x); [apply (rv_dead _ _ _ Hrv) | |].
  - intros t (Ht & Hn & Hid). apply Hl. split; [by apply (rv_live _ _ _ Hrv) | done].
Qed.

(** A token of another session. *)
Lemma out_stored sid w0 w w' cs model r :
  refreshRepo_Create model w = (w', Done r) -> token_SessionID model <> sid ->
  logged_out sid w0 w cs -> logged_out sid w0 w' cs.
Proof.
  intros Hrun Hne [HN [Hhas Hr] Hno Hl]. destruct (token_stored _ _ _ _ Hrun) as (Hs & _ & new & Ht & _ & Hnew).
  split; [by rewrite Hs | split; [by unfold has_session; rewrite Hs | by rewrite Hs] | done |].
  intros t (Hin & Hn & Hid). rewrite Ht in Hin. apply elem_of_app in Hin as [Hin|Hin]; [by apply Hl |].
  destruct Hnew as [->|(x & -> & Hx)]; [by apply not_elem_of_nil in Hin |]. apply list_elem_of_singleton in Hin as ->. congruence.
Qed.

(** Another session. *)
Lemma out_session sid w0 w w' cs x s :
  sessionRepo_Create x w = (w', Done (Ok s)) -> logged_out sid w0 w cs -> session_ID s <> sid /\ logged_out sid w0 w' cs.
Proof.
  intros Hrun [HN [(y & Hy & Hyid) Hr] Hno Hl]. destruct (session_stored _ _ _ _ Hrun) as (Hwt & Hs & HN').
  assert (session_ID s <> sid) as Hne.
  { intros He. specialize (HN' HN). rewrite Hs in HN'. apply (NoClash_last _ _ _ HN') in Hy. cbn in Hy.
    by rewrite Hyid, He, N.eqb_refl in Hy. }
  split; [done |]. split; [by apply HN' | | done |].
  - split; [exists y; split; [rewrite Hs; apply elem_of_app; by left | done] |].
    rewrite Hs. intros z [Hz| ->%list_elem_of_singleton]%elem_of_app; [by apply Hr | done].
  - intros t Ht. apply Hl. unfold live_in in *. by rewrite Hwt in Ht.
Qed.

Lemma logged_out_step sid w0 s s' :
  step s s' -> logged_out sid w0 (au_world s) (au_calls s) -> logged_out sid w0 (au_world s') (au_calls s').
Proof.
  intros Hstep Hinv. destruct Hstep as [i hash t cs w w' Hi Hrun Hl Hfree | i t s cs w w' Hi Hrun
    | i t r cs w w' Hi Hrun | i t uid hash e r cs w w' model Hi Hrun | i t new r cs w w' Hi Hrun | i t cs w Hi
    | i user now ip ua s cs w w' Hi Hrun | i sid' uid hash e r cs w w' Hi Hrun | m r cs w w' Hm Hrun | cs w w' Ht Hs Hup];
    cbn [au_world au_calls] in *.
  - destruct (token_found _ _ _ _ Hrun) as (Ht & Hs & Hup & _). apply out_moves; [| tauto].
    by eapply out_revokes; [apply same_revokes |].
  - destruct (session_found _ _ _ _ Hrun) as (Ht & Hs & Hwt & Hin & Hid & Hn).
    apply out_moves; [by apply (out_revokes (fun _ => false) sid w0 w); [apply same_revokes; rewrite ?Hwt |] |].
    cbn. intros Hsid. apply (proj2 (lo_revoked _ _ _ _ Hinv) s); congruence.
  - apply out_moves; [by eapply out_revokes; [by eapply (token_update _ None) |] |].
    pose proof (lo_none _ _ _ _ Hinv i) as Hno. by rewrite Hi in Hno.
  - pose proof (lo_none _ _ _ _ Hinv i) as Hno. rewrite Hi in Hno. apply out_moves; [by eapply out_stored | tauto].
  - apply out_moves; [by eapply out_revokes; [by eapply (token_update _ (Some new)) |] | tauto].
  - apply out_moves; [done | tauto].
  - destruct (out_session _ _ _ _ _ _ _ Hrun Hinv) as [Hne Hout]. by apply out_moves.
  - pose proof (lo_none _ _ _ _ Hinv i) as Hno. rewrite Hi in Hno. apply out_moves; [by eapply out_stored | tauto].
  - destruct (revocation_revokes _ _ _ _ Hm Hrun) as [gone Hr]. by eapply out_revokes.
  - by eapply out_revokes; [apply same_revokes |].
Qed.

(** A revoked session stays so: once a session is revoked and no call is past the check
    that it is active, no interleaving of further calls, exclusive or not and
    with or without failing statements, makes the session active again or
    gives it a live refresh token. *)
Lemma revoked_stays w cs sid s :
  NoClash (rows (w_sessions w)) -> session_revoked w sid -> (forall i, ~ past_check sid (cs i)) ->
  rtc (auth_step serial) (mkAuth w cs) s ->
  session_revoked (au_world s) sid /\ forall t, live_in (au_world s) sid t -> live_in w sid t.
Proof.
  intros HN Hr Hno Hrun.
  assert (logged_out sid w (au_world s) (au_calls s)) as Hinv; [| split; apply Hinv].
  revert s Hrun. apply (rtc_ind_r (fun s => logged_out sid w (au_world s) (au_calls s))).
  - by split.
  - intros s s' _ Hstep IH. by eapply logged_out_step.
Qed.
End LoggedOut.

(** ** A call that runs alone takes these steps *)
Section Alone.
Context `{E : Env} {L : EnvLaws E}.
#[local] Abbreviation tokens w := (rows (w_tokens w)).
#[local] Abbreviation sessions w := (rows (w_sessions w)).
#[local] Abbreviation step := (auth_step false).

Record quiet (w w' : World) : Prop := {
  qt_tokens : tokens w' = tokens w;
  qt_sessions : sessions w' = sessions w;
  qt_up : table_up (w_tokens w) -> table_up (w_tokens w');
}.

Lemma quiet_tokens_same w w' : w_tokens w' = w_tokens w -> sessions w' = sessions w -> quiet w w'.
Proof. intros Ht Hs. by split; rewrite ?Ht. Qed.

Lemma quiet_same_db w w' : same_db w w' -> quiet w w'.
Proof. intros (_ & Hs & Ht & _). by apply quiet_tokens_same; [| rewrite Hs]. Qed.

Variables (w0 : World) (cs0 : nat -> auth_pc) (i : nat).
#[local] Abbreviation comes_to := (Interleave.comes_to mkAuth step w0 cs0 i).
(** A call that panics is left where it was. *)
#[local] Abbreviation stops w := (exists p, comes_to w p).
#[local] Abbreviation is_run m w := (wp m w (fun _ w' => comes_to w' AIdle) (fun w' => stops w')).

Lemma comes_quiet w p w' : comes_to w p -> quiet w w' -> comes_to w' p.
Proof. intros Hc [Ht Hs Hup]. apply (comes_stay _ _ _ _ _ w); [done |]. intros cs. by apply a_other. Qed.

(** A statement that reads. *)
Lemma reads {A} (m : M World A) w p (Q0 : A -> Prop) (Q : A -> World -> Prop) X :
  comes_to w p -> wp m w (fun a w' => quiet w w' /\ Q0 a) (fun _ => False) ->
  (forall a w', comes_to w' p -> Q0 a -> Q a w') -> wp m w Q X.
Proof.
  intros Hc Hm HQ. eapply wp_conseq; [exact Hm | | done]. intros a w' [Hq H0]. apply HQ; [| done]. by apply (comes_quiet w).
Qed.

Lemma token_update_safe p by_ w :
  wp (now <-- time_Now ;; db_tokens (gorm_Updates p (revoke_token now by_)))%go w (fun _ _ => True) (fun _ => False).
Proof. go_wp. done. Qed.
Lemma session_update_safe p w :
  wp (now <-- time_Now ;; db_sessions (gorm_Updates p (revoke_session now)))%go w (fun _ _ => True) (fun _ => False).
Proof. go_wp. done. Qed.

(** A statement of a logout. *)
Lemma logs_out m w p (Q : result (Z * Time) -> World -> Prop) X :
  revocation m -> comes_to w p -> (forall r w', comes_to w' p -> Q r w') -> wp m w Q X.
Proof.
  intros Hm Hc HQ. eapply (wp_traced _ _ (fun _ _ => True)).
  - destruct Hm; first [apply session_update_safe | apply token_update_safe].
  - intros r w' Hrun _. apply HQ, (comes_stay _ _ _ _ _ w); [done |]. intros cs. by eapply a_logout.
Qed.

Lemma marks c sid expiresAt w p (Q : result () -> World -> Prop) (X : World -> Prop) :
  comes_to w p -> (forall r w', comes_to w' p -> Q r w') -> (forall w', comes_to w' p -> X w') ->
  wp (revoStore_MarkRevoked c sid expiresAt) w Q X.
Proof.
  intros Hc HQ HX. apply MarkRevoked_same_db; [intros w' r Hd; apply HQ | intros w' Hd; apply HX];
    by apply (comes_quiet w), quiet_same_db.
Qed.

Lemma LogoutAll_is_run s uid w : comes_to w AIdle -> is_run (LogoutAll s uid) w.
Proof.
  intros Hc. unfold LogoutAll. apply wp_bind.
  eapply (reads _ w AIdle (fun _ => True)); [done | |].
  { unfold sessionRepo_ListActiveByUserID. go_wp. split; [| done]. apply quiet_tokens_same; [done | apply Hst]. }
  intros [ss|e] w1 H1 _; [| by apply wp_ret].
  apply wp_bind, (logs_out _ w1 AIdle); [constructor | done | intros r2 w2 H2].
  apply wp_bind, (logs_out _ w2 AIdle); [constructor | done | intros r3 w3 H3].
  apply wp_bind. eapply wp_mono; [| intros u w' H'; apply wp_ret; exact H'].
  apply (wp_for_each (fun _ w => comes_to w AIdle)); [| done]. intros x _ w4 H4.
  apply wp_bind, (marks _ _ _ w4 AIdle); [done | intros r w5 H5; by apply wp_ret | intros w5 H5; by exists AIdle].
Qed.

Lemma Logout_is_run s sid w : comes_to w AIdle -> is_run (Logout s sid) w.
Proof.
  intros Hc. unfold Logout. destruct (uuid_Parse sid) as [id|e]; [| by apply wp_ret]. apply wp_bind.
  eapply (reads _ w AIdle (fun _ => True)); [done | |].
  { unfold sessionRepo_FindActiveByID. go_wp. split; [| done]. apply quiet_tokens_same; [done | apply Hst]. }
  intros [x|e] w1 H1 _; [| by apply wp_ret].
  apply wp_bind, (logs_out _ w1 AIdle); [constructor | done | intros r2 w2 H2].
  apply wp_bind, (logs_out _ w2 AIdle); [constructor | done | intros r3 w3 H3].
  apply wp_bind, (marks _ _ _ w3 AIdle); [done | intros r w4 H4; by apply wp_ret | intros w4 H4; by exists AIdle].
Qed.

(** The end of [Login] and [Refresh]: the access token is signed. *)
Lemma signs {A} secret uid role sid f (k : string -> M World (result A)) w :
  comes_to w AIdle -> (forall tok w', comes_to w' AIdle -> is_run (k tok) w') ->
  is_run (tok <-? GenerateAccessToken secret uid role sid orelse f ;; k tok)%go w.
Proof.
  intros Hc Hk. apply wp_bind, (reads _ w AIdle (fun _ => True)); [done | |].
  - unfold GenerateAccessToken. go_wp. split; [by apply quiet_tokens_same | done].
  - intros [tok|e] w' H' _; [by apply Hk | by apply wp_ret].
Qed.

(** The statement that stores a token. *)
Lemma stores model w p p' (Q : result RefreshToken -> World -> Prop) X :
  comes_to w p ->
  (forall r w' cs, refreshRepo_Create model w = (w', Done r) -> cs i = p -> step (mkAuth w cs) (mkAuth w' (<[i := p' r]> cs))) ->
  (forall r w', comes_to w' (p' r) -> Q r w') -> wp (refreshRepo_Create model) w Q X.
Proof.
  intros Hc Hstep HQ. eapply (wp_traced _ _ (fun _ _ => True)); [unfold refreshRepo_Create; go_wp; done |].
  intros r w' Hrun _. apply HQ, (comes_next _ _ _ _ _ w p); [done |]. intros cs. by apply Hstep.
Qed.

Lemma Login_is_run s email pw ip ua w : comes_to w AIdle -> is_run (Login s email pw ip ua) w.
Proof.
  intros Hc. unfold Login. apply wp_bind, (reads _ w AIdle (fun _ => True)); [done | |].
  { unfold userRepo_FindByEmail. go_wp; (split; [by apply quiet_tokens_same | done]). }
  intros [[u|]|e] w1 H1 _; [| by apply wp_ret ..]. destruct (negb _); [by apply wp_ret |].
  apply wp_bind, (reads _ w1 AIdle (fun _ => True)); [done | by apply wp_time_Now; split; [apply quiet_tokens_same |] |].
  intros now w2 H2 _. apply wp_bind, (reads _ w2 AIdle (fun _ => True)); [done | |].
  { unfold GenerateRefreshToken. go_wp. split; [by apply quiet_tokens_same | done]. }
  intros raw w3 H3 _. cbn zeta.
  apply wp_bind. eapply (wp_traced _ _ (fun r w' => match r with Ok _ => True | Err _ => quiet w3 w' end)).
  { unfold sessionRepo_Create. go_wp. destruct (created _ r) eqn:Hr; [done |].
    apply quiet_tokens_same; [done |]. world_simpl. by rewrite (created_none _ _ _ _ _ Hst Hr). }
  intros [x|e] w4 Hrun Hq; [| by apply wp_ret, (comes_quiet w3)].
  assert (comes_to w4 (ALogin (session_ID x))) as H4.
  { apply (comes_next _ _ _ _ _ w3 AIdle); [done |]. intros cs Hi. by eapply a_session. }
  apply wp_bind, (stores _ w4 (ALogin (session_ID x)) (fun _ => AIdle)); [done | |].
  { intros r w' cs Hr Hi. by eapply a_first_token. }
  intros [y|e] w5 H5; [| by apply wp_ret]. apply signs; [done |]. intros tok w6 H6. by apply wp_ret.
Qed.

(** A refresh that has found an active session. *)
Lemma rotates t sess uid hash expiresAt w (k : M World (result RefreshResult)) :
  comes_to w (AReady t) -> session_ID sess = token_SessionID t ->
  (forall w', comes_to w' AIdle -> is_run k w') ->
  is_run (refreshRepo_RevokeByID (token_ID t) ;;;
          createdToken <-- refreshRepo_Create (new_token (session_ID sess) uid hash expiresAt) ;;
          refreshRepo_MarkReplacement (token_ID t)
            (match createdToken with Ok m => token_ID m
             | Err _ => token_ID (new_token (session_ID sess) uid hash expiresAt) end) ;;; k)%go w.
Proof.
  intros Hc -> Hk. apply wp_bind.
  eapply (wp_traced _ _ (fun _ _ => True)); [apply (token_update_safe _ None) |]. intros r1 w1 Hr1 _.
  apply wp_bind, (stores _ w1 (ARevoked t) (fun r => AStored t (match r with Ok m => token_ID m
    | Err _ => token_ID (new_token (token_SessionID t) uid hash expiresAt) end))).
  - apply (comes_next _ _ _ _ _ w (AReady t)); [done |]. intros cs Hi. by eapply a_revoke.
  - intros r w' cs Hr Hi. by eapply a_store.
  - intros r2 w2 H2. apply wp_bind.
    eapply (wp_traced _ _ (fun _ _ => True)); [apply (token_update_safe _ (Some _)) |]. intros r3 w3 Hr3 _.
    apply Hk. eapply (comes_next _ _ _ _ _ w2); [exact H2 |]. intros cs Hi. by eapply a_link.
Qed.

Lemma Refresh_is_run s raw w : comes_to w AIdle -> is_run (Refresh s raw) w.
Proof.
  intros Hc. unfold Refresh. destruct (String.eqb raw ""); [by apply wp_ret |]. cbn zeta. apply wp_bind.
  eapply (wp_traced _ _ (fun _ w' => quiet w w')).
  { unfold refreshRepo_FindByTokenHash. go_wp. destruct Hst as (Hr & Hup & _). by split. }
  intros [t|e] w1 Hrun Hq; [| by apply wp_ret, (comes_quiet w)].
  destruct (token_RevokedAt t) as [n|] eqn:Hrev.
  { apply wp_bind. eapply wp_mono; [by apply LogoutAll_is_run, (comes_quiet w) |]. intros r w' H'. by apply wp_ret. }
  assert (comes_to w1 (AFound t)) as H1.
  { apply (comes_next _ _ _ _ _ w AIdle); [done |]. intros cs Hi. by eapply a_find. }
  assert (forall w', comes_to w' (AFound t) \/ comes_to w' (AReady t) -> comes_to w' AIdle) as Hrefused.
  { intros w' [H|H]; (eapply (comes_next _ _ _ _ _ w'); [exact H |]; intros cs Hi; eapply a_refused; eauto). }
  apply wp_bind, (reads _ w1 (AFound t) (fun _ => True)); [done | by apply wp_time_Now; split; [apply quiet_tokens_same |] |].
  intros now0 w2 H2 _. destruct (time_Before _ _); [apply wp_ret; auto |]. apply wp_bind.
  eapply (wp_traced _ _ (fun r w' => quiet w2 w' /\ match r with Ok x => session_ID x = token_SessionID t | Err _ => True end)).
  { unfold sessionRepo_FindActiveByID. go_wp. destruct Hst as (Hr & _ & Hs).
    split; [by apply quiet_tokens_same |]. destruct r; [| done]. by destruct Hs as [_ [?%N.eqb_eq _]%andb_true_iff]. }
  intros [sess|e] w3 Hs3 [Hq3 Hsid]; [| apply wp_ret, Hrefused; left; by apply (comes_quiet w2)].
  assert (comes_to w3 (AReady t)) as H3.
  { apply (comes_next _ _ _ _ _ w2 (AFound t)); [done |]. intros cs Hi. by eapply a_check. }
  apply wp_bind, (reads _ w3 (AReady t) (fun _ => True)); [done | |].
  { apply FindByID_outcome. intros r x Hx _. split; [by apply quiet_tokens_same | done]. }
  intros [[u|]|e] w4 H4 _; [| by apply wp_ret; auto ..].
  apply wp_bind, (reads _ w4 (AReady t) (fun _ => True)); [done | |].
  { unfold GenerateRefreshToken. go_wp. split; [by apply quiet_tokens_same | done]. }
  intros raw' w5 H5 _. cbn zeta.
  apply wp_bind, (reads _ w5 (AReady t) (fun _ => True)); [done | by apply wp_time_Now; split; [apply quiet_tokens_same |] |].
  intros now w6 H6 _. cbn zeta. apply rotates; [done | done |]. intros w7 H7.
  apply signs; [done |]. intros tok w8 H8. by apply wp_ret.
Qed.

(** Every call of the service, alone, is such a run. *)
Lemma auth_run_is_run s c w : comes_to w AIdle -> is_run (auth_run s c) w.
Proof.
  intros Hc. destruct c; cbn; apply wp_bind; (eapply wp_mono;
    [by first [apply Login_is_run | apply Refresh_is_run | apply Logout_is_run | apply LogoutAll_is_run] |
     intros r w' H'; by apply wp_ret]).
Qed.
End Alone.

(** ** After a logout *)
Section AfterLogout.
Context `{E : Env} {L : EnvLaws E}.

Lemma has_session_step serial s s' h : auth_step serial s s' -> has_session (au_world s) h -> has_session (au_world s') h.
Proof.
  assert (forall w w', rows (w_sessions w') = rows (w_sessions w) -> has_session w h -> has_session w' h) as Hsame
    by (unfold has_session; by intros w w' ->).
  assert (forall gone w w', revokes gone w w' -> has_session w h -> has_session w' h) as Hrev.
  { intros gone w w' Hr (x & Hx & <-). by apply (rv_kept _ _ _ Hr). }
  intros [i hash t cs w w' Hi Hrun Hl Hfree | i t x cs w w' Hi Hrun | i t r cs w w' Hi Hrun
    | i t uid hash e r cs w w' model Hi Hrun | i t new r cs w w' Hi Hrun | i t cs w Hi
    | i user now ip ua x cs w w' Hi Hrun | i sid uid hash e r cs w w' Hi Hrun | m r cs w w' Hm Hrun | cs w w' Ht Hs Hup]; cbn.
  - apply Hsame. by apply token_found in Hrun as (_ & ? & _).
  - apply Hsame. by apply session_found in Hrun as (_ & ? & _).
  - eapply Hrev. by apply (token_update _ None _ _ _ Hrun).
  - apply Hsame. by apply token_stored in Hrun as (? & _).
  - eapply Hrev. by apply (token_update _ (Some new) _ _ _ Hrun).
  - done.
  - destruct (session_stored _ _ _ _ Hrun) as (_ & Hs & _). intros (y & Hy & Hid). exists y. rewrite Hs. split; [| done].
    apply elem_of_app. by left.
  - apply Hsame. by apply token_stored in Hrun as (? & _).
  - destruct (revocation_revokes _ _ _ _ Hm Hrun) as [gone Hr]. by eapply Hrev.
  - by apply Hsame.
Qed.

Lemma Logout_keeps_session secret sid w w' r h :
  Logout (mkAuthService LiveClient secret) sid w = (w', Done r) -> has_session w h -> has_session w' h.
Proof.
  intros Hrun Hh. pose proof (Logout_is_run w (fun _ => AIdle) 0 (mkAuthService LiveClient secret) sid w
    (comes_start mkAuth (auth_step false) w (fun _ => AIdle) 0 AIdle eq_refl)) as Hwp.
  unfold wp in Hwp. rewrite Hrun in Hwp. destruct Hwp as (cs & Hsteps & _).
  assert (has_session (au_world (mkAuth w' cs)) h) as H; [| exact H]. revert Hsteps. generalize (mkAuth w' cs). intros s.
  revert s. apply (rtc_ind_r (fun s => has_session (au_world s) h)); [exact Hh |].
  intros s s' _ Hstep IH. by eapply has_session_step.
Qed.

(** C9: A logout is final: when [Logout] of an active session has returned and no
    other call is past the check that the session is active, the session stays
    revoked and without a live refresh token whatever refreshes, logins and
    logouts then interleave, exclusive or not, and whichever of their
    statements fail. *)
Theorem logged_out_for_good secret sess w cs :
  healthy w -> identity_inv w -> sess ∈ rows (w_sessions w) -> active_at (w_clock w (w_ticks w)) sess = true ->
  (forall i, ~ past_check (session_ID sess) (cs i)) ->
  exists w', Logout (mkAuthService LiveClient secret) (uuid_String (session_ID sess)) w = (w', Done (Ok tt)) /\
    forall serial s, rtc (auth_step serial) (mkAuth w' cs) s ->
      session_revoked (au_world s) (session_ID sess) /\ forall t, ~ live_in (au_world s) (session_ID sess) t.
Proof.
  intros Hh Hinv Hin Hact Hno.
  destruct (Logout_revokes secret _ sess w Hh Hin eq_refl Hact) as (w' & Hrun & Hrev & _ & Htok & _).
  exists w'. split; [exact Hrun |]. intros serial s Hsteps.
  assert (has_session w' (session_ID sess)) as Hhas by (eapply Logout_keeps_session; [exact Hrun | by exists sess]).
  assert (identity_inv w') as (HN & _).
  { pose proof (Logout_preserves (mkAuthService LiveClient secret) (uuid_String (session_ID sess)) w Hinv) as Hp.
    unfold wp in Hp. by rewrite Hrun in Hp. }
  destruct (revoked_stays serial w' cs (session_ID sess) s HN (conj Hhas Hrev) Hno Hsteps) as [Hr Hl].
  split; [exact Hr |]. intros t (Hx & Hn & Hid)%Hl. by apply (Htok t).
Qed.
End AfterLogout.

(** ** Concrete runs *)
Section RotationRuns.
#[local] Existing Instance mem_env.
#[local] Existing Instance mem_laws.

#[local] Abbreviation nobody := (fun _ : nat => AIdle).
#[local] Abbreviation start := (mkAuth (demo_world None []) nobody).

Ltac at_call := rewrite ?fn_lookup_insert_ne, ?fn_lookup_insert by done; reflexivity.
Ltac statement := apply run_outcome; vm_compute; reflexivity.

Definition live_tokens (w : World) : list RefreshToken := List.filter not_revoked (rows (w_tokens w)).

(** A refresh and a login interleave. *)
Lemma demo_refresh_and_login : exists s, rtc (auth_step true) start s /\
  map token_SessionID (live_tokens (au_world s)) = [5; 101]%N.
Proof.
  eexists. split.
  - eapply rtc_l. { eapply (a_find _ 0 (HashToken "raw")); [at_call | statement | reflexivity |]. done. }
    eapply rtc_l. { eapply (a_session _ 1 demo_user 0 "ip" "ua"); [at_call | statement]. }
    eapply rtc_l. { eapply (a_check _ 0); [at_call | statement]. }
    eapply rtc_l. { eapply (a_revoke _ 0); [at_call | statement]. }
    eapply rtc_l. { eapply (a_store _ 0 _ 1 "new" 9); [at_call | statement]. }
    eapply rtc_l. { eapply (a_first_token _ 1 _ 1 "first" 9); [at_call | statement]. }
    apply rtc_once. eapply (a_link _ 0); [at_call | statement].
  - vm_compute. reflexivity.
Qed.

Lemma one_live_token_always_witness : exists s,
  one_live (rows (w_tokens (au_world s))) /\ map token_SessionID (live_tokens (au_world s)) = [5; 101]%N.
Proof.
  destruct demo_refresh_and_login as (s & Hrun & Hlive). exists s. split; [| exact Hlive].
  refine (one_live_token_always _ _ s _ demo_inv _ (fun _ => eq_refl) Hrun); [by constructor |].
  intros t t' ->%list_elem_of_singleton ->%list_elem_of_singleton. done.
Defined.

(** Two refreshes that present one token at a time: both find it live, both
    store a successor, and neither notices the other. *)
Example two_refreshes_at_once :
  exists s, rtc (auth_step false) start s /\ (forall i, au_calls s i = AIdle) /\
    map (fun t => (token_SessionID t, token_TokenHash t)) (live_tokens (au_world s)) = [(5%N, "one"); (5%N, "two")]%string.
Proof.
  eexists. split; [| split].
  - eapply rtc_l. { eapply (a_find _ 0 (HashToken "raw")); [at_call | statement | reflexivity | done]. }
    eapply rtc_l. { eapply (a_find _ 1 (HashToken "raw")); [at_call | statement | reflexivity | done]. }
    eapply rtc_l. { eapply (a_check _ 0); [at_call | statement]. }
    eapply rtc_l. { eapply (a_check _ 1); [at_call | statement]. }
    eapply rtc_l. { eapply (a_revoke _ 0); [at_call | statement]. }
    eapply rtc_l. { eapply (a_store _ 0 _ 1 "one" 9); [at_call | statement]. }
    eapply rtc_l. { eapply (a_link _ 0); [at_call | statement]. }
    eapply rtc_l. { eapply (a_revoke _ 1); [at_call | statement]. }
    eapply rtc_l. { eapply (a_store _ 1 _ 1 "two" 9); [at_call | statement]. }
    apply rtc_once. eapply (a_link _ 1); [at_call | statement].
  - intros [|[|j]]; reflexivity.
  - vm_compute. reflexivity.
Qed.

(** After the logout of session 5 another login, and a refresh with the old
    token, which finds it revoked. *)
Lemma logged_out_for_good_witness : exists w', Logout demo_service "5" (demo_world None []) = (w', Done (Ok tt)) /\
  forall s, rtc (auth_step false) (mkAuth w' nobody) s -> session_revoked (au_world s) 5%N /\ forall t, ~ live_in (au_world s) 5%N t.
Proof.
  destruct (logged_out_for_good "key" demo_session (demo_world None []) nobody) as (w' & Hrun & Hall);
    [apply demo_healthy | exact demo_inv | by left | done | intros j; tauto |].
  exists w'. split; [exact Hrun |]. intros s. apply (Hall false).
Defined.

(** A refresh that is past its check when the session is revoked stores its
    token: a live token of a session that no refresh accepts any more. *)
Example refresh_outlives_logout :
  exists s, rtc (auth_step false) start s /\ (forall i, au_calls s i = AIdle) /\
    List.filter (fun x => bool_decide (session_RevokedAt x = None)) (rows (w_sessions (au_world s))) = [] /\
    map token_SessionID (live_tokens (au_world s)) = [5]%N.
Proof.
  eexists. split; [| split; [| split]].
  - eapply rtc_l. { eapply (a_find _ 0 (HashToken "raw")); [at_call | statement | reflexivity | done]. }
    eapply rtc_l. { eapply (a_check _ 0); [at_call | statement]. }
    eapply rtc_l. { eapply a_logout; [apply (rev_session 5%N) | statement]. }
    eapply rtc_l. { eapply a_logout; [apply (rev_tokens 5%N) | statement]. }
    eapply rtc_l. { eapply (a_revoke _ 0); [at_call | statement]. }
    eapply rtc_l. { eapply (a_store _ 0 _ 1 "new" 9); [at_call | statement]. }
    apply rtc_once. eapply (a_link _ 0); [at_call | statement].
  - intros [|j]; reflexivity.
  - vm_compute. reflexivity.
  - vm_compute. reflexivity.
Qed.
End RotationRuns.
