(* ===== verification/Seed.v ===== *)
(** * Seed: [internal/infrastructure/storage/seed.go]

    At start-up the service makes sure that an administrator and a user
    account exist.  The seeder drops every error: the count stays zero when the
    query fails, and a password [bcrypt] refuses leaves an empty hash. *)

From stdpp Require Import base list strings gmap numbers.
From Stdlib Require Import ZArith Lia.
From S2P Require Import Prelude GoStrings GoTime Domain Env MemEnv Security Identity.
Open Scope Z_scope.

Section Seeding.
Context `{E : Env}.

(** [bcrypt.GenerateFromPassword]: [string(hash)] of a nil hash is empty. *)
Definition GenerateFromPassword (salt : N) (password : string) : string * option error :=
  if (72 <? String.length password)%nat
  then (""%string, Some (Sentinel "bcrypt.ErrPasswordTooLong" "bcrypt: password length exceeds 72 bytes"))
  else (bcrypt_hash salt password, None).

Definition seedSingleUser (salt : N) (email password : string) (role : RoleCode) : M World () :=
  r <-- db_users (gorm_Count (fun u => String.eqb (user_Email u) email && not_deleted u)) ;;
  let count := match r with Ok n => n | Err _ => 0 end in
  if count =? 0 then
    let '(hash, _) := GenerateFromPassword salt password in
    db_users (gorm_Create [mkUser 0 zero_time zero_time None email hash role]) ;;;
    ret tt
  else ret tt.

Definition SeedUsers (salts : N * N) (adminEmail adminPassword userEmail userPassword : string) : M World () :=
  (if String.eqb adminEmail "" || String.eqb adminPassword "" then ret tt
   else seedSingleUser salts.1 adminEmail adminPassword RoleCodeAdmin) ;;;
  (if String.eqb userEmail "" || String.eqb userPassword "" then ret tt
   else seedSingleUser salts.2 userEmail userPassword RoleCodeUser).
End Seeding.

Section SeedFacts.
Context `{E : Env} {L : EnvLaws E}.
#[local] Abbreviation users w := (rows (w_users w)).

(** A seeded row. *)
Definition seeded (salt : N) (email password : string) (role : RoleCode) (u : User) : Prop :=
  user_Email u = email /\ user_RoleCode u = role /\ user_DeletedAt u = None /\
  user_Password u = (GenerateFromPassword salt password).1.

Definition healthy (w : World) : Prop := table_up (w_users w) /\ NoClash (users w).

Lemma seedSingleUser_outcome salt email password role w :
  healthy w ->
  wp (seedSingleUser salt email password role) w (fun _ w' =>
    healthy w' /\ w' = set_users (w_users w') w /\
    exists added, users w' = users w ++ added /\ (length added <= 1)%nat /\
      Forall (fun u => seeded salt email password role u /\ forall v, ~ account w email v) added)
    (fun _ => False).
Proof.
  intros [Hup HN]. unfold seedSingleUser. go_wp.
  - destruct Hst as (Hr & Hup' & Hc). apply Create_outcome in Hst0 as [Hup2 Hcr].
    assert (forall v, ~ account w email v) as Hno.
    { intros v (Hv & He & Hd). destruct r as [n|e]; [| exact (Hc Hup)].
      apply Z.eqb_eq in Heqb. rewrite Hc in Heqb. pose proof (count_rows_zero _ _ _ Heqb Hv) as Hf. cbn beta in Hf. rewrite He, String.eqb_refl in Hf.
      unfold not_deleted in Hf. by rewrite bool_decide_eq_true_2 in Hf. }
    destruct r0 as [rs|e].
    + destruct Hcr as ((now & gen & serial & ->)%inserted_one & Hrows & HN' & _).
      rewrite Hr in Hrows, HN'. split; [split; world_simpl; [auto | rewrite Hrows; auto] |]. split; [done |].
      eexists. split; [exact Hrows |]. split; [done |]. apply Forall_cons_2; [| by apply Forall_nil_2].
      unfold seeded. by rewrite Heqp.
    + destruct Hcr as [Hrows _]. rewrite Hr in Hrows. split; [split; world_simpl; [auto | by rewrite Hrows] |].
      split; [done |]. exists []. rewrite app_nil_r. split; [done |]. split; [cbn; lia | by apply Forall_nil_2].
  - destruct Hst as (Hr & Hup' & Hc). split; [split; world_simpl; [auto | by rewrite Hr] |].
    split; [done |]. exists []. rewrite app_nil_r. split; [done |]. split; [cbn; lia | by apply Forall_nil_2].
Qed.

Lemma seed_if (b : bool) salt email password role w :
  healthy w ->
  wp (if b then ret tt else seedSingleUser salt email password role) w (fun _ w' =>
    healthy w' /\ w' = set_users (w_users w') w /\
    exists added, users w' = users w ++ added /\ (length added <= 1)%nat /\
      Forall (fun u => seeded salt email password role u /\ forall v, ~ account w email v) added)
    (fun _ => False).
Proof.
  intros Hw. destruct b; [| by apply seedSingleUser_outcome]. apply wp_ret. split; [done |].
  split; [by destruct w |]. exists []. rewrite app_nil_r. split; [done |]. split; [cbn; lia | by apply Forall_nil_2].
Qed.

(** Both seeds: what either of them can have added. *)
Lemma SeedUsers_outcome salts ae ap ue up w :
  healthy w ->
  wp (SeedUsers salts ae ap ue up) w (fun _ w' =>
    healthy w' /\ w' = set_users (w_users w') w /\
    exists added, users w' = users w ++ added /\ (length added <= 2)%nat /\
      Forall (fun u => (seeded salts.1 ae ap RoleCodeAdmin u \/ seeded salts.2 ue up RoleCodeUser u) /\
                       forall v, ~ account w (user_Email u) v) added)
    (fun _ => False).
Proof.
  intros Hw. unfold SeedUsers. apply wp_bind. eapply wp_mono; [by apply seed_if |].
  intros _ w1 (Hw1 & Hset & added & Hu & Hl & Hf). cbn beta. eapply wp_mono; [by apply seed_if |].
  intros _ w2 (Hw2 & Hset2 & added2 & Hu2 & Hl2 & Hf2).
  split; [done |]. split; [rewrite Hset2, Hset; by destruct w |]. exists (added ++ added2).
  split; [by rewrite Hu2, Hu, app_assoc |]. rewrite length_app. split; [lia |]. apply Forall_app_2.
  { eapply Forall_impl; [| exact Hf]. intros u [Hs Hn]. split; [by left |]. by rewrite (proj1 Hs). }
  eapply Forall_impl; [| exact Hf2]. intros u [Hs Hn]. split; [by right |]. intros v (Hv & He & Hd).
  apply (Hn v). split; [rewrite Hu, elem_of_app; by left |]. by rewrite He, (proj1 Hs).
Qed.

(** Seeding never changes or removes an account: it adds at most the two
    configured ones, each only where its address had none, with the role
    that belongs to it; nothing but the table of users is touched. *)
Theorem SeedUsers_only_adds salts ae ap ue up w :
  healthy w ->
  exists w' added, SeedUsers salts ae ap ue up w = (w', Done tt) /\
    users w' = users w ++ added /\ (length added <= 2)%nat /\ healthy w' /\ w' = set_users (w_users w') w /\
    Forall (fun u => (seeded salts.1 ae ap RoleCodeAdmin u \/ seeded salts.2 ue up RoleCodeUser u) /\
                     forall v, ~ account w (user_Email u) v) added.
Proof.
  intros Hw. destruct (wp_total _ _ _ (SeedUsers_outcome salts ae ap ue up w Hw)) as
    (w' & [] & Hrun & Hw' & Hset & added & Hu & Hl & Hf). eauto 10.
Qed.

(** Restarting the service changes nothing: once both accounts exist, with
    whatever password and role they have by then, the seeder adds nothing. *)
Theorem SeedUsers_idempotent salts ae ap ue up w a u :
  healthy w -> account w ae a -> account w ue u ->
  exists w', SeedUsers salts ae ap ue up w = (w', Done tt) /\ users w' = users w.
Proof.
  intros Hw Ha Hu. destruct (wp_total _ _ _ (SeedUsers_outcome salts ae ap ue up w Hw)) as
    (w' & [] & Hrun & Hw' & Hset & added & Hrows & Hl & Hf).
  exists w'. split; [done |]. rewrite Hrows. destruct added as [|x added]; [apply app_nil_r |].
  apply Forall_cons_1 in Hf as [[[Hs|Hs] Hno] _]; rewrite (proj1 Hs) in Hno; [by destruct (Hno a) | by destruct (Hno u)].
Qed.

(** C37: On a new deployment, which has no session and no refresh token yet, the
    account the seeder added for the administrator logs in with the configured
    password of at most 72 bytes, and is handed an access token for its session
    that carries the role ADMIN.  (The database answers, the address of the
    client fits its column, and the signing of tokens does not fail.) *)
Theorem seeded_admin_logs_in salt s email pw ip ua w w' u :
  healthy w -> (String.length pw <= 72)%nat ->
  seedSingleUser salt email pw RoleCodeAdmin w = (w', Done tt) -> users w' = users w ++ [u] ->
  table_up (w_sessions w) -> rows (w_sessions w) = [] -> table_up (w_tokens w) -> rows (w_tokens w) = [] ->
  char_count ip <= 45 -> (forall c, is_ok (jwt_sign (svc_jwtSecret s) c) = true) ->
  exists w'' res, Login s email pw ip ua w' = (w'', Done (Ok res)) /\ login_User res = u /\
    exists sess t1 t2, rows (w_sessions w'') = [sess] /\
      jwt_sign (svc_jwtSecret s) (access_claims (user_ID u) RoleCodeAdmin (session_ID sess) t1 t2) = Ok (login_AccessToken res).
Proof.
  intros Hw Hlen Hrun Hrows Hus Hs Hut Ht Hip Hsign.
  pose proof (seedSingleUser_outcome salt email pw RoleCodeAdmin w Hw) as Ho.
  unfold wp in Ho. rewrite Hrun in Ho. destruct Ho as ([Hup HN] & Hset & added & Hu & _ & Hf).
  rewrite Hrows in Hu. apply app_inv_head in Hu. subst added. apply Forall_cons_1 in Hf as [[(He & Hr & Hd & Hp) _] _].
  unfold GenerateFromPassword in Hp. destruct (Nat.ltb_spec 72 (String.length pw)) as [?|_]; [lia |]. cbn in Hp.
  assert (w_sessions w' = w_sessions w) as Hss by (by rewrite Hset).
  assert (w_tokens w' = w_tokens w) as Htt by (by rewrite Hset).
  rewrite <-Hr. apply first_Login_succeeds; rewrite ?Hss, ?Htt; try done.
  - split; [| done]. rewrite Hrows. apply elem_of_app. right. by left.
  - rewrite Hp. by apply bcrypt_matches_hash.
Qed.

(** A configured password of more than 72 bytes is refused by [bcrypt]; the
    seeder drops the error and stores an account that no password opens, and
    later starts keep it. *)
Theorem long_password_locks_out salt s email pw role ip ua w w' u any :
  healthy w -> (72 < String.length pw)%nat ->
  seedSingleUser salt email pw role w = (w', Done tt) -> users w' = users w ++ [u] ->
  exists w'', Login s email any ip ua w' = (w'', Done (Err ErrInvalidCredentials)).
Proof.
  intros Hw Hlen Hrun Hrows. pose proof (seedSingleUser_outcome salt email pw role w Hw) as Ho.
  unfold wp in Ho. rewrite Hrun in Ho. destruct Ho as ([Hup HN] & _ & added & Hu & _ & Hf).
  rewrite Hrows in Hu. apply app_inv_head in Hu. subst added. apply Forall_cons_1 in Hf as [[(He & Hr & Hd & Hp) Hno] _].
  unfold GenerateFromPassword in Hp. destruct (Nat.ltb_spec 72 (String.length pw)) as [_|?]; [| lia]. cbn in Hp.
  destruct (Login_refused s email any ip ua w') as (w'' & Hl & _); [done | | eauto].
  intros v (Hv & Hve & Hvd). rewrite Hrows in Hv. apply elem_of_app in Hv as [Hv|Hv%list_elem_of_singleton].
  - by destruct (Hno v).
  - subst v. rewrite Hp. apply bcrypt_matches_empty.
Qed.
End SeedFacts.

(** ** Concrete runs *)
Section SeedRuns.
#[local] Existing Instance mem_env.
#[local] Existing Instance mem_laws.

Definition blank : World := mem_world [] [] (mem_table []) (mem_table []) (mem_table []) (mem_redis no_data).

Lemma blank_healthy : healthy blank.
Proof. split; [constructor | by apply mem_NoClash]. Qed.

Definition long_password : string := String.concat "" (replicate 8 "0123456789").

Lemma SeedUsers_only_adds_witness :
  exists w' added, SeedUsers (1%N, 2%N) "a@x" "pw" "u@x" "pw2" blank = (w', Done tt) /\ rows (w_users w') = added.
Proof.
  destruct (SeedUsers_only_adds (1%N, 2%N) "a@x" "pw" "u@x" "pw2" blank blank_healthy) as (w' & added & H & Hu & _).
  exists w', added. split; [exact H | exact Hu].
Defined.

Definition seeded_world : World := (SeedUsers (1%N, 2%N) "a@x" "pw" "u@x" "pw2" blank).1.
Definition nth_user (n : nat) (w : World) : User := default (mkUser 0 0 0 None "" "" "") (rows (w_users w) !! n).

Lemma seeded_world_healthy : healthy seeded_world.
Proof. split; [constructor | apply mem_NoClash; vm_compute; reflexivity]. Qed.

Lemma SeedUsers_idempotent_witness :
  exists w', SeedUsers (1%N, 2%N) "a@x" "changed" "u@x" "pw2" seeded_world = (w', Done tt) /\
    rows (w_users w') = rows (w_users seeded_world).
Proof.
  apply (SeedUsers_idempotent (1%N, 2%N) "a@x" "changed" "u@x" "pw2" seeded_world
           (nth_user 0 seeded_world) (nth_user 1 seeded_world)).
  - exact seeded_world_healthy.
  - split; [apply (list_elem_of_lookup_2 _ 0); vm_compute; reflexivity | split; vm_compute; reflexivity].
  - split; [apply (list_elem_of_lookup_2 _ 1); vm_compute; reflexivity | split; vm_compute; reflexivity].
Defined.

Definition one_admin (pw : string) : World := (seedSingleUser 1%N "a@x" pw RoleCodeAdmin blank).1.

Lemma seeded_admin_logs_in_witness :
  exists w'' res, Login (mkAuthService LiveClient "secret") "a@x" "pw" "" "" (one_admin "pw") = (w'', Done (Ok res)) /\
    user_Email (login_User res) = "a@x"%string /\ user_RoleCode (login_User res) = RoleCodeAdmin.
Proof.
  destruct (seeded_admin_logs_in 1%N (mkAuthService LiveClient "secret") "a@x" "pw" "" "" blank (one_admin "pw")
    (nth_user 0 (one_admin "pw"))) as (w'' & res & H & Hu & _).
  - exact blank_healthy.
  - cbn. lia.
  - apply run_outcome. vm_compute. reflexivity.
  - vm_compute. reflexivity.
  - by constructor.
  - reflexivity.
  - by constructor.
  - reflexivity.
  - by vm_compute.
  - reflexivity.
  - exists w'', res. split; [exact H |]. rewrite Hu. split; vm_compute; reflexivity.
Defined.

Lemma long_password_locks_out_witness :
  exists w'', Login (mkAuthService LiveClient "secret") "a@x" long_password "" "" (one_admin long_password) =
              (w'', Done (Err ErrInvalidCredentials)).
Proof.
  apply (long_password_locks_out 1%N _ "a@x" long_password RoleCodeAdmin "" "" blank (one_admin long_password)
    (nth_user 0 (one_admin long_password))).
  - exact blank_healthy.
  - vm_compute. lia.
  - apply run_outcome. vm_compute. reflexivity.
  - vm_compute. reflexivity.
Defined.
End SeedRuns.
