(* ===== verification/Rpc.v ===== *)
(** * Rpc: what a gRPC call carries, and its response

    The incoming context (metadata, peer address, principal) with the accessors
    of [internal/shared/grpcctx/context.go], the request and response messages
    of the three services, and the cookies of [net/http].  Metadata keys are
    lower case, as the transport delivers them. *)

From stdpp Require Import base list strings numbers.
From Stdlib Require Import ZArith Lia Ascii.
From S2P Require Import Prelude GoStrings GoTime Domain Env Security.
Open Scope Z_scope.

#[local] Arguments String.append !_ _ / : simpl nomatch.

Record Ctx := mkCtx {
  ctx_metadata : option (list (string * string));   (* metadata.FromIncomingContext *)
  ctx_peer : option string;                         (* peer.FromContext, Addr.String() *)
  ctx_principal : option Principal;                 (* the value under the principal key *)
}.

(** [md.Get(key)] *)
Definition md_Get (md : list (string * string)) (key : string) : list string :=
  map snd (List.filter (fun kv => String.eqb kv.1 key) md).

Definition SetPrincipal (ctx : Ctx) (p : Principal) : Ctx :=
  mkCtx (ctx_metadata ctx) (ctx_peer ctx) (Some p).
Definition GetPrincipal (ctx : Ctx) : option Principal := ctx_principal ctx.
Definition GetActorFromCtx (ctx : Ctx) : result Principal :=
  match GetPrincipal ctx with
  | Some actor => Ok actor
  | None => Err (Fresh "unauthorized")
  end.

(** ** Messages *)
Record ViewRequest := mkViewRequest {
  view_Page : Z;
  view_Limit : Z;
  view_FilterStatus : string;
  view_FilterName : string;
  view_SortBy : string;
  view_SortDirection : string;
  view_CreatedFrom : string;
  view_CreatedTo : string;
}.

(** The requests of the services; [NotAMessage] is a value that is no protobuf
    message. *)
Inductive Request :=
| LoginRequest (identifier password : string)
| RefreshRequest (refresh_token : string)
| LogoutRequest
| LogoutAllRequest
| CreateServerRequest (server_name ipv4 : string)
| UpdateServerRequest (server_id server_name ipv4 : string)
| DeleteServerRequest (server_id : string)
| ViewServersRequest (v : ViewRequest)
| ImportServersRequest (file_content filename : string)
| ExportServersRequest (v : ViewRequest)
| RequestReportRequest (start_date end_date target_email : string)
| NotAMessage.

Record PbServer := mkPbServer {
  pb_ServerId : string;
  pb_ServerName : string;
  pb_Ipv4 : string;
  pb_CurrentStatus : string;
  pb_CreatedAt : string;
  pb_UpdatedAt : string;
}.

Inductive Response :=
| LoginResponse (access_token refresh_token token_type : string) (expires_in : Z)
| RefreshResponse (access_token refresh_token token_type : string) (expires_in : Z)
| LogoutResponse (message : string)
| LogoutAllResponse (message : string)
| CreateServerResponse (server : PbServer)
| UpdateServerResponse (server : PbServer)
| DeleteServerResponse (success : bool)
| ViewServersResponse (total_count : Z) (servers : list PbServer)
| ImportServersResponse (success_count : Z) (successful : list string) (fail_count : Z) (failed : list string)
| ExportServersResponse (file_content filename : string)
| RequestReportResponse (status : string) (code : Z) (message : string).

(** ** Cookies: [http.Cookie.String] with Path "/" and SameSite=Lax *)
Definition valid_cookie_byte (c : ascii) : bool :=
  (32 <=? byte_val c) && (byte_val c <? 127) && negb (byte_val c =? 34)
  && negb (Ascii.eqb c ";") && negb (byte_val c =? 92).

Fixpoint filter_string (p : ascii -> bool) (s : string) : string :=
  match s with
  | EmptyString => EmptyString
  | String c s' => if p c then String c (filter_string p s') else filter_string p s'
  end.

Definition dquote : string := String (ascii_of_nat 34) EmptyString.

Definition sanitizeCookieValue (v : string) : string :=
  let v := filter_string valid_cookie_byte v in
  if Contains v " " || Contains v "," then dquote +:+ v +:+ dquote else v.

Definition cookie_String (name value : string) (maxAge : Z) (httpOnly : bool) : string :=
  name +:+ "=" +:+ sanitizeCookieValue value +:+ "; Path=/"
  +:+ (if 0 <? maxAge then "; Max-Age=" +:+ Itoa maxAge
       else if maxAge <? 0 then "; Max-Age=0" else "")
  +:+ (if httpOnly then "; HttpOnly" else "") +:+ "; SameSite=Lax".

Definition authCookie (name value : string) (maxAge : Z) (httpOnly : bool) : string :=
  cookie_String name value maxAge httpOnly.
Definition clearCookie (name : string) : string :=
  cookie_String name "" (-1) (negb (String.eqb name "csrf_token")).

Example clear_csrf : clearCookie "csrf_token" = "csrf_token=; Path=/; Max-Age=0; SameSite=Lax"%string.
Proof. reflexivity. Qed.
