(* ===== verification/AuthServer.v ===== *)
(** * AuthServer: [identity/handler/grpcserver/auth_server.go]

    The gRPC face of the identity service: it maps the service's errors to
    status codes and sets or clears the cookies.  The main facts: a login or a
    refresh that succeeds sends exactly the tokens it returns as cookies, and
    the caller cannot tell an unknown account from a wrong password. *)

From stdpp Require Import base list strings numbers.
From Stdlib Require Import ZArith Lia.
From S2P Require Import Prelude GoStrings GoTime Domain Env MemEnv Security Rpc Identity.
Open Scope Z_scope.

Definition getClientIP (ctx : Ctx) : string := default ""%string (ctx_peer ctx).

Definition getUserAgent (ctx : Ctx) : string :=
  match ctx_metadata ctx with
  | None => ""
  | Some md =>
      match md_Get md "grpcgateway-user-agent" with
      | a :: _ => a
      | [] => match md_Get md "user-agent" with
              | a :: _ => a
              | [] => ""
              end
      end
  end.

Section AuthServer.
Context `{E : Env}.

Definition session_cookies (access refresh : string) (expiresIn : Z) (csrf : string)
  : list (string * string) :=
  [ ("set-cookie-access-token", authCookie "access_token" access expiresIn true);
    ("set-cookie-refresh-token", authCookie "refresh_token" refresh 604800 true);
    ("set-cookie-csrf-token", authCookie "csrf_token" csrf 86400 false) ]%string.

Definition cleared_cookies : list (string * string) :=
  [ ("clear-cookie", clearCookie "access_token"); ("clear-cookie", clearCookie "refresh_token");
    ("clear-cookie", clearCookie "csrf_token") ]%string.

(** [csrfToken, err := GenerateCSRFToken(); if err == nil { SetHeader }] *)
Definition send_cookies (access refresh : string) (expiresIn : Z) : M World () :=
  csrf <-- GenerateCSRFToken ;;
  match csrf with
  | Ok t => grpc_SetHeader (session_cookies access refresh expiresIn t)
  | Err _ => ret tt
  end.

Definition rpc_Login (s : authServiceImpl) (ctx : Ctx) (identifier password : string)
  : M World (result Response) :=
  if String.eqb identifier "" || String.eqb password ""
  then ret (Err (Status InvalidArgument "identifier and password are required"))
  else
    r <-- Login s identifier password (getClientIP ctx) (getUserAgent ctx) ;;
    match r with
    | Err e => if errors_Is e ErrInvalidCredentials
               then ret (Err (Status Unauthenticated "invalid credentials"))
               else ret (Err (Status Internal "failed to login"))
    | Ok res =>
        send_cookies (login_AccessToken res) (login_RefreshToken res) (login_ExpiresIn res) ;;;
        ret (Ok (LoginResponse (login_AccessToken res) (login_RefreshToken res) "Bearer"
                   (login_ExpiresIn res)))
    end.

Definition rpc_Logout (s : authServiceImpl) (ctx : Ctx) : M World (result Response) :=
  (match GetPrincipal ctx with
   | Some p => if negb (String.eqb (principal_SessionID p) "")
               then Logout s (principal_SessionID p) ;;; ret tt
               else ret tt
   | None => ret tt
   end) ;;;
  grpc_SetHeader cleared_cookies ;;;
  ret (Ok (LogoutResponse "Logout successful")).

Definition rpc_RefreshToken (s : authServiceImpl) (ctx : Ctx) (refreshToken : string)
  : M World (result Response) :=
  if String.eqb refreshToken "" then ret (Err (Status InvalidArgument "refresh token is required"))
  else
    r <-- Refresh s refreshToken ;;
    match r with
    | Err e => if errors_Is e ErrInvalidRefreshToken
               then ret (Err (Status Unauthenticated "invalid refresh token"))
               else ret (Err (Status Internal "failed to refresh token"))
    | Ok res =>
        send_cookies (refresh_AccessToken res) (refresh_RefreshToken res) (refresh_ExpiresIn res) ;;;
        ret (Ok (RefreshResponse (refresh_AccessToken res) (refresh_RefreshToken res) "Bearer"
                   (refresh_ExpiresIn res)))
    end.

Definition rpc_LogoutAll (s : authServiceImpl) (ctx : Ctx) : M World (result Response) :=
  let finish :=
    grpc_SetHeader cleared_cookies ;;;
    ret (Ok (LogoutAllResponse "Logout all successful")) in
  match GetPrincipal ctx with
  | Some p =>
      if negb (String.eqb (principal_UserID p) "") then
        match Sscanf_uint (principal_UserID p) with
        | Err e => ret (Err (Wrapped "invalid user id format in token" e))
        | Ok userID => if 0 <? userID then LogoutAll s userID ;;; finish else finish
        end
      else finish
  | None => finish
  end.
End AuthServer.

(** ** Properties *)
Section AuthServerProperties.
Context `{E : Env} {L : EnvLaws E}.
Implicit Types (w : World).

(** The tokens a login returns are the ones its cookies carry: the access
    token for as long as it is valid, the refresh token for a week, both out of
    reach of scripts; the CSRF token readable.  No cookie is set on failure. *)
Theorem rpc_Login_cookies s ctx id pw w w' r csrf :
  w_random w (w_reads w) = Ok csrf ->
  rpc_Login s ctx id pw w = (w', Done r) ->
  match r with
  | Ok (LoginResponse access refresh tt_ expires) =>
      tt_ = "Bearer"%string /\ expires = 900 /\
      w_headers w' = w_headers w ++ session_cookies access refresh expires (hex_encode csrf)
  | Ok _ => False
  | Err e => w_headers w' = w_headers w /\ exists c m, e = Status c m
  end.
Proof.
  intros Hrand Hrun. eapply run_wp; [exact Hrun |]. clear Hrun. unfold rpc_Login.
  destruct (_ || _)%bool; [apply wp_ret; intros <- <-; eauto |].
  apply wp_bind. eapply wp_mono; [apply (Login_frame s id pw _ _ w) |].
  intros r1 w1 (Hh & Hr & Hn & Hok). destruct r1 as [res|e].
  - unfold send_cookies, GenerateCSRFToken. go_wp; rewrite Hr, Hn, Hrand in *; simplify_eq.
    intros <- <-. cbn. rewrite Hh, (Hok res eq_refl). done.
  - destruct (errors_Is e ErrInvalidCredentials); apply wp_ret; intros <- <-; eauto.
Qed.

(** The address stored with a session is the peer's with its port, and the
    column holds 45 characters: from a longer one, such as that of most IPv6
    hosts, nobody can log in. *)
Theorem long_peer_address_cannot_log_in s ctx id pw w :
  45 < char_count (getClientIP ctx) ->
  match (rpc_Login s ctx id pw w).2 with Done (Ok _) => False | _ => True end.
Proof.
  intros Hlong. assert (wp (rpc_Login s ctx id pw) w (fun r _ => is_ok r = false) (fun _ => True)) as Hwp.
  { unfold rpc_Login. destruct (_ || _)%bool; [by apply wp_ret |]. apply wp_bind.
    eapply wp_mono; [apply Login_address_fits |]. intros [res|e] w1 Hr; [specialize (Hr eq_refl); lia |].
    destruct (errors_Is _ _); by apply wp_ret. }
  unfold wp in Hwp. by destruct (rpc_Login _ _ _ _ _) as [w' [[]|]].
Qed.

(** Logging out always answers success and clears the three cookies. *)
Theorem rpc_Logout_clears secret ctx w :
  exists w', rpc_Logout (mkAuthService LiveClient secret) ctx w
             = (w', Done (Ok (LogoutResponse "Logout successful"))) /\
             exists h, w_headers w' = h ++ cleared_cookies.
Proof.
  apply wp_outcome. unfold rpc_Logout. apply wp_bind.
  apply (wp_mono _ _ _ _ (fun _ _ => True)); [| intros u w1 _; go_wp; eauto].
  destruct (GetPrincipal ctx) as [p|]; [| by apply wp_ret].
  destruct (negb _); [| by apply wp_ret]. apply wp_bind.
  eapply wp_conseq; [apply (Logout_no_panic secret (principal_SessionID p) w) | | done].
  intros r w1 _. by apply wp_ret.
Qed.

(** The user named by the access token of a user is that user: logging out
    everywhere ends that user's sessions and no others, and clears the
    cookies. *)
Theorem rpc_LogoutAll_ends_own_sessions secret ctx p uid w :
  healthy w -> 0 < uid <= max_uint64 ->
  ctx_principal ctx = Some p -> principal_UserID p = Itoa uid ->
  exists w', rpc_LogoutAll (mkAuthService LiveClient secret) ctx w
             = (w', Done (Ok (LogoutAllResponse "Logout all successful"))) /\
             logged_out_everywhere w w' uid /\ exists h, w_headers w' = h ++ cleared_cookies.
Proof.
  intros Hh Huid Hp Hid. apply wp_outcome. unfold rpc_LogoutAll, GetPrincipal. rewrite Hp, Hid.
  destruct (String.eqb_spec (Itoa uid) "") as [He|_].
  { pose proof (Sscanf_Itoa uid ltac:(lia)) as Hs. by rewrite He in Hs. }
  cbn [negb]. rewrite Sscanf_Itoa by lia. destruct (Z.ltb_spec 0 uid); [| lia].
  apply wp_bind. eapply wp_mono; [by apply LogoutAll_outcome |].
  intros r w1 [_ Ho]. go_wp. split; [done |]. split; [| eauto]. exact Ho.
Qed.
End AuthServerProperties.

(** ** Concrete runs *)
Section AuthServerRuns.
#[local] Existing Instance mem_env.
#[local] Existing Instance mem_laws.

Definition demo_ctx : Ctx :=
  mkCtx (Some [("user-agent", "curl")]%string) (Some "10.1.1.1:4000"%string)
    (Some (mkPrincipal "1" "" "" "" RoleCodeAdmin "5")).

Lemma rpc_Login_cookies_witness :
  exists w' access refresh,
    rpc_Login demo_service demo_ctx "ops@example.com" "secret" (demo_world None [])
      = (w', Done (Ok (LoginResponse access refresh "Bearer" 900))) /\
    w_headers w' = session_cookies access refresh 900 (hex_encode (repeat 0 32)).
Proof.
  destruct (outcome_ok_run (rpc_Login demo_service demo_ctx "ops@example.com" "secret" (demo_world None [])))
    as (w' & r & H); [by vm_compute |].
  pose proof (rpc_Login_cookies _ _ _ _ (demo_world None []) w' (Ok r) (repeat 0 32) eq_refl H) as Hc.
  destruct r as [access refresh tt_ ex| | | | | | | | | |]; [| destruct Hc ..]. destruct Hc as (-> & -> & Hh).
  exists w', access, refresh. split; [exact H | exact Hh].
Defined.

(** The right password, from an IPv6 host. *)
Lemma long_peer_address_cannot_log_in_witness :
  let ctx := mkCtx (Some []) (Some "[2001:db8:1111:2222:3333:4444:5555:6666]:54321"%string) None in
  match (rpc_Login demo_service ctx "ops@example.com" "secret" (demo_world None [])).2 with
  | Done (Ok _) => False
  | _ => True
  end.
Proof.
  intros ctx. apply (long_peer_address_cannot_log_in demo_service ctx "ops@example.com" "secret" (demo_world None [])).
  vm_compute. reflexivity.
Defined.

Lemma rpc_LogoutAll_ends_own_sessions_witness :
  exists w', rpc_LogoutAll demo_service demo_ctx (demo_world None [])
             = (w', Done (Ok (LogoutAllResponse "Logout all successful"))) /\
             logged_out_everywhere (demo_world None []) w' 1.
Proof.
  destruct (rpc_LogoutAll_ends_own_sessions "key" demo_ctx (mkPrincipal "1" "" "" "" RoleCodeAdmin "5") 1
              (demo_world None [])) as (w' & H & Ho & _); [apply demo_healthy | done | done | done |].
  exists w'. split; [exact H | exact Ho].
Defined.
End AuthServerRuns.
