(* ===== verification/GoNet.v ===== *)
(** * GoNet: [net.ParseIP] and [IP.To4]

    The parser of [net/netip] that [net.ParseIP] calls: dotted IPv4 addresses
    without leading zeros, and IPv6 addresses with an ellipsis and a trailing
    dotted part.  The group loop of the IPv6 parser consumes at least two of
    sixteen bytes per round, so nine rounds of fuel are enough.  The main fact
    is [To4_dotted]: what an operator means by an IPv4 address is accepted. *)

From stdpp Require Import base list strings numbers.
From Stdlib Require Import ZArith Lia Ascii.
From S2P Require Import Prelude GoStrings.
Open Scope Z_scope.

#[local] Arguments String.append !_ _ / : simpl nomatch.

(** ** [parseIPv4Fields]: the loop over the bytes

    [val], [digLen] and [prevDot] are the variables of the loop ([prevDot]
    also stands for being at the first byte); [fields] is filled in order. *)
Fixpoint parseIPv4Fields (s : list ascii) (val : Z) (digLen : nat) (prevDot : bool)
  (fields : list Z) : option (list Z) :=
  match s with
  | [] => if (length fields <? 3)%nat then None else Some (fields ++ [val])
  | c :: s' =>
      if is_digit c then
        if (digLen =? 1)%nat && (val =? 0) then None
        else
          let val := val * 10 + (byte_val c - 48) in
          if 255 <? val then None else parseIPv4Fields s' val (S digLen) false fields
      else if Ascii.eqb c "." then
        if prevDot || bool_decide (s' = []) then None
        else if (length fields =? 3)%nat then None
        else parseIPv4Fields s' 0 0 true (fields ++ [val])
      else None
  end.

Definition parseIPv4 (s : list ascii) : option (list Z) := parseIPv4Fields s 0 0 true [].

(** ** [parseIPv6] *)
Definition hex_value (c : ascii) : option Z :=
  let n := byte_val c in
  if is_digit c then Some (n - 48)
  else if (97 <=? n) && (n <=? 102) then Some (n - 97 + 10)
  else if (65 <=? n) && (n <=? 70) then Some (n - 65 + 10)
  else None.

(** One group: how many digits were read, their value and the rest; [None] for
    more than four digits. *)
Fixpoint hex_group (s : list ascii) (off : nat) (acc : Z) : option (nat * Z * list ascii) :=
  match s with
  | c :: s' =>
      match hex_value c with
      | Some d => if (3 <? off)%nat then None else hex_group s' (S off) (acc * 16 + d)
      | None => Some (off, acc, s)
      end
  | [] => Some (off, acc, [])
  end.

(** What the loop leaves: the bytes read, where the ellipsis stood, the rest. *)
Fixpoint groups (fuel : nat) (s : list ascii) (ip : list Z) (ellipsis : option nat)
  : option (list Z * option nat * list ascii) :=
  match fuel with
  | O => Some (ip, ellipsis, s)
  | S fuel =>
      if (16 <=? length ip)%nat then Some (ip, ellipsis, s)
      else match hex_group s 0 0 with
      | None => None
      | Some (off, acc, rest) =>
          if (off =? 0)%nat then None
          else match rest with
          | [] => Some (ip ++ [acc / 256; acc mod 256], ellipsis, [])
          | c :: rest' =>
              if Ascii.eqb c "." then
                if bool_decide (ellipsis = None) && negb (length ip =? 12)%nat then None
                else if (16 <? length ip + 4)%nat then None
                else match parseIPv4Fields s 0 0 true [] with
                     | Some f => Some (ip ++ f, ellipsis, [])
                     | None => None
                     end
              else if negb (Ascii.eqb c ":") then None
              else
                let ip := ip ++ [acc / 256; acc mod 256] in
                match rest' with
                | [] => None
                | c2 :: rest2 =>
                    if Ascii.eqb c2 ":" then
                      match ellipsis with
                      | Some _ => None
                      | None =>
                          if bool_decide (rest2 = []) then Some (ip, Some (length ip), [])
                          else groups fuel rest2 ip (Some (length ip))
                      end
                    else groups fuel rest' ip ellipsis
                end
          end
      end
  end.

Fixpoint split_zone (s : list ascii) : list ascii * option (list ascii) :=
  match s with
  | [] => ([], None)
  | c :: s' => if Ascii.eqb c "%" then ([], Some s')
               else let '(a, z) := split_zone s' in (c :: a, z)
  end.

Definition expand_ellipsis (ip : list Z) (e : nat) : list Z :=
  take e ip ++ repeat 0 (16 - length ip) ++ drop e ip.

(** The sixteen bytes, and whether there was a zone. *)
Definition parseIPv6 (s : list ascii) : option (list Z * bool) :=
  let '(s, zone) := split_zone s in
  if bool_decide (zone = Some []) then None
  else
    let has_zone := bool_decide (zone <> None) in
    let '(s, ellipsis) := match s with
                          | c1 :: c2 :: s' => if Ascii.eqb c1 ":" && Ascii.eqb c2 ":"
                                              then (s', Some 0%nat) else (s, None)
                          | _ => (s, None)
                          end in
    if bool_decide (s = []) && bool_decide (ellipsis = Some 0%nat)
    then Some (repeat 0 16, has_zone)
    else match groups 9 s [] ellipsis with
         | None => None
         | Some (ip, ellipsis, rest) =>
             if negb (bool_decide (rest = [])) then None
             else if (length ip <? 16)%nat then
               match ellipsis with
               | None => None
               | Some e => Some (expand_ellipsis ip e, has_zone)
               end
             else if bool_decide (ellipsis = None) then Some (ip, has_zone) else None
         end.

(** ** [net.ParseIP]: the sixteen-byte form, with IPv4 addresses mapped *)
Definition v4_mapped (f : list Z) : list Z := repeat 0 10 ++ [255; 255] ++ f.

Fixpoint address_kind (s : list ascii) : option bool :=   (* Some true: IPv4 *)
  match s with
  | [] => None
  | c :: s' => if Ascii.eqb c "." then Some true
               else if Ascii.eqb c ":" then Some false
               else if Ascii.eqb c "%" then None
               else address_kind s'
  end.

Definition ParseIP (str : string) : option (list Z) :=
  let s := String.list_ascii_of_string str in
  match address_kind s with
  | None => None
  | Some true => match parseIPv4 s with Some f => Some (v4_mapped f) | None => None end
  | Some false => match parseIPv6 s with
                  | Some (ip, false) => Some ip
                  | _ => None
                  end
  end.

(** [ip.To4()] on a sixteen-byte address *)
Definition To4 (ip : list Z) : option (list Z) :=
  if bool_decide (take 12 ip = v4_mapped []) then Some (drop 12 ip) else None.

(** [ip := net.ParseIP(s); ip != nil && ip.To4() != nil] *)
Definition is_ipv4 (s : string) : bool :=
  match ParseIP s with
  | Some ip => bool_decide (To4 ip <> None)
  | None => false
  end.

Example is_ipv4_examples :
  map is_ipv4 ["10.0.0.1"; "255.255.255.255"; "256.1.1.1"; "01.2.3.4"; "1.2.3"; "1.2.3.4.5"; "1..2.3";
               "::1"; "::ffff:10.0.0.1"; "::ffff:a00:1"; "0:0:0:0:0:ffff:1.2.3.4"; "abc"; ""]%string
  = [true; true; false; false; false; false; false;
     false; true; true; true; false; false].
Proof. reflexivity. Qed.

(** ** [net.SplitHostPort], the host *)
Fixpoint last_colon (s : list ascii) (i : nat) : option nat :=
  match s with
  | [] => None
  | c :: s' => match last_colon s' (S i) with
               | Some j => Some j
               | None => if Ascii.eqb c ":" then Some i else None
               end
  end.

Fixpoint index_char (c : ascii) (s : list ascii) : option nat :=
  match s with
  | [] => None
  | d :: s' => if Ascii.eqb d c then Some 0%nat else S <$> index_char c s'
  end.

Definition SplitHost (hostport : string) : option string :=
  let s := String.list_ascii_of_string hostport in
  match last_colon s 0 with
  | None => None
  | Some i =>
      match
        (if bool_decide (s !! 0%nat = Some "["%char) then
           match index_char "]" s with
           | None => None
           | Some e =>
               if (e + 1 =? length s)%nat then None
               else if (e + 1 =? i)%nat then Some (take (e - 1) (drop 1 s), 1%nat, (e + 1)%nat)
               else None
           end
         else
           let host := take i s in
           match index_char ":" host with
           | Some _ => None
           | None => Some (host, 0%nat, 0%nat)
           end)
      with
      | None => None
      | Some (host, j, k) =>
          if bool_decide (index_char "[" (drop j s) = None) && bool_decide (index_char "]" (drop k s) = None)
          then Some (String.string_of_list_ascii host) else None
      end
  end.

Example SplitHost_examples :
  map SplitHost ["10.1.2.3:5000"; "[::1]:80"; "10.1.2.3"; "::1:80"; "[::1]"; "bufconn"]%string
  = [Some "10.1.2.3"; Some "::1"; None; None; None; None]%string.
Proof. reflexivity. Qed.

(** ** Dotted decimal is accepted *)
Definition dotted (a b c d : Z) : string :=
  Itoa a +:+ "." +:+ Itoa b +:+ "." +:+ Itoa c +:+ "." +:+ Itoa d.

Lemma list_ascii_app a b :
  String.list_ascii_of_string (a +:+ b)
  = String.list_ascii_of_string a ++ String.list_ascii_of_string b.
Proof. induction a as [|c a IH]; [done |]. cbn. by rewrite IH. Qed.

Definition octet_chars (n : Z) : list ascii := String.list_ascii_of_string (Itoa n).

Lemma octets_parse :
  Forall (fun n => forall rest,
    (forall fields, exists k, parseIPv4Fields (octet_chars n ++ rest) 0 0 true fields
                              = parseIPv4Fields rest n k false fields) /\
    address_kind (octet_chars n ++ "."%char :: rest) = Some true)
    (map Z.of_nat (seq 0 256)).
Proof.
  cbn [map seq].
  repeat (apply Forall_cons_2; [intros rest; split; [intros; eexists; reflexivity | reflexivity] |]).
  by apply Forall_nil_2.
Qed.

Lemma octet_parse n rest :
  0 <= n <= 255 ->
  (forall fields, exists k, parseIPv4Fields (octet_chars n ++ rest) 0 0 true fields
                            = parseIPv4Fields rest n k false fields) /\
  address_kind (octet_chars n ++ "."%char :: rest) = Some true.
Proof.
  intros Hn. pose proof octets_parse as H. rewrite Forall_forall in H. apply (H n).
  apply in_map_iff. exists (Z.to_nat n). rewrite in_seq. lia.
Qed.

(** A dot after an octet that is not the last starts the next one. *)
Lemma dot_step n k c rest fields :
  (length fields < 3)%nat ->
  parseIPv4Fields ("."%char :: c :: rest) n k false fields
  = parseIPv4Fields (c :: rest) 0 0 true (fields ++ [n]).
Proof.
  intros Hl. cbn [parseIPv4Fields]. rewrite (bool_decide_eq_false_2 (c :: rest = [])) by done.
  destruct (Nat.eqb_spec (length fields) 3); [lia | done].
Qed.

Lemma octet_chars_cons n : 0 <= n <= 255 -> exists c l, octet_chars n = c :: l.
Proof.
  intros Hn. unfold octet_chars, Itoa, itoa_nonneg. destruct (Z.ltb_spec n 0); [lia |].
  destruct (itoa_fuel_head (Z.to_nat (Z.log2 n)) n EmptyString) as (d & s & _ & ->); [lia |]. eauto.
Qed.

Lemma octet_dot n rest fields :
  0 <= n <= 255 -> (length fields < 3)%nat -> rest <> [] ->
  parseIPv4Fields (octet_chars n ++ "."%char :: rest) 0 0 true fields
  = parseIPv4Fields rest 0 0 true (fields ++ [n]).
Proof.
  intros Hn Hl Hr. destruct (octet_parse n ("."%char :: rest) Hn) as [Hp _].
  destruct (Hp fields) as [k ->]. destruct rest; [done |]. by apply dot_step.
Qed.

Lemma To4_mapped f : To4 (v4_mapped f) = Some f.
Proof. unfold To4. by rewrite bool_decide_eq_true_2 by reflexivity. Qed.

Lemma To4_dotted a b c d :
  0 <= a <= 255 -> 0 <= b <= 255 -> 0 <= c <= 255 -> 0 <= d <= 255 ->
  ParseIP (dotted a b c d) = Some (v4_mapped [a; b; c; d]) /\ is_ipv4 (dotted a b c d) = true.
Proof.
  intros Ha Hb Hc Hd.
  assert (ParseIP (dotted a b c d) = Some (v4_mapped [a; b; c; d])) as Hp.
  { unfold ParseIP, dotted. rewrite !list_ascii_app. cbn [String.list_ascii_of_string app].
    fold (octet_chars a) (octet_chars b) (octet_chars c) (octet_chars d).
    rewrite (proj2 (octet_parse a _ Ha)). unfold parseIPv4.
    destruct (octet_chars_cons b Hb) as (? & ? & Eb), (octet_chars_cons c Hc) as (? & ? & Ec),
      (octet_chars_cons d Hd) as (? & ? & Ed).
    rewrite octet_dot by (cbn; auto with lia; by rewrite Eb).
    rewrite octet_dot by (cbn; auto with lia; by rewrite Ec).
    rewrite octet_dot by (cbn; auto with lia; by rewrite Ed).
    destruct (octet_parse d [] Hd) as [Hlast _]. rewrite app_nil_r in Hlast.
    destruct (Hlast (([] ++ [a]) ++ [b] ++ [c])) as [k Hk]. cbn in Hk |- *. by rewrite Hk. }
  split; [done |]. unfold is_ipv4. rewrite Hp, To4_mapped. by apply bool_decide_eq_true_2.
Qed.
