(* ===== verification/Servers.v ===== *)
(** * Servers: [internal/modules/server_management] (repository, service) and
    [internal/infrastructure/redis] (the server cache)

    The repository is the gorm statements of [server_repository_impl.go]; the
    service writes first to PostgreSQL and then to the cache.  The cache is an
    interface of the code, [CacheManager]: here a record of operations, with
    the class [CacheLaws] for what the service relies on; [NewServerCache] is
    the Redis implementation and is shown to satisfy the laws. *)

From stdpp Require Import base list strings gmap numbers sorting.
From Stdlib Require Import ZArith Lia.
From S2P Require Import Prelude GoStrings GoTime Domain Env MemEnv.
Open Scope Z_scope.

(** ** Errors *)
Definition ErrNotFound : error := Sentinel "repository.ErrNotFound" "record not found".
Definition ErrServerNotFound : error := Sentinel "service.ErrServerNotFound" "server not found".
Definition ErrIPv4Exists : error := Sentinel "service.ErrIPv4Exists" "ipv4 already exists".
Definition ErrNameExists : error := Sentinel "service.ErrNameExists" "server name already exists".

Record ServerListFilter := mkFilter {
  filter_Page : Z;
  filter_PageSize : Z;
  filter_Status : string;
  filter_Name : string;
  filter_CreatedFrom : Time;
  filter_CreatedTo : Time;
  filter_SortBy : string;
  filter_SortDirection : string;
}.

Section ServerRepository.
Context `{E : Env}.

(** ** [GormServerRepository] *)

Definition with_name (name : string) (s : Server) : Server :=
  mkServer (server_ServerID s) name (server_IPv4 s) (server_CurrentStatus s)
    (server_ConsecutiveFailures s) (server_CreatedAt s) (server_UpdatedAt s).
Definition with_ipv4 (ip : string) (s : Server) : Server :=
  mkServer (server_ServerID s) (server_ServerName s) ip (server_CurrentStatus s)
    (server_ConsecutiveFailures s) (server_CreatedAt s) (server_UpdatedAt s).
Definition trimmed (s : Server) : Server :=
  with_ipv4 (TrimSpace (server_IPv4 s)) (with_name (TrimSpace (server_ServerName s)) s).

Definition serverRepo_Create (server : Server) : M World (result Server) :=
  let server := trimmed server in
  r <-- db_servers (gorm_Create [server]) ;;
  ret (match r with
       | Ok (s :: _) => Ok s
       | Ok [] => Ok server
       | Err e => Err e
       end).

Definition first_server (p : Server -> bool) : M World (result Server) :=
  r <-- db_servers (gorm_First p) ;;
  ret (match r with
       | Ok s => Ok s
       | Err e => if errors_Is e ErrRecordNotFound then Err ErrNotFound else Err e
       end).

Definition serverRepo_GetByID (id : string) : M World (result Server) :=
  first_server (fun s => uuid_column_eq (server_ServerID s) id).
Definition serverRepo_GetByIPv4 (ipv4 : string) : M World (result Server) :=
  first_server (fun s => String.eqb (server_IPv4 s) (TrimSpace ipv4)).
Definition serverRepo_GetByName (name : string) : M World (result Server) :=
  first_server (fun s => String.eqb (server_ServerName s) (TrimSpace name)).

Definition serverRepo_FindByNamesOrIPv4s (names ipv4s : list string) : M World (result (list Server)) :=
  if (length names =? 0)%nat && (length ipv4s =? 0)%nat then ret (Ok [])
  else db_servers (gorm_Find (select_where (fun s =>
         bool_decide (server_ServerName s ∈ names) || bool_decide (server_IPv4 s ∈ ipv4s)))).

(** The selected columns of an update. *)
Definition set_columns (src s : Server) : Server :=
  mkServer (server_ServerID s) (server_ServerName src) (server_IPv4 src)
    (server_CurrentStatus src) (server_ConsecutiveFailures src) (server_CreatedAt s)
    (server_UpdatedAt s).

(** The caller's struct is trimmed and stamped in place. *)
Definition serverRepo_Update (server : Server) : M World (result Server) :=
  let server := trimmed server in
  r <-- db_servers (gorm_Updates (fun s => uuid_column_eq (server_ServerID s) (server_ServerID server))
                      (set_columns server)) ;;
  ret (match r with
       | Err e => Err e
       | Ok (n, now) => if n =? 0 then Err ErrNotFound else Ok (touched now server)
       end).

Definition serverRepo_Delete (id : string) : M World (result ()) :=
  r <-- db_servers (gorm_Delete (fun s => uuid_column_eq (server_ServerID s) id)) ;;
  ret (match r with
       | Err e => Err e
       | Ok n => if n =? 0 then Err ErrNotFound else Ok tt
       end).

Definition serverRepo_BatchCreate (servers : list Server) : M World (result (list Server)) :=
  if (length servers =? 0)%nat then ret (Ok [])
  else db_servers (gorm_Create servers).

(** *** Search *)
Definition search_where (filter : ServerListFilter) (s : Server) : bool :=
  (String.eqb (filter_Status filter) "" || String.eqb (server_CurrentStatus s) (filter_Status filter))
  && (String.eqb (filter_Name filter) ""
      || (let term := "%" +:+ TrimSpace (filter_Name filter) +:+ "%" in
          sql_ilike (server_ServerName s) term || sql_ilike (server_IPv4 s) term))
  && (IsZero (filter_CreatedFrom filter) || (filter_CreatedFrom filter <=? server_CreatedAt s))
  && (IsZero (filter_CreatedTo filter) || (server_CreatedAt s <? filter_CreatedTo filter)).

Definition search_order (filter : ServerListFilter) : string :=
  if negb (String.eqb (filter_SortBy filter) "") then
    let direction := if String.eqb (ToLower (filter_SortDirection filter)) "desc"
                     then "desc"%string else "asc"%string in
    filter_SortBy filter +:+ " " +:+ direction
  else "created_at desc".

Definition search_query (filter : ServerListFilter) : Query Server :=
  mkQuery (search_where filter) (Some (mkOrderBy (search_order filter) (servers_order (search_order filter))))
    (Some (int64 (int64 (filter_Page filter - 1) * filter_PageSize filter)))
    (Some (filter_PageSize filter)).

Definition serverRepo_Search (filter : ServerListFilter) : M World (result (list Server * Z)) :=
  total <-? db_servers (gorm_Count (search_where filter)) ;;
  servers <-? db_servers (gorm_Find (search_query filter)) ;;
  ret (Ok (servers, int32 total)).

End ServerRepository.

(** ** The cache *)
Record CacheUpsertItem := mkCacheItem {
  item_ID : string;
  item_IPv4 : string;
  item_Status : string;
  item_RetryCount : Z;
}.

Record CacheManager `{E : Env} := mkCacheManager {
  cache_Upsert : string -> string -> string -> Z -> M World (result ());
  cache_BatchUpsert : list CacheUpsertItem -> M World (result ());
  cache_Delete : string -> M World (result ());
}.

Definition ServerAllIDsKey : string := "server:all_ids".
(** [fmt.Sprintf("server:info:%s", id)] *)
Definition ServerInfoKey (id : string) : string := "server:info:" +:+ id.

Section ServerCache.
Context `{E : Env}.

Definition info_fields (ipv4 status : string) (retryCount : Z) : list (string * string) :=
  [("ipv4"%string, ipv4); ("status"%string, status); ("retry_count"%string, Itoa retryCount)].

Definition ServerCache_Upsert (client : UniversalClient) (id ipv4 status : string) (retryCount : Z)
  : M World (result ()) :=
  if iface_is_nil client then ret (Ok tt)
  else
    _a <-? redis_call client (redis_Exec [HSET (ServerInfoKey id) (info_fields ipv4 status retryCount)])
      orelse Wrapped "hset server info" ;;
    _b <-? redis_call client (redis_Exec [SADD ServerAllIDsKey id])
      orelse Wrapped "sadd server all_ids" ;;
    ret (Ok tt).

Definition upsert_cmds (i : CacheUpsertItem) : list RedisCmd :=
  [ HSET (ServerInfoKey (item_ID i)) (info_fields (item_IPv4 i) (item_Status i) (item_RetryCount i));
    SADD ServerAllIDsKey (item_ID i) ].

Definition ServerCache_BatchUpsert (client : UniversalClient) (items : list CacheUpsertItem)
  : M World (result ()) :=
  if iface_is_nil client || (length items =? 0)%nat then ret (Ok tt)
  else
    _a <-? redis_call client (redis_Exec (concat (map upsert_cmds items)))
      orelse Wrapped "redis pipeline batch upsert" ;;
    ret (Ok tt).

Definition ServerCache_Delete (client : UniversalClient) (id : string) : M World (result ()) :=
  if iface_is_nil client then ret (Ok tt)
  else
    _a <-? redis_call client (redis_Exec [DEL (ServerInfoKey id)]) orelse Wrapped "del server info" ;;
    _b <-? redis_call client (redis_Exec [SREM ServerAllIDsKey id]) orelse Wrapped "srem server all_ids" ;;
    ret (Ok tt).

Definition NewServerCache (client : UniversalClient) : CacheManager :=
  mkCacheManager _ (ServerCache_Upsert client) (ServerCache_BatchUpsert client)
    (ServerCache_Delete client).

End ServerCache.

(** ** The service *)
Section ServerService.
Context `{E : Env}.

Record serverService := mkServerService { svc_cache : option CacheManager }.

Record CreateServerInput := mkCreateInput { create_ServerName : string; create_IPv4 : string }.
Record UpdateServerInput := mkUpdateInput { update_ServerName : string; update_IPv4 : string }.

(** [if s.cache != nil { if err := ...; err != nil { log } }] *)
Definition with_cache (s : serverService) (op : CacheManager -> M World (result ())) : M World () :=
  match svc_cache s with
  | Some c => op c ;;; ret tt
  | None => ret tt
  end.

Definition CreateServer (s : serverService) (input : CreateServerInput) : M World (result Server) :=
  existingName <-- serverRepo_GetByName (create_ServerName input) ;;
  match existingName with
  | Ok _ => ret (Err ErrNameExists)
  | Err e =>
    if negb (errors_Is e ErrNotFound) then ret (Err e)
    else
      existingIP <-- serverRepo_GetByIPv4 (create_IPv4 input) ;;
      match existingIP with
      | Ok _ => ret (Err ErrIPv4Exists)
      | Err e =>
        if negb (errors_Is e ErrNotFound) then ret (Err e)
        else
          server <-? serverRepo_Create
            (mkServer "" (create_ServerName input) (create_IPv4 input) "" 0 zero_time zero_time) ;;
          with_cache s (fun c => cache_Upsert c (server_ServerID server) (server_IPv4 server)
                                   (server_CurrentStatus server) 0) ;;;
          ret (Ok server)
      end
  end.

(** [existing != nil && existing.ServerID != id], or the lookup failed *)
Definition taken_by_other (id : string) (existing : result Server) : result bool :=
  match existing with
  | Ok e => Ok (negb (String.eqb (server_ServerID e) id))
  | Err e => if errors_Is e ErrNotFound then Ok false else Err e
  end.

(** [UpdateServer] after its first read, which is separate because other
    goroutines run between the read and the write. *)
Definition update_found (s : serverService) (id : string) (input : UpdateServerInput) (found : result Server)
  : M World (result Server) :=
  match found with
  | Err e => ret (Err (if errors_Is e ErrNotFound then ErrServerNotFound else e))
  | Ok server =>
    server <-? (if negb (String.eqb (update_ServerName input) (server_ServerName server)) then
                  existingName <-- serverRepo_GetByName (update_ServerName input) ;;
                  ret (match taken_by_other id existingName with
                       | Err e => Err e
                       | Ok true => Err ErrNameExists
                       | Ok false => Ok (with_name (update_ServerName input) server)
                       end)
                else ret (Ok server)) ;;
    server <-? (if negb (String.eqb (update_IPv4 input) (server_IPv4 server)) then
                  existingIP <-- serverRepo_GetByIPv4 (update_IPv4 input) ;;
                  ret (match taken_by_other id existingIP with
                       | Err e => Err e
                       | Ok true => Err ErrIPv4Exists
                       | Ok false => Ok (with_ipv4 (update_IPv4 input) server)
                       end)
                else ret (Ok server)) ;;
    server <-? serverRepo_Update server ;;
    with_cache s (fun c => cache_Upsert c (server_ServerID server) (server_IPv4 server)
                             (server_CurrentStatus server) (server_ConsecutiveFailures server)) ;;;
    ret (Ok server)
  end.

Definition UpdateServer (s : serverService) (id : string) (input : UpdateServerInput)
  : M World (result Server) :=
  found <-- serverRepo_GetByID id ;; update_found s id input found.

Definition DeleteServer (s : serverService) (id : string) : M World (result ()) :=
  found <-- serverRepo_GetByID id ;;
  match found with
  | Err e => ret (Err (if errors_Is e ErrNotFound then ErrServerNotFound else e))
  | Ok _ =>
    deleted <-- serverRepo_Delete id ;;
    match deleted with
    | Err e => ret (Err (if errors_Is e ErrNotFound then ErrServerNotFound else e))
    | Ok _ =>
      with_cache s (fun c => cache_Delete c id) ;;;
      ret (Ok tt)
    end
  end.

Definition clamp_filter (filter : ServerListFilter) : ServerListFilter :=
  let page := if filter_Page filter <? 1 then 1 else filter_Page filter in
  let size := if (filter_PageSize filter <? 1) || (100 <? filter_PageSize filter)
              then 20 else filter_PageSize filter in
  mkFilter page size (filter_Status filter) (filter_Name filter) (filter_CreatedFrom filter)
    (filter_CreatedTo filter) (filter_SortBy filter) (filter_SortDirection filter).

Definition SearchServers (s : serverService) (filter : ServerListFilter)
  : M World (result (list Server * Z)) :=
  let filter := clamp_filter filter in
  if negb (String.eqb (filter_Status filter) "") && negb (ServerStatus_IsValid (filter_Status filter))
  then ret (Err (Fresh "invalid status filter"))
  else serverRepo_Search filter.

End ServerService.

(** ** What the cache promises *)

(** The fields the monitor reads of a cached server. *)
Definition cache_entry : Type := option string * option string * option string.
Definition entry_of (ipv4 status : string) (retryCount : Z) : cache_entry :=
  (Some ipv4, Some status, Some (Itoa retryCount)).
Definition server_entry (s : Server) : cache_entry :=
  entry_of (server_IPv4 s) (server_CurrentStatus s) (server_ConsecutiveFailures s).

Definition item_entry (i : CacheUpsertItem) : cache_entry :=
  entry_of (item_IPv4 i) (item_Status i) (item_RetryCount i).

Definition view_upsert (i : CacheUpsertItem) (v : string -> option cache_entry) (id : string)
  : option cache_entry := if String.eqb id (item_ID i) then Some (item_entry i) else v id.

(** [cache_view]: the cached servers by identifier; [cache_up]: the cache
    answers.  The operations touch nothing else, and cannot panic when the
    cache answers. *)
Class CacheLaws `{E : Env, L : !EnvLaws E} (c : CacheManager) := {
  cache_view : World -> string -> option cache_entry;
  cache_up : World -> Prop;
  cache_view_redis : forall w w', w_redis w' = w_redis w ->
    cache_view w' = cache_view w /\ (cache_up w -> cache_up w');
  cache_Upsert_law : forall id ipv4 status n w,
    wp (cache_Upsert c id ipv4 status n) w
      (fun r w' => same_db w w' /\ (cache_up w -> r = Ok tt /\ cache_up w' /\
         forall i, cache_view w' i = view_upsert (mkCacheItem id ipv4 status n) (cache_view w) i))
      (fun w' => same_db w w' /\ ~ cache_up w);
  cache_BatchUpsert_law : forall items w,
    wp (cache_BatchUpsert c items) w
      (fun r w' => same_db w w' /\ (cache_up w -> r = Ok tt /\ cache_up w' /\
         forall i, cache_view w' i = foldl (fun v it => view_upsert it v) (cache_view w) items i))
      (fun w' => same_db w w' /\ ~ cache_up w);
  cache_Delete_law : forall id w,
    wp (cache_Delete c id) w
      (fun r w' => same_db w w' /\ (cache_up w -> r = Ok tt /\ cache_up w' /\
         forall i, cache_view w' i = if String.eqb i id then None else cache_view w i))
      (fun w' => same_db w w' /\ ~ cache_up w);
}.

(** ** The Redis cache keeps the promise *)
Section ServerCacheLaws.
Context `{E : Env} {L : EnvLaws E}.

Definition entry_in (d : RedisData) (id : string) : cache_entry :=
  let h := hash_of d (ServerInfoKey id) in (h !! "ipv4"%string, h !! "status"%string, h !! "retry_count"%string).
Definition redis_view (d : RedisData) (id : string) : option cache_entry :=
  if bool_decide (id ∈ set_of d ServerAllIDsKey) then Some (entry_in d id) else None.

Lemma ServerInfoKey_inj a b : ServerInfoKey a = ServerInfoKey b -> a = b.
Proof. by apply (inj (String.append "server:info:")). Qed.

Lemma ServerInfoKey_ne id : ServerInfoKey id <> ServerAllIDsKey.
Proof. done. Qed.

Lemma hash_of_HSET d k fs k' :
  hash_of (exec_cmd (HSET k fs) d) k' = if String.eqb k' k then list_to_map fs ∪ hash_of d k else hash_of d k'.
Proof.
  unfold hash_of at 1. cbn. destruct (String.eqb_spec k' k) as [->|Hne].
  - by rewrite lookup_insert_eq.
  - by rewrite lookup_insert_ne.
Qed.

(** One command at a time. *)
Lemma entry_in_HSET d id0 ip st n id :
  entry_in (exec_cmd (HSET (ServerInfoKey id0) (info_fields ip st n)) d) id
  = if String.eqb id id0 then entry_of ip st n else entry_in d id.
Proof.
  unfold entry_in. rewrite hash_of_HSET. destruct (String.eqb_spec id id0) as [->|Hne].
  - rewrite String.eqb_refl. unfold entry_of. repeat (erewrite lookup_union_Some_l; [| reflexivity]). done.
  - by destruct (String.eqb_spec (ServerInfoKey id) (ServerInfoKey id0)) as [?%ServerInfoKey_inj|_].
Qed.

Lemma redis_view_HSET d id0 ip st n id :
  id <> id0 -> redis_view (exec_cmd (HSET (ServerInfoKey id0) (info_fields ip st n)) d) id = redis_view d id.
Proof.
  intros Hne. unfold redis_view. rewrite entry_in_HSET. by destruct (String.eqb_spec id id0).
Qed.

Lemma redis_view_SADD d id0 id :
  redis_view (exec_cmd (SADD ServerAllIDsKey id0) d) id = if String.eqb id id0 then Some (entry_in d id) else redis_view d id.
Proof.
  unfold redis_view. change (entry_in (exec_cmd (SADD ServerAllIDsKey id0) d) id) with (entry_in d id).
  assert (set_of (exec_cmd (SADD ServerAllIDsKey id0) d) ServerAllIDsKey = {[id0]} ∪ set_of d ServerAllIDsKey) as ->.
  { unfold set_of at 1. cbn. by rewrite lookup_insert_eq. }
  destruct (String.eqb_spec id id0) as [->|Hne]; [by rewrite bool_decide_eq_true_2 by set_solver |].
  by rewrite (bool_decide_ext (id ∈ {[id0]} ∪ set_of d ServerAllIDsKey) (id ∈ set_of d ServerAllIDsKey)) by set_solver.
Qed.

Lemma redis_view_DEL d id0 id :
  id <> id0 -> redis_view (exec_cmd (DEL (ServerInfoKey id0)) d) id = redis_view d id /\
               entry_in (exec_cmd (DEL (ServerInfoKey id0)) d) id = entry_in d id.
Proof.
  intros Hne.
  assert (entry_in (exec_cmd (DEL (ServerInfoKey id0)) d) id = entry_in d id) as He.
  { unfold entry_in, hash_of. cbn. rewrite lookup_delete_ne; [done |]. by intros ?%ServerInfoKey_inj. }
  split; [| done]. unfold redis_view. rewrite He.
  assert (set_of (exec_cmd (DEL (ServerInfoKey id0)) d) ServerAllIDsKey = set_of d ServerAllIDsKey) as ->; [| done].
  unfold set_of. cbn. by rewrite lookup_delete_ne by apply ServerInfoKey_ne.
Qed.

Lemma redis_view_SREM d id0 id :
  redis_view (exec_cmd (SREM ServerAllIDsKey id0) d) id = if String.eqb id id0 then None else redis_view d id.
Proof.
  unfold redis_view. change (entry_in (exec_cmd (SREM ServerAllIDsKey id0) d) id) with (entry_in d id).
  assert (set_of (exec_cmd (SREM ServerAllIDsKey id0) d) ServerAllIDsKey = set_of d ServerAllIDsKey ∖ {[id0]}) as ->.
  { unfold set_of at 1. cbn. by rewrite lookup_insert_eq. }
  destruct (String.eqb_spec id id0) as [->|Hne]; [by rewrite bool_decide_eq_false_2 by set_solver |].
  by rewrite (bool_decide_ext (id ∈ set_of d ServerAllIDsKey ∖ {[id0]}) (id ∈ set_of d ServerAllIDsKey)) by set_solver.
Qed.

Lemma redis_view_upsert d i id :
  redis_view (foldl (fun d c => exec_cmd c d) d (upsert_cmds i)) id
  = view_upsert i (redis_view d) id.
Proof.
  destruct i as [id0 ip st n]. cbn [upsert_cmds foldl item_ID item_IPv4 item_Status item_RetryCount].
  rewrite redis_view_SADD. unfold view_upsert, item_entry. cbn [item_ID item_IPv4 item_Status item_RetryCount].
  destruct (String.eqb_spec id id0) as [->|Hne]; [by rewrite entry_in_HSET, String.eqb_refl | by apply redis_view_HSET].
Qed.

Lemma foldl_view_ext items v v' id :
  (forall j, v j = v' j) ->
  foldl (fun v it => view_upsert it v) v items id = foldl (fun v it => view_upsert it v) v' items id.
Proof.
  revert v v'. induction items as [|it items IH]; intros v v' Hv; cbn; [done |].
  apply IH. intros j. unfold view_upsert. by rewrite Hv.
Qed.

Lemma redis_view_delete d id0 id :
  redis_view (foldl (fun d c => exec_cmd c d) d [DEL (ServerInfoKey id0); SREM ServerAllIDsKey id0]) id
  = if String.eqb id id0 then None else redis_view d id.
Proof.
  cbn [foldl]. rewrite redis_view_SREM. destruct (String.eqb_spec id id0) as [->|Hne]; [done |]. by apply redis_view_DEL.
Qed.

Lemma wp_redis_Exec cs w (Q : result () -> World -> Prop) X :
  (forall s r, (redis_up (w_redis w) -> r = Ok tt /\ redis_up s /\
                data s = foldl (fun d c => exec_cmd c d) (data (w_redis w)) cs) ->
     Q r (set_redis s w)) ->
  wp (redis_call LiveClient (redis_Exec cs)) w Q X.
Proof.
  intros HQ. apply wp_redis_call; [| done]. intros _ s r Hx. apply HQ. intros Hup.
  pose proof (redis_Exec_spec cs (w_redis w)) as [Hu Hd]. rewrite Hx in Hu, Hd. cbn in Hu, Hd.
  destruct r as [[]|e]; [auto | done].
Qed.

#[export] Program Instance ServerCache_laws : CacheLaws (NewServerCache LiveClient) := {|
  cache_view w := redis_view (data (w_redis w));
  cache_up w := redis_up (w_redis w);
|}.
Next Obligation. intros w w' H. cbn. by rewrite H. Qed.
Next Obligation.
  intros id ip st n w. cbn. unfold ServerCache_Upsert. cbn [iface_is_nil].
  apply wp_bind, wp_redis_Exec. intros s1 r1 H1. cbn beta.
  destruct r1 as [[]|e]; [| apply wp_ret; split; [auto with go | naive_solver]].
  apply wp_bind, wp_redis_Exec. intros s2 r2 H2. world_simpl.
  destruct r2 as [[]|e]; apply wp_ret; (split; [auto with go |]); [| naive_solver].
  intros Hup. destruct (H1 Hup) as (_ & Hu1 & Hd1), (H2 Hu1) as (_ & Hu2 & Hd2).
  split; [done |]. split; [done |]. intros i. world_simpl. rewrite Hd2, Hd1.
  apply (redis_view_upsert _ (mkCacheItem id ip st n)).
Qed.
Next Obligation.
  intros items w. cbn. unfold ServerCache_BatchUpsert. cbn [iface_is_nil orb].
  destruct (Nat.eqb_spec (length items) 0) as [Hz|Hz].
  - apply wp_ret. split; [auto with go |]. apply nil_length_inv in Hz as ->. done.
  - apply wp_bind, wp_redis_Exec. intros s1 r1 H1. cbn beta.
    destruct r1 as [[]|e]; apply wp_ret; (split; [auto with go |]); [| naive_solver].
    intros Hup. destruct (H1 Hup) as (_ & Hu1 & Hd1). split; [done |]. split; [done |]. world_simpl.
    rewrite Hd1. generalize (data (w_redis w)). clear.
    induction items as [|it items IH]; intros d i; [done |].
    cbn [map concat]. rewrite foldl_app. rewrite IH. cbn [foldl].
    apply foldl_view_ext. intros j. apply redis_view_upsert.
Qed.
Next Obligation.
  intros id w. cbn. unfold ServerCache_Delete. cbn [iface_is_nil].
  apply wp_bind, wp_redis_Exec. intros s1 r1 H1. cbn beta.
  destruct r1 as [[]|e]; [| apply wp_ret; split; [auto with go | naive_solver]].
  apply wp_bind, wp_redis_Exec. intros s2 r2 H2. world_simpl.
  destruct r2 as [[]|e]; apply wp_ret; (split; [auto with go |]); [| naive_solver].
  intros Hup. destruct (H1 Hup) as (_ & Hu1 & Hd1), (H2 Hu1) as (_ & Hu2 & Hd2).
  split; [done |]. split; [done |]. intros i. world_simpl. rewrite Hd2, Hd1.
  apply redis_view_delete.
Qed.

End ServerCacheLaws.

(** ** Properties of the service *)
Section ServerServiceProperties.
Context `{E : Env} {L : EnvLaws E} (c : CacheManager) {CL : CacheLaws c}.
Implicit Types (w : World) (s : Server).

#[local] Abbreviation svc := (mkServerService (Some c)).
#[local] Abbreviation servers w := (rows (w_servers w)).

Lemma first_server_outcome p w Q X :
  (forall r t, rows t = servers w -> (table_up (w_servers w) -> table_up t) ->
     match r with
     | Ok s => s ∈ servers w /\ p s = true
     | Err e => table_up (w_servers w) -> errors_Is e ErrNotFound = true /\
                forall s, s ∈ servers w -> p s = false
     end -> Q r (set_servers t w)) ->
  wp (first_server p) w Q X.
Proof.
  intros HQ. unfold first_server. go_wp. destruct Hst as (Hr & Hup & Hs).
  apply HQ; [done | done |]. destruct r as [x|e]; [done |]. destruct Hs as [Hn He].
  destruct (errors_Is e ErrRecordNotFound) eqn:Hie; intros Hu.
  - split; [done | by apply Hn].
  - rewrite (He Hu), errors_Is_refl in Hie. done.
Qed.

Lemma Create_server_outcome s w Q X :
  (forall t e, rows t = servers w -> Q (Err e) (set_servers t w)) ->
  (forall t now gen serial, let s' := with_defaults now gen serial (trimmed s) in
     rows t = servers w ++ [s'] -> (NoClash (servers w) -> NoClash (servers w ++ [s'])) ->
     Q (Ok s') (set_servers t w)) ->
  wp (serverRepo_Create s) w Q X.
Proof.
  intros HQe HQo. unfold serverRepo_Create. go_wp. apply Create_outcome in Hst as [_ Hr].
  destruct r as [l|e]; [| apply HQe; apply Hr]. destruct Hr as (Hi & Hr & HN & _).
  apply inserted_one in Hi as (now & gen & serial & ->). by apply (HQo _ now gen serial).
Qed.

(** The database half of an operation: what it leaves in the servers table and
    what it returns, whatever the cache does.  A panic of the cache comes after
    the row was written. *)
Lemma with_cache_frame (op : CacheManager -> M World (result ())) w Q (X : World -> Prop) :
  wp (op c) w (fun _ w' => same_db w w') (same_db w) ->
  (forall w', same_db w w' -> Q tt w') -> (forall w', same_db w w' -> X w') ->
  wp (with_cache svc op) w Q X.
Proof.
  intros Hop HQ HX. unfold with_cache. cbn. apply wp_bind. eapply wp_conseq; [exact Hop | | done].
  intros r w' H. by apply wp_ret, HQ.
Qed.

Lemma Upsert_frame id ip st n w :
  wp (cache_Upsert c id ip st n) w (fun _ w' => same_db w w') (same_db w).
Proof. eapply wp_conseq; [apply cache_Upsert_law | naive_solver | naive_solver]. Qed.

Lemma Delete_frame id w :
  wp (cache_Delete c id) w (fun _ w' => same_db w w') (same_db w).
Proof. eapply wp_conseq; [apply cache_Delete_law | naive_solver | naive_solver]. Qed.

(** The server a creation stores. *)
Definition fresh_server (input : CreateServerInput) (s : Server) : Prop :=
  server_ServerName s = TrimSpace (create_ServerName input) /\
  server_IPv4 s = TrimSpace (create_IPv4 input) /\
  server_CurrentStatus s = ServerStatusOnline /\ server_ConsecutiveFailures s = 0.

(** A creation that succeeds adds one server, with the name and address
    trimmed, online and without failures, whose name and address no other
    server has; one that fails leaves the table as it was. *)
Theorem CreateServer_adds input w :
  NoClash (servers w) ->
  wp (CreateServer svc input) w (fun r w' =>
    match r with
    | Ok s => fresh_server input s /\ servers w' = servers w ++ [s] /\ NoClash (servers w') /\
              forall s', s' ∈ servers w -> server_ServerName s' <> server_ServerName s /\
                                           server_IPv4 s' <> server_IPv4 s
    | Err _ => servers w' = servers w
    end) (fun w' => exists s, fresh_server input s /\ servers w' = servers w ++ [s]).
Proof.
  intros HN. unfold CreateServer, serverRepo_GetByName, serverRepo_GetByIPv4.
  apply wp_bind, first_server_outcome. intros r1 t1 Hr1 _ _. destruct r1 as [?|e1]; [by apply wp_ret |].
  destruct (errors_Is e1 ErrNotFound); cbn [negb]; [| by apply wp_ret].
  apply wp_bind, first_server_outcome. intros r2 t2 Hr2 _ _. world_simpl. rewrite Hr1 in Hr2.
  destruct r2 as [?|e2]; [by apply wp_ret |].
  destruct (errors_Is e2 ErrNotFound); cbn [negb]; [| by apply wp_ret].
  apply wp_bind, Create_server_outcome.
  { intros t e Hr. apply wp_ret. world_simpl. congruence. }
  world_simpl.
  intros t now gen serial Hr HN'. set (s' := with_defaults now gen serial _) in *. rewrite Hr2 in Hr, HN'. cbn beta iota.
  assert (fresh_server input s') as Hf by done.
  apply wp_bind, with_cache_frame; [apply Upsert_frame | |].
  - intros w' (_ & _ & _ & Hs & _). world_simpl. apply wp_ret. rewrite Hs, Hr.
    split; [done |]. split; [done |]. split; [by apply HN' |].
    intros x Hx. apply (NoClash_last _ _ _ (HN' HN)) in Hx.
    cbn in Hx. apply orb_false_iff in Hx as [[_ ?%String.eqb_neq]%orb_false_iff ?%String.eqb_neq]. done.
  - intros w' (_ & _ & _ & Hs & _). world_simpl. rewrite Hs, Hr. eauto.
Qed.

(** A name or an address that is in use is refused with the error that says
    so, the name being looked at first. *)
Theorem CreateServer_duplicate input w :
  table_up (w_servers w) ->
  (exists s, s ∈ servers w /\ (server_ServerName s = TrimSpace (create_ServerName input) \/
                               server_IPv4 s = TrimSpace (create_IPv4 input))) ->
  exists w', CreateServer svc input w =
    (w', Done (Err (if bool_decide (TrimSpace (create_ServerName input) ∈ map server_ServerName (servers w))
                    then ErrNameExists else ErrIPv4Exists))) /\
    servers w' = servers w /\ w_redis w' = w_redis w.
Proof.
  intros Hup (s & Hs & Hdup). apply wp_outcome.
  unfold CreateServer, serverRepo_GetByName, serverRepo_GetByIPv4.
  apply wp_bind, first_server_outcome. intros r1 t1 Hr1 Hu1 Ho1. destruct r1 as [s1|e1].
  - apply wp_ret. destruct Ho1 as [Hin Hn%String.eqb_eq]. rewrite bool_decide_eq_true_2; [done |].
    rewrite <- Hn. apply list_elem_of_fmap. eauto.
  - destruct (Ho1 Hup) as [-> Hno]. cbn [negb]. rewrite bool_decide_eq_false_2.
    2: { intros (x & Hx & Hin)%list_elem_of_fmap. specialize (Hno x Hin). by rewrite <- Hx, String.eqb_refl in Hno. }
    apply wp_bind, first_server_outcome. intros r2 t2 Hr2 Hu2 Ho2. world_simpl. rewrite Hr1 in *.
    destruct r2 as [s2|e2]; [by apply wp_ret |]. exfalso.
    destruct (Ho2 (Hu1 Hup)) as [_ Hno2]. specialize (Hno s Hs). specialize (Hno2 s Hs).
    destruct Hdup as [He|He]; rewrite He, String.eqb_refl in *; done.
Qed.

(** The rows that answer to an identifier are one row. *)
Lemma same_id w x y :
  NoClash (servers w) -> x ∈ servers w -> y ∈ servers w ->
  uuid_column_eq (server_ServerID x) (server_ServerID y) = true -> x = y.
Proof. intros HN Hx Hy He. eapply NoClash_elem; [done.. |]. cbn. by rewrite He. Qed.

Lemma same_row_id w x y :
  NoClash (servers w) -> x ∈ servers w -> y ∈ servers w ->
  server_ServerID x = server_ServerID y -> x = y.
Proof. intros HN Hx Hy He. eapply same_id; [done.. |]. rewrite He. apply uuid_column_refl. Qed.

(** Updating the row of [x] with the columns of [s], which keeps [x]'s key and
    creation time, replaces [x] by [s] with the new update time. *)
Lemma update_one w x s now :
  NoClash (servers w) -> x ∈ servers w ->
  server_ServerID s = server_ServerID x -> server_CreatedAt s = server_CreatedAt x ->
  forall y, y ∈ update_rows (fun y => uuid_column_eq (server_ServerID y) (server_ServerID s))
                  (set_columns s) now (servers w) <->
            y = touched now s \/ (y ∈ servers w /\ y <> x).
Proof.
  intros HN Hx Hid Hc y. rewrite elem_of_update_rows, Hid.
  assert (forall z, z ∈ servers w ->
            uuid_column_eq (server_ServerID z) (server_ServerID x) = true <-> z = x) as Hz.
  { intros z Hz. split; [by apply (same_id w) | intros ->; apply uuid_column_refl]. }
  assert (touched now (set_columns s x) = touched now s) as Ht by (destruct s, x; cbn in *; congruence).
  split.
  - intros (z & Hin & ->). destruct (uuid_column_eq _ _) eqn:He.
    + apply (Hz z Hin) in He as ->. by left.
    + right. split; [done |]. intros ->. by rewrite uuid_column_refl in He.
  - intros [->|[Hin Hne]].
    + exists x. rewrite uuid_column_refl. done.
    + exists y. split; [done |]. destruct (uuid_column_eq _ _) eqn:He; [| done]. by apply (Hz y Hin) in He.
Qed.

Lemma Update_outcome s w Q X :
  (forall t e, rows t = servers w -> Q (Err e) (set_servers t w)) ->
  (forall t now, rows t = update_rows (fun y => uuid_column_eq (server_ServerID y) (server_ServerID s))
                            (set_columns (trimmed s)) now (servers w) ->
     (NoClash (servers w) -> NoClash (rows t)) -> Q (Ok (touched now (trimmed s))) (set_servers t w)) ->
  wp (serverRepo_Update s) w Q X.
Proof.
  intros HQe HQo. unfold serverRepo_Update. go_wp. apply Updates_outcome in Hst as [_ Hr].
  destruct r as [[n now]|e]; [| by apply HQe; destruct Hr].
  destruct Hr as (-> & Hr & HN). destruct (Z.eqb_spec (count_rows (fun y => uuid_column_eq (server_ServerID y)
    (server_ServerID (trimmed s))) (servers w)) 0) as [Hz|Hz].
  - apply HQe. rewrite Hr. apply update_rows_none. exact Hz.
  - apply (HQo s0 now); [exact Hr | by rewrite Hr].
Qed.

(** The outcome of an update on the table: [x] becomes [s]. *)
Definition replaced w w' (x s : Server) : Prop :=
  (forall y, y ∈ servers w' <-> y = s \/ (y ∈ servers w /\ y <> x)) /\ NoClash (servers w').

Definition updated_server (input : UpdateServerInput) (x s : Server) : Prop :=
  server_ServerName s = TrimSpace (update_ServerName input) /\
  server_IPv4 s = TrimSpace (update_IPv4 input) /\
  server_ServerID s = server_ServerID x /\ server_CurrentStatus s = server_CurrentStatus x /\
  server_ConsecutiveFailures s = server_ConsecutiveFailures x /\
  server_CreatedAt s = server_CreatedAt x.

(** What reaches the update statement, by the two optional checks. *)
Lemma UpdateServer_cases id input w (Q : result Server -> World -> Prop) X :
  NoClash (servers w) ->
  (forall w' e, servers w' = servers w -> w_redis w' = w_redis w -> Q (Err e) w') ->
  (forall x s w1, x ∈ servers w -> uuid_column_eq (server_ServerID x) id = true ->
     updated_server input x s -> replaced w w1 x s -> w_redis w1 = w_redis w ->
     wp (with_cache svc (fun c => cache_Upsert c (server_ServerID s) (server_IPv4 s)
            (server_CurrentStatus s) (server_ConsecutiveFailures s))) w1
        (fun _ w' => Q (Ok s) w') X) ->
  wp (UpdateServer svc id input) w Q X.
Proof.
  intros HN HQe HQo. unfold UpdateServer, update_found, serverRepo_GetByID, serverRepo_GetByName, serverRepo_GetByIPv4.
  apply wp_bind, first_server_outcome. intros r t1 Hr1 _ Hx. destruct r as [x|e]; [| apply wp_ret; auto].
  destruct Hx as [Hin Hid].
  apply wp_bind. apply (wp_mono _ _ _ _ (fun r w1 => (exists t, w1 = set_servers t w /\ rows t = servers w) /\
    match r with Ok s => s = with_name (update_ServerName input) x | Err _ => True end)).
  { destruct (String.eqb_spec (update_ServerName input) (server_ServerName x)) as [He|Hne]; cbn [negb].
    - apply wp_ret. split; [eauto |]. rewrite He. by destruct x.
    - apply wp_bind, first_server_outcome. intros r t2 Hr2 _ _. world_simpl. apply wp_ret.
      split; [exists t2; split; [done | congruence] |].
      by destruct (taken_by_other id r) as [[]|]. }
  intros r2 w2 [(t2 & -> & Hr2) Hs2]. destruct r2 as [s2|e]; [| apply wp_ret; auto]. subst s2.
  apply wp_bind. apply (wp_mono _ _ _ _ (fun r w1 => (exists t, w1 = set_servers t w /\ rows t = servers w) /\
    match r with Ok s => s = with_ipv4 (update_IPv4 input) (with_name (update_ServerName input) x) | Err _ => True end)).
  { destruct (String.eqb_spec (update_IPv4 input) (server_IPv4 (with_name (update_ServerName input) x))) as [He|Hne];
      cbn [negb].
    - apply wp_ret. split; [eauto |]. rewrite He. by destruct x.
    - apply wp_bind, first_server_outcome. intros r t3 Hr3 _ _. world_simpl. apply wp_ret.
      split; [exists t3; split; [done | congruence] |].
      by destruct (taken_by_other id r) as [[]|]. }
  intros r3 w3 [(t3 & -> & Hr3) Hs3]. destruct r3 as [s3|e]; [| apply wp_ret; auto]. subst s3.
  apply wp_bind, Update_outcome; world_simpl.
  - intros t e Hr. apply wp_ret, HQe; world_simpl; congruence.
  - intros t now Hr HN'. cbn beta iota. rewrite Hr3 in Hr, HN'.
    apply wp_bind. eapply wp_mono; [apply (HQo x); try done |].
    + split; [| by apply HN']. cbn [w_servers set_servers]. rewrite Hr.
      intros y. by apply (update_one w x (trimmed (with_ipv4 (update_IPv4 input) (with_name (update_ServerName input) x)))).
    + intros u w' H. by apply wp_ret.
Qed.

(** C28: An update that succeeds replaces the addressed server by one with the new
    name and address, trimmed, and everything else kept; one that fails leaves
    the table as it was. *)
Theorem UpdateServer_replaces id input w :
  NoClash (servers w) ->
  wp (UpdateServer svc id input) w (fun r w' =>
    match r with
    | Ok s => exists x, x ∈ servers w /\ uuid_column_eq (server_ServerID x) id = true /\
                updated_server input x s /\ replaced w w' x s
    | Err _ => servers w' = servers w
    end)
    (fun w' => exists x s, x ∈ servers w /\ updated_server input x s /\ replaced w w' x s).
Proof.
  intros HN. apply UpdateServer_cases; [done | done |].
  intros x s w1 Hin Hid Hu Hrep _. unfold replaced in *.
  apply with_cache_frame; [apply Upsert_frame | |]; intros w' (_ & _ & _ & Hs & _); rewrite Hs; eauto 6.
Qed.

(** *** Deletion *)
Lemma deleted_row w id x :
  NoClash (servers w) -> x ∈ servers w -> uuid_column_eq (server_ServerID x) id = true ->
  forall y, y ∈ List.filter (fun y => negb (uuid_column_eq (server_ServerID y) id)) (servers w) <->
            y ∈ servers w /\ y <> x.
Proof.
  intros HN Hx Hid y. rewrite !list_elem_of_In, List.filter_In, <- !list_elem_of_In. split; intros [Hy Hn].
  - split; [done |]. intros ->. by rewrite Hid in Hn.
  - split; [done |]. destruct (uuid_column_eq (server_ServerID y) id) eqn:He; [| done].
    destruct Hn. apply (same_id w); [done.. |]. rewrite uuid_column_sym in Hid. by eapply uuid_column_trans.
Qed.

Lemma DeleteServer_cases id w (Q : result () -> World -> Prop) X :
  NoClash (servers w) ->
  (forall w' e, servers w' = servers w -> w_redis w' = w_redis w ->
     (table_up (w_servers w) -> e = ErrServerNotFound /\
        forall x, x ∈ servers w -> uuid_column_eq (server_ServerID x) id = false) -> Q (Err e) w') ->
  (forall x w1, x ∈ servers w -> uuid_column_eq (server_ServerID x) id = true ->
     servers w1 = List.filter (fun y => negb (uuid_column_eq (server_ServerID y) id)) (servers w) ->
     w_redis w1 = w_redis w ->
     wp (with_cache svc (fun c => cache_Delete c id)) w1 (fun _ w' => Q (Ok tt) w') X) ->
  wp (DeleteServer svc id) w Q X.
Proof.
  intros HN HQe HQo. unfold DeleteServer, serverRepo_GetByID, serverRepo_Delete.
  apply wp_bind, first_server_outcome. intros r t1 Hr1 Hu1 Hx. destruct r as [x|e].
  2: { apply wp_ret, HQe; [done | done |]. intros Hup. destruct (Hx Hup) as [-> Hno]. done. }
  destruct Hx as [Hin Hid]. apply wp_bind. wp_step. wp_step. wp_step. destruct Hst as [Hu2 Hd].
  destruct r as [n|e']; cbn beta iota.
  - destruct Hd as [-> Hrows].
    destruct (Z.eqb_spec (count_rows (fun s => uuid_column_eq (server_ServerID s) id) (rows t1)) 0) as [Hz|Hz].
    + exfalso. apply (count_rows_zero _ _ x) in Hz; [congruence | by rewrite Hr1].
    + apply wp_bind. eapply wp_mono; [apply (HQo x); [done | done | | done] |].
      * world_simpl. by rewrite Hrows, Hr1.
      * intros u w' H. by apply wp_ret.
  - destruct Hd as [Hrows Hnup]. apply wp_ret, HQe; world_simpl; [congruence | done |].
    intros Hup. by destruct (Hnup (Hu1 Hup)).
Qed.

(** Deleting removes exactly the server addressed; an unknown identifier is
    reported as such and changes nothing. *)
Theorem DeleteServer_removes id w :
  NoClash (servers w) -> table_up (w_servers w) ->
  wp (DeleteServer svc id) w (fun r w' =>
    match r with
    | Ok _ => exists x, x ∈ servers w /\ uuid_column_eq (server_ServerID x) id = true /\
                forall y, y ∈ servers w' <-> y ∈ servers w /\ y <> x
    | Err e => e = ErrServerNotFound /\ servers w' = servers w /\
               forall x, x ∈ servers w -> uuid_column_eq (server_ServerID x) id = false
    end)
    (fun w' => exists x, x ∈ servers w /\ uuid_column_eq (server_ServerID x) id = true /\
                forall y, y ∈ servers w' <-> y ∈ servers w /\ y <> x).
Proof.
  intros HN Hup. apply DeleteServer_cases; [done | intros w' e Hs _ He; split; [by apply He | split; [done | by apply He]] |].
  intros x w1 Hin Hid Hs _.
  assert (forall w', servers w' = servers w1 -> forall y, y ∈ servers w' <-> y ∈ servers w /\ y <> x) as Hy.
  { intros w' Hw' y. rewrite Hw', Hs. by apply (deleted_row w id). }
  apply with_cache_frame; [apply Delete_frame | |]; intros w' (_ & _ & _ & Hw & _);
    exists x; (split; [done | split; [done | apply Hy; by rewrite Hw]]).
Qed.

(** *** Agreement of the cache with the table *)
Definition canonical (id : string) : Prop := exists u, id = uuid_String u.

(** The cache holds exactly the servers of the table, with their current
    address, status and failure count. *)
Definition agrees (v : string -> option cache_entry) (l : list Server) : Prop :=
  (forall s, s ∈ l -> v (server_ServerID s) = Some (server_entry s)) /\
  (forall i, v i <> None -> exists s, s ∈ l /\ server_ServerID s = i).
Definition coherent w : Prop := agrees (cache_view w) (servers w).

Definition servers_ok w : Prop :=
  NoClash (servers w) /\ (forall s, s ∈ servers w -> canonical (server_ServerID s)) /\
  coherent w /\ cache_up w.

Lemma agrees_add v v' l s :
  agrees v l -> NoClash (l ++ [s]) ->
  (forall i, v' i = view_upsert (mkCacheItem (server_ServerID s) (server_IPv4 s)
     (server_CurrentStatus s) (server_ConsecutiveFailures s)) v i) -> agrees v' (l ++ [s]).
Proof.
  intros [Hv Hi] HN Hview. split.
  - intros x [Hx| ->%list_elem_of_singleton]%elem_of_app; rewrite Hview; unfold view_upsert; cbn.
    + destruct (String.eqb_spec (server_ServerID x) (server_ServerID s)) as [He|]; [| by apply Hv].
      apply (NoClash_last _ _ _ HN) in Hx. cbn in Hx. by rewrite He, uuid_column_refl in Hx.
    + by rewrite String.eqb_refl.
  - intros i. rewrite Hview. unfold view_upsert. cbn.
    destruct (String.eqb_spec i (server_ServerID s)) as [->|_]; intros Hne.
    + exists s. split; [| done]. apply elem_of_app. right. by left.
    + destruct (Hi i Hne) as (x & Hx & ?). exists x. split; [| done]. apply elem_of_app. by left.
Qed.

Lemma coherent_replace w w' x s :
  coherent w -> NoClash (servers w) -> x ∈ servers w -> server_ServerID s = server_ServerID x ->
  (forall y, y ∈ servers w' <-> y = s \/ (y ∈ servers w /\ y <> x)) ->
  (forall i, cache_view w' i = view_upsert (mkCacheItem (server_ServerID s) (server_IPv4 s)
     (server_CurrentStatus s) (server_ConsecutiveFailures s)) (cache_view w) i) -> coherent w'.
Proof.
  intros [Hv Hi] HN Hx Hid Hs Hview. split.
  - intros y [->|[Hy Hne]]%Hs; rewrite Hview; unfold view_upsert; cbn; [by rewrite String.eqb_refl |].
    destruct (String.eqb_spec (server_ServerID y) (server_ServerID s)) as [He|]; [| by apply Hv].
    destruct Hne. apply (same_row_id w); [done | done | done | congruence].
  - intros i. rewrite Hview. unfold view_upsert. cbn.
    destruct (String.eqb_spec i (server_ServerID s)) as [->|Hne]; intros Hc.
    + exists s. split; [apply Hs; by left | done].
    + destruct (Hi i Hc) as (y & Hy & <-). exists y. split; [| done]. apply Hs. right. split; [done |].
      intros ->. congruence.
Qed.

Lemma coherent_remove w w' x :
  coherent w -> NoClash (servers w) -> x ∈ servers w ->
  (forall y, y ∈ servers w' <-> y ∈ servers w /\ y <> x) ->
  (forall i, cache_view w' i = if String.eqb i (server_ServerID x) then None else cache_view w i) -> coherent w'.
Proof.
  intros [Hv Hi] HN Hx Hs Hview. split.
  - intros y [Hy Hne]%Hs. rewrite Hview. destruct (String.eqb_spec (server_ServerID y) (server_ServerID x)) as [He|];
      [| by apply Hv]. destruct Hne. by apply (same_row_id w).
  - intros i. rewrite Hview. destruct (String.eqb_spec i (server_ServerID x)) as [->|Hne]; intros Hc; [done |].
    destruct (Hi i Hc) as (y & Hy & <-). exists y. split; [| done]. apply Hs. split; [done | congruence].
Qed.

Lemma servers_ok_frame w w' : servers w' = servers w -> w_redis w' = w_redis w -> servers_ok w -> servers_ok w'.
Proof.
  intros Hs Hr (HN & Hc & [Hv Hi] & Hup). destruct (cache_view_redis w w' Hr) as [Hview Hup'].
  unfold servers_ok, coherent, agrees. rewrite Hs, Hview. auto.
Qed.

Lemma CreateServer_ok input : triple servers_ok (CreateServer svc input) (fun _ => servers_ok) (fun _ => False).
Proof.
  intros w Hok. unfold CreateServer, serverRepo_GetByName, serverRepo_GetByIPv4.
  apply wp_bind, first_server_outcome. intros r1 t1 Hr1 _ _.
  assert (servers_ok (set_servers t1 w)) as Hok1 by (by apply (servers_ok_frame w)).
  destruct r1 as [?|e1]; [by apply wp_ret |]. destruct (errors_Is e1 ErrNotFound); cbn [negb]; [| by apply wp_ret].
  apply wp_bind, first_server_outcome. intros r2 t2 Hr2 _ _. world_simpl.
  eapply (servers_ok_frame _ (set_servers t2 (set_servers t1 w))) in Hok1; [| done | done].
  destruct r2 as [?|e2]; [by apply wp_ret |]. destruct (errors_Is e2 ErrNotFound); cbn [negb]; [| by apply wp_ret].
  apply wp_bind, Create_server_outcome.
  { intros t e Hr. apply wp_ret. by eapply servers_ok_frame, Hok1. }
  intros t now gen serial s' Hr HN'. cbn beta iota. destruct Hok1 as (HN & Hc & Hco & Hup).
  apply wp_bind. unfold with_cache. cbn [svc_cache]. apply wp_bind.
  eapply wp_conseq; [apply cache_Upsert_law | |].
  - intros r w' [(_ & _ & _ & Hs & _) Hlaw]. apply wp_ret, wp_ret. world_simpl.
    destruct (cache_view_redis (set_servers t2 (set_servers t1 w))
                (set_servers t (set_servers t2 (set_servers t1 w))) eq_refl) as [Hview Hup'].
    destruct (Hlaw (Hup' Hup)) as (_ & Hup2 & Hview2). rewrite Hview in Hview2.
    assert (servers w' = servers (set_servers t2 (set_servers t1 w)) ++ [s']) as Hs' by (by rewrite Hs).
    split; [rewrite Hs'; by apply HN' |]. split.
    + rewrite Hs'. intros x [Hx| ->%list_elem_of_singleton]%elem_of_app; [by apply Hc |]. by exists gen.
    + split; [| done]. unfold coherent. rewrite Hs'. eapply agrees_add; [exact Hco | by apply HN' | exact Hview2].
  - intros w' [_ Hnup]. apply Hnup. by apply (cache_view_redis (set_servers t2 (set_servers t1 w))).
Qed.

Lemma UpdateServer_ok id input : triple servers_ok (UpdateServer svc id input) (fun _ => servers_ok) (fun _ => False).
Proof.
  intros w Hok. pose proof Hok as (HN & Hc & Hco & Hup). apply UpdateServer_cases; [done | | ].
  { intros w' e Hs Hr. by apply (servers_ok_frame w). }
  intros x s w1 Hin Hid (_ & _ & Hsid & _) [Hrep HN1] Hr1.
  destruct (cache_view_redis w w1 Hr1) as [Hview Hup1].
  unfold with_cache. cbn [svc_cache]. apply wp_bind. eapply wp_conseq; [apply cache_Upsert_law | |].
  - intros r w' [(_ & _ & _ & Hs & _) Hlaw]. apply wp_ret. destruct (Hlaw (Hup1 Hup)) as (_ & Hup2 & Hview2).
    rewrite Hview in Hview2. unfold servers_ok. rewrite Hs. split; [done |]. split.
    + intros y [->|[Hy _]]%Hrep; [rewrite Hsid |]; by apply Hc.
    + split; [| done]. eapply coherent_replace; [exact Hco | done | exact Hin | done | by rewrite Hs | exact Hview2].
  - intros w' [_ Hnup]. auto.
Qed.

Lemma DeleteServer_ok id : canonical id -> triple servers_ok (DeleteServer svc id) (fun _ => servers_ok) (fun _ => False).
Proof.
  intros [u Hu] w Hok. pose proof Hok as (HN & Hc & Hco & Hup). apply DeleteServer_cases; [done | |].
  { intros w' e Hs Hr _. by apply (servers_ok_frame w). }
  intros x w1 Hin Hid Hs1 Hr1.
  assert (server_ServerID x = id) as Hx.
  { destruct (Hc x Hin) as [v Hv]. rewrite Hv, Hu in Hid |- *. f_equal. by apply uuid_column_String. }
  assert (forall y, y ∈ servers w1 <-> y ∈ servers w /\ y <> x) as Hy
    by (rewrite Hs1; intros y; by apply (deleted_row w id)).
  destruct (cache_view_redis w w1 Hr1) as [Hview Hup1].
  unfold with_cache. cbn [svc_cache]. apply wp_bind. eapply wp_conseq; [apply cache_Delete_law | |].
  - intros r w' [(_ & _ & _ & Hs & _) Hlaw]. apply wp_ret. destruct (Hlaw (Hup1 Hup)) as (_ & Hup2 & Hview2).
    rewrite Hview in Hview2. unfold servers_ok. rewrite Hs. split; [| split].
    + rewrite Hs1. by apply filter_NoClash.
    + intros y [? _]%Hy. by apply Hc.
    + split; [| done]. rewrite <- Hx in Hview2.
      eapply coherent_remove; [exact Hco | done | exact Hin | by rewrite Hs | exact Hview2].
  - intros w' [_ Hnup]. auto.
Qed.

(** The calls that change servers. *)
Inductive server_call :=
| CallCreate (input : CreateServerInput)
| CallUpdate (id : string) (input : UpdateServerInput)
| CallDelete (id : string).

Definition server_run (x : server_call) : M World () :=
  match x with
  | CallCreate i => CreateServer svc i ;;; ret tt
  | CallUpdate id i => UpdateServer svc id i ;;; ret tt
  | CallDelete id => DeleteServer svc id ;;; ret tt
  end.

(** C1: Dual writes: as long as the cache answers, any sequence of creations,
    updates and deletions, whichever statements of the database fail, leaves
    the cache with exactly the servers of the table, provided that deletions
    are by the identifier as the service prints it
    ([delete_by_uppercase_id_keeps_cache_entry]). *)
Theorem dual_write_coherent (calls : list server_call) w :
  (forall id, CallDelete id ∈ calls -> canonical id) -> servers_ok w ->
  wp (for_each calls server_run) w (fun _ => servers_ok) (fun _ => False).
Proof.
  intros Hcan. apply triple_for_each. intros [i|id i|id] Hin; cbn; eapply triple_bind;
    first [apply CreateServer_ok | apply UpdateServer_ok | apply DeleteServer_ok; auto
          | intros u; by apply triple_ret].
Qed.

(** *** Search *)

(** Pages of [n] rows, the first one being page 1. *)
Definition page_of {A} (page n : Z) (l : list A) : list A :=
  take (Z.to_nat n) (drop (Z.to_nat ((page - 1) * n)) l).

Lemma window_page {Row} (q : Query Row) page n l :
  q_offset q = Some ((page - 1) * n) -> q_limit q = Some n -> 1 <= page -> 1 <= n -> window q l = page_of page n l.
Proof.
  intros Ho Hl Hp Hn. unfold window, page_of. rewrite Ho, Hl.
  destruct (Z.leb_spec 0 n); [| lia]. f_equal. destruct (Z.ltb_spec 0 ((page - 1) * n)); [done |].
  by replace ((page - 1) * n) with 0 by nia.
Qed.

(** The page is within the range of the filter, and so is the size. *)
Lemma clamp_filter_range filter :
  1 <= filter_Page (clamp_filter filter) /\ 1 <= filter_PageSize (clamp_filter filter) <= 100.
Proof.
  cbn. destruct (Z.ltb_spec (filter_Page filter) 1), (Z.ltb_spec (filter_PageSize filter) 1),
    (Z.ltb_spec 100 (filter_PageSize filter)); cbn; lia.
Qed.

(** Without a column to sort by, the newest server comes first. *)
Lemma default_order filter :
  filter_SortBy filter = ""%string ->
  servers_order (search_order filter) = Some (fun a b => server_CreatedAt b <=? server_CreatedAt a).
Proof. intros He. unfold search_order. rewrite He. apply servers_order_created. Qed.

Lemma newest_first filter le (l : list Server) :
  servers_order (search_order filter) = Some le -> filter_SortBy filter = ""%string ->
  StronglySorted (fun a b => le a b = true) l -> StronglySorted (fun a b => server_CreatedAt b <= server_CreatedAt a) l.
Proof.
  intros Hle He. rewrite (default_order filter He) in Hle. injection Hle as <-.
  induction 1 as [|x l _ IH Hx]; [constructor |]. constructor; [done |].
  eapply Forall_impl; [exact Hx |]. intros y. apply Z.leb_le.
Qed.

(** C30: A search sorts the servers that match the filter by the order it asks
    for, the newest first when it asks for none, and returns exactly the page
    asked for: pages below 1 are page 1 and sizes outside 1..100 are 20.  With
    it comes the number of all that match.  It fails on a status that is not
    one of the two, and on an ORDER BY text the database rejects. *)
Theorem SearchServers_page filter w :
  table_up (w_servers w) -> Z.of_nat (length (servers w)) < 2 ^ 31 -> filter_Page filter < 2 ^ 31 ->
  let order := servers_order (search_order filter) in
  exists w' r, SearchServers svc filter w = (w', Done r) /\ servers w' = servers w /\
    match r with
    | Ok (l, total) =>
        total = count_rows (search_where filter) (servers w) /\
        exists le sorted, order = Some le /\ sorted ≡ₚ List.filter (search_where filter) (servers w) /\
          StronglySorted (fun a b => le a b = true) sorted /\
          (filter_SortBy filter = ""%string -> StronglySorted (fun a b => server_CreatedAt b <= server_CreatedAt a) sorted) /\
          l = page_of (Z.max 1 (filter_Page filter))
                (if (1 <=? filter_PageSize filter) && (filter_PageSize filter <=? 100) then filter_PageSize filter else 20)
                sorted
    | Err e => (e = Fresh "invalid status filter" /\
                filter_Status filter <> ""%string /\ ServerStatus_IsValid (filter_Status filter) = false) \/
               (order = None /\ filter_SortBy filter <> ""%string)
    end.
Proof.
  intros Hup Hlen Hpage order. apply wp_total. unfold SearchServers.
  destruct (clamp_filter_range filter) as [Hpg Hsz].
  assert (filter_Page (clamp_filter filter) < 2 ^ 31) as Hpg2 by (cbn; destruct (Z.ltb_spec (filter_Page filter) 1); lia).
  change (filter_Status (clamp_filter filter)) with (filter_Status filter).
  destruct (negb (String.eqb (filter_Status filter) "") && negb (ServerStatus_IsValid (filter_Status filter))) eqn:Hst.
  { apply wp_ret. apply andb_true_iff in Hst as [?%negb_true_iff%String.eqb_neq ?%negb_true_iff]. split; [done |]. by left. }
  unfold serverRepo_Search. change (search_where (clamp_filter filter)) with (search_where filter).
  apply wp_bind. wp_step. destruct Hst0 as (Hr1 & Hu1 & Hc). destruct r as [total|e]; [subst total | done].
  apply wp_bind. wp_step. destruct Hst0 as (Hr2 & Hu2 & Hf). destruct r as [l|e].
  - destruct Hf as (Hok & sorted & Hperm & Hord & ->). apply wp_ret. world_simpl. rewrite Hr1 in *.
    split; [congruence |]. split.
    { apply wrap_int_small; [done |]. pose proof (count_rows_le (search_where filter) (servers w)). cbn. lia. }
    unfold order_ok in Hok. cbn in Hok. change (search_order (clamp_filter filter)) with (search_order filter) in *.
    fold order in Hok. destruct order as [le|] eqn:Hle; [| done]. exists le, sorted.
    assert (StronglySorted (fun a b => le a b = true) sorted) as Hss.
    { eapply Hord; [| reflexivity | exact Hle]. intros o le' [= <-] Hle'. by eapply servers_order_preorder. }
    split; [done |]. split; [done |]. split; [done |]. split; [intros He; by eapply newest_first |].
    rewrite (window_page _ (filter_Page (clamp_filter filter)) (filter_PageSize (clamp_filter filter)));
      [| cbn [search_query q_offset] | reflexivity | done | lia].
    + f_equal; cbn; [destruct (Z.ltb_spec (filter_Page filter) 1); lia |].
      destruct (Z.ltb_spec (filter_PageSize filter) 1), (Z.ltb_spec 100 (filter_PageSize filter)),
        (Z.leb_spec 1 (filter_PageSize filter)), (Z.leb_spec (filter_PageSize filter) 100); cbn; done || lia.
    + f_equal. rewrite int64_small; [rewrite int64_small; [done |] | rewrite int64_small]; unfold min_int64, max_int64; nia.
  - apply wp_ret. world_simpl. rewrite Hr1 in *. split; [congruence |]. right.
    specialize (Hf (Hu1 Hup)). unfold order_ok in Hf. cbn in Hf.
    change (search_order (clamp_filter filter)) with (search_order filter) in Hf. fold order in Hf.
    destruct order as [le|] eqn:Hle; [done |]. split; [done |]. intros He.
    unfold order in Hle. by rewrite (default_order filter He) in Hle.
Qed.
End ServerServiceProperties.

(** ** Concrete runs *)
Section ServerRuns.
#[local] Existing Instance mem_env.
#[local] Existing Instance mem_laws.

Definition demo_server : Server := mkServer "5" "web-1" "10.0.0.1" ServerStatusOnline 2 1 1.
Definition demo_cache : CacheManager := NewServerCache LiveClient.
Definition server_world (l : list Server) : World :=
  mem_world [] [] (mem_table []) (mem_table l) (mem_table [])
    (mem_redis (foldl (fun d c => exec_cmd c d) no_data
       (concat (map (fun s => upsert_cmds (mkCacheItem (server_ServerID s) (server_IPv4 s)
          (server_CurrentStatus s) (server_ConsecutiveFailures s))) l)))).

Lemma demo_servers_ok : servers_ok demo_cache (server_world [demo_server]).
Proof.
  split; [by apply mem_NoClash |]. split; [| split].
  - cbn. intros s ->%list_elem_of_singleton. by exists 5%N.
  - split.
    + cbn. intros s ->%list_elem_of_singleton. reflexivity.
    + intros i Hi.
      pose proof (redis_view_upsert no_data (mkCacheItem "5" "10.0.0.1" ServerStatusOnline 2) i) as Hv.
      assert (view_upsert (mkCacheItem "5" "10.0.0.1" ServerStatusOnline 2) (redis_view no_data) i <> None) as Hi'
        by (rewrite <- Hv; exact Hi).
      unfold view_upsert in Hi'. cbn [item_ID] in Hi'.
      destruct (String.eqb_spec i "5") as [->|Hne]; [| done]. exists demo_server. by split; [left |].
  - by constructor.
Qed.

Definition run_ok {A} (r : World * exec (result A)) : option A :=
  match r.2 with Done (Ok a) => Some a | _ => None end.

Lemma CreateServer_adds_witness :
  wp (CreateServer (mkServerService (Some demo_cache)) (mkCreateInput " db-1 " "10.0.0.2")) (server_world [demo_server])
    (fun r w' => match r with
                 | Ok s => server_ServerName s = "db-1"%string /\ length (rows (w_servers w')) = 2%nat
                 | Err _ => False
                 end) (fun _ => False).
Proof.
  assert (run_ok (CreateServer (mkServerService (Some demo_cache)) (mkCreateInput " db-1 " "10.0.0.2")
                    (server_world [demo_server])) <> None) as Hok by (by vm_compute).
  pose proof (CreateServer_adds demo_cache (mkCreateInput " db-1 " "10.0.0.2") (server_world [demo_server])
                ltac:(by apply mem_NoClash)) as H.
  unfold wp, run_ok in *. destruct (CreateServer _ _ _) as [w' [[s|e]|]]; [| by destruct Hok ..].
  destruct H as ((Hn & _) & Hs & _). split; [exact Hn |]. rewrite Hs. reflexivity.
Defined.

Lemma CreateServer_duplicate_witness :
  exists w', CreateServer (mkServerService (Some demo_cache)) (mkCreateInput " web-1" "10.9.9.9")
               (server_world [demo_server]) = (w', Done (Err ErrNameExists)).
Proof.
  destruct (CreateServer_duplicate demo_cache (mkCreateInput " web-1" "10.9.9.9") (server_world [demo_server]))
    as (w' & H & _); [by constructor | exists demo_server; split; [by left | by left] |].
  exists w'. exact H.
Defined.

Lemma UpdateServer_replaces_witness :
  wp (UpdateServer (mkServerService (Some demo_cache)) "5" (mkUpdateInput "web-2" "10.0.0.1"))
    (server_world [demo_server])
    (fun r w' => match r with Ok s => server_ServerName s = "web-2"%string | Err _ => False end) (fun _ => False).
Proof.
  assert (run_ok (UpdateServer (mkServerService (Some demo_cache)) "5" (mkUpdateInput "web-2" "10.0.0.1")
                    (server_world [demo_server])) <> None) as Hok by (by vm_compute).
  pose proof (UpdateServer_replaces demo_cache "5" (mkUpdateInput "web-2" "10.0.0.1") (server_world [demo_server])
                ltac:(by apply mem_NoClash)) as H.
  unfold wp, run_ok in *. destruct (UpdateServer _ _ _ _) as [w' [[s|e]|]]; [| by destruct Hok ..].
  destruct H as (x & _ & _ & (Hn & _) & _). exact Hn.
Defined.

Lemma DeleteServer_removes_witness :
  wp (DeleteServer (mkServerService (Some demo_cache)) "7") (server_world [demo_server])
    (fun r w' => r = Err ErrServerNotFound) (fun _ => False).
Proof.
  assert (match (DeleteServer (mkServerService (Some demo_cache)) "7" (server_world [demo_server])).2 with
          | Done (Err _) => True | _ => False end) as Hok by (by vm_compute).
  pose proof (DeleteServer_removes demo_cache "7" (server_world [demo_server])
                ltac:(by apply mem_NoClash) ltac:(by constructor)) as H.
  unfold wp in *. destruct (DeleteServer _ _ _) as [w' [[u|e]|]]; [done | | done].
  destruct H as (-> & _). reflexivity.
Defined.

Lemma dual_write_coherent_witness :
  wp (for_each [CallCreate (mkCreateInput "db-1" "10.0.0.2"); CallUpdate "5" (mkUpdateInput "w" "10.0.0.3"); CallDelete "5"]
        (server_run demo_cache)) (server_world [demo_server]) (fun _ => servers_ok demo_cache) (fun _ => False).
Proof.
  apply (dual_write_coherent demo_cache); [| exact demo_servers_ok].
  intros id Hin. exists 5%N. repeat (apply elem_of_cons in Hin as [Hin|Hin]; [by simplify_eq |]).
  by apply not_elem_of_nil in Hin.
Defined.

(** Three servers, the second page of two by age: the oldest. *)
Definition later_server : Server := mkServer "6" "web-2" "10.0.0.2" ServerStatusOnline 0 3 3.
Definition newest_server : Server := mkServer "7" "web-3" "10.0.0.3" ServerStatusOffline 0 9 9.

Lemma by_age (l : list Server) :
  l ≡ₚ [later_server; demo_server; newest_server] ->
  StronglySorted (fun a b => server_CreatedAt b <= server_CreatedAt a) l -> l = [newest_server; later_server; demo_server].
Proof.
  intros Hperm Hs. apply (StronglySorted_unique_strong (fun a b => server_CreatedAt b <= server_CreatedAt a)).
  - intros x y Hx Hy Hxy Hyx. rewrite Hperm in Hx.
    repeat (apply elem_of_cons in Hx as [->|Hx]); try (by apply not_elem_of_nil in Hx);
      repeat (apply elem_of_cons in Hy as [->|Hy]); try (by apply not_elem_of_nil in Hy); cbn in *; done || lia.
  - exact Hs.
  - repeat constructor; cbn; lia.
  - rewrite Hperm. symmetry. apply (Permutation_cons_append [later_server; demo_server] newest_server).
Qed.

Lemma SearchServers_page_witness :
  exists w', SearchServers (mkServerService (Some demo_cache)) (mkFilter 2 2 "" "" 0 0 "" "")
    (server_world [later_server; demo_server; newest_server]) = (w', Done (Ok ([demo_server], 3))).
Proof.
  destruct (SearchServers_page demo_cache (mkFilter 2 2 "" "" 0 0 "" "") (server_world [later_server; demo_server; newest_server]))
    as (w' & [[l total]|e] & H & _ & Hr); [by constructor | done | done | |].
  - destruct Hr as (Htotal & le & sorted & _ & Hperm & _ & Hnew & Hl). exists w'. rewrite H.
    rewrite (by_age sorted Hperm (Hnew eq_refl)) in Hl. subst l total. reflexivity.
  - destruct Hr as [(_ & Hs & _)|[_ Hs]]; by destruct Hs.
Defined.

Definition hex_server : Server := mkServer "ab" "web-1" "10.0.0.1" ServerStatusOnline 0 1 1.

(** PostgreSQL finds a row whatever the case of the digits of the identifier
    asked for; the cache entry is removed under the text that was sent.  A
    deletion by an identifier in upper case succeeds and leaves the server in
    the cache, where the monitor finds it. *)
Theorem delete_by_uppercase_id_keeps_cache_entry :
  let '(w', r) := DeleteServer (mkServerService (Some demo_cache)) "AB" (server_world [hex_server]) in
  r = Done (Ok tt) /\ rows (w_servers w') = [] /\
  redis_view (data (w_redis w')) "ab" = Some (server_entry hex_server).
Proof. vm_compute. auto. Qed.

(** A name of blanks passes the request validation (its length is at least
    one) and is stored as the empty name. *)
Theorem blank_name_is_stored :
  match run_ok (CreateServer (mkServerService (Some demo_cache)) (mkCreateInput "   " "10.0.0.9") (server_world [])) with
  | Some s => server_ServerName s = ""%string
  | None => False
  end.
Proof. vm_compute. reflexivity. Qed.
End ServerRuns.
