(* ===== verification/DualWrite.v ===== *)
(** * DualWrite: concurrent calls that write servers to PostgreSQL and to Redis

    Every call of [server_management/service] that changes a server makes
    several statements: a creation inserts the row and then writes the cache;
    an update or a deletion reads the row, writes it, and then writes the
    cache.  Writing the cache is two commands, HSET and SADD, and removing a
    server from it is two, DEL and SREM ([infrastructure/redis/server_cache.go]).
    [Servers.dual_write_coherent] runs calls one after the other; here they
    interleave between single statements and single commands.  The checks for
    names and addresses that are in use only read, and may be out of date when
    the row is written: the steps do not depend on them.

    As long as no two calls work on the same server at a time the cache ends
    in agreement with the table; where they do, it need not. *)

From stdpp Require Import base list strings gmap numbers relations functions.
From Stdlib Require Import ZArith Lia.
From S2P Require Import Prelude Interleave GoStrings GoTime Domain Env MemEnv Servers.
Open Scope Z_scope.

(** Where a call is. *)
Inductive call_pc :=
| CIdle
| CHolds (id : string) (x : Server)   (* update or deletion by [id]: the row has been read *)
| CUpsert (s : Server)                (* the row is written, the cache not yet *)
| CListing (s : Server)               (* the hash of the server is written, it is not yet in the set *)
| CRemove (id : string)               (* the row is deleted, the cache entry not yet *)
| CUnlist (id : string).              (* the hash is deleted, the server is still in the set *)

(** The server whose cache entry a call owes, and the one it works on. *)
Definition dirty (p : call_pc) : option string :=
  match p with
  | CIdle | CHolds _ _ => None
  | CUpsert s | CListing s => Some (server_ServerID s)
  | CRemove id | CUnlist id => Some id
  end.
Definition held (p : call_pc) : option string :=
  match p with CHolds _ x => Some (server_ServerID x) | _ => dirty p end.

Lemma dirty_held p k : dirty p = Some k -> held p = Some k.
Proof. by destruct p. Qed.

Section DualWrite.
Context `{E : Env} {L : EnvLaws E}.
(** Whether the calls on a server exclude each other, and name it as the
    service prints it. *)
Variable serial : bool.

Record DualState := mkDual { du_world : World; du_calls : nat -> call_pc }.

Definition admitted (id h : string) (calls : nat -> call_pc) : Prop :=
  serial = true -> id = h /\ forall i, held (calls i) <> Some h.

(** The commands of [ServerCache_Upsert] and [ServerCache_Delete], one by one. *)
Definition command (cmd : RedisCmd) : M World (result ()) := redis_call LiveClient (redis_Exec [cmd]).
Definition hset_of (s : Server) : RedisCmd :=
  HSET (ServerInfoKey (server_ServerID s))
    (info_fields (server_IPv4 s) (server_CurrentStatus s) (server_ConsecutiveFailures s)).

Inductive dual_step : DualState -> DualState -> Prop :=
(* CreateServer *)
| d_create i name ip s cs w w' :
    cs i = CIdle ->
    serverRepo_Create (mkServer "" name ip "" 0 zero_time zero_time) w = (w', Done (Ok s)) ->
    admitted (server_ServerID s) (server_ServerID s) cs ->
    dual_step (mkDual w cs) (mkDual w' (<[i := CUpsert s]> cs))
(* UpdateServer and DeleteServer *)
| d_read i id x cs w w' :
    cs i = CIdle -> serverRepo_GetByID id w = (w', Done (Ok x)) -> admitted id (server_ServerID x) cs ->
    dual_step (mkDual w cs) (mkDual w' (<[i := CHolds id x]> cs))
| d_update i id x name ip s cs w w' :
    cs i = CHolds id x -> serverRepo_Update (with_ipv4 ip (with_name name x)) w = (w', Done (Ok s)) ->
    dual_step (mkDual w cs) (mkDual w' (<[i := CUpsert s]> cs))
| d_delete i id x cs w w' :
    cs i = CHolds id x -> serverRepo_Delete id w = (w', Done (Ok tt)) ->
    dual_step (mkDual w cs) (mkDual w' (<[i := CRemove id]> cs))
| d_give_up i id x cs w :
    cs i = CHolds id x -> dual_step (mkDual w cs) (mkDual w (<[i := CIdle]> cs))
(* the cache: a command that fails ends the call, its error is logged *)
| d_hset i s r cs w w' :
    cs i = CUpsert s -> command (hset_of s) w = (w', Done r) ->
    dual_step (mkDual w cs) (mkDual w' (<[i := if is_ok r then CListing s else CIdle]> cs))
| d_sadd i s r cs w w' :
    cs i = CListing s -> command (SADD ServerAllIDsKey (server_ServerID s)) w = (w', Done r) ->
    dual_step (mkDual w cs) (mkDual w' (<[i := CIdle]> cs))
| d_del i id r cs w w' :
    cs i = CRemove id -> command (DEL (ServerInfoKey id)) w = (w', Done r) ->
    dual_step (mkDual w cs) (mkDual w' (<[i := if is_ok r then CUnlist id else CIdle]> cs))
| d_srem i id r cs w w' :
    cs i = CUnlist id -> command (SREM ServerAllIDsKey id) w = (w', Done r) ->
    dual_step (mkDual w cs) (mkDual w' (<[i := CIdle]> cs))
(* statements that read, or fail, and everything else that leaves the servers and Redis alone *)
| d_other cs w w' :
    rows (w_servers w') = rows (w_servers w) -> w_redis w' = w_redis w ->
    dual_step (mkDual w cs) (mkDual w' cs).
End DualWrite.

(** ** Calls that exclude each other *)
Section Serial.
Context `{E : Env} {L : EnvLaws E}.
#[local] Abbreviation servers w := (rows (w_servers w)).
#[local] Abbreviation redis w := (data (w_redis w)).
#[local] Abbreviation step := (dual_step true).

(** What a call knows of the table, and of the hash it has written. *)
Definition knows (l : list Server) (p : call_pc) : Prop :=
  match p with
  | CIdle => True
  | CHolds id x => x ∈ l /\ id = server_ServerID x
  | CUpsert s | CListing s => s ∈ l
  | CRemove id | CUnlist id => forall s, s ∈ l -> server_ServerID s <> id
  end.
Definition knows_hash (d : RedisData) (p : call_pc) : Prop :=
  match p with CListing s => entry_in d (server_ServerID s) = server_entry s | _ => True end.

(** Off the entries that calls still owe, the cache shows the table. *)
Record dual_inv (w : World) (cs : nat -> call_pc) : Prop := {
  di_NoClash : NoClash (servers w);
  di_canonical : forall s, s ∈ servers w -> canonical (server_ServerID s);
  di_up : redis_up (w_redis w);
  di_exclusive : forall i j h, held (cs i) = Some h -> held (cs j) = Some h -> i = j;
  di_knows : forall i, knows (servers w) (cs i);
  di_hash : forall i, knows_hash (redis w) (cs i);
  di_cached : forall s, s ∈ servers w -> (forall i, dirty (cs i) <> Some (server_ServerID s)) ->
    redis_view (redis w) (server_ServerID s) = Some (server_entry s);
  di_stored : forall id, (forall i, dirty (cs i) <> Some id) -> redis_view (redis w) id <> None ->
    exists s, s ∈ servers w /\ server_ServerID s = id;
}.

(** A call [i] that works on [h] writes the rows of [h], or nothing. *)
Lemma inv_rows w w' cs i p h :
  dual_inv w cs -> (forall j, j <> i -> held (cs j) <> Some h) ->
  dirty (cs i) = None ->
  NoClash (servers w') -> (forall s, s ∈ servers w' -> canonical (server_ServerID s)) ->
  (forall y, server_ServerID y <> h -> y ∈ servers w' <-> y ∈ servers w) ->
  w_redis w' = w_redis w -> held p = Some h -> knows (servers w') p -> knows_hash (redis w') p ->
  (dirty p = Some h \/ servers w' = servers w) -> dual_inv w' (<[i := p]> cs).
Proof.
  intros Hinv Hfree Hd HN Hcan Hoff Hr Hp Hk Hkh Hdp.
  assert (forall k, (forall j, dirty ((<[i := p]> cs) j) <> Some k) -> dirty p = Some h -> k <> h) as Hne.
  { intros k Hk' Hph ->. apply (Hk' i). by rewrite fn_lookup_insert. }
  assert (forall k, (forall j, dirty ((<[i := p]> cs) j) <> Some k) -> forall j, dirty (cs j) <> Some k) as Hold.
  { intros k Hk' j Hj. destruct (decide (j = i)) as [->|Hji]; [congruence |]. apply (Hk' j). by rewrite fn_lookup_insert_ne. }
  split; rewrite ?Hr in *.
  - done.
  - done.
  - apply Hinv.
  - intros a b k Ha Hb. destruct (decide (a = i)) as [->|Hai], (decide (b = i)) as [->|Hbi];
      rewrite ?fn_lookup_insert, ?fn_lookup_insert_ne in * by done; [done | | |].
    + rewrite Hp in Ha. injection Ha as <-. by apply Hfree in Hb.
    + rewrite Hp in Hb. injection Hb as <-. by apply Hfree in Ha.
    + by apply (di_exclusive _ _ Hinv a b k).
  - intros j. destruct (decide (j = i)) as [->|Hji]; [by rewrite fn_lookup_insert |].
    rewrite fn_lookup_insert_ne by done. specialize (Hfree j Hji). pose proof (di_knows _ _ Hinv j) as Hj.
    destruct (cs j) as [|id x|s|s|id|id]; cbn in *; [done | | | | |].
    + destruct Hj as [Hj ->]. split; [| done]. apply Hoff; [congruence | done].
    + apply Hoff; [congruence | done].
    + apply Hoff; [congruence | done].
    + intros s Hs He. apply Hoff in Hs; [by apply (Hj s) | congruence].
    + intros s Hs He. apply Hoff in Hs; [by apply (Hj s) | congruence].
  - intros j. destruct (decide (j = i)) as [->|Hji]; [by rewrite fn_lookup_insert |].
    rewrite fn_lookup_insert_ne by done. apply Hinv.
  - intros s Hs Hnd. apply (di_cached _ _ Hinv); [| by apply Hold].
    destruct Hdp as [Hdp|Hsame]; [apply Hoff; [by apply Hne | done] | by rewrite <- Hsame].
  - intros id Hnd Hv. destruct (di_stored _ _ Hinv id (Hold _ Hnd) Hv) as (s & Hs & <-). exists s. split; [| done].
    destruct Hdp as [Hdp|Hsame]; [apply Hoff; [by apply Hne | done] | by rewrite Hsame].
Qed.

(** A call that moves without writing a row: the cache changes at most at the
    entry it owes, which it still owes afterwards or has paid. *)
Lemma inv_moves w w' cs i p :
  dual_inv w cs -> servers w' = servers w -> redis_up (w_redis w') ->
  held p = None \/ held p = held (cs i) -> knows (servers w) p -> knows_hash (redis w') p ->
  (forall k, dirty p = Some k -> dirty (cs i) = Some k) ->
  (forall k, dirty (cs i) <> Some k ->
     redis_view (redis w') k = redis_view (redis w) k /\ entry_in (redis w') k = entry_in (redis w) k) ->
  (forall k, dirty (cs i) = Some k -> dirty p = Some k \/
     (exists s, s ∈ servers w /\ server_ServerID s = k /\ redis_view (redis w') k = Some (server_entry s)) \/
     ((forall s, s ∈ servers w -> server_ServerID s <> k) /\ redis_view (redis w') k = None)) ->
  dual_inv w' (<[i := p]> cs).
Proof.
  intros Hinv Hs Hup Hheld Hk Hkh Hdp Hoff Hpaid.
  assert (forall k, dirty (cs i) <> Some k -> (forall j, dirty ((<[i := p]> cs) j) <> Some k) -> forall j, dirty (cs j) <> Some k) as Hold.
  { intros k Hi Hnd j Hj. destruct (decide (j = i)) as [->|Hne]; [done |]. apply (Hnd j). by rewrite fn_lookup_insert_ne. }
  assert (forall k, (forall j, dirty ((<[i := p]> cs) j) <> Some k) -> dirty p <> Some k) as Hpk.
  { intros k Hnd Hp. apply (Hnd i). by rewrite fn_lookup_insert. }
  assert (forall a k, held ((<[i := p]> cs) a) = Some k -> held (cs a) = Some k) as Hh.
  { intros a k. destruct (decide (a = i)) as [->|Hai]; [rewrite fn_lookup_insert | by rewrite fn_lookup_insert_ne].
    intros Ha. destruct Hheld; congruence. }
  split; rewrite ?Hs.
  - apply Hinv.
  - apply Hinv.
  - done.
  - intros a b k Ha%Hh Hb%Hh. by apply (di_exclusive _ _ Hinv a b k).
  - intros j. destruct (decide (j = i)) as [->|Hne]; [by rewrite fn_lookup_insert |].
    rewrite fn_lookup_insert_ne by done. apply Hinv.
  - intros j. destruct (decide (j = i)) as [->|Hne]; [by rewrite fn_lookup_insert |].
    rewrite fn_lookup_insert_ne by done. pose proof (di_hash _ _ Hinv j) as Hj.
    destruct (cs j) as [|? ?|?|s|?|?] eqn:Ej; try done. cbn in *. rewrite <- Hj. apply Hoff. intros Hd. apply Hne.
    apply (di_exclusive _ _ Hinv j i (server_ServerID s)); [by rewrite Ej | by apply dirty_held].
  - intros s Hin Hnd. destruct (decide (dirty (cs i) = Some (server_ServerID s))) as [Hd|Hd].
    + destruct (Hpaid _ Hd) as [Hp|[(x & Hx & Hid & ->)|[Hno _]]]; [by destruct (Hpk _ Hnd) | | by destruct (Hno s Hin)].
      do 2 f_equal. by apply (same_row_id w); [apply Hinv | | |].
    + rewrite (proj1 (Hoff _ Hd)). apply (di_cached _ _ Hinv); [done | by apply Hold].
  - intros id Hnd Hv. destruct (decide (dirty (cs i) = Some id)) as [Hd|Hd].
    + destruct (Hpaid _ Hd) as [Hp|[(x & Hx & Hid & _)|[_ Hn]]]; [by destruct (Hpk _ Hnd) | eauto | congruence].
    + rewrite (proj1 (Hoff _ Hd)) in Hv. apply (di_stored _ _ Hinv); [by apply Hold | done].
Qed.

Lemma inv_frame w w' cs : dual_inv w cs -> servers w' = servers w -> w_redis w' = w_redis w -> dual_inv w' cs.
Proof. intros Hinv Hs Hr. split; rewrite ?Hs, ?Hr; apply Hinv. Qed.

(** *** The statements *)
Lemma created_row name ip w w' s :
  serverRepo_Create (mkServer "" name ip "" 0 zero_time zero_time) w = (w', Done (Ok s)) -> NoClash (servers w) ->
  servers w' = servers w ++ [s] /\ NoClash (servers w') /\ canonical (server_ServerID s) /\ w_redis w' = w_redis w.
Proof.
  intros Hrun HN. eapply run_wp; [exact Hrun |]. apply Create_server_outcome; [done |].
  intros t now gen serial s' Hr HN' [= <-] <-. world_simpl. rewrite Hr. split; [done |]. split; [auto |]. split; [| done].
  by exists gen.
Qed.

Lemma read_row id w w' x :
  serverRepo_GetByID id w = (w', Done (Ok x)) ->
  servers w' = servers w /\ x ∈ servers w /\ w_redis w' = w_redis w.
Proof.
  intros Hrun. eapply run_wp; [exact Hrun |]. apply first_server_outcome. intros r t Hr _ Hx -> <-. world_simpl.
  split; [done |]. split; [apply Hx | done].
Qed.

Lemma updated_row name ip w w' x s :
  serverRepo_Update (with_ipv4 ip (with_name name x)) w = (w', Done (Ok s)) -> NoClash (servers w) -> x ∈ servers w ->
  NoClash (servers w') /\ server_ServerID s = server_ServerID x /\ w_redis w' = w_redis w /\
  (forall y, y ∈ servers w' <-> y = s \/ (y ∈ servers w /\ y <> x)).
Proof.
  intros Hrun HN Hx. eapply run_wp; [exact Hrun |]. apply Update_outcome; [done |].
  intros t now Hr HN' [= <-] <-. world_simpl. split; [auto |]. split; [done |]. split; [done |]. rewrite Hr.
  intros y. by apply (update_one w x (trimmed (with_ipv4 ip (with_name name x)))).
Qed.

Lemma removed_row w w' x :
  serverRepo_Delete (server_ServerID x) w = (w', Done (Ok tt)) -> NoClash (servers w) -> x ∈ servers w ->
  NoClash (servers w') /\ w_redis w' = w_redis w /\ (forall y, y ∈ servers w' <-> y ∈ servers w /\ y <> x).
Proof.
  intros Hrun HN Hx. eapply run_wp; [exact Hrun |]. unfold serverRepo_Delete. go_wp. destruct Hst as [_ Hd].
  destruct r as [n|e]; [| done]. destruct Hd as [_ Hr]. intros _ <-. world_simpl. rewrite Hr.
  split; [by apply filter_NoClash |]. split; [done |]. intros y. apply deleted_row; [done | done | apply uuid_column_refl].
Qed.

(** *** The commands *)

(** On a Redis that answers a command succeeds and does what it says. *)
Lemma command_run cmd w w' r :
  command cmd w = (w', Done r) -> redis_up (w_redis w) ->
  r = Ok tt /\ servers w' = servers w /\ redis_up (w_redis w') /\ redis w' = exec_cmd cmd (redis w).
Proof.
  intros Hrun Hup. eapply run_wp; [exact Hrun |]. apply wp_redis_Exec. intros s a Ha <- <-.
  destruct (Ha Hup) as (-> & Hs & Hd). world_simpl. done.
Qed.

Lemma inv_hset w w' cs i s r :
  dual_inv w cs -> cs i = CUpsert s -> command (hset_of s) w = (w', Done r) ->
  dual_inv w' (<[i := if is_ok r then CListing s else CIdle]> cs).
Proof.
  intros Hinv Hi Hrun. destruct (command_run _ _ _ _ Hrun (di_up _ _ Hinv)) as (-> & Hs & Hup & Hd).
  pose proof (di_knows _ _ Hinv i) as Hk. rewrite Hi in Hk. cbn [is_ok].
  apply (inv_moves w); rewrite ?Hi; cbn [dirty held knows knows_hash]; auto; rewrite ?Hd.
  - unfold hset_of. rewrite entry_in_HSET, String.eqb_refl. done.
  - intros k Hne. destruct (String.eqb_spec k (server_ServerID s)) as [->|Hks]; [done |].
    unfold hset_of. split; [by apply redis_view_HSET | rewrite entry_in_HSET; by destruct (String.eqb_spec k (server_ServerID s))].
Qed.

Lemma inv_sadd w w' cs i s r :
  dual_inv w cs -> cs i = CListing s -> command (SADD ServerAllIDsKey (server_ServerID s)) w = (w', Done r) ->
  dual_inv w' (<[i := CIdle]> cs).
Proof.
  intros Hinv Hi Hrun. destruct (command_run _ _ _ _ Hrun (di_up _ _ Hinv)) as (-> & Hs & Hup & Hd).
  pose proof (di_knows _ _ Hinv i) as Hk. pose proof (di_hash _ _ Hinv i) as Hh. rewrite Hi in Hk, Hh. cbn in Hk, Hh.
  apply (inv_moves w); rewrite ?Hi; cbn [dirty held knows knows_hash]; auto; try done; rewrite ?Hd; intros k Hks; rewrite redis_view_SADD.
  - split; [| done]. by destruct (String.eqb_spec k (server_ServerID s)) as [->|].
  - injection Hks as <-. right. left. exists s. rewrite String.eqb_refl, Hh. done.
Qed.

Lemma inv_del w w' cs i id r :
  dual_inv w cs -> cs i = CRemove id -> command (DEL (ServerInfoKey id)) w = (w', Done r) ->
  dual_inv w' (<[i := if is_ok r then CUnlist id else CIdle]> cs).
Proof.
  intros Hinv Hi Hrun. destruct (command_run _ _ _ _ Hrun (di_up _ _ Hinv)) as (-> & Hs & Hup & Hd).
  pose proof (di_knows _ _ Hinv i) as Hk. rewrite Hi in Hk. cbn [is_ok].
  apply (inv_moves w); rewrite ?Hi; cbn [dirty held knows knows_hash]; auto; rewrite ?Hd.
  intros k Hne. apply redis_view_DEL. congruence.
Qed.

Lemma inv_srem w w' cs i id r :
  dual_inv w cs -> cs i = CUnlist id -> command (SREM ServerAllIDsKey id) w = (w', Done r) ->
  dual_inv w' (<[i := CIdle]> cs).
Proof.
  intros Hinv Hi Hrun. destruct (command_run _ _ _ _ Hrun (di_up _ _ Hinv)) as (-> & Hs & Hup & Hd).
  pose proof (di_knows _ _ Hinv i) as Hk. rewrite Hi in Hk. cbn in Hk.
  apply (inv_moves w); rewrite ?Hi; cbn [dirty held knows knows_hash]; auto; try done; rewrite ?Hd; intros k Hks; rewrite redis_view_SREM.
  - split; [| done]. by destruct (String.eqb_spec k id) as [->|].
  - injection Hks as <-. right. right. rewrite String.eqb_refl. done.
Qed.

(** The writes of the row a call holds. *)
Lemma holder_only w cs i id x :
  dual_inv w cs -> cs i = CHolds id x -> forall j, j <> i -> held (cs j) <> Some (server_ServerID x).
Proof. intros Hinv Hi j Hne Hj. apply Hne. apply (di_exclusive _ _ Hinv j i (server_ServerID x)); [done | by rewrite Hi]. Qed.

Lemma row_off w x y : NoClash (servers w) -> x ∈ servers w -> y ∈ servers w ->
  server_ServerID y <> server_ServerID x <-> y <> x.
Proof. intros HN Hx Hy. split; [congruence |]. intros Hne He. by apply Hne, (same_row_id w). Qed.

Lemma dual_inv_step s s' : step s s' -> dual_inv (du_world s) (du_calls s) -> dual_inv (du_world s') (du_calls s').
Proof.
  intros Hstep Hinv. pose proof (di_NoClash _ _ Hinv) as HN. pose proof (di_canonical _ _ Hinv) as Hcan.
  destruct Hstep as [i name ip s cs w w' Hi Hrun Hadm | i id x cs w w' Hi Hrun Hadm | i id x name ip s cs w w' Hi Hrun
    | i id x cs w w' Hi Hrun | i id x cs w Hi | i s r cs w w' Hi Hrun | i s r cs w w' Hi Hrun
    | i id r cs w w' Hi Hrun | i id r cs w w' Hi Hrun | cs w w' Hs Hr]; cbn in *.
  - destruct (created_row _ _ _ _ _ Hrun HN) as (Hr & HN' & Hcs & Hred). destruct (Hadm eq_refl) as [_ Hfree].
    apply (inv_rows w w' cs i (CUpsert s) (server_ServerID s)); rewrite ?Hi, ?Hr; cbn; auto.
    + by rewrite Hr in HN'.
    + intros y [Hy| ->%list_elem_of_singleton]%elem_of_app; auto.
    + intros y Hy. rewrite elem_of_app, list_elem_of_singleton. split; [intros [?| ->]; done | by left].
    + apply elem_of_app. right. by left.
  - destruct (read_row _ _ _ _ Hrun) as (Hr & Hx & Hred). destruct (Hadm eq_refl) as [-> Hfree].
    apply (inv_rows w w' cs i _ (server_ServerID x)); rewrite ?Hr, ?Hi; cbn; auto.
  - pose proof (di_knows _ _ Hinv i) as Hk. rewrite Hi in Hk. destruct Hk as [Hx ->].
    destruct (updated_row _ _ _ _ _ _ Hrun HN Hx) as (HN' & Hid & Hred & Hin).
    apply (inv_rows w w' cs i _ (server_ServerID x)); rewrite ?Hi; cbn; rewrite ?Hid; auto.
    + by eapply holder_only.
    + intros y [->|[Hy _]]%Hin; rewrite ?Hid; auto.
    + intros y Hy. rewrite Hin. split; [intros [->|[? _]]; done |]. intros Hyw. right. split; [done |]. by intros ->.
    + apply Hin. by left.
  - pose proof (di_knows _ _ Hinv i) as Hk. rewrite Hi in Hk. destruct Hk as [Hx ->].
    destruct (removed_row _ _ _ Hrun HN Hx) as (HN' & Hred & Hin).
    apply (inv_rows w w' cs i _ (server_ServerID x)); rewrite ?Hi; cbn; auto.
    + by eapply holder_only.
    + intros y [Hy _]%Hin. auto.
    + intros y Hy. rewrite Hin. split; [by intros [? _] |]. intros Hyw. split; [done |]. by intros ->.
    + intros y [Hy Hne]%Hin. by apply (row_off w).
  - apply (inv_moves w); rewrite ?Hi; cbn; auto; try done. apply Hinv.
  - by eapply inv_hset.
  - by eapply inv_sadd.
  - by eapply inv_del.
  - by eapply inv_srem.
  - by apply (inv_frame w).
Qed.

(** C2: Concurrent dual writes: while the cache answers, and when the calls on
    one server exclude each other and name it as the service prints it, every
    interleaving of the single statements and single Redis commands of any
    number of creations, updates and deletions ends, once no call is under way,
    with the cache holding exactly the servers of the table. *)
Theorem concurrent_dual_write_coherent w cs s :
  servers_ok (NewServerCache LiveClient) w -> (forall i, cs i = CIdle) ->
  rtc (dual_step true) (mkDual w cs) s -> (forall i, du_calls s i = CIdle) ->
  servers_ok (NewServerCache LiveClient) (du_world s).
Proof.
  intros (HN & Hcan & [Hv Hi] & Hup) Hidle Hrun Hend.
  assert (dual_inv (du_world s) (du_calls s)) as Hinv.
  { clear Hend. revert s Hrun. apply (rtc_ind_r (fun s => dual_inv (du_world s) (du_calls s))).
    - split; cbn [du_world du_calls]; [done | done | done | intros i ? ?; by rewrite Hidle | intros i; by rewrite Hidle | intros i; by rewrite Hidle
      | intros x Hx _; by apply Hv | intros id _; apply Hi].
    - intros s s' _ Hstep IH. by eapply dual_inv_step. }
  split; [apply Hinv |]. split; [apply Hinv |]. split; [| apply Hinv].
  split; [intros x Hx; apply (di_cached _ _ Hinv); [done |] | intros id; apply (di_stored _ _ Hinv)]; intros i; by rewrite Hend.
Qed.
End Serial.

(** ** A call that runs alone takes these steps *)
Section Alone.
Context `{E : Env} {L : EnvLaws E}.
#[local] Abbreviation servers w := (rows (w_servers w)).
#[local] Abbreviation svc := (mkServerService (Some (NewServerCache LiveClient))).
#[local] Abbreviation step := (dual_step false).

Lemma delete_none (p : Server -> bool) l : count_rows p l = 0 -> List.filter (fun r => negb (p r)) l = l.
Proof.
  unfold count_rows. induction l as [|r l IH]; cbn; [done |]. destruct (p r); cbn; [lia |]. intros H. by rewrite IH.
Qed.

Variables (w0 : World) (cs0 : nat -> call_pc) (i : nat).

#[local] Abbreviation comes_to := (Interleave.comes_to mkDual step w0 cs0 i).

Lemma comes_other w p w' : comes_to w p -> servers w' = servers w -> w_redis w' = w_redis w -> comes_to w' p.
Proof. intros Hc Hs Hr. apply (comes_stay _ _ _ _ _ w); [done |]. intros cs. by apply d_other. Qed.

(** A lookup leaves the call where it is. *)
Lemma looks_up q w p (Q : result Server -> World -> Prop) X :
  comes_to w p -> (forall r w', comes_to w' p -> Q r w') -> wp (first_server q) w Q X.
Proof. intros Hc HQ. apply first_server_outcome. intros r t Hr _ _. apply HQ. by apply (comes_other w). Qed.

(** The read of an update or a deletion. *)
Lemma reads_row id w (Q : result Server -> World -> Prop) X :
  comes_to w CIdle ->
  (forall x w', comes_to w' (CHolds id x) -> Q (Ok x) w') -> (forall e w', comes_to w' CIdle -> Q (Err e) w') ->
  wp (serverRepo_GetByID id) w Q X.
Proof.
  intros Hc HQ HE. eapply wp_traced; [apply (looks_up _ w CIdle (fun _ w' => comes_to w' CIdle)); auto |].
  intros [x|e] w' Hrun Hc'; [| by apply HE]. apply HQ, (comes_next _ _ _ _ _ w CIdle); [done |]. intros cs Hi. by apply d_read.
Qed.

(** A command of a call: it answers, and the call moves on. *)
Lemma sends cmd w p (next : result () -> call_pc) (Q : result () -> World -> Prop) X :
  comes_to w p ->
  (forall r w' cs, cs i = p -> command cmd w = (w', Done r) -> step (mkDual w cs) (mkDual w' (<[i := next r]> cs))) ->
  (forall r w', comes_to w' (next r) -> Q r w') -> wp (command cmd) w Q X.
Proof.
  intros Hc Hstep HQ. unfold command. apply wp_eqn.
  - intros r w' Hrun. apply HQ, (comes_next _ _ _ _ _ w p); [done |]. intros cs Hi. by apply Hstep.
  - intros w' Hrun. unfold redis_call, on in Hrun. by destruct (redis_Exec _ _).
Qed.

(** The two writes of the cache. *)
Lemma pays_upsert s w (Q : () -> World -> Prop) X :
  comes_to w (CUpsert s) -> (forall w', comes_to w' CIdle -> Q tt w') ->
  wp (with_cache svc (fun c => cache_Upsert c (server_ServerID s) (server_IPv4 s) (server_CurrentStatus s)
        (server_ConsecutiveFailures s))) w Q X.
Proof.
  intros Hc HQ. unfold with_cache. cbn [svc_cache cache_Upsert NewServerCache]. unfold ServerCache_Upsert. cbn [iface_is_nil].
  apply wp_bind, wp_bind, (sends (hset_of s) w (CUpsert s) (fun r => if is_ok r then CListing s else CIdle)); [done | |].
  { intros r w' cs Hi Hrun. by apply (d_hset _ _ s r). }
  intros [[]|e] w1 H1; [| by apply wp_ret, wp_ret, HQ].
  apply wp_bind, (sends (SADD ServerAllIDsKey (server_ServerID s)) w1 (CListing s) (fun _ => CIdle)); [done | |].
  { intros r w' cs Hi Hrun. by apply (d_sadd _ _ s r). }
  intros [[]|e] w2 H2; by apply wp_ret, wp_ret, HQ.
Qed.

Lemma pays_remove id w (Q : () -> World -> Prop) X :
  comes_to w (CRemove id) -> (forall w', comes_to w' CIdle -> Q tt w') ->
  wp (with_cache svc (fun c => cache_Delete c id)) w Q X.
Proof.
  intros Hc HQ. unfold with_cache. cbn [svc_cache cache_Delete NewServerCache]. unfold ServerCache_Delete. cbn [iface_is_nil].
  apply wp_bind, wp_bind, (sends (DEL (ServerInfoKey id)) w (CRemove id) (fun r => if is_ok r then CUnlist id else CIdle)); [done | |].
  { intros r w' cs Hi Hrun. by apply (d_del _ _ id r). }
  intros [[]|e] w1 H1; [| by apply wp_ret, wp_ret, HQ].
  apply wp_bind, (sends (SREM ServerAllIDsKey id) w1 (CUnlist id) (fun _ => CIdle)); [done | |].
  { intros r w' cs Hi Hrun. by apply (d_srem _ _ id r). }
  intros [[]|e] w2 H2; by apply wp_ret, wp_ret, HQ.
Qed.

Lemma gives_up w id x : comes_to w (CHolds id x) -> comes_to w CIdle.
Proof. intros Hc. apply (comes_next _ _ _ _ _ w (CHolds id x)); [done |]. intros cs Hi. by eapply d_give_up. Qed.

Hypothesis Hidle : cs0 i = CIdle.
#[local] Abbreviation is_run m := (wp m w0 (fun _ w' => comes_to w' CIdle) (fun w' => comes_to w' CIdle)).

Lemma DeleteServer_is_run id : is_run (DeleteServer svc id).
Proof.
  unfold DeleteServer. apply wp_bind, reads_row; [by apply comes_start | | intros e w' Hc; by apply wp_ret].
  intros x w Hc. apply wp_bind. eapply (wp_traced _ _ (fun r w' => r <> Ok tt -> servers w' = servers w /\ w_redis w' = w_redis w)).
  - unfold serverRepo_Delete. go_wp. destruct Hst as [_ Hd]. intros Hne. split; [| done]. world_simpl.
    destruct r as [n|e]; [| by destruct Hd]. destruct Hd as [-> ->]. apply delete_none.
    by destruct (Z.eqb_spec (count_rows (fun s => uuid_column_eq (server_ServerID s) id) (servers w)) 0).
  - intros [[]|e] w' Hrun Hw.
    + apply wp_bind, pays_remove; [| intros w1 H1; by apply wp_ret].
      apply (comes_next _ _ _ _ _ w (CHolds id x)); [done |]. intros cs Hi. by eapply d_delete.
    + apply wp_ret. destruct (Hw ltac:(done)). by apply (comes_other w); [apply gives_up in Hc | |].
Qed.

Lemma CreateServer_is_run input : is_run (CreateServer svc input).
Proof.
  unfold CreateServer. apply wp_bind, (looks_up _ w0 CIdle); [by apply comes_start |].
  intros [?|e1] w1 H1; [by apply wp_ret |]. destruct (negb _); [by apply wp_ret |].
  apply wp_bind, (looks_up _ w1 CIdle); [done |].
  intros [?|e2] w2 H2; [by apply wp_ret |]. destruct (negb _); [by apply wp_ret |].
  set (new := mkServer "" (create_ServerName input) (create_IPv4 input) "" 0 zero_time zero_time).
  apply wp_bind. eapply (wp_traced _ _ (fun r w' => match r with
    | Ok s => server_ConsecutiveFailures s = 0 | Err _ => servers w' = servers w2 /\ w_redis w' = w_redis w2 end));
    [by apply Create_server_outcome |].
  intros [s|e] w3 Hrun Hw; [| apply wp_ret; by apply (comes_other w2); [| apply Hw ..]]. cbn in Hw. rewrite <- Hw.
  apply wp_bind, (pays_upsert s); [| intros w4 H4; by apply wp_ret].
  apply (comes_next _ _ _ _ _ w2 CIdle); [done |]. intros cs Hi. by eapply d_create.
Qed.

Lemma UpdateServer_is_run id input : is_run (UpdateServer svc id input).
Proof.
  unfold UpdateServer, update_found. apply wp_bind, reads_row; [by apply comes_start | | intros e w' Hc; by apply wp_ret].
  intros x w1 H1.
  assert (forall (m : M World (result Server)) w (P : Server -> Prop) (k : Server -> M World (result Server)),
    wp m w (fun r w' => comes_to w' (CHolds id x) /\ match r with Ok s => P s | Err _ => True end) (fun w' => comes_to w' CIdle) ->
    (forall s w', comes_to w' (CHolds id x) -> P s ->
       wp (k s) w' (fun _ w' => comes_to w' CIdle) (fun w' => comes_to w' CIdle)) ->
    wp (s <-? m ;; k s)%go w (fun _ w' => comes_to w' CIdle) (fun w' => comes_to w' CIdle)) as Hseq.
  { intros m w P k Hm Hk. apply wp_bind. eapply wp_mono; [exact Hm |]. intros [s|e] w' [Hc Hp]; [by apply Hk |].
    apply wp_ret. by eapply gives_up. }
  apply (Hseq _ _ (fun s => s = with_name (update_ServerName input) x)).
  { destruct (String.eqb_spec (update_ServerName input) (server_ServerName x)) as [He|_]; cbn [negb].
    - apply wp_ret. split; [done |]. rewrite He. by destruct x.
    - apply wp_bind, (looks_up _ w1 (CHolds id x)); [done |]. intros r w' Hc. apply wp_ret. split; [done |].
      by destruct (taken_by_other id r) as [[]|]. }
  intros s2 w2 H2 ->.
  apply (Hseq _ _ (fun s => s = with_ipv4 (update_IPv4 input) (with_name (update_ServerName input) x))).
  { destruct (String.eqb_spec (update_IPv4 input) (server_IPv4 (with_name (update_ServerName input) x))) as [He|_]; cbn [negb].
    - apply wp_ret. split; [done |]. rewrite He. by destruct x.
    - apply wp_bind, (looks_up _ w2 (CHolds id x)); [done |]. intros r w' Hc. apply wp_ret. split; [done |].
      by destruct (taken_by_other id r) as [[]|]. }
  intros s3 w3 H3 ->. apply wp_bind.
  eapply (wp_traced _ _ (fun r w' => match r with Ok _ => True | Err _ => servers w' = servers w3 /\ w_redis w' = w_redis w3 end));
    [by apply Update_outcome |].
  intros [s|e] w4 Hrun Hw; [| apply wp_ret; apply gives_up in H3; by apply (comes_other w3); [| apply Hw ..]].
  apply wp_bind, (pays_upsert s); [| intros w5 H5; by apply wp_ret].
  apply (comes_next _ _ _ _ _ w3 (CHolds id x)); [done |]. intros cs Hi. by eapply d_update.
Qed.

(** Each call of the service, alone, is such a run. *)
Lemma server_run_is_run x : is_run (server_run (NewServerCache LiveClient) x).
Proof.
  destruct x as [input|id input|id]; cbn; apply wp_bind; (eapply wp_mono;
    [first [apply CreateServer_is_run | apply UpdateServer_is_run | apply DeleteServer_is_run] | intros r w' Hc; by apply wp_ret]).
Qed.
End Alone.

(** ** Concrete runs *)
Section DualWriteRuns.
#[local] Existing Instance mem_env.
#[local] Existing Instance mem_laws.

#[local] Abbreviation nobody := (fun _ : nat => CIdle).
#[local] Abbreviation start := (mkDual (server_world [demo_server]) nobody).

Ltac at_call := rewrite ?fn_lookup_insert_ne, ?fn_lookup_insert by done; reflexivity.
Ltac statement := apply run_outcome; vm_compute; reflexivity.

(** An update of one server and the creation of another interleave, down to
    the commands of their cache writes. *)
Lemma demo_interleaved : exists s, rtc (dual_step true) start s /\ (forall i, du_calls s i = CIdle) /\
  map server_ServerName (rows (w_servers (du_world s))) = ["web-2"; "db-1"]%string.
Proof.
  eexists. split; [| split].
  - eapply rtc_l. { eapply (d_read _ 0 "5"); [at_call | statement |]. intros _. split; [reflexivity |]. done. }
    eapply rtc_l. { eapply (d_create _ 1 "db-1" "10.0.0.2"); [at_call | statement |]. intros _. split; [reflexivity |].
      intros [|j]; vm_compute; discriminate. }
    eapply rtc_l. { eapply (d_update _ 0 "5" _ "web-2" "10.0.0.1"); [at_call | statement]. }
    eapply rtc_l. { eapply (d_hset _ 1 _ (Ok tt)); [at_call | statement]. }
    eapply rtc_l. { eapply (d_hset _ 0 _ (Ok tt)); [at_call | statement]. }
    eapply rtc_l. { eapply (d_sadd _ 1 _ (Ok tt)); [at_call | statement]. }
    apply rtc_once. eapply (d_sadd _ 0 _ (Ok tt)); [at_call | statement].
  - intros [|[|j]]; reflexivity.
  - vm_compute. reflexivity.
Qed.

Lemma concurrent_dual_write_coherent_witness : exists s,
  servers_ok demo_cache (du_world s) /\
  map server_ServerName (rows (w_servers (du_world s))) = ["web-2"; "db-1"]%string.
Proof.
  destruct demo_interleaved as (s & Hrun & Hidle & Hrows). exists s. split; [| exact Hrows].
  exact (concurrent_dual_write_coherent _ _ s demo_servers_ok (fun _ => eq_refl) Hrun Hidle).
Defined.

(** An update and a deletion of one server at a time: the update has written
    the row and not yet the cache when the deletion runs.  The server is gone
    from the table and back in the cache, where the monitor goes on pinging it. *)
Example deleted_server_stays_cached :
  exists s, rtc (dual_step false) start s /\ (forall i, du_calls s i = CIdle) /\
    rows (w_servers (du_world s)) = [] /\ redis_view (data (w_redis (du_world s))) "5" <> None.
Proof.
  eexists. split; [| split; [| split]].
  - eapply rtc_l. { eapply (d_read _ 0 "5"); [at_call | statement | done]. }
    eapply rtc_l. { eapply (d_update _ 0 "5" _ "web-2" "10.0.0.1"); [at_call | statement]. }
    eapply rtc_l. { eapply (d_read _ 1 "5"); [at_call | statement | done]. }
    eapply rtc_l. { eapply (d_delete _ 1 "5"); [at_call | statement]. }
    eapply rtc_l. { eapply (d_del _ 1 "5" (Ok tt)); [at_call | statement]. }
    eapply rtc_l. { eapply (d_srem _ 1 "5" (Ok tt)); [at_call | statement]. }
    eapply rtc_l. { eapply (d_hset _ 0 _ (Ok tt)); [at_call | statement]. }
    apply rtc_once. eapply (d_sadd _ 0 _ (Ok tt)); [at_call | statement].
  - intros [|[|j]]; reflexivity.
  - vm_compute. reflexivity.
  - vm_compute. discriminate.
Qed.
End DualWriteRuns.
