(* ===== verification/Transaction.v ===== *)
(** * Transaction: [GormTxManager] of [server_management/repository/impl]

    [WithTx] runs a function in a transaction of its own and hands it a context
    that carries the transaction; [getDB] of the server repository takes the
    transaction from the context it is given, or else the database.  gorm's
    [Transaction] is a parameter ([TxGorm]) with its documented behaviour. *)

From stdpp Require Import base list strings gmap numbers.
From Stdlib Require Import ZArith Lia.
From S2P Require Import Prelude GoStrings GoTime Domain Env MemEnv Servers.
Open Scope Z_scope.

(** A transaction: the rows when it began, and the table as it sees it. *)
Record Tx `{E : Env} := mkTx { tx_snapshot : list Server; tx_table : Table Server }.

Class TxGorm `{E : Env} := {
  tx_begin : Table Server -> Table Server * result Tx;
  tx_commit : Tx -> Table Server -> Table Server * result ();
  tx_rollback : Tx -> Table Server -> Table Server;
}.

Class TxLaws `{E : Env} {L : EnvLaws E} (T : TxGorm) := {
  begin_law : forall t t' r, tx_begin t = (t', r) -> rows t' = rows t /\
    match r with Ok x => tx_snapshot x = rows t /\ rows (tx_table x) = rows t | Err _ => True end;
  (* a connection that breaks leaves it open whether the commit took effect *)
  commit_law : forall x t t' r, tx_commit x t = (t', r) -> rows t = tx_snapshot x ->
    match r with Ok _ => rows t' = rows (tx_table x) | Err _ => rows t' = rows t \/ rows t' = rows (tx_table x) end;
  rollback_law : forall x t, rows (tx_rollback x t) = rows t;
}.

Section WithTx.
Context `{E : Env} {T : TxGorm}.

(** The value of [txKey] in a context. *)
Definition Ctx : Type := option nat.

Record TxWorld := mkTxWorld {
  tw_world : World;
  tw_open : gmap nat Tx;
  tw_next : nat;
}.

Definition ErrTxDone : error := Sentinel "sql.ErrTxDone" "sql: transaction has already been committed or rolled back".

(** A repository call [m] on [getDB(ctx)]. *)
Definition getDB {A} (ctx : Ctx) (m : M World (result A)) : M TxWorld (result A) := fun s =>
  match ctx with
  | None => let '(w, r) := m (tw_world s) in (mkTxWorld w (tw_open s) (tw_next s), r)
  | Some k =>
      match tw_open s !! k with
      | None => (s, Done (Err ErrTxDone))
      | Some x =>
          let '(w, r) := m (set_servers (tx_table x) (tw_world s)) in
          (mkTxWorld (set_servers (w_servers (tw_world s)) w)
             (<[k := mkTx _ (tx_snapshot x) (w_servers w)]> (tw_open s)) (tw_next s), r)
      end
  end.

(** The end of a transaction by [close]. *)
Definition close_tx {A} (k : nat) (close : Tx -> Table Server -> Table Server * A) (other : A) : M TxWorld A := fun s =>
  match tw_open s !! k with
  | None => (s, Done other)
  | Some x =>
      let '(t, a) := close x (w_servers (tw_world s)) in
      (mkTxWorld (set_servers t (tw_world s)) (delete k (tw_open s)) (tw_next s), Done a)
  end.
Definition rollback_tx (k : nat) : M TxWorld () := close_tx k (fun x t => (tx_rollback x t, tt)) tt.
Definition commit_tx (k : nat) : M TxWorld (result ()) := close_tx k tx_commit (Err ErrTxDone).

(** [WithTx], the transaction of its own included when [ctx] carries one. *)
Definition WithTx (ctx : Ctx) (fn : Ctx -> M TxWorld (result ())) : M TxWorld (result ()) := fun s =>
  match tx_begin (w_servers (tw_world s)) with
  | (t, Err e) => (mkTxWorld (set_servers t (tw_world s)) (tw_open s) (tw_next s), Done (Err e))
  | (t, Ok x) =>
      let k := tw_next s in
      let s1 := mkTxWorld (set_servers t (tw_world s)) (<[k := x]> (tw_open s)) (S k) in
      match fn (Some k) s1 with
      | (s2, Panicked) => ((rollback_tx k s2).1, Panicked)
      | (s2, Done (Err e)) => ((rollback_tx k s2).1, Done (Err e))
      | (s2, Done (Ok _)) => commit_tx k s2
      end
  end.
End WithTx.

Section TxFacts.
Context `{E : Env} {L : EnvLaws E} {T : TxGorm} {TL : TxLaws T}.
#[local] Abbreviation servers s := (rows (w_servers (tw_world s))).


(** The function has succeeded, and its table is the one. *)
Definition took_effect (m : M World (result ())) (s s' : TxWorld) : Prop :=
  exists t w1, rows t = servers s /\ m (set_servers t (tw_world s)) = (w1, Done (Ok tt)) /\ servers s' = rows (w_servers w1).

(** A transaction is all or nothing: when the function fails or panics the
    table is as before; when [WithTx] succeeds it is what the function made of
    it; when only the commit fails it is one or the other. *)
Theorem WithTx_atomic ctx (m : M World (result ())) s s' r :
  WithTx ctx (fun ctx' => getDB ctx' m) s = (s', r) ->
  match r with
  | Panicked => servers s' = servers s
  | Done (Err _) => servers s' = servers s \/ took_effect m s s'
  | Done (Ok _) => took_effect m s s'
  end.
Proof.
  unfold WithTx. destruct (tx_begin _) as [t [x|e]] eqn:Hb; pose proof (begin_law _ _ _ Hb) as [Ht Hx].
  2: { intros [= <- <-]. by left. }
  destruct Hx as [Hsnap Hrows]. unfold getDB. cbn [tw_open tw_world tw_next]. rewrite lookup_insert_eq.
  change (set_servers (tx_table x) (set_servers t (tw_world s))) with (set_servers (tx_table x) (tw_world s)).
  destruct (m (set_servers (tx_table x) (tw_world s))) as [w1 r1] eqn:Hm.
  unfold rollback_tx, commit_tx, close_tx. cbn [tw_open tw_world tw_next].
  destruct r1 as [[[]|e]|]; cbn [fst]; rewrite lookup_insert_eq; cbn.
  2, 3: intros [= <- <-]; cbn; rewrite ?rollback_law; auto.
  destruct (tx_commit _ _) as [t' r'] eqn:Hc. intros [= <- <-]. cbn.
  assert (rows t' = rows (w_servers w1) -> took_effect m s (mkTxWorld (set_servers t' (set_servers t w1))
    (delete (tw_next s) (<[tw_next s := mkTx _ (tx_snapshot x) (w_servers w1)]> (<[tw_next s := x]> (tw_open s)))) (S (tw_next s)))) as Hd.
  { intros Heq. exists (tx_table x), w1. done. }
  pose proof (commit_law _ _ _ _ Hc (eq_trans Ht (eq_sym Hsnap))) as Hl. cbn in Hl.
  destruct r' as [[]|e]; [by apply Hd |]. destruct Hl as [Hl|Hl]; [left; exact (eq_trans Hl Ht) | right; by apply Hd].
Qed.

(** A transaction inside another is not part of it: what it has committed stays
    when the other is rolled back. *)
Theorem inner_commit_survives ctx inner e s s1 s' :
  WithTx ctx (fun ctx1 => WithTx ctx1 inner ;;; ret (Err e))%go s = (s', Done (Err e)) ->
  forall x t, tx_begin (w_servers (tw_world s)) = (t, Ok x) ->
  WithTx (Some (tw_next s)) inner
    (mkTxWorld (set_servers t (tw_world s)) (<[tw_next s := x]> (tw_open s)) (S (tw_next s))) = (s1, Done (Ok tt)) ->
  servers s' = servers s1.
Proof.
  intros Hrun x t Hb Hin. unfold WithTx at 1 in Hrun. rewrite Hb in Hrun. cbn zeta in Hrun. unfold bind in Hrun at 1.
  rewrite Hin in Hrun. cbn in Hrun. injection Hrun as <-. unfold rollback_tx, close_tx.
  destruct (tw_open s1 !! tw_next s); cbn; [apply rollback_law | done].
Qed.
End TxFacts.

(** ** Concrete runs *)
Section TransactionRuns.
#[local] Existing Instance mem_env.
#[local] Existing Instance mem_laws.

(** Transactions on tables in memory: the next fault decides whether one begins. *)
#[local] Instance mem_tx : TxGorm := {
  tx_begin t := match mt_faults t with
                | true :: f => (mkMemTable (mt_rows t) f (mt_seed t) (mt_now t), Err (Fresh "bad connection"))
                | _ => (t, Ok (mkTx _ (mt_rows t) t))
                end;
  tx_commit x t := (tx_table x, Ok tt);
  tx_rollback x t := t;
}.
#[local] Instance mem_tx_laws : TxLaws mem_tx.
Proof.
  split.
  - intros t t' r. cbn. destruct (mt_faults t) as [|[] f]; intros [= <- <-]; done.
  - intros x t t' r [= <- <-] _. done.
  - done.
Qed.

Definition tx_start : TxWorld := mkTxWorld (server_world [demo_server]) ∅ 0.
Definition add (name ip : string) : M World (result ()) :=
  (_s <-? serverRepo_Create (mkServer "" name ip "" 0 zero_time zero_time) ;; ret (Ok tt))%go.

Lemma WithTx_atomic_witness : exists s',
  WithTx None (fun ctx => getDB ctx (add "db-1" "10.0.0.2")) tx_start = (s', Done (Ok tt)) /\
  took_effect (add "db-1" "10.0.0.2") tx_start s'.
Proof.
  eexists. assert (WithTx None (fun ctx => getDB ctx (add "db-1" "10.0.0.2")) tx_start
    = ((WithTx None (fun ctx => getDB ctx (add "db-1" "10.0.0.2")) tx_start).1, Done (Ok tt))) as H
    by (apply run_outcome; vm_compute; reflexivity).
  split; [exact H |]. exact (WithTx_atomic None _ _ _ _ H).
Defined.

(** The second of two creations clashes: neither is stored. *)
Example clash_stores_nothing :
  rows (w_servers (tw_world (WithTx None (fun ctx => getDB ctx (_u <-? add "db-1" "10.0.0.2" ;; add "db-2" "10.0.0.2")%go)
    tx_start).1)) = [demo_server].
Proof. vm_compute. reflexivity. Qed.

(** An inner transaction, then a failure of the outer one. *)
Example inner_stays :
  map server_ServerName (rows (w_servers (tw_world
    (WithTx None (fun ctx1 => WithTx ctx1 (fun ctx2 => getDB ctx2 (add "db-1" "10.0.0.2")) ;;; ret (Err (Fresh "later")))%go
       tx_start).1))) = ["web-1"; "db-1"]%string.
Proof. vm_compute. reflexivity. Qed.
End TransactionRuns.
