(* ===== verification/ImportExport.v ===== *)
(** * ImportExport: [service/import_export.go]

    Importing servers from a spreadsheet in batches of a hundred, and writing
    the spreadsheet of an export.  The package excelize is a parameter
    ([Excelize]): opening a workbook, iterating over the rows of a sheet, and
    the stream writer.  A [[]byte] is a string.  The loop over the rows is a
    recursion on them; the closure [processBatch] is a function of the
    variables it captures. *)

From stdpp Require Import base list strings gmap numbers.
From Stdlib Require Import ZArith Lia.
From S2P Require Import Prelude GoStrings GoTime GoNet Domain Env MemEnv Servers.
Open Scope Z_scope.

Definition maxFileSize : Z := 2 * 1024 * 1024.
Definition batchSize : nat := 100.

Definition ErrFileTooLarge : error := Sentinel "service.ErrFileTooLarge" "file size exceeds 2MB limit".
Definition ErrInvalidFormat : error := Sentinel "service.ErrInvalidFormat" "invalid excel file format".
Definition ErrNoSheets : error := Sentinel "service.ErrNoSheets" "no sheets found in the excel file".
Definition ErrEmptyFile : error := Sentinel "service.ErrEmptyFile" "empty excel file".
Definition ErrMissingCols : error :=
  Sentinel "service.ErrMissingCols" "missing required columns: 'Server Name' or 'IPv4'".

Class Excelize := {
  Workbook : Type;
  StreamWriter : Type;
  OpenReader : string -> result Workbook;
  GetSheetName : Workbook -> Z -> string;
  (** the columns [rows.Columns()] yields for each [rows.Next()] *)
  Rows : Workbook -> string -> result (list (list string));
  (** [NewFile], the column widths and [NewStreamWriter] *)
  NewStreamWriter : string -> result StreamWriter;
  NewStyle : result Z;
  CoordinatesToCellName : Z -> Z -> string;
  SetRow : StreamWriter -> string -> list string -> result StreamWriter;
  Flush : StreamWriter -> result StreamWriter;
  WriteBuf : StreamWriter -> result string;
}.

Record ImportResult := mkImportResult {
  imp_SuccessCount : Z;
  imp_SuccessfulServers : list string;
  imp_FailCount : Z;
  imp_FailedServers : list string;
}.

Definition no_result : ImportResult := mkImportResult 0 [] 0 [].
Definition add_failure (r : ImportResult) (label : string) : ImportResult :=
  mkImportResult (imp_SuccessCount r) (imp_SuccessfulServers r)
    (int32 (imp_FailCount r + 1)) (imp_FailedServers r ++ [label]).
Definition add_success (r : ImportResult) (name : string) : ImportResult :=
  mkImportResult (int32 (imp_SuccessCount r + 1)) (imp_SuccessfulServers r ++ [name])
    (imp_FailCount r) (imp_FailedServers r).

(** ** The header row: the last matching column wins, -1 is [None] *)
Section Header.
Context `{Unicode}.

Definition is_name_header (h : string) : bool :=
  bool_decide (h ∈ ["server name"; "server_name"; "name"]%string).
Definition is_ip_header (h : string) : bool := bool_decide (h ∈ ["ipv4"; "ip"]%string).

Fixpoint header_columns (header : list string) (i : nat) (nameIdx ipIdx : option nat)
  : option nat * option nat :=
  match header with
  | [] => (nameIdx, ipIdx)
  | h :: hs =>
      let hLower := TrimSpace (ToLower h) in
      if is_name_header hLower then header_columns hs (S i) (Some i) ipIdx
      else if is_ip_header hLower then header_columns hs (S i) nameIdx (Some i)
      else header_columns hs (S i) nameIdx ipIdx
  end.
End Header.

Section Importing.
Context `{E : Env} `{X : Excelize}.

(** ** [processBatch] *)
Definition batch_label (srv : Server) : string :=
  server_ServerName srv +:+ " (" +:+ server_IPv4 srv +:+ ")".

(** The loop over the batch: names and addresses seen, result, valid servers. *)
Fixpoint classify (batch : list Server) (names ips : gset string) (r : ImportResult)
  (valid : list Server) : ImportResult * list Server :=
  match batch with
  | [] => (r, valid)
  | srv :: rest =>
      if bool_decide (server_ServerName srv ∈ names) || bool_decide (server_IPv4 srv ∈ ips)
      then classify rest names ips (add_failure r (batch_label srv)) valid
      else classify rest ({[server_ServerName srv]} ∪ names) ({[server_IPv4 srv]} ∪ ips)
             (add_success r (server_ServerName srv)) (valid ++ [srv])
  end.

Definition cache_item (srv : Server) : CacheUpsertItem :=
  mkCacheItem (server_ServerID srv) (server_IPv4 srv) (server_CurrentStatus srv) 0.

Definition processBatch (s : serverService) (batch : list Server) (r : ImportResult)
  : M World (result ImportResult) :=
  if (length batch =? 0)%nat then ret (Ok r)
  else
    existingServers <-? serverRepo_FindByNamesOrIPv4s (map server_ServerName batch)
                          (map server_IPv4 batch)
      orelse Wrapped "failed to check existing servers" ;;
    let names : gset string := list_to_set (map server_ServerName existingServers) in
    let ips : gset string := list_to_set (map server_IPv4 existingServers) in
    let '(r, validServers) := classify batch names ips r [] in
    if (0 <? length validServers)%nat then
      created <-? serverRepo_BatchCreate validServers orelse Wrapped "batch create failed" ;;
      with_cache s (fun c => cache_BatchUpsert c (map cache_item created)) ;;;
      ret (Ok r)
    else ret (Ok r).

(** ** The loop over the data rows *)
Definition cell (cols : list string) (idx : nat) : string :=
  match cols !! idx with Some c => TrimSpace c | None => "" end.

Definition row_valid (name ipv4 : string) : bool :=
  negb (String.eqb name "") && negb (String.eqb ipv4 "")
  && (Z.of_nat (String.length name) <=? 255) && is_ipv4 ipv4.

Definition imported (name ipv4 : string) : Server :=
  mkServer "" name ipv4 ServerStatusOnline 0 zero_time zero_time.

Fixpoint import_rows (s : serverService) (nameIdx ipIdx : nat) (rows : list (list string))
  (batch : list Server) (r : ImportResult) : M World (result ImportResult) :=
  match rows with
  | [] => processBatch s batch r   (* process remaining *)
  | cols :: rest =>
      let name := cell cols nameIdx in
      let ipv4 := cell cols ipIdx in
      if String.eqb name "" && String.eqb ipv4 "" then import_rows s nameIdx ipIdx rest batch r
      else if negb (row_valid name ipv4) then
        import_rows s nameIdx ipIdx rest batch
          (add_failure r (name +:+ " (" +:+ ipv4 +:+ ") - Invalid Format"))
      else
        let batch := batch ++ [imported name ipv4] in
        if (batchSize <=? length batch)%nat then
          r <-? processBatch s batch r ;; import_rows s nameIdx ipIdx rest [] r
        else import_rows s nameIdx ipIdx rest batch r
  end.

Definition ImportServers (s : serverService) (fileBytes : string) : M World (result ImportResult) :=
  if maxFileSize <? Z.of_nat (String.length fileBytes) then ret (Err ErrFileTooLarge)
  else match OpenReader fileBytes with
  | Err _ => ret (Err ErrInvalidFormat)
  | Ok f =>
    let sheetName := GetSheetName f 0 in
    if String.eqb sheetName "" then ret (Err ErrNoSheets)
    else match Rows f sheetName with
    | Err e => ret (Err (Wrapped "failed to read rows" e))
    | Ok [] => ret (Err ErrEmptyFile)
    | Ok (header :: rows) =>
      match header_columns header 0 None None with
      | (Some nameIdx, Some ipIdx) => import_rows s nameIdx ipIdx rows [] no_result
      | _ => ret (Err ErrMissingCols)
      end
    end
  end.

(** ** Export *)
Definition export_header : list string :=
  ["Server Name"; "IPv4 Address"; "Status"; "Created At"; "Last Updated"].

Definition export_row (off : Time -> Z) (srv : Server) : list string :=
  [server_ServerName srv; server_IPv4 srv; server_CurrentStatus srv;
   Format_datetime (off (server_CreatedAt srv)) (server_CreatedAt srv);
   Format_datetime (off (server_UpdatedAt srv)) (server_UpdatedAt srv)].

Fixpoint write_rows (sw : StreamWriter) (rowIdx : Z) (rows : list (list string)) : result StreamWriter :=
  match rows with
  | [] => Ok sw
  | row :: rest =>
      match SetRow sw (CoordinatesToCellName 1 rowIdx) row with
      | Err e => Err (Wrapped ("failed to write row " +:+ Itoa rowIdx) e)
      | Ok sw => write_rows sw (rowIdx + 1) rest
      end
  end.

Definition generateServerExcel (servers : list Server) : result string :=
  match NewStreamWriter "Sheet1" with
  | Err e => Err (Wrapped "failed to init stream writer" e)
  | Ok sw =>
    match NewStyle with
    | Err e => Err (Wrapped "failed to create style" e)
    | Ok _ =>
      match SetRow sw "A1" export_header with
      | Err e => Err (Wrapped "failed to write header" e)
      | Ok sw =>
        match write_rows sw 2 (map (export_row local_offset) servers) with
        | Err e => Err e
        | Ok sw =>
          match Flush sw with
          | Err e => Err (Wrapped "failed to flush stream" e)
          | Ok sw =>
            match WriteBuf sw with
            | Err e => Err (Wrapped "failed to write excel to buffer" e)
            | Ok buf => Ok buf
            end
          end
        end
      end
    end
  end.

Definition ExportServers (s : serverService) (filter : ServerListFilter)
  : M World (result (string * string)) :=
  found <-? serverRepo_Search filter orelse Wrapped "failed to fetch servers for export" ;;
  match generateServerExcel found.1 with
  | Err e => ret (Err e)
  | Ok buf =>
    now <-- time_Now ;;
    ret (Ok (buf, "servers_export_" +:+ Format_stamp (local_offset now) now +:+ ".xlsx"))
  end.

End Importing.

(** ** Properties of an import *)
Section ImportProperties.
Context `{E : Env} {L : EnvLaws E} `{X : Excelize} (c : CacheManager) {CL : CacheLaws c}.
Implicit Types (w : World) (r : ImportResult).

#[local] Abbreviation svc := (mkServerService (Some c)).
#[local] Abbreviation servers w := (Env.rows (w_servers w)).

(** The counters are the lengths of the lists, at the width of an int32. *)
Definition counts_ok r : Prop :=
  imp_SuccessCount r = int32 (Z.of_nat (length (imp_SuccessfulServers r))) /\
  imp_FailCount r = int32 (Z.of_nat (length (imp_FailedServers r))).

Lemma counts_ok_failure r l : counts_ok r -> counts_ok (add_failure r l).
Proof.
  intros [? H]. split; [done |]. cbn. rewrite H, length_app. unfold int32. rewrite wrap_int_add by done.
  f_equal. cbn. lia.
Qed.
Lemma counts_ok_success r n : counts_ok r -> counts_ok (add_success r n).
Proof.
  intros [H ?]. split; [| done]. cbn. rewrite H, length_app. unfold int32. rewrite wrap_int_add by done.
  f_equal. cbn. lia.
Qed.

(** Rows accounted for so far. *)
Definition accounted r : nat := length (imp_SuccessfulServers r) + length (imp_FailedServers r).

(** What an import may store. *)
Definition importable (s : Server) : Prop :=
  row_valid (server_ServerName s) (server_IPv4 s) = true /\
  server_CurrentStatus s = ServerStatusOnline /\ server_ConsecutiveFailures s = 0.

(** Classification: the valid servers are some of the batch, with names and
    addresses that are new and pairwise distinct, and every row is counted. *)
Lemma classify_spec batch names ips r valid r' valid' :
  classify batch names ips r valid = (r', valid') ->
  exists new, valid' = valid ++ new /\ (forall s, s ∈ new -> s ∈ batch) /\
    imp_SuccessfulServers r' = imp_SuccessfulServers r ++ map server_ServerName new /\
    (counts_ok r -> counts_ok r') /\
    accounted r' = (accounted r + length batch)%nat /\
    NoDup (map server_ServerName new) /\ NoDup (map server_IPv4 new) /\
    (forall s, s ∈ new -> server_ServerName s ∉ names /\ server_IPv4 s ∉ ips).
Proof.
  revert names ips r valid. induction batch as [|srv rest IH]; intros names ips r valid; cbn.
  { intros [= <- <-]. exists []. rewrite !app_nil_r. cbn.
    split_and!; [done | by intros ? ?%not_elem_of_nil | done | done | lia | constructor | constructor
                | by intros ? ?%not_elem_of_nil]. }
  destruct (bool_decide (server_ServerName srv ∈ names) || bool_decide (server_IPv4 srv ∈ ips)) eqn:Hd;
    intros (new & -> & Hin & Hsucc & Hcnt & Hacc & Hn1 & Hn2 & Hfresh)%IH.
  - exists new. split_and!; try done.
    + intros s Hs. apply elem_of_cons. auto.
    + intros Hc. by apply Hcnt, counts_ok_failure.
    + rewrite Hacc. unfold accounted. cbn. rewrite length_app. cbn. lia.
  - apply orb_false_iff in Hd as [Hd1%bool_decide_eq_false_1 Hd2%bool_decide_eq_false_1].
    exists (srv :: new). rewrite <- app_assoc. split_and!; cbn.
    + done.
    + intros s [->|Hs]%elem_of_cons; apply elem_of_cons; auto.
    + rewrite Hsucc. cbn. by rewrite <- app_assoc.
    + intros Hc. by apply Hcnt, counts_ok_success.
    + rewrite Hacc. unfold accounted. cbn. rewrite length_app. cbn. lia.
    + constructor; [| done]. intros (s & Hs & Hin')%list_elem_of_fmap.
      destruct (Hfresh s Hin') as [Hf _]. apply Hf. rewrite Hs. set_solver.
    + constructor; [| done]. intros (s & Hs & Hin')%list_elem_of_fmap.
      destruct (Hfresh s Hin') as [_ Hf]. apply Hf. rewrite Hs. set_solver.
    + intros s [->|Hs]%elem_of_cons; [done |]. destruct (Hfresh s Hs). set_solver.
Qed.

Lemma inserted_servers rs rs' :
  inserted rs rs' ->
  map server_ServerName rs' = map server_ServerName rs /\ map server_IPv4 rs' = map server_IPv4 rs /\
  (Forall importable rs -> Forall importable rs') /\
  (Forall (fun s => server_ServerID s = "")%string rs -> Forall (fun s => canonical (server_ServerID s)) rs').
Proof.
  induction 1 as [|a b l k (now & gen & ser & ->) _ (IH1 & IH2 & IH3 & IH4)]; cbn; [done |].
  rewrite IH1, IH2. split_and!; [done | done | |].
  - intros [Ha Hl]%Forall_cons_1. constructor; [| auto]. destruct Ha as (Hv & Hs & Hf).
    split; [done |]. cbn. by rewrite Hs.
  - intros [Ha Hl]%Forall_cons_1. constructor; [| auto]. cbn. rewrite Ha. by exists gen.
Qed.

(** What a step of the import does to the table: it adds importable servers. *)
Definition grows w w' (new : list Server) : Prop :=
  servers w' = servers w ++ new /\ Forall importable new /\ (NoClash (servers w) -> NoClash (servers w')).

Lemma grows_nil w w' : servers w' = servers w -> grows w w' [].
Proof. intros H. unfold grows. rewrite H, app_nil_r. auto. Qed.

Lemma grows_trans w1 w2 w3 l1 l2 : grows w1 w2 l1 -> grows w2 w3 l2 -> grows w1 w3 (l1 ++ l2).
Proof.
  intros (H1 & F1 & N1) (H2 & F2 & N2). unfold grows. rewrite H2, H1, <- app_assoc.
  split_and!; [done | by apply Forall_app_2 |]. intros HN. rewrite H2, H1, <- app_assoc in N2.
  apply N2. rewrite <- H1. auto.
Qed.

Lemma BatchUpsert_frame items w :
  wp (cache_BatchUpsert c items) w (fun _ w' => same_db w w') (same_db w).
Proof. eapply wp_conseq; [apply cache_BatchUpsert_law | naive_solver | naive_solver]. Qed.

Lemma processBatch_outcome batch r w :
  Forall importable batch ->
  wp (processBatch svc batch r) w (fun res w' => exists new, grows w w' new /\
      match res with
      | Ok r' => imp_SuccessfulServers r' = imp_SuccessfulServers r ++ map server_ServerName new /\
                 (counts_ok r -> counts_ok r') /\ accounted r' = (accounted r + length batch)%nat
      | Err _ => True
      end) (fun w' => exists new, grows w w' new).
Proof.
  intros Hb. unfold processBatch. destruct (Nat.eqb_spec (length batch) 0) as [Hz|Hz].
  { apply wp_ret. exists []. split; [by apply grows_nil |]. rewrite app_nil_r. split_and!; auto. lia. }
  apply wp_bind. unfold serverRepo_FindByNamesOrIPv4s.
  rewrite length_map. destruct (Nat.eqb_spec (length batch) 0); [done |]. cbn [andb].
  wp_step. destruct Hst as (Hr & _ & _). destruct r0 as [existing|e].
  2: { apply wp_ret. exists []. split; [by apply grows_nil | done]. }
  destruct (classify _ _ _ _ _) as [r' valid] eqn:Hc.
  apply classify_spec in Hc as (new & -> & Hin & Hsucc & Hcnt & Hacc & _). cbn [app].
  destruct (Nat.ltb_spec 0 (length new)) as [Hpos|Hnil].
  2: { apply wp_ret. exists []. destruct new; [| cbn in Hnil; lia]. split; [by apply grows_nil |]. auto. }
  unfold serverRepo_BatchCreate. destruct (Nat.eqb_spec (length new) 0); [lia |].
  apply wp_bind. wp_step. apply Create_outcome in Hst as [_ Hcr]. destruct r0 as [created|e].
  2: { apply wp_ret. exists []. split; [| done]. apply grows_nil. world_simpl. destruct Hcr. congruence. }
  destruct Hcr as (Hi & Hrows & HN & _). apply inserted_servers in Hi as (Hnames & _ & Himp & _).
  assert (forall w', servers w' = Env.rows s0 -> grows w w' created) as Hgrow.
  { intros w' Hw'. unfold grows. rewrite Hw', Hrows, Hr in *. split_and!; [done | | done].
    apply Himp, Forall_forall. intros x Hx. rewrite Forall_forall in Hb. apply Hb, list_elem_of_In, Hin.
    by apply list_elem_of_In. }
  apply wp_bind, with_cache_frame; [apply BatchUpsert_frame | |]; intros w' (_ & _ & _ & Hw & _).
  - apply wp_ret. exists created. split; [apply Hgrow; by rewrite Hw |]. rewrite Hnames. auto.
  - exists created. apply Hgrow; by rewrite Hw.
Qed.

(** The rows that are not blank. *)
Definition nonblank (nameIdx ipIdx : nat) (rows : list (list string)) : nat :=
  length (List.filter (fun cols => negb (String.eqb (cell cols nameIdx) "" && String.eqb (cell cols ipIdx) "")) rows).

Lemma import_rows_outcome nameIdx ipIdx rows batch r w :
  Forall importable batch ->
  wp (import_rows svc nameIdx ipIdx rows batch r) w (fun res w' => exists new, grows w w' new /\
      match res with
      | Ok r' => imp_SuccessfulServers r' = imp_SuccessfulServers r ++ map server_ServerName new /\
                 (counts_ok r -> counts_ok r') /\
                 accounted r' = (accounted r + length batch + nonblank nameIdx ipIdx rows)%nat
      | Err _ => True
      end) (fun w' => exists new, grows w w' new).
Proof.
  revert batch r w. induction rows as [|cols rest IH]; intros batch r w Hb; cbn [import_rows].
  { eapply wp_conseq; [by apply processBatch_outcome | | done]. intros res w' (new & Hg & Hres).
    exists new. split; [done |]. destruct res; [| done]. cbn. rewrite Nat.add_0_r. done. }
  unfold nonblank. cbn [List.filter].
  destruct (String.eqb (cell cols nameIdx) "" && String.eqb (cell cols ipIdx) "") eqn:Hblank; cbn [negb];
    [by apply IH |].
  destruct (row_valid (cell cols nameIdx) (cell cols ipIdx)) eqn:Hv; cbn [negb].
  2: { eapply wp_conseq; [by apply IH | | done]. intros res w' (new & Hg & Hres). exists new. split; [done |].
       destruct res; [| done]. destruct Hres as (Hs & Hc & Ha). split_and!; [done | |].
       - intros Hok. by apply Hc, counts_ok_failure.
       - rewrite Ha. unfold accounted, nonblank. cbn. rewrite length_app. cbn. lia. }
  assert (Forall importable (batch ++ [imported (cell cols nameIdx) (cell cols ipIdx)])) as Hb'
    by (apply Forall_app_2; [done | by repeat constructor]).
  destruct (batchSize <=? length _)%nat.
  - apply wp_bind. eapply wp_conseq; [by apply processBatch_outcome | | done].
    intros res w1 (new1 & Hg1 & Hres1). destruct res as [r1|e]; [| apply wp_ret; eauto].
    destruct Hres1 as (Hs1 & Hc1 & Ha1). eapply wp_conseq; [by apply IH | |].
    + intros res w' (new2 & Hg2 & Hres2). exists (new1 ++ new2). split; [by eapply grows_trans |].
      destruct res as [r2|e]; [| done]. destruct Hres2 as (Hs2 & Hc2 & Ha2). split_and!.
      * by rewrite Hs2, Hs1, map_app, app_assoc.
      * auto.
      * rewrite Ha2, Ha1, length_app. unfold nonblank. cbn. lia.
    + intros w' (new2 & Hg2). exists (new1 ++ new2). by eapply grows_trans.
  - eapply wp_conseq; [by apply IH | | done]. intros res w' (new & Hg & Hres). exists new. split; [done |].
    destruct res; [| done]. destruct Hres as (Hs & Hc & Ha). split_and!; [done | done |].
    rewrite Ha, length_app. unfold nonblank. cbn. lia.
Qed.

(** C24: An import adds only servers with a valid name and address, online, and
    never breaks the uniqueness of names and addresses.  The result names
    exactly the servers added, in order, and every row that is not blank is
    counted once, as a success or as a failure. *)
Theorem ImportServers_adds file w :
  wp (ImportServers svc file) w (fun res w' => exists new, grows w w' new /\
      match res with
      | Ok r => imp_SuccessfulServers r = map server_ServerName new /\ counts_ok r /\
                exists wb header rows ni ii,
                  OpenReader file = Ok wb /\ Rows wb (GetSheetName wb 0) = Ok (header :: rows) /\
                  header_columns header 0 None None = (Some ni, Some ii) /\
                  (length (imp_SuccessfulServers r) + length (imp_FailedServers r) = nonblank ni ii rows)%nat
      | Err _ => True
      end) (fun w' => exists new, grows w w' new).
Proof.
  unfold ImportServers. destruct (maxFileSize <? _).
  { apply wp_ret. exists []. split; [by apply grows_nil | done]. }
  destruct (OpenReader file) as [wb|e] eqn:Ho; [| apply wp_ret; exists []; split; [by apply grows_nil | done]].
  cbn zeta. destruct (String.eqb _ _); [apply wp_ret; exists []; split; [by apply grows_nil | done] |].
  destruct (Rows wb (GetSheetName wb 0)) as [[|header rows]|e] eqn:Hr;
    try (apply wp_ret; exists []; split; [by apply grows_nil | done]).
  destruct (header_columns header 0 None None) as [[ni|] [ii|]] eqn:Hh;
    try (apply wp_ret; exists []; split; [by apply grows_nil | done]).
  eapply wp_conseq; [apply import_rows_outcome; by apply Forall_nil_2 | | done].
  intros res w' (new & Hg & Hres). exists new. split; [done |]. destruct res as [r|e]; [| done].
  destruct Hres as (Hs & Hc & Ha). split; [done |]. split; [by apply Hc |].
  exists wb, header, rows, ni, ii. split_and!; [done.. | exact Ha].
Qed.

(** The servers a batch goes on to insert collide neither with each other nor
    with the table, so the insert is not refused for a name or an address. *)
Theorem batch_has_no_conflict batch r w existing :
  existing ≡ₚ List.filter (fun s => bool_decide (server_ServerName s ∈ map server_ServerName batch)
                                   || bool_decide (server_IPv4 s ∈ map server_IPv4 batch)) (servers w) ->
  let valid := (classify batch (list_to_set (map server_ServerName existing))
                  (list_to_set (map server_IPv4 existing)) r []).2 in
  NoDup (map server_ServerName valid) /\ NoDup (map server_IPv4 valid) /\
  forall s x, s ∈ valid -> x ∈ servers w ->
    server_ServerName x <> server_ServerName s /\ server_IPv4 x <> server_IPv4 s.
Proof.
  intros Hl. cbn zeta. destruct (classify _ _ _ _ _) as [r' valid] eqn:Hc.
  apply classify_spec in Hc as (new & -> & Hin & _ & _ & _ & Hn1 & Hn2 & Hfresh). cbn [snd app].
  split; [done |]. split; [done |]. intros s x Hs Hx. destruct (Hfresh s Hs) as [Hf1 Hf2].
  assert (forall y, y ∈ servers w -> server_ServerName y = server_ServerName s \/ server_IPv4 y = server_IPv4 s -> y ∈ existing) as Hex.
  { intros y Hy Hor. rewrite Hl, list_elem_of_In, List.filter_In, <- list_elem_of_In. split; [done |].
    apply orb_true_iff. rewrite !bool_decide_eq_true, !list_elem_of_fmap.
    destruct Hor as [He|He]; [left | right]; exists s; auto. }
  split; intros He; [apply Hf1 | apply Hf2]; rewrite elem_of_list_to_set, list_elem_of_fmap; exists x; eauto.
Qed.

(** *** Agreement of the cache *)
Lemma agrees_add_many new v l :
  agrees v l -> NoClash (l ++ new) -> Forall (fun s => server_ConsecutiveFailures s = 0) new ->
  agrees (foldl (fun v it => view_upsert it v) v (map cache_item new)) (l ++ new).
Proof.
  revert v l. induction new as [|s new IH]; intros v l Ha HN Hf; cbn; [by rewrite app_nil_r |].
  apply Forall_cons_1 in Hf as [Hs Hf]. rewrite (cons_middle s l new), app_assoc in HN |- *.
  apply IH; [| done | done]. eapply agrees_add; [exact Ha | by apply NoClash_prefix in HN |].
  intros i. unfold view_upsert, cache_item. cbn. by rewrite Hs.
Qed.

Lemma processBatch_ok batch r :
  Forall importable batch -> Forall (fun s => server_ServerID s = "")%string batch ->
  triple (servers_ok c) (processBatch svc batch r) (fun _ => servers_ok c) (fun _ => False).
Proof.
  intros Hb Hid w Hok. unfold processBatch. destruct (Nat.eqb_spec (length batch) 0) as [Hz|Hz]; [by apply wp_ret |].
  apply wp_bind. unfold serverRepo_FindByNamesOrIPv4s.
  rewrite length_map. destruct (Nat.eqb_spec (length batch) 0); [done |]. cbn [andb].
  wp_step. destruct Hst as (Hr & _ & _).
  assert (servers_ok c (set_servers s w)) as Hok1 by (by apply (servers_ok_frame c w)).
  destruct r0 as [existing|e]; [| by apply wp_ret].
  destruct (classify _ _ _ _ _) as [r' valid] eqn:Hc.
  apply classify_spec in Hc as (new & -> & Hin & _). cbn [app].
  destruct (Nat.ltb_spec 0 (length new)) as [Hpos|Hnil]; [| by apply wp_ret].
  unfold serverRepo_BatchCreate. destruct (Nat.eqb_spec (length new) 0); [lia |].
  apply wp_bind. wp_step. apply Create_outcome in Hst as [_ Hcr]. destruct r0 as [created|e].
  2: { apply wp_ret. eapply servers_ok_frame, Hok1; [by destruct Hcr | done]. }
  destruct Hcr as (Hi & Hrows & HN & _). apply inserted_servers in Hi as (_ & _ & Himp & Hcan).
  assert (forall P : Server -> Prop, Forall P batch -> Forall P new) as Hsub.
  { intros P HP. apply Forall_forall. intros x Hx. rewrite Forall_forall in HP. apply HP, list_elem_of_In, Hin.
    by apply list_elem_of_In. }
  specialize (Himp (Hsub _ Hb)). specialize (Hcan (Hsub _ Hid)). destruct Hok1 as (HN1 & Hc1 & Hco & Hup).
  world_simpl. apply wp_bind. unfold with_cache. cbn [svc_cache]. apply wp_bind.
  destruct (cache_view_redis (set_servers s w) (set_servers s0 (set_servers s w)) eq_refl) as [Hview Hup'].
  eapply wp_conseq; [apply cache_BatchUpsert_law | |].
  - intros res w' [(_ & _ & _ & Hs & _) Hlaw]. apply wp_ret, wp_ret. world_simpl.
    destruct (Hlaw (Hup' Hup)) as (_ & Hup2 & Hview2). rewrite Hview in Hview2.
    unfold servers_ok, coherent. rewrite Hs, Hrows. split; [by apply HN |]. split.
    + intros x [Hx|Hx]%elem_of_app; [by apply Hc1 |]. rewrite Forall_forall in Hcan. by apply Hcan, list_elem_of_In.
    + split; [| done]. assert (Forall (fun s => server_ConsecutiveFailures s = 0) created) as Hzero
        by (eapply Forall_impl; [| exact Himp]; by intros y (_ & _ & ?)).
      destruct (agrees_add_many created _ _ Hco (HN HN1) Hzero) as [Hv1 Hv2].
      split; [intros x Hx; rewrite Hview2; by apply Hv1 | intros i; rewrite Hview2; apply Hv2].
  - intros w' [_ Hnup]. by apply Hnup, Hup'.
Qed.

Lemma import_rows_ok nameIdx ipIdx rows batch r :
  Forall importable batch -> Forall (fun s => server_ServerID s = "")%string batch ->
  triple (servers_ok c) (import_rows svc nameIdx ipIdx rows batch r) (fun _ => servers_ok c) (fun _ => False).
Proof.
  revert batch r. induction rows as [|cols rest IH]; intros batch r Hb Hid; cbn [import_rows];
    [by apply processBatch_ok |].
  destruct (String.eqb (cell cols nameIdx) "" && String.eqb (cell cols ipIdx) ""); [by apply IH |].
  destruct (row_valid (cell cols nameIdx) (cell cols ipIdx)) eqn:Hv; cbn [negb]; [| by apply IH].
  assert (Forall importable (batch ++ [imported (cell cols nameIdx) (cell cols ipIdx)])) as Hb'
    by (apply Forall_app_2; [done | by repeat constructor]).
  assert (Forall (fun s => server_ServerID s = "")%string (batch ++ [imported (cell cols nameIdx) (cell cols ipIdx)])) as Hid'
    by (apply Forall_app_2; [done | by repeat constructor]).
  destruct (batchSize <=? length _)%nat; [| by apply IH].
  eapply triple_bind; [by apply processBatch_ok |].
  intros [r1|e]; [apply IH; by apply Forall_nil_2 | by apply triple_ret].
Qed.

(** C23: An import, too, leaves the cache with exactly the servers of the table. *)
Theorem ImportServers_coherent file w :
  servers_ok c w -> wp (ImportServers svc file) w (fun _ => servers_ok c) (fun _ => False).
Proof.
  intros Hok. unfold ImportServers. destruct (maxFileSize <? _); [by apply wp_ret |].
  destruct (OpenReader file) as [wb|e]; [| by apply wp_ret]. cbn zeta.
  destruct (String.eqb _ _); [by apply wp_ret |].
  destruct (Rows wb (GetSheetName wb 0)) as [[|header rows]|e]; try by apply wp_ret.
  destruct (header_columns header 0 None None) as [[ni|] [ii|]]; try by apply wp_ret.
  apply import_rows_ok; by try apply Forall_nil_2.
Qed.

End ImportProperties.

(** ** Export *)

(** The stream writer appends the rows it is given; the file it writes opens as
    a workbook whose first sheet holds them. *)
Class ExcelizeLaws `{X : Excelize} := {
  written : StreamWriter -> list (list string);
  NewStreamWriter_written : forall n sw, NewStreamWriter n = Ok sw -> written sw = [];
  SetRow_written : forall sw cellname row sw', SetRow sw cellname row = Ok sw' -> written sw' = written sw ++ [row];
  Flush_written : forall sw sw', Flush sw = Ok sw' -> written sw' = written sw;
  WriteBuf_opens : forall sw buf, WriteBuf sw = Ok buf ->
    exists wb, OpenReader buf = Ok wb /\ GetSheetName wb 0 = "Sheet1"%string /\
               Rows wb "Sheet1" = Ok (written sw);
}.

Section ExportProperties.
Context `{E : Env} {L : EnvLaws E} `{X : Excelize} {XL : ExcelizeLaws}.

Lemma write_rows_written sw i rows sw' :
  write_rows sw i rows = Ok sw' -> written sw' = written sw ++ rows.
Proof.
  revert sw i. induction rows as [|row rows IH]; intros sw i; cbn; [intros [= <-]; by rewrite app_nil_r |].
  destruct (SetRow sw _ row) as [sw1|e] eqn:Hs; [| done]. intros ->%IH.
  apply SetRow_written in Hs as ->. by rewrite <- app_assoc.
Qed.

(** A spreadsheet that is written holds the header and one row per server, in
    the order of the search. *)
Lemma generateServerExcel_contents l buf :
  generateServerExcel l = Ok buf ->
  exists wb, OpenReader buf = Ok wb /\ GetSheetName wb 0 = "Sheet1"%string /\
    Rows wb "Sheet1" = Ok (export_header :: map (export_row local_offset) l).
Proof.
  unfold generateServerExcel. intros H.
  destruct (NewStreamWriter "Sheet1") as [sw0|] eqn:H0; [| done]. destruct NewStyle; [| done].
  destruct (SetRow sw0 "A1" export_header) as [sw1|] eqn:H1; [| done].
  destruct (write_rows sw1 2 _) as [sw2|] eqn:H2; [| done]. destruct (Flush sw2) as [sw3|] eqn:H3; [| done].
  destruct (WriteBuf sw3) as [b|] eqn:H4; [| done]. injection H as ->.
  apply WriteBuf_opens in H4 as (wb & Ho & Hn & Hr). exists wb. split; [done |]. split; [done |].
  rewrite Hr. f_equal. apply Flush_written in H3 as ->. apply write_rows_written in H2 as ->.
  apply SetRow_written in H1 as ->. by apply NewStreamWriter_written in H0 as ->.
Qed.

(** An exported file holds, under the header, the name, address, status and
    times of the servers found, in order; the world is otherwise unchanged. *)
Theorem ExportServers_contents s filter w w' buf name :
  ExportServers s filter w = (w', Done (Ok (buf, name))) ->
  exists l wb, OpenReader buf = Ok wb /\
    Rows wb (GetSheetName wb 0) = Ok (export_header :: map (export_row local_offset) l) /\
    (forall x, x ∈ l -> x ∈ Env.rows (w_servers w) /\ search_where filter x = true) /\
    Env.rows (w_servers w') = Env.rows (w_servers w) /\ w_redis w' = w_redis w.
Proof.
  intros Hrun. eapply run_wp; [exact Hrun |]. clear Hrun. unfold ExportServers, serverRepo_Search.
  apply wp_bind, wp_bind. wp_step. destruct Hst as (Hr1 & _). destruct r as [n|e]; [| by go_wp].
  apply wp_bind. wp_step. destruct Hst as (Hr2 & _ & Hf). destruct r as [l|e]; [| by go_wp].
  apply wp_ret. cbn [fst]. destruct (generateServerExcel l) as [b|e] eqn:Hg; [| by go_wp].
  go_wp. intros [= -> _] <-. apply generateServerExcel_contents in Hg as (wb & Ho & Hn & Hrows).
  exists l, wb. rewrite Hn. split; [done |]. split; [done |]. world_simpl. split; [| split; [congruence | done]].
  destruct Hf as (_ & k & Hk & _ & ->). intros x Hx%elem_of_window. rewrite Hr1 in Hk.
  rewrite Hk, list_elem_of_In, List.filter_In, <- list_elem_of_In in Hx. done.
Qed.

(** The header an export writes, "IPv4 Address", is not one an import
    recognises: an exported file cannot be imported again. *)
Theorem exported_file_is_not_importable s l buf w :
  generateServerExcel l = Ok buf -> Z.of_nat (String.length buf) <= maxFileSize ->
  ImportServers s buf w = (w, Done (Err ErrMissingCols)).
Proof.
  intros (wb & Ho & Hn & Hr)%generateServerExcel_contents Hlen. unfold ImportServers.
  destruct (Z.ltb_spec maxFileSize (Z.of_nat (String.length buf))); [lia |].
  rewrite Ho, Hn. cbn [String.eqb]. rewrite Hr. reflexivity.
Qed.
End ExportProperties.

(** ** Concrete runs: a workbook is a list of rows, a file its encoding *)
Section ImportRuns.
#[local] Existing Instance mem_env.
#[local] Existing Instance mem_laws.

#[local] Instance mem_excelize : Excelize := {|
  Workbook := list (list string);
  StreamWriter := list (list string);
  OpenReader s := match (decode (bits_pos s) : option (list (list string))) with
                  | Some l => Ok l
                  | None => Err (Fresh "zip: not a valid zip file")
                  end;
  GetSheetName _ _ := "Sheet1"%string;
  Rows l _ := Ok l;
  NewStreamWriter _ := Ok [];
  NewStyle := Ok 1;
  CoordinatesToCellName _ r := "A" +:+ Itoa r;
  SetRow sw _ row := Ok (sw ++ [row]);
  Flush sw := Ok sw;
  WriteBuf sw := Ok (pos_bits (encode sw));
|}.

#[local] Program Instance mem_excelize_laws : ExcelizeLaws := {| written sw := sw |}.
Next Obligation. by intros n sw [= <-]. Qed.
Next Obligation. by intros sw x row sw' [= <-]. Qed.
Next Obligation. by intros sw sw' [= <-]. Qed.
Next Obligation.
  intros sw buf [= <-]. exists sw. cbn. rewrite bits_pos_bits, decode_encode. done.
Qed.

Definition demo_sheet : list (list string) :=
  [["Name"; "IP"]; ["db-1"; " 10.0.0.2 "]; [""; ""]; ["web-1"; "10.0.0.3"]; ["bad"; "10.0.0"]; ["db-1"; "10.0.0.4"]]%string.

(** One server is added; the name in use, the malformed address and the name
    repeated in the file are reported. *)
Example import_demo :
  match ImportServers (mkServerService (Some demo_cache)) (pos_bits (encode demo_sheet)) (server_world [demo_server]) with
  | (w', Done (Ok r)) =>
      r = mkImportResult 1 ["db-1"] 3 ["bad (10.0.0) - Invalid Format"; "web-1 (10.0.0.3)"; "db-1 (10.0.0.4)"]%string /\
      map server_IPv4 (Env.rows (w_servers w')) = ["10.0.0.1"; "10.0.0.2"]%string
  | _ => False
  end.
Proof. vm_compute. auto. Qed.

(** An address the import accepts as IPv4 may be written as a mapped IPv6
    address, too long for its column: the insert of the batch fails and with it
    the import, also of the valid rows. *)
Theorem mapped_address_aborts_import :
  row_valid "web-2" "::ffff:192.168.10.20" = true /\
  let file := pos_bits (encode [["Name"; "IP"]; ["db-1"; "10.0.0.2"]; ["web-2"; "::ffff:192.168.10.20"]]%string) in
  match ImportServers (mkServerService (Some demo_cache)) file (server_world [demo_server]) with
  | (w', Done (Err (Wrapped p _))) => p = "batch create failed"%string /\ Env.rows (w_servers w') = [demo_server]
  | _ => False
  end.
Proof. vm_compute. auto. Qed.

Lemma batch_has_no_conflict_witness :
  NoDup (map server_ServerName (classify [imported "a" "10.0.0.2"; imported "a" "10.0.0.3"; imported "web-1" "10.0.0.4"]
     (list_to_set (map server_ServerName [demo_server])) (list_to_set (map server_IPv4 [demo_server])) no_result []).2).
Proof.
  apply (batch_has_no_conflict [imported "a" "10.0.0.2"; imported "a" "10.0.0.3"; imported "web-1" "10.0.0.4"]
           no_result (server_world [demo_server]) [demo_server]).
  reflexivity.
Defined.

Lemma ImportServers_coherent_witness :
  wp (ImportServers (mkServerService (Some demo_cache)) (pos_bits (encode demo_sheet))) (server_world [demo_server])
    (fun _ => servers_ok demo_cache) (fun _ => False).
Proof. apply (ImportServers_coherent demo_cache). exact demo_servers_ok. Defined.

Lemma ExportServers_contents_witness :
  exists w' buf name, ExportServers (mkServerService (Some demo_cache)) (mkFilter 1 10 "" "" 0 0 "" "")
    (server_world [demo_server]) = (w', Done (Ok (buf, name))) /\
    Env.rows (w_servers w') = [demo_server].
Proof.
  assert (run_ok (ExportServers (mkServerService (Some demo_cache)) (mkFilter 1 10 "" "" 0 0 "" "")
            (server_world [demo_server])) <> None) as Hok by (by vm_compute).
  unfold run_ok in Hok. destruct (ExportServers _ _ _) as [w' [[[buf name]|e]|]] eqn:H; [| by destruct Hok ..].
  exists w', buf, name. split; [reflexivity |].
  destruct (ExportServers_contents _ _ _ _ _ _ H) as (l & wb & _ & _ & _ & Hs & _). exact Hs.
Defined.

Lemma exported_file_is_not_importable_witness :
  match generateServerExcel [demo_server] with
  | Ok buf => ImportServers (mkServerService (Some demo_cache)) buf (server_world [])
              = (server_world [], Done (Err ErrMissingCols))
  | Err _ => False
  end.
Proof.
  destruct (generateServerExcel [demo_server]) as [buf|e] eqn:H; [| by vm_compute in H].
  apply (exported_file_is_not_importable (mkServerService (Some demo_cache)) [demo_server] buf (server_world [])); [exact H |].
  vm_compute in H. injection H as <-. by vm_compute.
Defined.
End ImportRuns.
