(* ===== verification/ServerHandlers.v ===== *)
(** * ServerHandlers: [server_management/handler] (gRPC and REST)

    The gRPC handlers of [grpcserver/server_handler.go], the REST handlers of
    [rest/import_export_handler.go] and the REST middlewares of
    [rest/middleware.go].  An HTTP request is the parts the handlers look at;
    its body is what reading it through [MaxBytesReader] yields.  The reader of
    [mime/multipart] is a parameter, the list of parts of a body. *)

From stdpp Require Import base list strings numbers countable.
From Stdlib Require Import ZArith Lia Ascii.
From S2P Require Import Prelude GoStrings GoTime Domain Env MemEnv Security Rpc Servers ImportExport.
Open Scope Z_scope.

(** ** gRPC *)
Definition mapError (err : error) : error :=
  if errors_Is err ErrServerNotFound then Status NotFound (error_string err)
  else if errors_Is err ErrIPv4Exists || errors_Is err ErrNameExists
  then Status AlreadyExists (error_string err)
  else if errors_Is err ErrFileTooLarge || errors_Is err ErrInvalidFormat || errors_Is err ErrNoSheets
          || errors_Is err ErrEmptyFile || errors_Is err ErrMissingCols
  then Status InvalidArgument (error_string err)
  else Status Internal (error_string err).

(** The two copies of [parseCreatedDateRange] differ in their messages. *)
Definition date_range (bad_from bad_to bad_order : error) (createdFrom createdTo : string)
  : result (Time * Time) :=
  match (if negb (String.eqb createdFrom "") then Parse_date createdFrom else Ok zero_time) with
  | Err _ => Err bad_from
  | Ok from =>
    match (if negb (String.eqb createdTo "")
           then match Parse_date createdTo with Ok t => Ok (AddDays t 1) | Err e => Err e end
           else Ok zero_time) with
    | Err _ => Err bad_to
    | Ok to =>
        if negb (IsZero from) && negb (IsZero to) && negb (time_Before from to) then Err bad_order
        else Ok (from, to)
    end
  end.

Definition grpc_parseCreatedDateRange : string -> string -> result (Time * Time) :=
  date_range (Status InvalidArgument "created_from must use YYYY-MM-DD format")
    (Status InvalidArgument "created_to must use YYYY-MM-DD format")
    (Status InvalidArgument "created_from must be before or equal to created_to").

Definition rest_parseCreatedDateRange : string -> string -> result (Time * Time) :=
  date_range (Fresh "createdFrom must use YYYY-MM-DD format")
    (Fresh "createdTo must use YYYY-MM-DD format")
    (Fresh "createdFrom must be before or equal to createdTo").

Section GrpcHandlers.
Context `{E : Env} `{X : Excelize}.

Definition mapServerToPB (s : Server) : PbServer :=
  mkPbServer (server_ServerID s) (server_ServerName s) (server_IPv4 s) (server_CurrentStatus s)
    (Format_RFC3339 (local_offset (server_CreatedAt s)) (server_CreatedAt s))
    (Format_RFC3339 (local_offset (server_UpdatedAt s)) (server_UpdatedAt s)).

Definition rpc_CreateServer (s : serverService) (name ipv4 : string) : M World (result Response) :=
  server <-? CreateServer s (mkCreateInput name ipv4) orelse mapError ;;
  ret (Ok (CreateServerResponse (mapServerToPB server))).

Definition rpc_UpdateServer (s : serverService) (id name ipv4 : string) : M World (result Response) :=
  server <-? UpdateServer s id (mkUpdateInput name ipv4) orelse mapError ;;
  ret (Ok (UpdateServerResponse (mapServerToPB server))).

Definition rpc_DeleteServer (s : serverService) (id : string) : M World (result Response) :=
  _u <-? DeleteServer s id orelse mapError ;;
  ret (Ok (DeleteServerResponse true)).

Definition view_filter (v : ViewRequest) (from to : Time) : ServerListFilter :=
  mkFilter (view_Page v) (view_Limit v) (view_FilterStatus v) (view_FilterName v) from to
    (view_SortBy v) (view_SortDirection v).

Definition rpc_ViewServers (s : serverService) (v : ViewRequest) : M World (result Response) :=
  match grpc_parseCreatedDateRange (view_CreatedFrom v) (view_CreatedTo v) with
  | Err e => ret (Err e)
  | Ok (createdFrom, createdTo) =>
      found <-? SearchServers s (view_filter v createdFrom createdTo) orelse mapError ;;
      ret (Ok (ViewServersResponse found.2 (map mapServerToPB found.1)))
  end.

Definition rpc_ImportServers (s : serverService) (file : string) : M World (result Response) :=
  r <-? ImportServers s file orelse mapError ;;
  ret (Ok (ImportServersResponse (imp_SuccessCount r) (imp_SuccessfulServers r) (imp_FailCount r)
             (imp_FailedServers r))).

Definition rpc_ExportServers (s : serverService) (v : ViewRequest) : M World (result Response) :=
  match grpc_parseCreatedDateRange (view_CreatedFrom v) (view_CreatedTo v) with
  | Err e => ret (Err e)
  | Ok (createdFrom, createdTo) =>
      file <-? ExportServers s (view_filter v createdFrom createdTo) orelse mapError ;;
      ret (Ok (ExportServersResponse file.1 file.2))
  end.

End GrpcHandlers.

(** ** REST *)
Record HttpRequest := mkHttpRequest {
  http_method : string;
  http_authorization : string;           (* Header.Get("Authorization") *)
  http_access_cookie : option string;    (* Cookie("access_token") *)
  http_content_type : string;
  http_body : result string;             (* the whole body, before the size limit *)
  http_query : list (string * string);
}.

Inductive Body :=
| JsonError (code : Z) (message : string)
| JsonImport (r : ImportResult)
| Bytes (b : string).

Record HttpResponse := mkHttpResponse {
  http_status : Z;
  http_headers : list (string * string);
  http_payload : Body;
}.

Definition writeError (status : Z) (message : string) : HttpResponse :=
  mkHttpResponse status [("Content-Type", "application/json")]%string (JsonError status message).

Definition q_Get (q : list (string * string)) (key : string) : string :=
  match List.find (fun kv => String.eqb kv.1 key) q with
  | Some (_, v) => v
  | None => ""
  end.

Definition extractBearer (r : HttpRequest) : string :=
  if HasPrefix (http_authorization r) "Bearer " then TrimPrefix (http_authorization r) "Bearer "
  else match http_access_cookie r with
       | Some v => TrimSpace v
       | None => ""
       end.

Fixpoint boundary_of (parts : list string) : string :=
  match parts with
  | [] => ""
  | p :: ps => let p := TrimSpace p in
               if HasPrefix p "boundary=" then TrimPrefix p "boundary=" else boundary_of ps
  end.
Definition extractBoundary (contentType : string) : string := boundary_of (Split contentType ";"%char).

(** [multipart.NewReader(raw, boundary)]: form name and data of each part until
    the first error. *)
Class Multipart := { multipart_parts : string -> string -> list (string * string) }.

Section RestHandlers.
Context `{E : Env} `{X : Excelize} `{MP : Multipart}.

Definition maxSize : Z := Z.shiftl 2 20.

Definition extractFileFromMultipart (contentType raw : string) : option string :=
  let boundary := extractBoundary contentType in
  if String.eqb boundary "" || (String.length raw <? 2)%nat
     || negb (String.eqb (take_string 2 raw) "--") then None
  else match List.find (fun p => String.eqb p.1 "file") (multipart_parts boundary raw) with
       | Some (_, data) => Some data
       | None => None
       end.

(** [io.ReadAll(http.MaxBytesReader(w, r.Body, h.maxSize))] *)
Definition read_body (r : HttpRequest) : result string :=
  match http_body r with
  | Err e => Err e
  | Ok b => if maxSize <? Z.of_nat (String.length b)
            then Err (Fresh "http: request body too large") else Ok b
  end.

Definition HandleImport (svc : serverService) (r : HttpRequest) : M World HttpResponse :=
  if negb (String.eqb (http_method r) "POST") then ret (writeError 405 "method not allowed")
  else match read_body r with
  | Err _ => ret (writeError 400 "failed to read request body")
  | Ok raw =>
      let fileBytes := default raw (extractFileFromMultipart (http_content_type r) raw) in
      res <-- ImportServers svc fileBytes ;;
      ret (match res with
           | Err err =>
               if errors_Is err ErrFileTooLarge then writeError 413 (error_string err)
               else if errors_Is err ErrInvalidFormat || errors_Is err ErrEmptyFile
                       || errors_Is err ErrNoSheets || errors_Is err ErrMissingCols
               then writeError 400 (error_string err)
               else writeError 500 (error_string err)
           | Ok result => mkHttpResponse 200 [("Content-Type", "application/json")]%string (JsonImport result)
           end)
  end.

Definition export_filter (q : list (string * string)) (from to : Time) : ServerListFilter :=
  let page := (Atoi (q_Get q "page")).1 in
  let page := if page <? 1 then 1 else page in
  let limit := (Atoi (q_Get q "limit")).1 in
  let limit := if limit <? 1 then 100 else limit in
  mkFilter page limit (q_Get q "filterStatus") (q_Get q "filterName") from to
    (q_Get q "sortBy") (q_Get q "sortDirection").

Definition HandleExport (svc : serverService) (r : HttpRequest) : M World HttpResponse :=
  if negb (String.eqb (http_method r) "GET") then ret (writeError 405 "method not allowed")
  else
    let q := http_query r in
    match rest_parseCreatedDateRange (q_Get q "createdFrom") (q_Get q "createdTo") with
    | Err e => ret (writeError 400 (error_string e))
    | Ok (createdFrom, createdTo) =>
        res <-- ExportServers svc (export_filter q createdFrom createdTo) ;;
        ret (match res with
             | Err e => writeError 500 (error_string e)
             | Ok (fileBytes, filename) =>
                 mkHttpResponse 200
                   [("Content-Type", "application/vnd.openxmlformats-officedocument.spreadsheetml.sheet");
                    ("Content-Disposition", "attachment; filename=" +:+ dquote +:+ filename +:+ dquote)]%string
                   (Bytes fileBytes)
             end)
    end.

(** *** Middlewares: the principal travels in the request's context *)
Definition HttpHandler : Type := option Principal -> HttpRequest -> M World HttpResponse.

Definition AuthMiddleware (auth : Authenticator) (next : HttpHandler) : HttpHandler :=
  fun _ r =>
    let token := extractBearer r in
    if String.eqb token "" then ret (writeError 401 "missing authorization token")
    else
      principal <-- Authenticate auth token ;;
      match principal with
      | Err _ => ret (writeError 401 "invalid token")
      | Ok p => next (Some p) r
      end.

Definition PermissionMiddleware (authorizer : Authorizer) (required : PermissionCode)
  (next : HttpHandler) : HttpHandler :=
  fun principal r =>
    match principal with
    | None => ret (writeError 401 "authentication required")
    | Some p =>
        if negb (HasPermission authorizer (Some p) required) then ret (writeError 403 "insufficient permissions")
        else next principal r
    end.

(** *** The two routes of [app/http_routes.go] *)
Definition import_route (auth : Authenticator) (svc : serverService) : HttpHandler :=
  AuthMiddleware auth (PermissionMiddleware NewAuthorizer PermServerImport (fun _ => HandleImport svc)).
Definition export_route (auth : Authenticator) (svc : serverService) : HttpHandler :=
  AuthMiddleware auth (PermissionMiddleware NewAuthorizer PermServerExport (fun _ => HandleExport svc)).

End RestHandlers.

(** ** Properties *)

(** A range of two dates, printed in UTC, selects exactly the instants of the
    days from the first to the last, both included; a range that runs backwards
    is refused.  (Day 0 is the zero time, which both handlers read as "no
    bound".) *)
Theorem date_range_inclusive e1 e2 e3 a b :
  0 < a / Day -> 0 <= year_of 0 a <= 9999 -> 0 <= year_of 0 b <= 9999 -> 0 <= b ->
  match date_range e1 e2 e3 (Format_date 0 a) (Format_date 0 b) with
  | Ok (from, to) => a / Day <= b / Day /\
                     forall t, (from <=? t) && (t <? to) = true <-> a / Day <= t / Day <= b / Day
  | Err e => e = e3 /\ b / Day < a / Day
  end.
Proof.
  intros Ha Hya Hyb Hb. unfold date_range.
  destruct (String.eqb_spec (Format_date 0 a) "") as [He|_].
  { pose proof (Parse_Format_date 0 a Hya) as Hp. by rewrite He in Hp. }
  destruct (String.eqb_spec (Format_date 0 b) "") as [He|_].
  { pose proof (Parse_Format_date 0 b Hyb) as Hp. by rewrite He in Hp. }
  cbn [negb]. rewrite !Parse_Format_date by done.
  assert (0 < Day) as HD by done. replace (a + 0 * Second) with a by lia. replace (b + 0 * Second) with b by lia.
  unfold AddDays, IsZero, time_Before. pose proof (Z.div_pos b Day Hb HD).
  destruct (Z.eqb_spec (a / Day * Day) 0); [nia |]. destruct (Z.eqb_spec (b / Day * Day + 1 * Day) 0); [nia |].
  cbn [negb andb]. destruct (Z.ltb_spec (a / Day * Day) (b / Day * Day + 1 * Day)) as [Hlt|Hge]; cbn [negb].
  - assert (a / Day <= b / Day) by nia. split; [done |]. intros t.
    rewrite andb_true_iff, Z.leb_le, Z.ltb_lt.
    pose proof (Z.div_mod t Day ltac:(lia)). pose proof (Z.mod_pos_bound t Day HD). nia.
  - split; [done | nia].
Qed.

(** The text of [sortBy] reaches the ORDER BY clause as it was sent, and the
    page size has no upper bound: the REST export checks neither. *)
Theorem export_query_is_unchecked `{E : Env} (clause : string) (n : Z) :
  clause <> ""%string -> 1 <= n <= max_int64 ->
  let q := search_query (export_filter [("sortBy", clause); ("limit", Itoa n)]%string zero_time zero_time) in
  order_text <$> q_order q = Some (clause +:+ " asc")%string /\ q_limit q = Some n.
Proof.
  intros Hc Hn. unfold search_query, export_filter, search_order. cbn [q_order q_limit filter_SortBy filter_PageSize].
  change (q_Get [("sortBy", clause); ("limit", Itoa n)]%string "sortBy") with clause.
  change (q_Get [("sortBy", clause); ("limit", Itoa n)]%string "limit") with (Itoa n).
  rewrite (Atoi_Itoa n) by (unfold min_int64; lia). cbn [fst].
  destruct (String.eqb_spec clause ""); [done |]. cbn [negb].
  destruct (Z.ltb_spec n 1); [lia |]. split; reflexivity.
Qed.

Section RouteProperties.
Context `{E : Env} {L : EnvLaws E} `{X : Excelize} `{MP : Multipart}.

(** Only an administrator's request can add servers through the import route:
    when the table changed, the request's token authenticated as one. *)
Theorem import_route_is_guarded auth svc r w w' resp :
  import_route auth svc None r w = (w', Done resp) ->
  rows (w_servers w') <> rows (w_servers w) ->
  exists w1 p, Authenticate auth (extractBearer r) w = (w1, Done (Ok p)) /\
               principal_RoleCode p = RoleCodeAdmin.
Proof.
  intros Hrun Hne. unfold import_route, AuthMiddleware in Hrun.
  destruct (String.eqb (extractBearer r) ""); [by injection Hrun as <- <- |].
  unfold bind in Hrun. pose proof (Authenticate_tables auth (extractBearer r) w) as Ht.
  destruct (Authenticate auth (extractBearer r) w) as [w1 [[p|e]|]] eqn:Ha; cbn in Ht;
    [| injection Hrun as <- <-; congruence | done].
  exists w1, p. split; [done |]. unfold PermissionMiddleware in Hrun.
  destruct (HasPermission NewAuthorizer (Some p) PermServerImport) eqn:Hp.
  - apply HasPermission_cases in Hp as [?|[?|[_ ?]]]; done.
  - cbn [negb] in Hrun. injection Hrun as <- <-. congruence.
Qed.
End RouteProperties.

(** ** Concrete runs *)
Section HandlerRuns.
#[local] Existing Instance mem_env.
#[local] Existing Instance mem_laws.
#[local] Existing Instance mem_excelize.
#[local] Instance no_multipart : Multipart := {| multipart_parts _ _ := [] |}.

Lemma date_range_inclusive_witness :
  match date_range (Fresh "a") (Fresh "b") (Fresh "c") "2026-01-01" "2026-01-31" with
  | Ok (from, to) => to - from = 31 * Day
  | Err _ => False
  end.
Proof.
  pose proof (date_range_inclusive (Fresh "a") (Fresh "b") (Fresh "c") (739616 * Day) (739646 * Day + 5)
                ltac:(by vm_compute) ltac:(vm_compute; split; discriminate) ltac:(vm_compute; split; discriminate) ltac:(done)) as H.
  change (Format_date 0 (739616 * Day)) with "2026-01-01"%string in H.
  change (Format_date 0 (739646 * Day + 5)) with "2026-01-31"%string in H.
  destruct (date_range _ _ _ _ _) as [[from to]|e] eqn:Hd; [| destruct H as [_ H]; by vm_compute in H].
  vm_compute in Hd. injection Hd as <- <-. reflexivity.
Defined.

Lemma export_query_is_unchecked_witness :
  order_text <$> q_order (search_query (export_filter [("sortBy", "1; DROP TABLE x; --"); ("limit", Itoa 1000000)]%string zero_time zero_time))
  = Some "1; DROP TABLE x; -- asc"%string.
Proof. apply (export_query_is_unchecked "1; DROP TABLE x; --" 1000000); [done | by vm_compute]. Defined.

Lemma run_cases {A} (r : World * exec A) (P : World -> Prop) :
  match r with (w', Done _) => P w' | _ => False end -> exists w' a, r = (w', Done a) /\ P w'.
Proof. destruct r as [w' [a|]]; [eauto | done]. Qed.

Definition admin_token : string :=
  match jwt_sign "key" (mkClaims "1" "5" "" "" "" RoleCodeAdmin 63000000000 0) with Ok t => t | Err _ => "" end.
Definition demo_import : HttpRequest :=
  mkHttpRequest "POST" ("Bearer " +:+ admin_token) None "" (Ok (pos_bits (encode demo_sheet))) [].

Lemma import_route_is_guarded_witness :
  exists w1 p, Authenticate (mkAuthenticator "key" LiveClient) (extractBearer demo_import) (server_world []) = (w1, Done (Ok p)) /\
               principal_RoleCode p = RoleCodeAdmin.
Proof.
  destruct (run_cases (import_route (mkAuthenticator "key" LiveClient) (mkServerService (Some demo_cache)) None
              demo_import (server_world [])) (fun w' => length (rows (w_servers w')) = 2%nat)) as (w' & resp & Hr & H);
    [by vm_compute |].
  apply (import_route_is_guarded _ _ _ _ _ _ Hr). intros He. rewrite He in H. cbn in H. discriminate.
Defined.
End HandlerRuns.
