(* ===== verification/RateLimit.v ===== *)
(** * RateLimit: [internal/infrastructure/ratelimit] and
    [shared/middlewares/ratelimit.go]

    Policies per method, keys, the limiter on top of redis_rate (a parameter,
    [RateStore]) and the interceptor that applies the policy of the method in
    its phase.  The facts: every policy is one the limiter accepts, every
    method is limited in exactly one phase, a request that is refused never
    reaches the handler, and the client chooses its own address. *)

From stdpp Require Import base list strings gmap numbers.
From Stdlib Require Import ZArith Lia Ascii.
From S2P Require Import Prelude GoStrings GoTime GoNet Sha256 Domain Env MemEnv Security Rpc.
Open Scope Z_scope.

#[local] Arguments String.append !_ _ / : simpl nomatch.

(** ** Methods *)
Definition AuthService_Login : string := "/portal.auth.v1.AuthService/Login".
Definition AuthService_RefreshToken : string := "/portal.auth.v1.AuthService/RefreshToken".
Definition AuthService_Logout : string := "/portal.auth.v1.AuthService/Logout".
Definition AuthService_LogoutAll : string := "/portal.auth.v1.AuthService/LogoutAll".
Definition ReportingService_RequestReport : string := "/reporting.v1.ReportingService/RequestReport".
Definition SM_CreateServer : string := "/server_management.v1.ServerManagementService/CreateServer".
Definition SM_UpdateServer : string := "/server_management.v1.ServerManagementService/UpdateServer".
Definition SM_DeleteServer : string := "/server_management.v1.ServerManagementService/DeleteServer".
Definition SM_ViewServers : string := "/server_management.v1.ServerManagementService/ViewServers".
Definition SM_ImportServers : string := "/server_management.v1.ServerManagementService/ImportServers".
Definition SM_ExportServers : string := "/server_management.v1.ServerManagementService/ExportServers".

(** ** Keys *)
Abbreviation KeyScope := string (only parsing).
Definition ScopeIP : KeyScope := "ip".
Definition ScopeUser : KeyScope := "user".
Definition ScopeIdentifier : KeyScope := "identifier".
Definition ScopeEmail : KeyScope := "email".

Record KeyBuilder := mkKeyBuilder { kb_Prefix : string }.

Definition NewKeyBuilder (prefix : string) : KeyBuilder :=
  let prefix := TrimSpace prefix in
  mkKeyBuilder (if String.eqb prefix "" then "portal:rl" else prefix).

Section Keys.
Context `{Unicode}.

Definition normalize (value : string) : string := ToLower (TrimSpace value).
Definition hash (value : string) : string := take_string 32 (hex_encode (sha256 value)).

Definition Build (b : KeyBuilder) (policyName : string) (scope : KeyScope) (value : string) : string :=
  let policyName := normalize policyName in
  let value := normalize value in
  let value := if String.eqb value "" then "unknown"%string else value in
  kb_Prefix b +:+ ":" +:+ policyName +:+ ":" +:+ scope +:+ ":" +:+ hash value.
End Keys.

(** ** Policies *)
Abbreviation Phase := string (only parsing).
Definition PhasePostAuth : Phase := "post_auth".
Definition PhasePreAuth : Phase := "pre_auth".

Record Policy := mkPolicy {
  policy_Name : string;
  policy_Limit : Z;
  policy_Burst : Z;
  policy_Window : Duration;
  policy_Phase : Phase;
  policy_Scopes : list KeyScope;
}.

Definition DefaultPolicy : Policy := mkPolicy "global" 300 300 Minute PhasePostAuth [ScopeUser].

Definition MethodPolicies : gmap string Policy := list_to_map
  [ (AuthService_Login, mkPolicy "login" 5 5 Minute PhasePreAuth [ScopeIP; ScopeIdentifier]);
    (AuthService_RefreshToken, mkPolicy "refresh_token" 30 10 Minute PhasePreAuth [ScopeIP]);
    (SM_ViewServers, mkPolicy "server_read" 120 200 Minute PhasePostAuth [ScopeUser]);
    (SM_CreateServer, mkPolicy "server_write" 60 80 Minute PhasePostAuth [ScopeUser]);
    (SM_UpdateServer, mkPolicy "server_write" 60 80 Minute PhasePostAuth [ScopeUser]);
    (SM_DeleteServer, mkPolicy "server_dangerous" 20 20 Minute PhasePostAuth [ScopeUser]);
    (SM_ImportServers, mkPolicy "server_import" 5 5 Minute PhasePostAuth [ScopeUser]);
    (ReportingService_RequestReport, mkPolicy "report_request" 10 10 Minute PhasePostAuth [ScopeUser]) ].

Definition normalizePolicy (p : Policy) : Policy :=
  mkPolicy (policy_Name p) (policy_Limit p)
    (if policy_Burst p <=? 0 then policy_Limit p else policy_Burst p) (policy_Window p)
    (if String.eqb (policy_Phase p) "" then PhasePostAuth else policy_Phase p)
    (if (length (policy_Scopes p) =? 0)%nat then [ScopeUser] else policy_Scopes p).

Definition PolicyForMethod (method : string) : Policy :=
  match MethodPolicies !! method with
  | Some p => normalizePolicy p
  | None => DefaultPolicy
  end.

(** ** The limiter *)
Record Result := mkResult {
  res_Allowed : bool;
  res_Limit : Z;
  res_Remaining : Z;
  res_RetryAfter : Duration;
  res_ResetAfter : Duration;
}.

(** [redis_rate.Limiter.Allow] on the server: allowed, remaining, retry and
    reset delays, for a rate, a burst and a period. *)
Class RateStore (R : Type) := {
  rate_Allow : string -> Z -> Z -> Duration -> R -> R * result (Z * Z * Duration * Duration);
}.

(** [fmt.Sprintf("%q", s)] for text without quotes or control characters. *)
Definition quoted (s : string) : string := dquote +:+ s +:+ dquote.

Section Limiter.
Context `{E : Env} {RS : RateStore RedisServer}.

Definition Limiter : Type := string -> Policy -> M World (result Result).

(** The client is stored as it is: only a nil interface is refused. *)
Definition NewRedisLimiter (client : UniversalClient) : result UniversalClient :=
  if iface_is_nil client then Err (Fresh "redis client is nil") else Ok client.

Definition RedisLimiter_Allow (client : UniversalClient) : Limiter := fun key policy =>
  if String.eqb key "" then ret (Err (Fresh "rate limit key is empty"))
  else if policy_Limit policy <=? 0 then
    ret (Err (Fresh ("invalid rate limit for policy " +:+ quoted (policy_Name policy) +:+ ": "
                     +:+ Itoa (policy_Limit policy))))
  else if policy_Window policy <=? 0 then
    ret (Err (Fresh ("invalid rate limit window for policy " +:+ quoted (policy_Name policy) +:+ ": "
                     +:+ Duration_String (policy_Window policy))))
  else
    let burst := if policy_Burst policy <=? 0 then policy_Limit policy else policy_Burst policy in
    res <-? redis_call client (rate_Allow key (policy_Limit policy) burst (policy_Window policy)) ;;
    let '(allowed, remaining, retry, reset) := res in
    ret (Ok (mkResult (0 <? allowed) (policy_Limit policy) remaining retry reset)).

(** ** The interceptor *)
Definition Handler : Type := Ctx -> Request -> M World (result Response).

Record RateLimitConfig := mkRateLimitConfig {
  rl_Enabled : bool;
  rl_Prefix : string;
  rl_DefaultLimit : Z;
  rl_DefaultBurst : Z;
  rl_DefaultPeriod : Duration;
  rl_FailOpen : bool;
}.

Definition firstMetadataValue (md : list (string * string)) (key : string) : string :=
  match md_Get md key with v :: _ => v | [] => "" end.

Definition peer_ip (ctx : Ctx) : string :=
  match ctx_peer ctx with
  | Some addr => default addr (SplitHost addr)
  | None => ""
  end.

Definition first_part (s : string) : string :=
  match Split s ","%char with p :: _ => p | [] => "" end.

Definition extractClientIP (ctx : Ctx) : string :=
  let fallback := peer_ip ctx in
  match ctx_metadata ctx with
  | None => fallback
  | Some md =>
      let real :=
        let realIP := firstMetadataValue md "x-real-ip" in
        if String.eqb (TrimSpace realIP) "" then fallback else TrimSpace realIP in
      let forwarded := firstMetadataValue md "x-forwarded-for" in
      if negb (String.eqb forwarded "") then
        let ip := TrimSpace (first_part forwarded) in
        if String.eqb ip "" then real else ip
      else real
  end.

Definition identifierFromRequest (req : Request) : string :=
  match req with
  | LoginRequest identifier _ => ToLower (TrimSpace identifier)
  | _ => ""
  end.

(** No request message has a field [email]. *)
Definition emailFromRequest (req : Request) : string := "".

Definition userIDFromContext (ctx : Ctx) : string :=
  match GetPrincipal ctx with Some p => principal_UserID p | None => "" end.

Definition valueForRateLimitScope (ctx : Ctx) (req : Request) (scope : KeyScope) : string :=
  if String.eqb scope ScopeIP then extractClientIP ctx
  else if String.eqb scope ScopeIdentifier then identifierFromRequest req
  else if String.eqb scope ScopeEmail then emailFromRequest req
  else if String.eqb scope ScopeUser then userIDFromContext ctx
  else "".

Definition buildRateLimitChecks (ctx : Ctx) (req : Request) (kb : KeyBuilder) (policy : Policy)
  : list (KeyScope * string) :=
  omap (fun scope =>
          let value := valueForRateLimitScope ctx req scope in
          if String.eqb value "" then None else Some (scope, Build kb (policy_Name policy) scope value))
    (policy_Scopes policy).

Definition seconds_trunc (d : Duration) : Z := Z.quot d Second.

Fixpoint run_checks (limiter : Limiter) (failOpen : bool) (policy : Policy)
  (checks : list (KeyScope * string)) (next : M World (result Response)) : M World (result Response) :=
  match checks with
  | [] => next
  | (scope, key) :: rest =>
      r <-- limiter key policy ;;
      match r with
      | Err _ => if failOpen then next else ret (Err (Status Unavailable "rate limiter unavailable"))
      | Ok result =>
          if negb (res_Allowed result) then
            grpc_SetHeader [ ("x-ratelimit-limit", Itoa (res_Limit result));
                             ("x-ratelimit-remaining", Itoa (res_Remaining result));
                             ("x-ratelimit-retry-after", Itoa (seconds_trunc (res_RetryAfter result))) ]%string ;;;
            ret (Err (Status ResourceExhausted ("rate limit exceeded for " +:+ scope +:+ ", retry after "
                                               +:+ Duration_String (res_RetryAfter result))))
          else run_checks limiter failOpen policy rest next
      end
  end.

Definition rateLimitInterceptor (limiter : option Limiter) (kb : KeyBuilder)
  (cfg : option RateLimitConfig) (phase : Phase) (method : string) (handler : Handler) : Handler :=
  fun ctx req =>
    match cfg, limiter with
    | Some cfg, Some limiter =>
        if negb (rl_Enabled cfg) then handler ctx req
        else
          let policy := PolicyForMethod method in
          if negb (String.eqb (policy_Phase policy) phase) then handler ctx req
          else run_checks limiter (rl_FailOpen cfg) policy (buildRateLimitChecks ctx req kb policy)
                 (handler ctx req)
    | _, _ => handler ctx req
    end.

Definition PreAuthRateLimitInterceptor limiter kb cfg :=
  rateLimitInterceptor limiter kb cfg PhasePreAuth.
Definition PostAuthRateLimitInterceptor limiter kb cfg :=
  rateLimitInterceptor limiter kb cfg PhasePostAuth.

End Limiter.

(** ** Properties *)
Section RateLimitProperties.
Context `{E : Env} {L : EnvLaws E} {RS : RateStore RedisServer}.

Definition policy_ok (p : Policy) : bool :=
  (0 <? policy_Limit p) && (0 <? policy_Burst p) && (0 <? policy_Window p)
  && (String.eqb (policy_Phase p) PhasePreAuth || String.eqb (policy_Phase p) PhasePostAuth)
  && (0 <? length (policy_Scopes p))%nat.

Lemma PolicyForMethod_ok method : policy_ok (PolicyForMethod method) = true.
Proof.
  unfold PolicyForMethod. destruct (MethodPolicies !! method) as [p|] eqn:Hp; [| reflexivity].
  apply elem_of_list_to_map_2 in Hp.
  repeat (apply elem_of_cons in Hp as [Hp|Hp]; [injection Hp as _ ->; reflexivity |]).
  by apply not_elem_of_nil in Hp.
Qed.

(** Every method has a policy the limiter accepts: with a key, it asks the
    store for the policy's rate and burst and reports what the store says. *)
Theorem every_policy_is_enforceable method key w :
  key <> ""%string ->
  let p := PolicyForMethod method in
  RedisLimiter_Allow LiveClient key p w =
  (let '(s, r) := rate_Allow key (policy_Limit p) (policy_Burst p) (policy_Window p) (w_redis w) in
   (set_redis s w,
    Done (match r with
          | Ok (allowed, remaining, retry, reset) =>
              Ok (mkResult (0 <? allowed) (policy_Limit p) remaining retry reset)
          | Err e => Err e
          end))).
Proof.
  intros Hk p. pose proof (PolicyForMethod_ok method) as Hok. fold p in Hok. unfold policy_ok in Hok.
  rewrite !andb_true_iff in Hok. destruct Hok as [[[[Hl%Z.ltb_lt Hb%Z.ltb_lt] Hw%Z.ltb_lt] _] _].
  unfold RedisLimiter_Allow. destruct (String.eqb_spec key ""); [done |].
  destruct (Z.leb_spec (policy_Limit p) 0); [lia |]. destruct (Z.leb_spec (policy_Window p) 0); [lia |].
  destruct (Z.leb_spec (policy_Burst p) 0); [lia |]. unfold redis_call, on, bind.
  destruct (rate_Allow _ _ _ _ _) as [s [[[[a b] c] d]|e]]; reflexivity.
Qed.

(** Each method is limited in one of the two phases and passes the other
    untouched. *)
Theorem limited_in_one_phase limiter kb cfg method (h : Handler) :
  (policy_Phase (PolicyForMethod method) = PhasePreAuth /\
   forall ctx req w, PostAuthRateLimitInterceptor limiter kb cfg method h ctx req w = h ctx req w) \/
  (policy_Phase (PolicyForMethod method) = PhasePostAuth /\
   forall ctx req w, PreAuthRateLimitInterceptor limiter kb cfg method h ctx req w = h ctx req w).
Proof.
  pose proof (PolicyForMethod_ok method) as Hok. unfold policy_ok in Hok. rewrite !andb_true_iff, orb_true_iff in Hok.
  destruct Hok as [[_ Hph] _]. rewrite !String.eqb_eq in Hph.
  unfold PostAuthRateLimitInterceptor, PreAuthRateLimitInterceptor, rateLimitInterceptor.
  destruct Hph as [Hph|Hph]; [left | right]; (split; [done |]); intros ctx req w;
    destruct cfg as [cfg|], limiter as [limiter|]; try done; destruct (rl_Enabled cfg); cbn [negb]; try done;
    by rewrite Hph.
Qed.

(** The limiter was asked for every check of a list, in order, and allowed all
    of them. *)
Inductive checks_allowed (limiter : Limiter) (policy : Policy)
  : list (KeyScope * string) -> World -> World -> Prop :=
| allowed_nil w : checks_allowed limiter policy [] w w
| allowed_cons scope key rest w w1 w2 res :
    limiter key policy w = (w1, Done (Ok res)) -> res_Allowed res = true ->
    checks_allowed limiter policy rest w1 w2 ->
    checks_allowed limiter policy ((scope, key) :: rest) w w2.

(** Checks that were allowed leave the rest of the list to be asked. *)
Lemma run_checks_allowed limiter failOpen policy checks rest next w w' :
  checks_allowed limiter policy checks w w' ->
  run_checks limiter failOpen policy (checks ++ rest) next w = run_checks limiter failOpen policy rest next w'.
Proof.
  induction 1 as [w|scope key checks w w1 w2 res Hl Ha _ IH]; [done |].
  cbn [app run_checks]. unfold bind. by rewrite Hl, Ha.
Qed.

Lemma interceptor_in_phase limiter kb cfg method (h : Handler) ctx req :
  rl_Enabled cfg = true ->
  let p := PolicyForMethod method in
  rateLimitInterceptor (Some limiter) kb (Some cfg) (policy_Phase p) method h ctx req
  = run_checks limiter (rl_FailOpen cfg) p (buildRateLimitChecks ctx req kb p) (h ctx req).
Proof. intros He p. unfold rateLimitInterceptor. by rewrite He, String.eqb_refl. Qed.

(** C39: In the phase of its policy a call is handled after every check of the
    policy was allowed, and the first check the limiter refuses, wherever it
    stands in the list, answers the call with ResourceExhausted for its scope:
    whatever the handler is, it does not run, and no later check is asked. *)
Theorem refused_call_not_handled limiter kb cfg method ctx req w :
  rl_Enabled cfg = true ->
  let p := PolicyForMethod method in
  let checks := buildRateLimitChecks ctx req kb p in
  let call h := rateLimitInterceptor (Some limiter) kb (Some cfg) (policy_Phase p) method h ctx req w in
  (forall w', checks_allowed limiter p checks w w' -> forall h, call h = h ctx req w') /\
  (forall before scope key after w1 w2 res,
     checks = before ++ (scope, key) :: after -> checks_allowed limiter p before w w1 ->
     limiter key p w1 = (w2, Done (Ok res)) -> res_Allowed res = false ->
     exists w3, same_db w2 w3 /\ w_redis w3 = w_redis w2 /\
       forall h, call h = (w3, Done (Err (Status ResourceExhausted
         ("rate limit exceeded for " +:+ scope +:+ ", retry after " +:+ Duration_String (res_RetryAfter res)))))).
Proof.
  intros He p checks call. split.
  - intros w' Hall h. unfold call, p. rewrite (interceptor_in_phase limiter kb cfg method h ctx req He). fold p. fold checks.
    rewrite <-(app_nil_r checks). by rewrite (run_checks_allowed _ _ _ _ _ _ _ _ Hall).
  - intros before scope key after w1 w2 res Hc Hall Hl Ha.
    eexists. split; [| split]; [| | intros h; unfold call, p; rewrite (interceptor_in_phase limiter kb cfg method h ctx req He);
      fold p; fold checks; rewrite Hc, (run_checks_allowed _ _ _ _ _ _ _ _ Hall); cbn [run_checks]; unfold bind;
      rewrite Hl, Ha; reflexivity]; [auto with go | done].
Qed.

(** When the limiter fails, [FailOpen] decides between calling the handler and
    answering that the limiter is unavailable. *)
Theorem limiter_failure_open_or_closed limiter kb cfg method (h : Handler) ctx req w scope key rest w1 e :
  rl_Enabled cfg = true ->
  buildRateLimitChecks ctx req kb (PolicyForMethod method) = (scope, key) :: rest ->
  limiter key (PolicyForMethod method) w = (w1, Done (Err e)) ->
  rateLimitInterceptor (Some limiter) kb (Some cfg) (policy_Phase (PolicyForMethod method)) method h ctx req w
  = if rl_FailOpen cfg then h ctx req w1
    else (w1, Done (Err (Status Unavailable "rate limiter unavailable"))).
Proof.
  intros He Hb Hl. unfold rateLimitInterceptor. rewrite He, String.eqb_refl. cbn [negb].
  rewrite Hb. cbn [run_checks]. unfold bind. rewrite Hl. by destruct (rl_FailOpen cfg).
Qed.

Lemma first_part_no_comma s : index_char ","%char (String.list_ascii_of_string s) = None -> first_part s = s.
Proof.
  unfold first_part. induction s as [|c s IH]; [done |]. cbn.
  destruct (Ascii.eqb_spec c ","%char) as [->|Hne]; [done |].
  destruct (index_char ","%char (String.list_ascii_of_string s)) eqn:Hi; [done |]. intros _. specialize (IH eq_refl).
  destruct (Split s ","%char); cbn in *; congruence.
Qed.

(** The address a request is limited by is the first one of the header
    [X-Forwarded-For], which the client writes: whatever the peer is, a client
    appears under any address it likes. *)
Theorem client_chooses_its_address ip md peer p :
  index_char ","%char (String.list_ascii_of_string ip) = None -> TrimSpace ip = ip -> ip <> ""%string ->
  extractClientIP (mkCtx (Some (("x-forwarded-for"%string, ip) :: md)) peer p) = ip.
Proof.
  intros Hc Ht Hne. unfold extractClientIP. cbn [ctx_metadata].
  change (firstMetadataValue (("x-forwarded-for"%string, ip) :: md) "x-forwarded-for") with ip.
  destruct (String.eqb_spec ip "") as [?|_]; [done |]. cbn [negb]. rewrite first_part_no_comma, Ht by done.
  by destruct (String.eqb_spec ip "").
Qed.

(** A nil [*redis.Client] is accepted by the constructor and dereferenced at
    the first check. *)
Theorem typed_nil_limiter_panics method key w :
  key <> ""%string ->
  NewRedisLimiter TypedNilClient = Ok TypedNilClient /\
  RedisLimiter_Allow TypedNilClient key (PolicyForMethod method) w = (w, Panicked).
Proof.
  intros Hk. split; [done |]. pose proof (PolicyForMethod_ok method) as Hok. unfold policy_ok in Hok.
  rewrite !andb_true_iff in Hok. destruct Hok as [[[[Hl%Z.ltb_lt Hb%Z.ltb_lt] Hw%Z.ltb_lt] _] _].
  unfold RedisLimiter_Allow. destruct (String.eqb_spec key ""); [done |].
  destruct (Z.leb_spec (policy_Limit (PolicyForMethod method)) 0); [lia |].
  destruct (Z.leb_spec (policy_Window (PolicyForMethod method)) 0); [lia | done].
Qed.
End RateLimitProperties.

(** ** Concrete runs *)
Section RateLimitRuns.
#[local] Existing Instance mem_env.
#[local] Existing Instance mem_laws.

(** A store that has nothing left. *)
#[local] Instance spent_store : RateStore RedisServer := {| rate_Allow _ _ _ _ r := (r, Ok (0, 0, 30 * Second, Minute)) |}.

Definition plain_world : World :=
  mem_world [] [] (mem_table []) (mem_table []) (mem_table []) (mem_redis no_data).
Definition user_ctx : Ctx := mkCtx (Some []) (Some "10.1.1.1:4000"%string) (Some (mkPrincipal "1" "" "" "" RoleCodeUser "5")).

Lemma every_policy_is_enforceable_witness :
  (RedisLimiter_Allow LiveClient "k" (PolicyForMethod AuthService_Login) plain_world).2
  = Done (Ok (mkResult false 5 0 (30 * Second) Minute)).
Proof.
  rewrite (every_policy_is_enforceable AuthService_Login "k" plain_world); [| done]. vm_compute. reflexivity.
Defined.

(** A login whose address is within its limit and whose identifier is not. *)
Definition login_request : Request := LoginRequest "a@b.c" "pw".
Definition identifier_key : string := Build (NewKeyBuilder "") "login" ScopeIdentifier "a@b.c".
Definition identifier_spent : Limiter := fun key policy =>
  ret (Ok (mkResult (negb (String.eqb key identifier_key)) 5 0 (30 * Second) Minute)).
Definition limits_on : RateLimitConfig := mkRateLimitConfig true "rl" 300 300 Minute true.

Lemma refused_call_not_handled_witness :
  exists w', forall h,
    rateLimitInterceptor (Some identifier_spent) (NewKeyBuilder "") (Some limits_on) PhasePreAuth AuthService_Login h
      user_ctx login_request plain_world
    = (w', Done (Err (Status ResourceExhausted "rate limit exceeded for identifier, retry after 30s"))).
Proof.
  destruct (refused_call_not_handled identifier_spent (NewKeyBuilder "") limits_on AuthService_Login
              user_ctx login_request plain_world) as [_ Hrefused]; [reflexivity |].
  edestruct (Hrefused [(ScopeIP, Build (NewKeyBuilder "") "login" ScopeIP "10.1.1.1")] ScopeIdentifier identifier_key []
               plain_world plain_world) as (w' & _ & _ & H).
  - vm_compute. reflexivity.
  - eapply allowed_cons; [reflexivity | vm_compute; reflexivity | apply allowed_nil].
  - reflexivity.
  - vm_compute. reflexivity.
  - exists w'. exact H.
Defined.

Lemma limiter_failure_open_or_closed_witness :
  rateLimitInterceptor (Some (fun _ _ => ret (Err connection_lost))) (NewKeyBuilder "")
    (Some (mkRateLimitConfig true "rl" 300 300 Minute false)) PhasePostAuth SM_DeleteServer (fun _ _ => panic) user_ctx (DeleteServerRequest "5") plain_world
    = (plain_world, Done (Err (Status Unavailable "rate limiter unavailable"))).
Proof.
  eapply (limiter_failure_open_or_closed (fun _ _ => ret (Err connection_lost)) (NewKeyBuilder "") (mkRateLimitConfig true "rl" 300 300 Minute false)
    SM_DeleteServer (fun _ _ => panic) user_ctx (DeleteServerRequest "5") plain_world); reflexivity.
Defined.

Lemma client_chooses_its_address_witness :
  extractClientIP (mkCtx (Some [("x-forwarded-for", "1.2.3.4")]%string) (Some "10.9.9.9:1"%string) None) = "1.2.3.4"%string.
Proof. apply (client_chooses_its_address "1.2.3.4" [] (Some "10.9.9.9:1"%string) None); [done | reflexivity | done]. Defined.

Lemma typed_nil_limiter_panics_witness :
  RedisLimiter_Allow TypedNilClient "k" (PolicyForMethod AuthService_Login) plain_world = (plain_world, Panicked).
Proof. apply (typed_nil_limiter_panics AuthService_Login "k" plain_world). done. Defined.
End RateLimitRuns.
