(* ===== verification/Config.v ===== *)
(** * Config: [internal/shared/config] and the clients of [internal/shared/database]

    The loaders read environment variables, here a function from names to
    values ([os.Getenv], after the .env file has been loaded); an unset
    variable is the empty string, as in Go.  A getter returns a value beside
    its error, and several callers drop the error: the value they go on with
    is part of the model. *)

From stdpp Require Import base list strings numbers.
From Stdlib Require Import ZArith Lia.
From S2P Require Import Prelude GoStrings GoTime GoFloat Domain Env MemEnv Security RateLimit.
Open Scope Z_scope.

Definition Environ : Type := string -> string.

Section Getters.
Variable env : Environ.

Definition GetEnvDefault (key fallback : string) : string :=
  if String.eqb (env key) "" then fallback else env key.

Definition GetEnvBool (key : string) (fallback : bool) : bool * option error :=
  if String.eqb (env key) "" then (fallback, None)
  else match ParseBool (env key) with Ok b => (b, None) | Err e => (false, Some e) end.

Definition GetEnvInt (key : string) (fallback : Z) : Z * option error :=
  if String.eqb (env key) "" then (fallback, None) else Atoi (env key).

Definition GetEnvDuration (key : string) (fallback : Duration) : Duration * option error :=
  if String.eqb (env key) "" then (fallback, None)
  else match ParseDuration (env key) with Ok d => (d, None) | Err e => (0, Some e) end.
End Getters.

(** [v, err := get; if err != nil { return nil, fmt.Errorf("invalid KEY: %w", err) }] *)
Definition required {A} (key : string) (r : A * option error) : result A :=
  match r with
  | (v, None) => Ok v
  | (_, Some e) => Err (Wrapped ("invalid " +:+ key) e)
  end.
(** [if err != nil { v = fallback }] *)
Definition or_default {A} (r : A * option error) (fallback : A) : A :=
  match r with (v, None) => v | (_, Some _) => fallback end.

#[local] Notation "x <-! r ;; k" := (match r with Ok x => k | Err e => Err e end)
  (at level 62, r at next level, right associativity).

(** ** [config.Load] *)
Record LoggerConfig := mkLoggerConfig {
  log_Level : string;
  log_Format : string;
  log_MaxSize : Z;
  log_MaxBackups : Z;
  log_MaxAge : Z;
  log_Compress : bool;
}.

Record SMTPConfig := mkSMTPConfig {
  smtp_Host : string;
  smtp_Port : string;
  smtp_UseAuth : bool;
  smtp_UseTLS : bool;
  smtp_Username : string;
  smtp_Password : string;
  smtp_From : string;
  smtp_FromName : string;
}.

Record ReportingConfig := mkReportingConfig { rep_WorkerCount : Z; rep_JobQueueSize : Z }.

Record Config := mkConfig {
  cfg_GRPCPort : string;
  cfg_HTTPPort : string;
  cfg_DBUrl : string;
  cfg_JWTSecret : string;
  cfg_JWTAccessTTL : Z;
  cfg_RefreshTTL : Z;
  cfg_Env : string;
  cfg_AdminEmail : string;
  cfg_AdminPassword : string;
  cfg_UserEmail : string;
  cfg_UserPassword : string;
  cfg_ApiBaseUrl : string;
  cfg_FrontEndUrl : string;
  cfg_Logger : LoggerConfig;
  cfg_SMTP : SMTPConfig;
  cfg_Reporting : ReportingConfig;
}.

Definition Load (env : Environ) : result Config :=
  accessTTL <-! required "JWT_ACCESS_TTL" (GetEnvInt env "JWT_ACCESS_TTL" 3600) ;;
  refreshTTL <-! required "JWT_REFRESH_TTL" (GetEnvInt env "JWT_REFRESH_TTL" 604800) ;;
  let jwtSecret := GetEnvDefault env "JWT_SECRET" "" in
  let jwtSecret := if String.eqb jwtSecret "" then GetEnvDefault env "JWT_SECRET_KEY" "" else jwtSecret in
  let httpPort := TrimSpace (GetEnvDefault env "HTTP_PORT" "") in
  let httpPort := if String.eqb httpPort "" then GetEnvDefault env "PORT" "8000" else httpPort in
  let workerCount := or_default (GetEnvInt env "REPORTING_WORKER_COUNT" 5) 5 in
  let jobQueueSize := or_default (GetEnvInt env "REPORTING_JOB_QUEUE_SIZE" 100) 100 in
  let logMaxSize := or_default (GetEnvInt env "LOG_MAX_SIZE" 10) 10 in
  let logMaxBackups := or_default (GetEnvInt env "LOG_MAX_BACKUPS" 3) 3 in
  let logMaxAge := or_default (GetEnvInt env "LOG_MAX_AGE" 28) 28 in
  let logCompress := or_default (GetEnvBool env "LOG_COMPRESS" true) true in
  Ok (mkConfig (GetEnvDefault env "GRPC_PORT" "50051") httpPort (GetEnvDefault env "DB_URL" "")
        jwtSecret accessTTL refreshTTL (GetEnvDefault env "ENV" "development")
        (GetEnvDefault env "ADMIN_EMAIL" "") (GetEnvDefault env "ADMIN_PASSWORD" "")
        (GetEnvDefault env "USER_EMAIL" "") (GetEnvDefault env "USER_PASSWORD" "")
        (GetEnvDefault env "API_BASE_URL" "") (GetEnvDefault env "FRONTEND_BASE_URL" "")
        (mkLoggerConfig (GetEnvDefault env "LOG_LEVEL" "info") (GetEnvDefault env "LOG_FORMAT" "text")
           logMaxSize logMaxBackups logMaxAge logCompress)
        (mkSMTPConfig (GetEnvDefault env "SMTP_HOST" "localhost") (GetEnvDefault env "SMTP_PORT" "1025")
           (String.eqb (GetEnvDefault env "SMTP_USE_AUTH" "false") "true")
           (String.eqb (GetEnvDefault env "SMTP_USE_TLS" "false") "true")
           (GetEnvDefault env "SMTP_USERNAME" "") (GetEnvDefault env "SMTP_PASSWORD" "")
           (GetEnvDefault env "SMTP_FROM" "no-reply@sms.com")
           (GetEnvDefault env "SMTP_FROM_NAME" "SMS Server Management"))
        (mkReportingConfig workerCount jobQueueSize)).

(** ** Elasticsearch *)
Record ElasticsearchConfig := mkElasticsearchConfig { es_URL : string; es_ServerIndex : string }.

Record ObservationLoggerConfig := mkObservationLoggerConfig {
  ol_ChannelSize : Z;
  ol_BatchSize : Z;
  ol_FlushMs : Z;
  ol_RetryMax : Z;
  ol_RetryDelayMs : Z;
}.

Definition LoadElasticsearchConfig (env : Environ) : ElasticsearchConfig :=
  let url := if String.eqb (env "ELASTICSEARCH_URL") "" then "http://elasticsearch:9200"
             else env "ELASTICSEARCH_URL" in
  let serverIndex := if String.eqb (env "ELASTICSEARCH_SERVER_INDEX") "" then "sms_observation_logs"
                     else env "ELASTICSEARCH_SERVER_INDEX" in
  mkElasticsearchConfig url serverIndex.

Definition LoadObservationLoggerConfig (env : Environ) : ObservationLoggerConfig :=
  mkObservationLoggerConfig (GetEnvInt env "ES_OBSERVATION_CHANNEL_SIZE" 10000).1
    (GetEnvInt env "ES_OBSERVATION_BATCH_SIZE" 500).1 (GetEnvInt env "ES_OBSERVATION_FLUSH_MS" 2000).1
    (GetEnvInt env "ES_OBSERVATION_RETRY_MAX" 3).1 (GetEnvInt env "ES_OBSERVATION_RETRY_DELAY_MS" 500).1.

(** ** Rate limiting *)
Definition RateLimitConfig_Validate (c : option RateLimitConfig) : result () :=
  match c with
  | None => Err (Fresh "rate limit config is nil")
  | Some c =>
      if negb (rl_Enabled c) then Ok tt
      else if String.eqb (rl_Prefix c) "" then
        Err (Fresh "RATE_LIMIT_PREFIX is required when rate limit is enabled")
      else if rl_DefaultLimit c <=? 0 then Err (Fresh "RATE_LIMIT_DEFAULT_LIMIT must be > 0")
      else if rl_DefaultBurst c <=? 0 then Err (Fresh "RATE_LIMIT_DEFAULT_BURST must be > 0")
      else if rl_DefaultPeriod c <=? 0 then Err (Fresh "RATE_LIMIT_DEFAULT_PERIOD must be > 0")
      else Ok tt
  end.

Definition LoadRateLimitConfig (env : Environ) : result RateLimitConfig :=
  enabled <-! required "RATE_LIMIT_ENABLED" (GetEnvBool env "RATE_LIMIT_ENABLED" false) ;;
  defaultLimit <-! required "RATE_LIMIT_DEFAULT_LIMIT" (GetEnvInt env "RATE_LIMIT_DEFAULT_LIMIT" 300) ;;
  defaultBurst <-! required "RATE_LIMIT_DEFAULT_BURST" (GetEnvInt env "RATE_LIMIT_DEFAULT_BURST" defaultLimit) ;;
  defaultPeriod <-! required "RATE_LIMIT_DEFAULT_PERIOD"
    (GetEnvDuration env "RATE_LIMIT_DEFAULT_PERIOD" Minute) ;;
  failOpen <-! required "RATE_LIMIT_FAIL_OPEN" (GetEnvBool env "RATE_LIMIT_FAIL_OPEN" true) ;;
  let cfg := mkRateLimitConfig enabled (TrimSpace (GetEnvDefault env "RATE_LIMIT_PREFIX" "portal:rl"))
               defaultLimit defaultBurst defaultPeriod failOpen in
  _ok <-! RateLimitConfig_Validate (Some cfg) ;;
  Ok cfg.

(** ** Redis *)
Record RedisConfig := mkRedisConfig {
  redis_Enabled : bool;
  redis_Addr : string;
  redis_Password : string;
  redis_DB : Z;
  redis_DialTimeout : Duration;
  redis_ReadTimeout : Duration;
  redis_WriteTimeout : Duration;
  redis_PoolSize : Z;
  redis_MinIdleConns : Z;
  redis_MaxRetries : Z;
}.

Definition LoadRedisConfig (env : Environ) : result RedisConfig :=
  enabled <-! required "REDIS_ENABLED" (GetEnvBool env "REDIS_ENABLED" false) ;;
  db <-! required "REDIS_DB" (GetEnvInt env "REDIS_DB" 0) ;;
  dialTimeout <-! required "REDIS_DIAL_TIMEOUT" (GetEnvDuration env "REDIS_DIAL_TIMEOUT" (5 * Second)) ;;
  readTimeout <-! required "REDIS_READ_TIMEOUT" (GetEnvDuration env "REDIS_READ_TIMEOUT" (3 * Second)) ;;
  writeTimeout <-! required "REDIS_WRITE_TIMEOUT" (GetEnvDuration env "REDIS_WRITE_TIMEOUT" (3 * Second)) ;;
  poolSize <-! required "REDIS_POOL_SIZE" (GetEnvInt env "REDIS_POOL_SIZE" 10) ;;
  minIdleConns <-! required "REDIS_MIN_IDLE_CONNS" (GetEnvInt env "REDIS_MIN_IDLE_CONNS" 2) ;;
  maxRetries <-! required "REDIS_MAX_RETRIES" (GetEnvInt env "REDIS_MAX_RETRIES" 3) ;;
  Ok (mkRedisConfig enabled (GetEnvDefault env "REDIS_ADDR" "") (GetEnvDefault env "REDIS_PASSWORD" "")
        db dialTimeout readTimeout writeTimeout poolSize minIdleConns maxRetries).

(** [database.NewRedisClient] returns a [*redis.Client], nil when Redis is off:
    [None].  Passed where a [redis.UniversalClient] is expected, a nil pointer
    becomes an interface that is not nil. *)
Definition NewRedisClient (cfg : option RedisConfig) : option RedisConfig :=
  match cfg with
  | None => None
  | Some c => if redis_Enabled c then Some c else None
  end.
Definition as_interface (client : option RedisConfig) : UniversalClient :=
  match client with Some _ => LiveClient | None => TypedNilClient end.

(** ** The monitor's settings, of [monitoring.NewApp], [Run] and [runCycle] *)
Record MonitorSettings := mkMonitorSettings {
  set_threshold : Z;
  set_concurrency : Z;
  set_pingTimeout : Duration;
  set_tickInterval : Duration;
  set_lockKey : string;
  set_lockExpiration : Duration;
}.

Definition monitor_settings (env : Environ) : MonitorSettings :=
  mkMonitorSettings (GetEnvInt env "MONITORING_FAILURE_THRESHOLD" 2).1
    (GetEnvInt env "MONITORING_WORKER_CONCURRENCY" 100).1
    (GetEnvDuration env "MONITORING_WORKER_PING_TIMEOUT" (3 * Second)).1
    (GetEnvDuration env "MONITORING_WORKER_TICK_INTERVAL" (30 * Second)).1
    (GetEnvDefault env "MONITORING_WORKER_LOCK_KEY" "lock:monitoring_worker")
    (GetEnvDuration env "MONITORING_WORKER_LOCK_EXPIRATION" (25 * Second)).1.

(** ** Properties *)

(** A rate limit configuration that loads is off, or has a prefix and positive
    limit, burst and period. *)
Theorem LoadRateLimitConfig_valid env cfg :
  LoadRateLimitConfig env = Ok cfg ->
  rl_Enabled cfg = true ->
  rl_Prefix cfg <> ""%string /\ 0 < rl_DefaultLimit cfg /\ 0 < rl_DefaultBurst cfg /\ 0 < rl_DefaultPeriod cfg.
Proof.
  unfold LoadRateLimitConfig. intros H Hon.
  repeat (match type of H with
          | match required ?k ?r with _ => _ end = _ => destruct (required k r); [| discriminate H]
          end).
  destruct (RateLimitConfig_Validate _) as [[]|] eqn:Hv; [| discriminate H]. injection H as <-.
  cbn in *. subst. cbn in Hv.
  repeat (match type of Hv with (if ?b then _ else _) = _ => destruct b eqn:?; [discriminate Hv |] end).
  split; [by apply String.eqb_neq |]. lia.
Qed.

(** The loaders by an environment that sets nothing. *)
Definition unset : Environ := fun _ => ""%string.

Example defaults_load :
  is_ok (Load unset) = true /\ is_ok (LoadRedisConfig unset) = true /\ is_ok (LoadRateLimitConfig unset) = true /\
  monitor_settings unset = mkMonitorSettings 2 100 (3 * Second) (30 * Second) "lock:monitoring_worker" (25 * Second).
Proof. vm_compute. done. Qed.

(** With no JWT_SECRET the service starts with the empty secret: a token anyone
    can sign is accepted, with the role it claims. *)
Theorem empty_secret_is_accepted `{E : Env} {L : EnvLaws E} env cfg c tok w :
  Load env = Ok cfg -> env "JWT_SECRET"%string = ""%string -> env "JWT_SECRET_KEY"%string = ""%string ->
  jwt_sign "" c = Ok tok -> claims_SessionID c = ""%string ->
  w_clock w (w_ticks w) < (claims_Exp c + unix_epoch) * Second ->
  (Authenticate (mkAuthenticator (cfg_JWTSecret cfg) LiveClient) tok w).2 = Done (Ok (principal_of_claims c)).
Proof.
  intros Hl H1 H2 Hs Hsid Hexp.
  assert (cfg_JWTSecret cfg = ""%string) as ->.
  { unfold Load in Hl. destruct (required _ _); [| discriminate Hl]. destruct (required _ _); [| discriminate Hl].
    injection Hl as <-. cbn. unfold GetEnvDefault. by rewrite H1, H2. }
  unfold Authenticate, bind, time_Now. cbn [auth_secret auth_redisClient].
  rewrite (jwt_parse_sign _ _ _ _ Hs Hexp). by rewrite Hsid.
Qed.

Lemma redis_off env cfg :
  LoadRedisConfig env = Ok cfg -> env "REDIS_ENABLED"%string = ""%string -> redis_Enabled cfg = false.
Proof.
  intros Hl He. unfold LoadRedisConfig, GetEnvBool in Hl. rewrite He in Hl. cbn [String.eqb required] in Hl.
  repeat (match type of Hl with
          | match required ?k ?r with _ => _ end = _ => destruct (required k r); [| discriminate Hl]
          end). by injection Hl as <-.
Qed.

Lemma limits_off env cfg :
  LoadRateLimitConfig env = Ok cfg -> env "RATE_LIMIT_ENABLED"%string = ""%string -> rl_Enabled cfg = false.
Proof.
  intros Hl He. unfold LoadRateLimitConfig, GetEnvBool at 1 in Hl. rewrite He in Hl. cbn [String.eqb required] in Hl.
  repeat (match type of Hl with
          | match required ?k ?r with _ => _ end = _ => destruct (required k r); [| discriminate Hl]
          end). destruct (RateLimitConfig_Validate _); [| discriminate Hl]. by injection Hl as <-.
Qed.

Lemma typed_nil_panics `{E : Env} secret tok c w :
  jwt_parse secret (w_clock w (w_ticks w)) tok = Ok c -> claims_SessionID c <> ""%string ->
  (Authenticate (mkAuthenticator secret TypedNilClient) tok w).2 = Panicked.
Proof.
  intros Hp Hs. unfold Authenticate, bind, time_Now at 1. cbn. rewrite Hp.
  by destruct (String.eqb_spec (claims_SessionID c) "").
Qed.

(** Redis is off unless REDIS_ENABLED says so; then the client the service
    passes on is a nil pointer that does not compare equal to nil, and
    authenticating any token of a session panics. *)
Theorem redis_off_authentication_panics `{E : Env} env cfg secret tok c w :
  LoadRedisConfig env = Ok cfg -> env "REDIS_ENABLED"%string = ""%string ->
  jwt_parse secret (w_clock w (w_ticks w)) tok = Ok c -> claims_SessionID c <> ""%string ->
  (Authenticate (mkAuthenticator secret (as_interface (NewRedisClient (Some cfg)))) tok w).2 = Panicked.
Proof.
  intros Hl He Hp Hs. cbn [NewRedisClient]. rewrite (redis_off env cfg Hl He). by eapply typed_nil_panics.
Qed.

(** A setting of the monitor that does not parse is taken as zero, not as its
    default.  A tick interval or a lock expiration given in plain seconds,
    without a unit, is such a one: [time.NewTicker] refuses a zero interval with
    a panic, and a lock of expiration zero is never released. *)
Theorem settings_without_unit_are_zero :
  let env key := if bool_decide (key ∈ ["MONITORING_WORKER_TICK_INTERVAL"; "MONITORING_WORKER_LOCK_EXPIRATION"]%string)
                 then "30"%string else ""%string in
  monitor_settings env = mkMonitorSettings 2 100 (3 * Second) 0 "lock:monitoring_worker" 0.
Proof. vm_compute. reflexivity. Qed.

(** ** Concrete runs *)
Section ConfigRuns.
#[local] Existing Instance mem_env.
#[local] Existing Instance mem_laws.

Lemma LoadRateLimitConfig_valid_witness :
  exists cfg, LoadRateLimitConfig (fun k => if String.eqb k "RATE_LIMIT_ENABLED" then "true"%string else ""%string) = Ok cfg /\
    rl_Prefix cfg <> ""%string.
Proof.
  eexists. split; [vm_compute; reflexivity |].
  apply (LoadRateLimitConfig_valid (fun k => if String.eqb k "RATE_LIMIT_ENABLED" then "true"%string else ""%string));
    vm_compute; reflexivity.
Defined.

(** Signed by anyone who knows that there is no secret. *)
Definition forged : Claims := mkClaims "1" "" "" "" "" RoleCodeAdmin (2 ^ 40) 0.

Lemma empty_secret_is_accepted_witness :
  exists cfg tok, Load unset = Ok cfg /\
    (Authenticate (mkAuthenticator (cfg_JWTSecret cfg) LiveClient) tok empty_world).2 =
    Done (Ok (principal_of_claims forged)).
Proof.
  destruct (Load unset) as [cfg|] eqn:Hl; [| by vm_compute in Hl].
  exists cfg, (match jwt_sign "" forged with Ok t => t | Err _ => ""%string end). split; [reflexivity |].
  apply (empty_secret_is_accepted unset cfg forged _ empty_world Hl);
    vm_compute; reflexivity.
Defined.

Lemma redis_off_authentication_panics_witness :
  exists cfg tok, LoadRedisConfig unset = Ok cfg /\
    (Authenticate (mkAuthenticator "key" (as_interface (NewRedisClient (Some cfg)))) tok empty_world).2 = Panicked.
Proof.
  destruct (LoadRedisConfig unset) as [cfg|] eqn:Hl; [| by vm_compute in Hl].
  set (c := mkClaims "1" "5" "" "" "" RoleCodeUser (2 ^ 40) 0).
  exists cfg, (match jwt_sign "key" c with Ok t => t | Err _ => ""%string end). split; [reflexivity |].
  apply (redis_off_authentication_panics unset cfg "key" _ c empty_world Hl);
    [reflexivity | vm_compute; reflexivity | discriminate].
Defined.
End ConfigRuns.
