(* ===== verification/Connections.v ===== *)
(** * Connections: what a process sets up once

    [internal/shared/database] (the PostgreSQL connection, Elasticsearch,
    Redis), [storage/migrate.go], the .env file of [internal/shared/config], and the loggers of
    [internal/shared/logger].  [GetInstance] and [loadEnv] run their body under
    a [sync.Once]; callers on several goroutines are a step relation.

    gorm, the Elasticsearch client and godotenv are parameters. *)

From stdpp Require Import base list strings gmap numbers relations functions.
From Stdlib Require Import ZArith Lia.
From S2P Require Import Prelude GoStrings GoTime GoFloat GoParseFloat Env Config.
Open Scope Z_scope.

(** ** [sync.Once]

    The callers of a function that runs [once.Do(f)] and then reads the
    variables that [f] assigns.  [body x v] is what [f] makes of them for the
    argument [x]; [None] is a panic, which counts as done. *)
Section Once.
Context {X V : Type}.
Variable body : X -> V -> option V.

Inductive once_pc :=
| OEnter (x : X)          (* before [Do] *)
| ORuns (x : X)           (* holds the mutex, [f] runs *)
| OPassed                 (* [Do] has returned *)
| OReturned (v : V)
| ODead.                  (* [f] panicked *)

Record OnceState := mkOnce { on_done : bool; on_var : V; on_calls : nat -> once_pc }.

Inductive once_step : OnceState -> OnceState -> Prop :=
| o_skip i x v cs : cs i = OEnter x -> once_step (mkOnce true v cs) (mkOnce true v (<[i := OPassed]> cs))
| o_begin i x v cs :
    cs i = OEnter x -> (forall j y, cs j <> ORuns y) ->
    once_step (mkOnce false v cs) (mkOnce false v (<[i := ORuns x]> cs))
| o_end i x v v' cs :
    cs i = ORuns x -> body x v = Some v' -> once_step (mkOnce false v cs) (mkOnce true v' (<[i := OPassed]> cs))
| o_panic i x v cs :
    cs i = ORuns x -> body x v = None -> once_step (mkOnce false v cs) (mkOnce true v (<[i := ODead]> cs))
| o_read i d v cs : cs i = OPassed -> once_step (mkOnce d v cs) (mkOnce d v (<[i := OReturned v]> cs)).

(** The same for calls one after the other. *)
Definition once_do (x : X) (s : bool * V) : (bool * V) * option V :=
  if s.1 then (s, Some s.2)
  else match body x s.2 with
       | Some v => ((true, v), Some v)
       | None => ((true, s.2), None)
       end.
End Once.
Arguments once_pc : clear implicits.

Section OnceFacts.
Context {X V : Type}.
Variable body : X -> V -> option V.
Variable v0 : V.

(** The variables hold what one caller's run of [f] left, and all who have
    returned saw that. *)
Record once_inv (arg : nat -> X) (s : OnceState) : Prop := {
  oi_args : forall i x, on_calls s i = OEnter x \/ on_calls s i = ORuns x -> x = arg i;
  oi_fresh : on_done s = false -> on_var s = v0 /\ forall i, (exists x, on_calls s i = OEnter x) \/ (exists x, on_calls s i = ORuns x);
  oi_ran : on_done s = true -> (exists j, on_var s = default v0 (body (arg j) v0)) /\ forall i x, on_calls s i <> ORuns x;
  oi_alone : forall i j x y, on_calls s i = ORuns x -> on_calls s j = ORuns y -> i = j;
  oi_seen : forall i v, on_calls s i = OReturned v -> v = on_var s;
}.

(** The run of [f] ends. *)
Lemma once_ends arg i x p cs :
  once_inv arg (mkOnce false v0 cs) -> cs i = ORuns x -> p = OPassed \/ p = ODead ->
  once_inv arg (mkOnce true (default v0 (body x v0)) (<[i := p]> cs)).
Proof.
  intros [Ha Hf _ Hal _] Hi Hp. cbn in *. destruct (Hf eq_refl) as [_ Hall]. pose proof (Ha i x (or_intror Hi)) as ->.
  assert (forall y, p <> OEnter y /\ p <> ORuns y) as Hno by (by intros y; destruct Hp as [->| ->]).
  split; cbn; [| done | | |]; unfold insert, fn_insert.
  - intros k y. case_decide as Hk; [| apply Ha]. intros [H|H]; by destruct (Hno y).
  - intros _. split; [by exists i |]. intros k y. case_decide as Hk; [apply Hno |]. intros H. destruct Hk. by apply (Hal i k (arg i) y).
  - intros k j y z. case_decide as Hk; [intros H; by destruct (Hno y) |]. case_decide as Hj; [intros _ H; by destruct (Hno z) | apply Hal].
  - intros k y. case_decide as Hk; [by destruct Hp as [->| ->] |]. intros H. destruct (Hall k) as [[z Hz]|[z Hz]]; congruence.
Qed.

(** A caller that neither runs [f] nor ends its run. *)
Lemma once_moves arg d v cs i p :
  once_inv arg (mkOnce d v cs) -> (forall x, cs i <> ORuns x) ->
  (d = true \/ exists x, p = ORuns x) -> (forall x, p <> OEnter x) ->
  (forall x, p = ORuns x -> d = false /\ x = arg i /\ forall j y, cs j <> ORuns y) -> (forall u, p = OReturned u -> u = v) ->
  once_inv arg (mkOnce d v (<[i := p]> cs)).
Proof.
  intros [Ha Hf Hr Hal Hs] Hi Hd Hne Hruns Hret. cbn in *. split; cbn; unfold insert, fn_insert.
  - intros k x. case_decide as Hk; [subst k | apply Ha]. intros [H|H]; [by destruct (Hne x) | by apply Hruns in H as (_ & ? & _)].
  - intros Hdf. destruct (Hf Hdf) as [Hv Hall]. split; [done |]. intros k. case_decide as Hk; [| apply Hall]. right.
    destruct Hd as [Hd|Hd]; [congruence | exact Hd].
  - intros Hdt. destruct (Hr Hdt) as [Hj Hno]. split; [done |]. intros k x. case_decide as Hk; [| apply Hno].
    intros H. apply Hruns in H as [H _]. congruence.
  - intros k j x y. case_decide as Hk; case_decide as Hj; subst.
    + done.
    + intros H H'. apply Hruns in H as (_ & _ & H). by destruct (H j y).
    + intros H H'. apply Hruns in H' as (_ & _ & H'). by destruct (H' k x).
    + apply Hal.
  - intros k u. case_decide as Hk; [apply Hret | apply Hs].
Qed.

Lemma once_inv_step arg s s' : once_step body s s' -> once_inv arg s -> once_inv arg s'.
Proof.
  intros Hstep Hinv.
  destruct Hstep as [i x v cs Hi | i x v cs Hi Hfree | i x v v' cs Hi Hb | i x v cs Hi Hb | i d v cs Hi].
  - apply once_moves; [done | intros y; congruence | by left | done | done | done].
  - apply once_moves; [done | intros y; congruence | right; eauto | done | | done].
    intros y [= <-]. split; [done |]. split; [| done]. apply (oi_args _ _ Hinv). by left.
  - destruct (oi_fresh _ _ Hinv eq_refl) as [Hv _]. cbn in Hv. subst v.
    replace v' with (default v0 (body x v0)) by (by rewrite Hb). apply once_ends; auto.
  - destruct (oi_fresh _ _ Hinv eq_refl) as [Hv _]. cbn in Hv. subst v.
    pose proof (once_ends arg i x ODead cs Hinv Hi (or_intror eq_refl)) as H. by rewrite Hb in H.
  - assert (d = true) as ->.
    { destruct d; [done |]. destruct (oi_fresh _ _ Hinv eq_refl) as [_ Hall].
      destruct (Hall i) as [[z Hz]|[z Hz]]; cbn in Hz; congruence. }
    apply once_moves; [done | intros y; congruence | by left | done | done | by intros u [= <-]].
Qed.

Lemma once_inv_run arg s :
  rtc (once_step body) (mkOnce false v0 (fun i => OEnter (arg i))) s -> once_inv arg s.
Proof.
  revert s. apply (rtc_ind_r (once_inv arg)).
  - split; cbn; [naive_solver | eauto | done | done | done].
  - intros s s' _ Hstep IH. by eapply once_inv_step.
Qed.


End OnceFacts.

(** ** [GetInstance] *)
Section Postgres.
Variable DB : Type.
(** [gorm.Open(postgres.Open(dsn))], which returns a handle beside an error
    too, and [db.DB()]. *)
Variable gorm_Open : string -> option DB * option error.
Variable sql_DB : DB -> option error.

Record PoolSettings := mkPoolSettings {
  pool_MaxOpenConns : Z;
  pool_MaxIdleConns : Z;
  pool_ConnMaxLifetime : Duration;
  pool_ConnMaxIdleTime : Duration;
}.

(** [dbInstance] with the settings of its pool, and [dbError]. *)
Record Instance_ := mkInstance {
  dbInstance : option DB;
  dbPool : option PoolSettings;
  dbError : option error;
}.
Definition unopened : Instance_ := mkInstance None None None.

(** The function under [dbOnce]. *)
Definition open_instance (dsn : string) (_ : Instance_) : option Instance_ :=
  match gorm_Open dsn with
  | (db, Some e) => Some (mkInstance db None (Some e))
  | (None, None) => None
  | (Some db, None) =>
      match sql_DB db with
      | Some e => Some (mkInstance (Some db) None (Some e))
      | None => Some (mkInstance (Some db) (Some (mkPoolSettings 25 25 (5 * Minute) (3 * Minute))) None)
      end
  end.

Definition GetInstance (dsn : string) (s : bool * Instance_) : (bool * Instance_) * option (option DB * option error) :=
  let '(s', r) := once_do open_instance dsn s in
  (s', match r with Some i => Some (dbInstance i, dbError i) | None => None end).

(** The database is opened at most once: whatever data source names any number
    of goroutines ask for, all that get an answer get the same one, the
    handle and the error of the one call that opened it. *)
Theorem GetInstance_opens_once dsn s :
  rtc (once_step open_instance) (mkOnce false unopened (fun i => OEnter (dsn i))) s ->
  exists j, forall i v, on_calls s i = OReturned v -> v = default unopened (open_instance (dsn j) unopened).
Proof.
  intros Hrun%once_inv_run. destruct (on_done s) eqn:Hd.
  - destruct (oi_ran _ _ _ _ Hrun Hd) as [[j Hj] _]. exists j. intros i v Hi. rewrite <- Hj. by apply (oi_seen _ _ _ _ Hrun i).
  - exists 0%nat. intros i v Hi. destruct (oi_fresh _ _ _ _ Hrun Hd) as [_ Hall].
    destruct (Hall i) as [[x Hx]|[x Hx]]; congruence.
Qed.

(** A database that cannot be reached at first stays so for the process: no
    later call tries again. *)
Theorem GetInstance_keeps_error dsn s s' db e :
  GetInstance dsn s = (s', Some (db, Some e)) -> forall dsn', GetInstance dsn' s' = (s', Some (db, Some e)).
Proof.
  unfold GetInstance, once_do. intros Hrun dsn'.
  destruct s as [[] i]; cbn in *; [by injection Hrun as <- <- <- |].
  destruct (open_instance dsn i) as [i'|]; cbn in *; [by injection Hrun as <- <- <- | done].
Qed.
End Postgres.

(** ** [storage.AutoMigrate]

    The statements that create the schemas may fail unnoticed. *)
Definition AutoMigrate {W} (db_Exec : string -> M W (result ())) (db_AutoMigrate : list string -> M W (result ())) : M W (result ()) :=
  (db_Exec "CREATE SCHEMA IF NOT EXISTS management_schema" ;;;
   db_Exec "CREATE SCHEMA IF NOT EXISTS reporting_schema" ;;;
   db_AutoMigrate ["User"; "AuthSession"; "RefreshToken"; "Server"; "ReportRequest"]%string)%go.

(** ** Elasticsearch and Redis *)
Definition NewElasticsearchClient {C} (new : list string -> result C) (info : C -> option error) (addresses : list string)
  : result C :=
  match new addresses with
  | Err e => Err (Wrapped "create elasticsearch client" e)
  | Ok es =>
      match info es with
      | Some e => Err (Wrapped "connect elasticsearch" e)
      | None => Ok es
      end
  end.

(** A client that is a nil pointer is not a nil interface: its [Ping] panics. *)
Definition PingRedis `{E : Env} (ping : RedisServer -> RedisServer * result ()) (rdb : UniversalClient) : M World (result ()) :=
  if iface_is_nil rdb then ret (Ok tt) else redis_call rdb ping.

(** ** [loadEnv]

    [godotenv.Load] adds the variables of a file that the process does not
    have yet. *)
Section DotEnv.
Definition Process : Type := string -> option string.
Definition os_Getenv (p : Process) : Environ := fun k => default ""%string (p k).

(** The file as godotenv reads it. *)
Variable read_env : string -> result (gmap string string).

Definition godotenv_Load (file : string) (p : Process) : Process :=
  match read_env file with
  | Err _ => p
  | Ok m => fun k => match p k with Some v => Some v | None => m !! k end
  end.

Definition load_env_file (_ : unit) (p : Process) : option Process :=
  let envFile := os_Getenv p "ENV_FILE" in
  Some (godotenv_Load (if String.eqb envFile "" then ".env" else envFile) p).

Definition loadEnv (s : bool * Process) : bool * Process := (once_do load_env_file tt s).1.

(** The file never overrides a variable of the process, fills in the others,
    and is read once. *)
Theorem loadEnv_fills_in p :
  let s := loadEnv (false, p) in
  (forall k v, p k = Some v -> s.2 k = Some v) /\
  (forall m k, read_env (let f := os_Getenv p "ENV_FILE" in if String.eqb f "" then ".env"%string else f) = Ok m ->
     p k = None -> s.2 k = m !! k) /\
  loadEnv s = s.
Proof.
  cbn zeta. unfold loadEnv, once_do, load_env_file, godotenv_Load. cbn [fst snd]. split; [| split; [| done]].
  - intros k v Hk. destruct (read_env _); [by rewrite Hk | done].
  - intros m k Hm Hk. rewrite Hm. by rewrite Hk.
Qed.
End DotEnv.

(** The getter of [env.go] that no loader uses. *)
Definition GetEnvFloat (env : Environ) (key : string) (fallback : float64) : float64 * option error :=
  if String.eqb (env key) "" then (fallback, None) else ParseFloat (env key).

(** ** Loggers *)

(** What lumberjack, which rotates the files, is given. *)
Record Rotated := mkRotated {
  rot_Filename : string;
  rot_MaxSize : Z;      (* megabytes *)
  rot_MaxBackups : Z;   (* 0: all *)
  rot_MaxAge : Z;       (* days *)
  rot_Compress : bool;
}.

(** [InitLogger]: [None] when the directory cannot be made, which ends the
    process.  Both outputs take what is at least at level info: the level and
    the format of the configuration are not used. *)
Definition InitLogger (mkdir_logs : option error) (cfg : LoggerConfig) (appName : string) : option Rotated :=
  match mkdir_logs with
  | Some _ => None
  | None =>
      let maxSize := if log_MaxSize cfg <=? 0 then 10 else log_MaxSize cfg in
      let maxBackups := if log_MaxBackups cfg <? 0 then 3 else log_MaxBackups cfg in
      let maxAge := if log_MaxAge cfg <=? 0 then 28 else log_MaxAge cfg in
      let logFile := if String.eqb appName "" then "logs/app.log"%string else "logs/" +:+ appName +:+ ".log" in
      Some (mkRotated logFile maxSize maxBackups maxAge (log_Compress cfg))
  end.

(** A log file has a positive size and age. *)
Lemma InitLogger_settings cfg name r :
  InitLogger None cfg name = Some r -> 0 < rot_MaxSize r /\ 0 < rot_MaxAge r /\ 0 <= rot_MaxBackups r.
Proof.
  unfold InitLogger. intros [= <-]. cbn.
  destruct (Z.leb_spec (log_MaxSize cfg) 0), (Z.leb_spec (log_MaxAge cfg) 0), (Z.ltb_spec (log_MaxBackups cfg) 0); lia.
Qed.

(** [logger.New] of [slog.go] *)
Inductive slog_Level := LevelDebug | LevelInfo | LevelWarn | LevelError.
Record slog_Config := mkSlogConfig { slog_Env : string; slog_LevelName : string; slog_Format : string }.
Record slog_Logger := mkSlogLogger { slog_level : slog_Level; slog_json : bool; slog_addSource : bool }.

Definition slog_New `{Unicode} (cfg : slog_Config) : slog_Logger :=
  let l := ToLower (slog_LevelName cfg) in
  let level := if String.eqb l "debug" then LevelDebug
               else if String.eqb l "info" then LevelInfo
               else if String.eqb l "warn" then LevelWarn
               else if String.eqb l "error" then LevelError else LevelInfo in
  let isJSON := String.eqb (ToLower (slog_Format cfg)) "json" || String.eqb (ToLower (slog_Env cfg)) "production"
                || String.eqb (ToLower (slog_Env cfg)) "staging" in
  mkSlogLogger level isJSON (negb isJSON).
