(* ===== verification/Middleware.v ===== *)
(** * Middleware: [shared/middlewares], the interceptor chain of
    [app/grpc_server.go], and the HTTP gateway of [infrastructure/gateway]

    An interceptor maps a handler to a handler, given the full method name.
    Handlers are compared pointwise ([handler_eq]); every interceptor respects
    that relation, which is what lets the theorems reason about the whole chain
    by rewriting one layer.  protovalidate's rules are a parameter; so is the
    default header matcher of grpc-gateway, with its documented behaviour. *)

From stdpp Require Import base list strings gmap numbers.
From Stdlib Require Import ZArith Lia Ascii Setoid Morphisms.
From S2P Require Import Prelude GoStrings GoTime Sha256 Domain Env MemEnv Security Rpc RateLimit.
Open Scope Z_scope.

Class Protovalidate := { Validate : Request -> result () }.

Section Interceptors.
Context `{E : Env} {RS : RateStore RedisServer} `{PV : Protovalidate}.

Definition Interceptor : Type := string -> Handler -> Handler.

Definition RecoveryInterceptor : Interceptor := fun method handler ctx req w =>
  match handler ctx req w with
  | (w', Panicked) => (w', Done (Err (Status Internal "internal server error")))
  | (w', Done r) => (w', Done r)
  end.

Definition ValidationInterceptor : Interceptor := fun method handler ctx req =>
  match req with
  | NotAMessage => ret (Err (Status InvalidArgument "invalid request type"))
  | _ => match Validate req with
         | Err e => ret (Err (Status InvalidArgument ("invalid request: " +:+ error_string e)))
         | Ok _ => handler ctx req
         end
  end.

Definition stateChangingMethods : gset string := list_to_set
  [ AuthService_Login; AuthService_Logout; AuthService_LogoutAll; SM_CreateServer; SM_UpdateServer;
    SM_DeleteServer; SM_ImportServers; ReportingService_RequestReport ].

Definition first_trimmed (vs : list string) : string :=
  match vs with v :: _ => TrimSpace v | [] => "" end.

Definition CSRFInterceptor : Interceptor := fun method handler ctx req =>
  if negb (bool_decide (method ∈ stateChangingMethods)) then handler ctx req
  else match ctx_metadata ctx with
  | None => handler ctx req
  | Some md =>
      let cookieToken := first_trimmed (md_Get md "cookie-csrf-token") in
      let headerToken := first_trimmed (md_Get md "x-csrf-token") in
      if String.eqb cookieToken "" && String.eqb headerToken "" then handler ctx req
      else match ValidateCSRFToken cookieToken headerToken with
           | Err e => ret (Err (Status PermissionDenied ("CSRF validation failed: " +:+ error_string e)))
           | Ok _ => handler ctx req
           end
  end.

Definition extractBearerTokenFromMetadata (ctx : Ctx) : result string :=
  match ctx_metadata ctx with
  | None => Err (Fresh "missing token")
  | Some md =>
      match md_Get md "authorization" with
      | [] => Err (Fresh "missing token")
      | v :: _ =>
          match SplitN2 (TrimSpace v) " "%char with
          | [p0; p1] => if negb (String.eqb p0 "Bearer") || String.eqb (TrimSpace p1) ""
                        then Err (Fresh "invalid token") else Ok (TrimSpace p1)
          | _ => Err (Fresh "invalid token")
          end
      end
  end.

Definition AuthenticationInterceptor (authenticator : option Authenticator) (publicMethods : gset string)
  : Interceptor := fun method handler ctx req =>
  match authenticator with
  | None => ret (Err (Status Internal "internal server error"))
  | Some a =>
      if bool_decide (method ∈ publicMethods) then handler ctx req
      else match extractBearerTokenFromMetadata ctx with
      | Err e => ret (Err (Status Unauthenticated (error_string e)))
      | Ok tokenString =>
          principal <-- Authenticate a tokenString ;;
          match principal with
          | Err _ => ret (Err (Status Unauthenticated "invalid authorize format"))
          | Ok p => handler (SetPrincipal ctx p) req
          end
      end
  end.

Definition PermissionInterceptor (authorizer : option Authorizer)
  (methodPermissions : gmap string PermissionCode) : Interceptor := fun method handler ctx req =>
  match authorizer with
  | None => ret (Err (Status Internal "internal server error"))
  | Some a =>
      match methodPermissions !! method with
      | None => handler ctx req
      | Some requiredPermission =>
          match GetPrincipal ctx with
          | None => ret (Err (Status Unauthenticated "unauthorized"))
          | Some p =>
              if negb (HasPermission a (Some p) requiredPermission)
              then ret (Err (Status PermissionDenied "forbidden"))
              else handler ctx req
          end
      end
  end.

(** ** The chain of [NewGRPCServer] *)
Definition buildGRPCPublicMethods : gset string := list_to_set
  [ "/grpc.health.v1.Health/Check"%string; AuthService_Login; AuthService_RefreshToken ].

Definition buildGRPCMethodPermissions : gmap string PermissionCode := list_to_map
  [ (SM_CreateServer, PermServerCreate); (SM_UpdateServer, PermServerUpdate);
    (SM_DeleteServer, PermServerDelete); (SM_ImportServers, PermServerImport);
    (SM_ExportServers, PermServerExport); (SM_ViewServers, PermServerRead);
    (ReportingService_RequestReport, PermReportRequest) ].

Record GRPCServerDeps := mkDeps {
  deps_Authenticator : option Authenticator;
  deps_Authorizer : option Authorizer;
  deps_RateLimiter : option Limiter;
  deps_KeyBuilder : KeyBuilder;
  deps_RateLimitConfig : option RateLimitConfig;
}.

Definition chain (deps : GRPCServerDeps) : Interceptor := fun method handler =>
  RecoveryInterceptor method
  (PreAuthRateLimitInterceptor (deps_RateLimiter deps) (deps_KeyBuilder deps) (deps_RateLimitConfig deps) method
  (ValidationInterceptor method
  (CSRFInterceptor method
  (AuthenticationInterceptor (deps_Authenticator deps) buildGRPCPublicMethods method
  (PostAuthRateLimitInterceptor (deps_RateLimiter deps) (deps_KeyBuilder deps) (deps_RateLimitConfig deps) method
  (PermissionInterceptor (deps_Authorizer deps) buildGRPCMethodPermissions method handler)))))).

End Interceptors.

(** ** The HTTP gateway *)

(** grpc-gateway's [DefaultHeaderMatcher], with its result as a metadata key
    (in lower case): permanent HTTP headers get the prefix "grpcgateway-",
    headers "Grpc-Metadata-X" are forwarded as X, every other header is
    dropped. *)
Class HeaderMatcher := {
  DefaultHeaderMatcher : string -> option string;
  DefaultHeaderMatcher_spec : forall k k', DefaultHeaderMatcher k = Some k' ->
    HasPrefix k' "grpcgateway-" = true \/ HasPrefix k "Grpc-Metadata-" = true;
}.

Section Gateway.
Context `{HM : HeaderMatcher}.

Definition CustomIncomingMatcher (key : string) : option string :=
  if String.eqb key "Cookie" then Some "cookie"%string else DefaultHeaderMatcher key.

Definition CustomOutgoingMatcher (key : string) : option string :=
  if bool_decide (key ∈ ["set-cookie-access-token"; "set-cookie-refresh-token";
                         "set-cookie-csrf-token"; "clear-cookie"]%string)
  then Some "Set-Cookie"%string else DefaultHeaderMatcher key.

(** [CookieMiddleware]: the access cookie becomes one more Authorization header. *)
Definition CookieMiddleware (headers : list (string * string)) (access_cookie : option string)
  : list (string * string) :=
  match access_cookie with
  | Some v => headers ++ [("Authorization"%string, "Bearer " +:+ v)]
  | None => headers
  end.

(** What the gateway may put in the metadata of the call it makes for an HTTP
    request: headers the incoming matcher lets through, and three keys of its
    own. *)
Definition gateway_forwards (headers md : list (string * string)) : Prop :=
  forall k v, (k, v) ∈ md ->
    k ∈ ["authorization"; "x-forwarded-for"; "x-forwarded-host"]%string \/
    exists h, h ∈ map fst headers /\ CustomIncomingMatcher h = Some k.
End Gateway.

(** ** Properties *)
Section ChainProperties.
Context `{E : Env} {L : EnvLaws E} {RS : RateStore RedisServer} `{PV : Protovalidate}.

(** Handlers that behave the same on every call. *)
Definition handler_eq (h h' : Handler) : Prop := forall ctx req w, h ctx req w = h' ctx req w.

#[export] Instance handler_eq_equivalence : Equivalence handler_eq.
Proof.
  split; [by intros h ctx req w | by intros h h' H ctx req w |].
  intros h1 h2 h3 H1 H2 ctx req w. by rewrite H1, H2.
Qed.

(** Interceptors are functions of the behaviour of the handler. *)
#[export] Instance Recovery_proper m : Proper (handler_eq ==> handler_eq) (RecoveryInterceptor m).
Proof. intros h h' H ctx req w. unfold RecoveryInterceptor. by rewrite H. Qed.

#[export] Instance Validation_proper m : Proper (handler_eq ==> handler_eq) (ValidationInterceptor m).
Proof.
  intros h h' H ctx req w. unfold ValidationInterceptor.
  destruct req; try (by destruct (Validate _)); done.
Qed.

#[export] Instance CSRF_proper m : Proper (handler_eq ==> handler_eq) (CSRFInterceptor m).
Proof.
  intros h h' H ctx req w. unfold CSRFInterceptor. destruct (bool_decide _); [| apply H].
  destruct (ctx_metadata ctx); [| apply H]. cbn [negb].
  destruct (_ && _)%bool; [apply H |]. by destruct (ValidateCSRFToken _ _).
Qed.

#[export] Instance Authentication_proper a pm m : Proper (handler_eq ==> handler_eq) (AuthenticationInterceptor a pm m).
Proof.
  intros h h' H ctx req w. unfold AuthenticationInterceptor. destruct a as [a|]; [| done].
  destruct (bool_decide _); [apply H |]. destruct (extractBearerTokenFromMetadata ctx); [| done].
  unfold bind. destruct (Authenticate a _ w) as [w1 [[p|e]|]]; [apply H | done | done].
Qed.

#[export] Instance Permission_proper a mp m : Proper (handler_eq ==> handler_eq) (PermissionInterceptor a mp m).
Proof.
  intros h h' H ctx req w. unfold PermissionInterceptor. destruct a as [a|]; [| done].
  destruct (mp !! m); [| apply H]. destruct (GetPrincipal ctx); [| done]. destruct (negb _); [done | apply H].
Qed.

Lemma run_checks_ext limiter fo policy checks next next' w :
  (forall w, next w = next' w) ->
  run_checks limiter fo policy checks next w = run_checks limiter fo policy checks next' w.
Proof.
  intros Hn. revert w. induction checks as [|[scope key] rest IH]; intros w; cbn; [apply Hn |].
  unfold bind. destruct (limiter key policy w) as [w1 [[r|e]|]]; [| destruct fo; [apply Hn | done] | done].
  destruct (negb _); [done | apply IH].
Qed.

#[export] Instance RateLimit_proper l kb cfg ph m : Proper (handler_eq ==> handler_eq) (rateLimitInterceptor l kb cfg ph m).
Proof.
  intros h h' H ctx req w. unfold rateLimitInterceptor. destruct cfg as [cfg|], l as [l|]; try apply H.
  destruct (negb _); [apply H |]. destruct (negb _); [apply H |]. apply run_checks_ext. intros w'. apply H.
Qed.
#[export] Instance PreAuth_proper l kb cfg m : Proper (handler_eq ==> handler_eq) (PreAuthRateLimitInterceptor l kb cfg m).
Proof. apply RateLimit_proper. Qed.
#[export] Instance PostAuth_proper l kb cfg m : Proper (handler_eq ==> handler_eq) (PostAuthRateLimitInterceptor l kb cfg m).
Proof. apply RateLimit_proper. Qed.

(** The handler [h] where [p] holds of the context, [k] elsewhere. *)
Definition only_when (p : Ctx -> bool) (h k : Handler) : Handler :=
  fun ctx req => if p ctx then h ctx req else k ctx req.

Definition authorized (perm : PermissionCode) (ctx : Ctx) : bool :=
  match ctx_principal ctx with
  | Some p => HasPermission NewAuthorizer (Some p) perm
  | None => false
  end.

Lemma Permission_guards mp m perm h k :
  mp !! m = Some perm ->
  handler_eq (PermissionInterceptor (Some NewAuthorizer) mp m h)
             (PermissionInterceptor (Some NewAuthorizer) mp m (only_when (authorized perm) h k)).
Proof.
  intros Hm ctx req w. unfold PermissionInterceptor, GetPrincipal, only_when, authorized. rewrite Hm.
  destruct (ctx_principal ctx) as [p|]; [| done]. by destruct (HasPermission NewAuthorizer (Some p) perm).
Qed.

(** What a handler does for a principal without the permission changes nothing
    of the server. *)
Theorem unauthorized_part_is_dead deps method perm h k :
  deps_Authorizer deps = Some NewAuthorizer ->
  buildGRPCMethodPermissions !! method = Some perm ->
  handler_eq (chain deps method h) (chain deps method (only_when (authorized perm) h k)).
Proof.
  intros Ha Hm. unfold chain. rewrite Ha. by rewrite (Permission_guards _ _ _ h k Hm).
Qed.

(** What a layer does with a call: it answers on its own, or it passes the call
    on unchanged, in the world it has reached. *)
Definition answers_or_passes (layer : Handler -> Handler) (ctx : Ctx) (req : Request) (w : World) : Prop :=
  (exists r, forall h, layer h ctx req w = r) \/ (exists w', forall h, layer h ctx req w = h ctx req w').

Lemma run_checks_stops_or_goes_on limiter fo policy checks w :
  (exists r, forall next, run_checks limiter fo policy checks next w = r) \/
  (exists w', forall next, run_checks limiter fo policy checks next w = next w').
Proof.
  revert w. induction checks as [|[scope key] rest IH]; intros w; cbn [run_checks]; [right; by exists w |].
  unfold bind. destruct (limiter key policy w) as [w1 [[res|e]|]];
    [destruct (negb _); [left; by eexists | apply IH] | destruct fo; [right; by exists w1 | left; by eexists] | left; by eexists].
Qed.

Lemma RateLimit_answers_or_passes l kb cfg ph m ctx req w :
  answers_or_passes (rateLimitInterceptor l kb cfg ph m) ctx req w.
Proof.
  unfold answers_or_passes, rateLimitInterceptor. destruct cfg as [cfg|], l as [l|]; try (right; by exists w).
  destruct (negb (rl_Enabled cfg)); [right; by exists w |]. destruct (negb _); [right; by exists w |].
  destruct (run_checks_stops_or_goes_on l (rl_FailOpen cfg) (PolicyForMethod m)
              (buildRateLimitChecks ctx req kb (PolicyForMethod m)) w) as [[r Hr]|[w' Hw]].
  - left. exists r. intros h. apply Hr.
  - right. exists w'. intros h. apply Hw.
Qed.

Lemma Validation_answers_or_passes m ctx req w : answers_or_passes (ValidationInterceptor m) ctx req w.
Proof.
  unfold answers_or_passes, ValidationInterceptor.
  destruct req; try (destruct (Validate _); [right; by exists w |]); left; by eexists.
Qed.

Lemma CSRF_answers_or_passes m ctx req w : answers_or_passes (CSRFInterceptor m) ctx req w.
Proof.
  unfold answers_or_passes, CSRFInterceptor. destruct (negb _); [right; by exists w |].
  destruct (ctx_metadata ctx); [| right; by exists w]. destruct (_ && _)%bool; [right; by exists w |].
  destruct (ValidateCSRFToken _ _); [right; by exists w | left; by eexists].
Qed.

(** A call behind a layer that answers or passes: fixed, or the inner one. *)
Lemma answers_or_passes_under outer (inner : Handler -> Handler) ctx req w :
  (forall w, answers_or_passes outer ctx req w) ->
  (exists r, forall h, outer (inner h) ctx req w = r) \/ (exists w', forall h, outer (inner h) ctx req w = inner h ctx req w').
Proof.
  intros Ho. destruct (Ho w) as [[r Hr]|[w' Hw]]; [left; exists r; intros h; apply Hr | right; exists w'; intros h; apply Hw].
Qed.

(** What authentication leaves of a call to a method that is not public: an
    answer that no handler had a part in, or the call in the name of the
    principal that the authenticator returned for the token of the request. *)
Lemma Authentication_answers_or_authenticates a pm m ctx req w :
  m ∉ pm ->
  (exists r, forall h, AuthenticationInterceptor (Some a) pm m h ctx req w = r) \/
  (exists tok p w', extractBearerTokenFromMetadata ctx = Ok tok /\ Authenticate a tok w = (w', Done (Ok p)) /\
     forall h, AuthenticationInterceptor (Some a) pm m h ctx req w = h (SetPrincipal ctx p) req w').
Proof.
  intros Hm. unfold AuthenticationInterceptor. rewrite bool_decide_eq_false_2 by done.
  destruct (extractBearerTokenFromMetadata ctx) as [tok|e]; [| left; by eexists].
  unfold bind. destruct (Authenticate a tok w) as [w' [[p|e]|]] eqn:Ha; [| left; by eexists | left; by eexists].
  right. exists tok, p, w'. done.
Qed.

Lemma Permission_answers_or_allows mp m perm ctx req w :
  mp !! m = Some perm ->
  (exists r, forall h, PermissionInterceptor (Some NewAuthorizer) mp m h ctx req w = r) \/
  (authorized perm ctx = true /\ forall h, PermissionInterceptor (Some NewAuthorizer) mp m h ctx req w = h ctx req w).
Proof.
  intros Hm. unfold PermissionInterceptor, GetPrincipal, authorized. rewrite Hm.
  destruct (ctx_principal ctx) as [p|]; [| left; by eexists].
  destruct (HasPermission NewAuthorizer (Some p) perm); cbn [negb]; [right; by split | left; by eexists].
Qed.

Lemma guarded_methods_not_public m perm : buildGRPCMethodPermissions !! m = Some perm -> m ∉ buildGRPCPublicMethods.
Proof.
  intros Hm Hin. apply elem_of_list_to_map_2 in Hm.
  repeat (apply elem_of_cons in Hm as [Hm|Hm]; [injection Hm as -> _; revert Hin; by vm_compute |]).
  by apply not_elem_of_nil in Hm.
Qed.

(** The layers behind the recovery, without it. *)
Lemma guarded_call_fate deps a method perm ctx req w :
  deps_Authorizer deps = Some NewAuthorizer -> deps_Authenticator deps = Some a ->
  buildGRPCMethodPermissions !! method = Some perm ->
  let layers h := PreAuthRateLimitInterceptor (deps_RateLimiter deps) (deps_KeyBuilder deps) (deps_RateLimitConfig deps) method
    (ValidationInterceptor method (CSRFInterceptor method
    (AuthenticationInterceptor (Some a) buildGRPCPublicMethods method
    (PostAuthRateLimitInterceptor (deps_RateLimiter deps) (deps_KeyBuilder deps) (deps_RateLimitConfig deps) method
    (PermissionInterceptor (Some NewAuthorizer) buildGRPCMethodPermissions method h))))) in
  (exists r, forall h, layers h ctx req w = r) \/
  (exists tok p w1 w2 w3, extractBearerTokenFromMetadata ctx = Ok tok /\ Authenticate a tok w1 = (w2, Done (Ok p)) /\
     HasPermission NewAuthorizer (Some p) perm = true /\ forall h, layers h ctx req w = h (SetPrincipal ctx p) req w3).
Proof.
  intros _ _ Hm layers. unfold layers.
  destruct (answers_or_passes_under (PreAuthRateLimitInterceptor (deps_RateLimiter deps) (deps_KeyBuilder deps) (deps_RateLimitConfig deps) method)
              (fun h => ValidationInterceptor method (CSRFInterceptor method
    (AuthenticationInterceptor (Some a) buildGRPCPublicMethods method
    (PostAuthRateLimitInterceptor (deps_RateLimiter deps) (deps_KeyBuilder deps) (deps_RateLimitConfig deps) method
    (PermissionInterceptor (Some NewAuthorizer) buildGRPCMethodPermissions method h)))))
              ctx req w (RateLimit_answers_or_passes _ _ _ _ _ _ _)) as [?|[wa Ha]]; [by left |].
  destruct (Validation_answers_or_passes method ctx req wa) as [[r Hr]|[wb Hb]];
    [left; exists r; intros h; rewrite Ha; apply Hr |].
  destruct (CSRF_answers_or_passes method ctx req wb) as [[r Hr]|[wc Hc]];
    [left; exists r; intros h; rewrite Ha, Hb; apply Hr |].
  destruct (Authentication_answers_or_authenticates a _ method ctx req wc (guarded_methods_not_public _ _ Hm))
    as [[r Hr]|(tok & p & wd & Htok & Hauth & Hd)]; [left; exists r; intros h; rewrite Ha, Hb, Hc; apply Hr |].
  destruct (RateLimit_answers_or_passes (deps_RateLimiter deps) (deps_KeyBuilder deps) (deps_RateLimitConfig deps)
              PhasePostAuth method (SetPrincipal ctx p) req wd) as [[r Hr]|[we He]];
    [left; exists r; intros h; rewrite Ha, Hb, Hc, Hd; apply Hr |].
  destruct (Permission_answers_or_allows _ method perm (SetPrincipal ctx p) req we Hm) as [[r Hr]|[Hperm Hf]];
    [left; exists r; intros h; rewrite Ha, Hb, Hc, Hd; unfold PostAuthRateLimitInterceptor; rewrite He; apply Hr |].
  right. exists tok, p, wc, wd, we. repeat (split; [done |]). intros h.
  rewrite Ha, Hb, Hc, Hd. unfold PostAuthRateLimitInterceptor. by rewrite He, Hf.
Qed.

(** C16: What the interceptor chain makes of a call to a method that needs a
    permission.  Either the chain answers it and no handler has a part in the
    answer, or the request carries a bearer token, the authenticator returned a
    principal for that token, the principal has the permission of the method,
    and the handler runs with that principal in its context, a panic of it being
    turned into an internal error. *)
Theorem handler_runs_authorized deps a method perm ctx req w :
  deps_Authorizer deps = Some NewAuthorizer -> deps_Authenticator deps = Some a ->
  buildGRPCMethodPermissions !! method = Some perm ->
  (exists r, forall h, chain deps method h ctx req w = r) \/
  (exists tok p w1 w2 w3, extractBearerTokenFromMetadata ctx = Ok tok /\ Authenticate a tok w1 = (w2, Done (Ok p)) /\
     HasPermission NewAuthorizer (Some p) perm = true /\
     forall h, chain deps method h ctx req w = RecoveryInterceptor method h (SetPrincipal ctx p) req w3).
Proof.
  intros Hz Ha Hm. destruct (guarded_call_fate deps a method perm ctx req w Hz Ha Hm)
    as [[r Hr]|(tok & p & w1 & w2 & w3 & Htok & Hauth & Hp & Hh)]; unfold chain; rewrite Hz, Ha.
  - left. eexists. intros h. unfold RecoveryInterceptor. rewrite Hr. reflexivity.
  - right. exists tok, p, w1, w2, w3. repeat (split; [done |]). intros h.
    unfold RecoveryInterceptor. by rewrite Hh.
Qed.

(** Both sides have answered with the same error. *)
Ltac answered := eexists _, _; split; [reflexivity | split; [reflexivity | first [assumption | reflexivity]]].

(** A user who is not an administrator gets no further than reading servers:
    the handler of every other guarded method is not run. *)
Theorem users_only_read deps method perm h k ctx req w tok p w1 :
  deps_Authorizer deps = Some NewAuthorizer ->
  buildGRPCMethodPermissions !! method = Some perm -> perm <> PermServerRead ->
  deps_RateLimitConfig deps = None -> (exists a, deps_Authenticator deps = Some a /\
    Authenticate a tok w = (w1, Done (Ok p))) ->
  principal_RoleCode p = RoleCodeUser ->
  extractBearerTokenFromMetadata ctx = Ok tok ->
  exists w' e, chain deps method h ctx req w = (w', Done (Err e)) /\
               chain deps method k ctx req w = (w', Done (Err e)) /\ w_servers w' = w_servers w.
Proof.
  intros Ha Hm Hne Hrl (a & Hau & Hauth) Hrole Htok.
  assert (HasPermission NewAuthorizer (Some p) perm = false) as Hno.
  { destruct (HasPermission NewAuthorizer (Some p) perm) eqn:Hp; [| done].
    apply HasPermission_cases in Hp as [->|[Hr|[_ ->]]]; [| by rewrite Hrole in Hr | done].
    apply elem_of_list_to_map_2 in Hm. exfalso.
    repeat (apply elem_of_cons in Hm as [Hm|Hm]; [by injection Hm |]). by apply not_elem_of_nil in Hm. }
  assert (bool_decide (method ∈ buildGRPCPublicMethods) = false) as Hpub
    by (apply bool_decide_eq_false_2; by eapply guarded_methods_not_public).
  pose proof (Authenticate_tables a tok w) as Hs. rewrite Hauth in Hs. cbn in Hs.
  assert (forall h', AuthenticationInterceptor (deps_Authenticator deps) buildGRPCPublicMethods method
            (PostAuthRateLimitInterceptor (deps_RateLimiter deps) (deps_KeyBuilder deps) (deps_RateLimitConfig deps) method
               (PermissionInterceptor (deps_Authorizer deps) buildGRPCMethodPermissions method h')) ctx req w
          = (w1, Done (Err (Status PermissionDenied "forbidden")))) as HA.
  { intros h'. unfold AuthenticationInterceptor, PostAuthRateLimitInterceptor, rateLimitInterceptor, PermissionInterceptor, bind.
    rewrite Hau, Hpub, Htok, Hauth, Hrl, Ha, Hm. cbn [GetPrincipal SetPrincipal ctx_principal]. by rewrite Hno. }
  unfold chain, RecoveryInterceptor, PreAuthRateLimitInterceptor, rateLimitInterceptor. rewrite Hrl in HA |- *.
  unfold ValidationInterceptor, CSRFInterceptor.
  destruct req; try (destruct (Validate _); [| answered]); try answered.
  all: destruct (negb _); [rewrite !HA; answered |].
  all: destruct (ctx_metadata ctx); [| rewrite !HA; answered].
  all: destruct (_ && _)%bool; [rewrite !HA; answered |].
  all: destruct (ValidateCSRFToken _ _); [rewrite !HA; answered | answered].
Qed.

(** The server never crashes on a call: a panic of any layer or of the handler
    becomes an internal error. *)
Theorem chain_never_panics deps method h ctx req w :
  exists w' r, chain deps method h ctx req w = (w', Done r).
Proof.
  unfold chain. set (h' := PreAuthRateLimitInterceptor _ _ _ _ _). unfold RecoveryInterceptor.
  destruct (h' ctx req w) as [w' [r|]]; eauto.
Qed.

(** Without a bearer token a method that is not public is not handled. *)
Theorem no_token_no_call deps method h k ctx req w :
  method ∉ buildGRPCPublicMethods -> is_ok (extractBearerTokenFromMetadata ctx) = false ->
  chain deps method h ctx req w = chain deps method k ctx req w.
Proof.
  intros Hpub Htok. unfold chain. 
  unfold RecoveryInterceptor. set (A := AuthenticationInterceptor _ _ _).
  assert (forall h' k' req w, A h' ctx req w = A k' ctx req w) as HA.
  { intros h' k' req' w'. unfold A, AuthenticationInterceptor. destruct (deps_Authenticator deps); [| done].
    rewrite bool_decide_eq_false_2 by done. by destruct (extractBearerTokenFromMetadata ctx). }
  assert (forall h' k' req w, CSRFInterceptor method (A h') ctx req w = CSRFInterceptor method (A k') ctx req w) as HC.
  { intros h' k' req' w'. unfold CSRFInterceptor. destruct (negb _); [apply HA |].
    destruct (ctx_metadata ctx); [| apply HA]. destruct (_ && _)%bool; [apply HA |].
    destruct (ValidateCSRFToken _ _); [apply HA | done]. }
  assert (forall h' k' w, ValidationInterceptor method (CSRFInterceptor method (A h')) ctx req w =
                          ValidationInterceptor method (CSRFInterceptor method (A k')) ctx req w) as HV.
  { intros h' k' w'. unfold ValidationInterceptor. destruct req; try (destruct (Validate _); [apply HC | done]); done. }
  unfold PreAuthRateLimitInterceptor, rateLimitInterceptor.
  destruct (deps_RateLimitConfig deps) as [cfg|], (deps_RateLimiter deps) as [l|];
    try (by erewrite HV). destruct (negb (rl_Enabled cfg)); [by erewrite HV |].
  destruct (negb (String.eqb _ _)); [by erewrite HV |].
  erewrite run_checks_ext; [reflexivity |]. intros w'. apply HV.
Qed.

(** Through the gateway the CSRF check never runs: no header a browser sends
    becomes one of the two metadata keys it reads, and with neither key present
    it lets every call through. *)
Theorem csrf_check_is_void_behind_gateway `{HM : HeaderMatcher} method h headers md peer p :
  gateway_forwards headers md ->
  Forall (fun k => HasPrefix k "Grpc-Metadata-" = false) (map fst headers) ->
  forall req w, CSRFInterceptor method h (mkCtx (Some md) peer p) req w = h (mkCtx (Some md) peer p) req w.
Proof.
  intros Hf Hno req w.
  assert (forall key, key ∉ ["authorization"; "x-forwarded-for"; "x-forwarded-host"; "cookie"]%string ->
            HasPrefix key "grpcgateway-" = false -> md_Get md key = []) as Hnone.
  { intros key Hk Hp. unfold md_Get. destruct (List.filter _ md) as [|[k v] l] eqn:Hl; [done |]. exfalso.
    assert (In (k, v) (List.filter (fun kv => String.eqb kv.1 key) md)) as Hin by (rewrite Hl; by left).
    apply List.filter_In in Hin as [Hin He%String.eqb_eq]. cbn in He. subst k.
    destruct (Hf key v) as [Hc|(hd & Hh & Hm)]; [by apply list_elem_of_In | set_solver |].
    unfold CustomIncomingMatcher in Hm. destruct (String.eqb hd "Cookie"); [simplify_eq; set_solver |].
    apply DefaultHeaderMatcher_spec in Hm as [?|Hg]; [congruence |].
    rewrite Forall_forall in Hno. rewrite (Hno hd) in Hg; [done | by apply list_elem_of_In]. }
  unfold CSRFInterceptor. destruct (negb _); [done |]. cbn [ctx_metadata].
  rewrite !Hnone by (done || set_solver). done.
Qed.
End ChainProperties.

(** ** Concrete runs *)
Section ChainRuns.
#[local] Existing Instance mem_env.
#[local] Existing Instance mem_laws.
#[local] Existing Instance spent_store.
#[local] Instance accept_all : Protovalidate := {| Validate _ := Ok tt |}.

#[local] Program Instance no_matcher : HeaderMatcher := {| DefaultHeaderMatcher _ := None |}.

Definition demo_deps : GRPCServerDeps :=
  mkDeps (Some (mkAuthenticator "key" LiveClient)) (Some NewAuthorizer) None (NewKeyBuilder "") None.
Definition crash : Handler := fun _ _ => panic.

Definition user_token : string :=
  match jwt_sign "key" (mkClaims "2" "8" "" "" "" RoleCodeUser 63000000000 0) with Ok t => t | Err _ => "" end.
Definition token_ctx : Ctx := mkCtx (Some [("authorization"%string, "Bearer " +:+ user_token)]) None None.

Lemma user_authenticates :
  exists w1, Authenticate (mkAuthenticator "key" LiveClient) user_token plain_world
             = (w1, Done (Ok (mkPrincipal "2" "" "" "" RoleCodeUser "8"))).
Proof.
  assert ((Authenticate (mkAuthenticator "key" LiveClient) user_token plain_world).2
          = Done (Ok (mkPrincipal "2" "" "" "" RoleCodeUser "8"))) as H by (vm_compute; reflexivity).
  destruct (Authenticate _ _ _) as [w1 r]. cbn in H. exists w1. by rewrite H.
Qed.

(** The same request with the token of an administrator reaches the handler in
    the name of that administrator, although the context came with none. *)
Definition admin_token : string :=
  match jwt_sign "key" (mkClaims "1" "9" "" "" "" RoleCodeAdmin 63000000000 0) with Ok t => t | Err _ => "" end.
Definition admin_ctx : Ctx := mkCtx (Some [("authorization"%string, "Bearer " +:+ admin_token)]) None None.
Definition who_am_i : Handler := fun ctx _ =>
  ret (Ok (LogoutResponse (match ctx_principal ctx with Some p => principal_UserID p | None => "" end))).

Lemma handler_runs_authorized_witness :
  exists p w3, principal_UserID p = "1"%string /\ HasPermission NewAuthorizer (Some p) PermServerDelete = true /\
    forall h, chain demo_deps SM_DeleteServer h admin_ctx (DeleteServerRequest "5") plain_world
      = RecoveryInterceptor SM_DeleteServer h (SetPrincipal admin_ctx p) (DeleteServerRequest "5") w3.
Proof.
  assert ((chain demo_deps SM_DeleteServer who_am_i admin_ctx (DeleteServerRequest "5") plain_world).2
          = Done (Ok (LogoutResponse "1"))) as Hwho by (vm_compute; reflexivity).
  destruct (handler_runs_authorized demo_deps (mkAuthenticator "key" LiveClient) SM_DeleteServer PermServerDelete admin_ctx
              (DeleteServerRequest "5") plain_world)
    as [[r Hr]|(tok & p & w1 & w2 & w3 & _ & _ & Hp & Hh)]; [reflexivity | reflexivity | reflexivity | exfalso |].
  - assert ((chain demo_deps SM_DeleteServer crash admin_ctx (DeleteServerRequest "5") plain_world).2
            = Done (Err (Status Internal "internal server error"))) as Hcrash by (vm_compute; reflexivity).
    rewrite Hr in Hwho, Hcrash. rewrite Hwho in Hcrash. discriminate.
  - exists p, w3. split; [| split; [exact Hp | exact Hh]].
    rewrite (Hh who_am_i) in Hwho. injection Hwho as Hwho. exact Hwho.
Defined.

Lemma users_only_read_witness :
  exists w' e, chain demo_deps SM_DeleteServer crash token_ctx (DeleteServerRequest "5") plain_world = (w', Done (Err e)) /\
    w_servers w' = w_servers plain_world.
Proof.
  destruct user_authenticates as [w1 Hauth].
  destruct (users_only_read demo_deps SM_DeleteServer PermServerDelete crash crash token_ctx (DeleteServerRequest "5")
              plain_world user_token (mkPrincipal "2" "" "" "" RoleCodeUser "8") w1) as (w' & e & H & _ & Hs);
    [reflexivity | reflexivity | discriminate | reflexivity | eexists; split; [reflexivity | exact Hauth]
    | reflexivity | vm_compute; reflexivity |].
  exists w', e. split; [exact H | exact Hs].
Defined.

Lemma no_token_no_call_witness :
  chain demo_deps SM_ViewServers crash user_ctx LogoutRequest plain_world
  = chain demo_deps SM_ViewServers (fun _ _ => ret (Ok (LogoutResponse ""))) user_ctx LogoutRequest plain_world.
Proof.
  apply (no_token_no_call demo_deps SM_ViewServers); [| reflexivity].
  apply (bool_decide_unpack (SM_ViewServers ∉ buildGRPCPublicMethods)). vm_compute. exact I.
Defined.

Lemma csrf_check_is_void_behind_gateway_witness :
  CSRFInterceptor AuthService_Logout crash (mkCtx (Some [("cookie", "csrf_token=a")]%string) None None) LogoutRequest plain_world
  = (plain_world, Panicked).
Proof.
  apply (csrf_check_is_void_behind_gateway AuthService_Logout crash
           [("Cookie", "csrf_token=a"); ("X-Csrf-Token", "b")]%string [("cookie", "csrf_token=a")]%string None None).
  - intros k v Hin%list_elem_of_singleton. injection Hin as -> ->. right. exists "Cookie"%string.
    split; [by left | reflexivity].
  - repeat constructor.
Defined.
End ChainRuns.
