(* ===== verification/Observation.v ===== *)
(** * Observation: [infrastructure/elasticsearch/observation_logger.go]

    The buffered logger of ping results: producers send on a bounded channel
    without blocking, one goroutine collects batches and sends them to
    Elasticsearch in bulk.  The goroutine and its producers are a step
    relation; Elasticsearch is a parameter ([Elastic]).  The main fact: every
    observation the channel accepted is handed to [flush] exactly once, in
    order, and all of them are by the time [Shutdown] returns. *)

From stdpp Require Import base list strings gmap numbers relations.
From Stdlib Require Import ZArith Lia.
From S2P Require Import Prelude GoStrings GoTime GoFloat Domain Env MemEnv Config.
Open Scope Z_scope.

(** ** Elasticsearch *)

(** [es_Bulk index docs]: index the documents; [Ok true] reports that some of
    them failed.  [es_Count index gte lte success]: how many documents have a
    timestamp in the range, all of them or the successful ones. *)
Class Elastic := {
  ES : Type;
  es_Bulk : string -> list ObservationLog -> ES -> ES * result bool;
  es_Count : string -> string -> string -> bool -> ES -> result Z;
}.

(** Which documents an index holds; a bulk request adds all of its documents,
    or some of them when it reports a failure; a range query selects by the
    timestamp only. *)
Class ElasticLaws `{Elastic} := {
  es_docs : ES -> string -> list ObservationLog;
  es_between : string -> string -> Time -> bool;
  es_Bulk_spec : forall index docs es,
    match (es_Bulk index docs es).2 with
    | Ok false => es_docs (es_Bulk index docs es).1 index = es_docs es index ++ docs
    | _ => exists part, sublist part docs /\ es_docs (es_Bulk index docs es).1 index = es_docs es index ++ part
    end;
  es_Count_spec : forall index gte lte success es n,
    es_Count index gte lte success es = Ok n ->
    n = Z.of_nat (length (List.filter (fun o => es_between gte lte (obs_Timestamp o) &&
                                                (negb success || obs_IsSuccess o)) (es_docs es index)));
}.

Section Logger.
Context `{EL : Elastic}.

(** [bufferedLogger]: what does not change; the client may be nil. *)
Record bufferedLogger := mkLogger {
  log_client : bool;
  log_index : string;
  log_batchSize : Z;
  log_flushInterval : Duration;
  log_retryMax : Z;
  log_retryDelay : Duration;
}.

(** [make(chan T, size)] panics on a negative size. *)
Definition make_chan {A} (size : Z) : exec (Chan A) :=
  if size <? 0 then Panicked else Done (mkChan [] (Z.to_nat size) false).

(** The logger and its channel; the goroutine is started on them. *)
Definition NewObservationLogger (client : bool) (index : string) (cfg : ObservationLoggerConfig)
  : exec (bufferedLogger * Chan ObservationLog) :=
  match make_chan (ol_ChannelSize cfg) with
  | Panicked => Panicked
  | Done ch => Done (mkLogger client index (ol_BatchSize cfg) (int64 (ol_FlushMs cfg * Millisecond))
                       (ol_RetryMax cfg) (int64 (ol_RetryDelayMs cfg * Millisecond)), ch)
  end.

(** What the goroutine [flusher] does before its loop: [time.NewTicker] panics
    on an interval that is not positive, [make([]ObservationLog, 0, batchSize)]
    on a negative capacity.  Nothing recovers a panic of this goroutine: it ends
    the process. *)
Definition flusher_begins (l : bufferedLogger) : exec () :=
  if log_flushInterval l <=? 0 then Panicked
  else if log_batchSize l <? 0 then Panicked else Done tt.

(** ** [flush]: the retry loop

    The documents of a batch marshal (the year of a reading of the clock has
    four digits), so the body of the request holds all of them. *)
Fixpoint bulk_retry (index : string) (batch : list ObservationLog) (retries : nat) (es : ES) : ES :=
  match retries with
  | O => es
  | S n => match es_Bulk index batch es with
           | (es, Ok false) => es
           | (es, _) => bulk_retry index batch n es
           end
  end.

Definition flush (l : bufferedLogger) (batch : list ObservationLog) (es : ES) : ES :=
  if negb (log_client l) then es
  else bulk_retry (log_index l) batch (Z.to_nat (log_retryMax l)) es.

(** ** The goroutine [flusher] and the producers *)
Record LoggerState := mkLoggerState {
  ls_ch : Chan ObservationLog;
  ls_batch : list ObservationLog;
  ls_es : ES;
  ls_done : bool;                          (* the goroutine has returned *)
  ls_accepted : list ObservationLog;       (* history: what the channel took *)
  ls_flushed : list (list ObservationLog); (* history: the batches flushed *)
}.

Definition do_flush (l : bufferedLogger) (s : LoggerState) : LoggerState :=
  mkLoggerState (ls_ch s) [] (flush l (ls_batch s) (ls_es s)) (ls_done s) (ls_accepted s)
    (ls_flushed s ++ [ls_batch s]).

Definition set_done (s : LoggerState) : LoggerState :=
  mkLoggerState (ls_ch s) (ls_batch s) (ls_es s) true (ls_accepted s) (ls_flushed s).

(** [case obs, ok := <-l.ch] when a value is received *)
Definition on_receive (l : bufferedLogger) (obs : ObservationLog) (ch : Chan ObservationLog)
  (s : LoggerState) : LoggerState :=
  let s := mkLoggerState ch (ls_batch s ++ [obs]) (ls_es s) (ls_done s) (ls_accepted s) (ls_flushed s) in
  if log_batchSize l <=? Z.of_nat (length (ls_batch s)) then do_flush l s else s.

(** ... and when the channel is closed and drained *)
Definition on_closed (l : bufferedLogger) (s : LoggerState) : LoggerState :=
  set_done (if (0 <? length (ls_batch s))%nat then do_flush l s else s).

(** [case <-ticker.C] *)
Definition on_tick (l : bufferedLogger) (s : LoggerState) : LoggerState :=
  if (0 <? length (ls_batch s))%nat then do_flush l s else s.

(** A step of the goroutine or of a producer. *)
Inductive logger_step (l : bufferedLogger) : LoggerState -> LoggerState -> Prop :=
| step_log s obs ch' :
    chan_send obs (ls_ch s) = Sent ch' ->
    logger_step l s (mkLoggerState ch' (ls_batch s) (ls_es s) (ls_done s)
                       (ls_accepted s ++ [obs]) (ls_flushed s))
| step_drop s obs :
    chan_send obs (ls_ch s) = WouldBlock -> logger_step l s s
| step_close s :
    ch_closed (ls_ch s) = false ->
    logger_step l s (mkLoggerState (chan_close (ls_ch s)) (ls_batch s) (ls_es s) (ls_done s)
                       (ls_accepted s) (ls_flushed s))
| step_receive s obs ch' :
    ls_done s = false -> chan_recv (ls_ch s) = Received obs ch' ->
    logger_step l s (on_receive l obs ch' s)
| step_closed s :
    ls_done s = false -> chan_recv (ls_ch s) = Closed -> logger_step l s (on_closed l s)
| step_tick s :
    ls_done s = false -> logger_step l s (on_tick l s).

(** The state in which the goroutine enters its loop, after
    [NewObservationLogger] and [flusher_begins]; [cap] is the size of the
    channel. *)
Definition logger_start (cap : nat) (es : ES) : LoggerState :=
  mkLoggerState (mkChan [] cap false) [] es false [] [].

(** ** Nothing is lost *)

(** What was accepted is what was flushed, then the batch, then the channel. *)
Definition in_order (s : LoggerState) : Prop :=
  ls_accepted s = concat (ls_flushed s) ++ ls_batch s ++ ch_buf (ls_ch s) /\
  (ls_done s = true -> ls_batch s = [] /\ ch_buf (ls_ch s) = [] /\ ch_closed (ls_ch s) = true) /\
  Forall (fun b => b <> []) (ls_flushed s).

Lemma in_order_flush l s : ls_batch s <> [] -> ls_done s = false -> in_order s -> in_order (do_flush l s).
Proof.
  intros Hne Hd (Ha & Hdone & Hf). split; [| split].
  - cbn. rewrite concat_app. cbn. rewrite app_nil_r, <- app_assoc. exact Ha.
  - cbn. by rewrite Hd.
  - cbn. apply Forall_app_2; [done | by constructor].
Qed.

Lemma in_order_step l s s' : logger_step l s s' -> in_order s -> in_order s'.
Proof.
  intros Hstep Hin. pose proof Hin as (Ha & Hdone & Hf). inversion Hstep as [? obs ch' Hs|? obs Hs|? Hc|? obs ch' Hd Hr|? Hd Hr|? Hd]; subst.
  - apply chan_send_buf in Hs as (Hb & Hc & _). split; [| split; [| done]]; cbn.
    + rewrite Ha, Hb, !app_assoc. done.
    + intros Hd. destruct (Hdone Hd) as (_ & _ & ?). congruence.
  - done.
  - split; [done | split; [| done]]. cbn. intros Hd. destruct (Hdone Hd) as (? & ? & ?). auto.
  - apply chan_recv_buf in Hr as (Hb & Hc & _). unfold on_receive.
    assert (in_order (mkLoggerState ch' (ls_batch s ++ [obs]) (ls_es s) (ls_done s) (ls_accepted s) (ls_flushed s))) as Hin'.
    { split; [| split; [| done]]; cbn; [by rewrite Ha, Hb, <- !app_assoc | by rewrite Hd]. }
    destruct (_ <=? _); [| done]. apply in_order_flush; [| done | done]. cbn. by destruct (ls_batch s).
  - unfold on_closed. unfold chan_recv in Hr. destruct (ch_buf (ls_ch s)) eqn:Hb; [| done].
    destruct (ch_closed (ls_ch s)) eqn:Hc; [| done].
    destruct (Nat.ltb_spec 0 (length (ls_batch s))) as [Hl|Hl].
    + assert (in_order (do_flush l s)) as (Ha' & _ & Hf')
        by (apply in_order_flush; [intros He; rewrite He in Hl; cbn in Hl; lia | done | done]).
      split; [done | split; [| done]]. cbn. auto.
    + destruct (ls_batch s) eqn:Hbt; [| cbn in Hl; lia]. split; [| split; [| done]]; cbn.
      * by rewrite Hbt, Hb in *.
      * auto.
  - unfold on_tick. destruct (Nat.ltb_spec 0 (length (ls_batch s))) as [Hl|Hl]; [| done].
    apply in_order_flush; [intros He; rewrite He in Hl; cbn in Hl; lia | done | done].
Qed.

Lemma in_order_reach l cap es s : rtc (logger_step l) (logger_start cap es) s -> in_order s.
Proof.
  revert s. apply (rtc_ind_r in_order); [split; [done | split; [done | constructor]] |].
  intros x y _ Hxy Hx. by eapply in_order_step.
Qed.

(** C25: Every observation the channel accepted is flushed exactly once and in
    order: at any time what is not flushed yet is in the batch or the channel,
    and once the goroutine has returned there is nothing left. *)
Theorem observations_flushed_once_in_order l cap es s :
  rtc (logger_step l) (logger_start cap es) s ->
  ls_accepted s = concat (ls_flushed s) ++ ls_batch s ++ ch_buf (ls_ch s) /\
  Forall (fun b => b <> []) (ls_flushed s) /\
  (ls_done s = true -> concat (ls_flushed s) = ls_accepted s).
Proof.
  intros (Ha & Hd & Hf)%in_order_reach. split; [done |]. split; [done |]. intros Hdone. destruct (Hd Hdone) as (Hb & Hc & _).
  by rewrite Ha, Hb, Hc, !app_nil_r.
Qed.

(** The logger comes to its loop for exactly the configurations with sizes that
    are not negative and a flush interval whose nanoseconds, in 64 bits, are
    positive; for the others the process ends with a panic. *)
Theorem logger_starts_iff client index cfg :
  (exists l ch, NewObservationLogger client index cfg = Done (l, ch) /\ flusher_begins l = Done tt) <->
  0 <= ol_ChannelSize cfg /\ 0 < int64 (ol_FlushMs cfg * Millisecond) /\ 0 <= ol_BatchSize cfg.
Proof.
  unfold NewObservationLogger, make_chan, flusher_begins. destruct (Z.ltb_spec (ol_ChannelSize cfg) 0) as [Hn|Hn].
  - split; [by intros (l & ch & ? & _) | lia].
  - split.
    + intros (l & ch & [= <- _] & Hb). cbn in Hb.
      destruct (Z.leb_spec (int64 (ol_FlushMs cfg * Millisecond)) 0), (Z.ltb_spec (ol_BatchSize cfg) 0); [done.. | lia].
    + intros (_ & Hf & Hb). eexists _, _. split; [reflexivity |]. cbn.
      destruct (Z.leb_spec (int64 (ol_FlushMs cfg * Millisecond)) 0); [lia |].
      destruct (Z.ltb_spec (ol_BatchSize cfg) 0); [lia | done].
Qed.

(** *** The end *)

(** A receive of the goroutine, of a value or of the end of the channel. *)
Inductive drain_step (l : bufferedLogger) (s : LoggerState) : LoggerState -> Prop :=
| drain_value obs ch' :
    ls_done s = false -> chan_recv (ls_ch s) = Received obs ch' -> drain_step l s (on_receive l obs ch' s)
| drain_end :
    ls_done s = false -> chan_recv (ls_ch s) = Closed -> drain_step l s (on_closed l s).

(** Runs with [n] receives, between which the ticker fires any number of times. *)
Inductive drain_run (l : bufferedLogger) : nat -> LoggerState -> LoggerState -> Prop :=
| drained_none s : drain_run l 0 s s
| drained_one n s s1 s2 : drain_run l n s s1 -> drain_step l s1 s2 -> drain_run l (S n) s s2
| drained_tick n s s1 : drain_run l n s s1 -> ls_done s1 = false -> drain_run l n s (on_tick l s1).

(** What the goroutine still has to receive. *)
Definition to_drain (s : LoggerState) : nat :=
  (length (ch_buf (ls_ch s)) + if ls_done s then 0 else 1)%nat.

Lemma on_tick_frame l s :
  ls_ch (on_tick l s) = ls_ch s /\ ls_done (on_tick l s) = ls_done s /\ ls_accepted (on_tick l s) = ls_accepted s.
Proof. unfold on_tick. by destruct (0 <? length (ls_batch s))%nat. Qed.

Lemma drain_step_counts l s s' :
  drain_step l s s' ->
  S (to_drain s') = to_drain s /\ ls_accepted s' = ls_accepted s /\ ch_closed (ls_ch s') = ch_closed (ls_ch s).
Proof.
  unfold to_drain. intros [obs ch' Hd Hr|Hd Hr].
  - apply chan_recv_buf in Hr as (Hb & Hc & _). unfold on_receive.
    destruct (_ <=? _); cbn; rewrite Hd, Hb; cbn; (split; [lia | done]).
  - unfold chan_recv in Hr. destruct (ch_buf (ls_ch s)) eqn:Hb; [| done].
    unfold on_closed. destruct (0 <? _)%nat; cbn; rewrite Hd, Hb; done.
Qed.

Lemma drain_run_counts l n s s' :
  drain_run l n s s' ->
  (n + to_drain s' = to_drain s)%nat /\ ls_accepted s' = ls_accepted s /\ ch_closed (ls_ch s') = ch_closed (ls_ch s).
Proof.
  induction 1 as [s|n s s1 s2 _ (IH & Ha & Hc) Hstep|n s s1 _ (IH & Ha & Hc) Hd]; [done | |].
  - destruct (drain_step_counts l s1 s2 Hstep) as (Hm & Ha' & Hc'). split; [lia |]. split; congruence.
  - destruct (on_tick_frame l s1) as (Hch & Hdn & Hacc). unfold to_drain in *. rewrite Hch, Hdn, Hacc. done.
Qed.

(** Once the channel is closed nothing else happens. *)
Lemma closed_runs_drain l s s' :
  ch_closed (ls_ch s) = true -> rtc (logger_step l) s s' -> exists n, drain_run l n s s'.
Proof.
  intros Hc. revert s'. apply (rtc_ind_r (fun s' => exists n, drain_run l n s s')); [exists 0%nat; constructor |].
  intros y z _ Hstep [n Hn]. destruct (drain_run_counts _ _ _ _ Hn) as (_ & _ & Hcy). rewrite Hc in Hcy.
  inversion Hstep as [? obs ch' Hs|? obs Hs|? Hcl|? obs ch' Hd Hr|? Hd Hr|? Hd]; subst.
  - unfold chan_send in Hs. by rewrite Hcy in Hs.
  - by exists n.
  - congruence.
  - exists (S n). eapply drained_one; [exact Hn | by constructor].
  - exists (S n). eapply drained_one; [exact Hn | by constructor].
  - exists n. by constructor.
Qed.

Lemma drain_step_logger l s s' : drain_step l s s' -> logger_step l s s'.
Proof. intros [obs ch' Hd Hr|Hd Hr]; by constructor. Qed.

Lemma drain_run_in_order l n s s' : drain_run l n s s' -> in_order s -> in_order s'.
Proof.
  induction 1 as [s|n s s1 s2 _ IH Hstep|n s s1 _ IH Hd]; intros Hin; [done | |].
  - eapply in_order_step; [by apply drain_step_logger | by apply IH].
  - eapply (in_order_step l s1); [by constructor | by apply IH].
Qed.

(** The goroutine can receive as long as it has not returned. *)
Lemma flusher_progress l s : ch_closed (ls_ch s) = true -> ls_done s = false -> exists s', drain_step l s s'.
Proof.
  intros Hc Hd. destruct (ch_buf (ls_ch s)) as [|obs q] eqn:Hb.
  - eexists. apply drain_end; [done |]. unfold chan_recv. by rewrite Hb, Hc.
  - eexists. eapply drain_value; [done |]. unfold chan_recv. by rewrite Hb.
Qed.

(** C26: From the moment [Shutdown] has closed the channel every run of the
    logger is one of receives and ticks.  However the ticks fall, until it
    returns the goroutine can receive; it returns with exactly one receive more
    than the channel held values, neither earlier nor later; and by then every
    observation the channel ever accepted, those of the last batch included, has
    been flushed, in order. *)
Theorem shutdown_drains l cap es s0 :
  rtc (logger_step l) (logger_start cap es) s0 -> ch_closed (ls_ch s0) = true -> ls_done s0 = false ->
  (forall s, rtc (logger_step l) s0 s -> exists n, drain_run l n s0 s) /\
  forall n s, drain_run l n s0 s ->
    (n <= S (length (ch_buf (ls_ch s0))))%nat /\
    (ls_done s = true <-> n = S (length (ch_buf (ls_ch s0)))) /\
    (ls_done s = false -> exists s', drain_step l s s') /\
    (ls_done s = true -> concat (ls_flushed s) = ls_accepted s0).
Proof.
  intros Hrun Hc Hd. split; [intros s; by apply closed_runs_drain |]. intros n s Hn.
  assert (in_order s) as (Hacc & Hdone & _).
  { eapply drain_run_in_order; [exact Hn | by eapply in_order_reach]. }
  destruct (drain_run_counts _ _ _ _ Hn) as (Hm & Ha & Hcs). rewrite Hc in Hcs.
  unfold to_drain in Hm. rewrite Hd in Hm. split; [lia |]. split; [| split].
  - split; [intros Hs; destruct (Hdone Hs) as (_ & Hb & _); rewrite Hs, Hb in Hm; cbn in Hm; lia |].
    intros ->. destruct (ls_done s); [done | lia].
  - by apply flusher_progress.
  - intros Hs. destruct (Hdone Hs) as (Hb & Hbuf & _). by rewrite <-Ha, Hacc, Hb, Hbuf, !app_nil_r.
Qed.

(** ** What a flush leaves in the index *)
Lemma bulk_retry_docs `{!ElasticLaws} index batch retries es :
  exists parts delivered,
    es_docs (bulk_retry index batch retries es) index =
      es_docs es index ++ concat parts ++ (if delivered : bool then batch else []) /\
    Forall (fun part => sublist part batch) parts /\
    if delivered then (length parts < retries)%nat else length parts = retries.
Proof.
  revert es. induction retries as [|n IH]; intros es; cbn.
  - exists [], false. cbn. by rewrite app_nil_r.
  - pose proof (es_Bulk_spec index batch es) as Hs. destruct (es_Bulk index batch es) as [es' r]. cbn in Hs.
    assert (forall es1, (exists part, sublist part batch /\ es_docs es1 index = es_docs es index ++ part) ->
      exists parts delivered,
        es_docs (bulk_retry index batch n es1) index =
          es_docs es index ++ concat parts ++ (if delivered : bool then batch else []) /\
        Forall (fun part => sublist part batch) parts /\
        if delivered then (length parts < S n)%nat else length parts = S n) as Hretry.
    { intros es1 (part & Hp & Hd). destruct (IH es1) as (parts & delivered & Hdocs & Hf & Hl).
      exists (part :: parts), delivered. rewrite Hdocs, Hd. cbn. rewrite !app_assoc. split; [done |].
      split; [by apply Forall_cons_2 |]. destruct delivered; lia. }
    destruct r as [[|]|]; [by apply Hretry | | by apply Hretry].
    exists [], true. cbn. split; [by rewrite Hs | split; [constructor | lia]].
Qed.

(** A flush with a client makes at most [retryMax] requests: the index grows by
    parts of the batch, one for each request that failed, and then by the whole
    batch if one succeeded; otherwise all the requests failed. *)
Theorem flush_delivers `{!ElasticLaws} l batch es :
  log_client l = true ->
  exists parts delivered,
    es_docs (flush l batch es) (log_index l) =
      es_docs es (log_index l) ++ concat parts ++ (if delivered : bool then batch else []) /\
    Forall (fun part => sublist part batch) parts /\
    if delivered then (length parts < Z.to_nat (log_retryMax l))%nat
    else length parts = Z.to_nat (log_retryMax l).
Proof. intros Hc. unfold flush. rewrite Hc. apply bulk_retry_docs. Qed.

End Logger.

(** ** The operations the rest of the service calls *)
Section ObservationLogger.
Context `{E : Env}.

Definition LogObservation (serverID : string) (isSuccess : bool) : M World () :=
  now <-- time_Now ;;
  fun w => match chan_send (mkObservationLog serverID isSuccess now) (w_observations w) with
           | Sent ch => (set_observations ch w, Done tt)
           | WouldBlock => (w, Done tt)
           | SendPanics => (w, Panicked)
           end.

(** [close(l.ch)] panics when the channel is closed already; [l.wg.Wait()]
    returns when the goroutine is done ([shutdown_drains]). *)
Definition Shutdown : M World () :=
  fun w => if ch_closed (w_observations w) then (w, Panicked)
           else (set_observations (chan_close (w_observations w)) w, Done tt).

Lemma wp_LogObservation id ok w (Q : () -> World -> Prop) (X : World -> Prop) :
  (forall ch, let w1 := set_ticks (S (w_ticks w)) w in
     ch = w_observations w \/
     chan_send (mkObservationLog id ok (w_clock w (w_ticks w))) (w_observations w) = Sent ch ->
     ch_closed (w_observations w) = false -> Q tt (set_observations ch w1)) ->
  (ch_closed (w_observations w) = true -> X (set_ticks (S (w_ticks w)) w)) ->
  wp (LogObservation id ok) w Q X.
Proof.
  intros HQ HX. unfold LogObservation. apply wp_bind, wp_time_Now. unfold wp. world_simpl.
  destruct (chan_send _ _) as [ch| |] eqn:Hs.
  - apply HQ; [by right |]. by destruct (chan_send_buf _ _ _ Hs) as (_ & ? & _).
  - specialize (HQ (w_observations w) (or_introl eq_refl)). 
    unfold chan_send in Hs. destruct (ch_closed _); [done |]. destruct w. by apply HQ.
  - unfold chan_send in Hs. destruct (ch_closed _); [by apply HX |]. by destruct (_ <? _)%nat.
Qed.

(** A call of [LogObservation] or [Shutdown] that returns is a step of the
    logger's transition system on the channel, as [logger_step] has it. *)
Lemma LogObservation_step `{EL : Elastic} l id ok w w' s :
  LogObservation id ok w = (w', Done tt) -> ls_ch s = w_observations w ->
  exists s', logger_step l s s' /\ ls_ch s' = w_observations w'.
Proof.
  unfold LogObservation, bind, time_Now. world_simpl.
  destruct (chan_send _ _) as [ch| |] eqn:Hs; intros [= <-] Hch; world_simpl.
  - eexists. split; [apply step_log; by rewrite Hch | done].
  - exists s. split; [eapply step_drop; by rewrite Hch | done].
Qed.

Lemma Shutdown_step `{EL : Elastic} l w w' s :
  Shutdown w = (w', Done tt) -> ls_ch s = w_observations w ->
  exists s', logger_step l s s' /\ ls_ch s' = w_observations w'.
Proof.
  unfold Shutdown. destruct (ch_closed (w_observations w)) eqn:Hc; [done |]. intros [= <-] Hch.
  eexists. split; [apply step_close; by rewrite Hch | cbn; by rewrite Hch].
Qed.

(** After [Shutdown] no call of [LogObservation] returns: a send on a closed
    channel panics, also as a case of a [select] with a default. *)
Theorem log_after_shutdown_panics id ok w w' :
  Shutdown w = (w', Done tt) -> (LogObservation id ok w').2 = Panicked.
Proof.
  unfold Shutdown. destruct (ch_closed (w_observations w)); [done |]. intros [= <-].
  unfold LogObservation, bind, time_Now, chan_send. done.
Qed.
End ObservationLogger.

(** ** [ESUptimeCalculator.CalculateUptime] *)

Definition CalculateUptime `{EL : Elastic} (esClient : option ES) (esIndex : string) (off : Time -> Z)
  (startTime endTime : Time) : result float64 :=
  match esClient with
  | None => Ok (float64_of_int 0)
  | Some es =>
      let startStr := Format_seconds_Z (off startTime) startTime in
      let endStr := Format_seconds_Z (off endTime) endTime in
      match es_Count esIndex startStr endStr false es with
      | Err e => Err (Wrapped "failed to count total observations" e)
      | Ok total =>
          if total =? 0 then Ok (float64_of_int 0)
          else match es_Count esIndex startStr endStr true es with
               | Err e => Err (Wrapped "failed to count success observations" e)
               | Ok success =>
                   Ok (float64_mul (float64_div (float64_of_int success) (float64_of_int total))
                         (float64_of_int 100))
               end
      end
  end.

(** The uptime is the percentage of successful observations among those the
    index holds in the range of seconds: the two counts are of one set of
    documents and its successful part, and a period without any gives 0. *)
Theorem CalculateUptime_ratio `{EL : Elastic, L : !ElasticLaws} es index off t1 t2 x :
  CalculateUptime (Some es) index off t1 t2 = Ok x ->
  let seen := List.filter (fun o => es_between (Format_seconds_Z (off t1) t1) (Format_seconds_Z (off t2) t2)
                                      (obs_Timestamp o)) (es_docs es index) in
  let total := Z.of_nat (length seen) in
  let success := Z.of_nat (length (List.filter obs_IsSuccess seen)) in
  success <= total /\
  x = if total =? 0 then float64_of_int 0
      else float64_mul (float64_div (float64_of_int success) (float64_of_int total)) (float64_of_int 100).
Proof.
  unfold CalculateUptime. set (a := Format_seconds_Z _ t1). set (b := Format_seconds_Z _ t2).
  assert (forall p q (l : list ObservationLog),
            List.filter (fun o => p o && q o) l = List.filter q (List.filter p l)) as Hff.
  { intros p q l. induction l as [|o l IH]; cbn; [done |]. destruct (p o); cbn; [| done].
    destruct (q o); by rewrite IH. }
  destruct (es_Count _ _ _ false es) as [n|] eqn:Hn; [| done]. apply es_Count_spec in Hn. cbn in Hn.
  assert (n = Z.of_nat (length (List.filter (fun o => es_between a b (obs_Timestamp o)) (es_docs es index)))) as ->.
  { rewrite Hn. do 2 f_equal. apply List.filter_ext. intros o. by rewrite andb_true_r. }
  cbn zeta. intros Hx.
  match type of Hx with context [?t =? 0] => set (total := t) in * end.
  split; [pose proof (List.filter_length_le obs_IsSuccess
            (List.filter (fun o => es_between a b (obs_Timestamp o)) (es_docs es index))); lia |].
  destruct (total =? 0); [by injection Hx |].
  destruct (es_Count _ _ _ true es) as [m|] eqn:Hm; [| done]. apply es_Count_spec in Hm.
  injection Hx as <-. rewrite Hm, Hff. done.
Qed.

(** ** Elasticsearch in memory

    Each bulk request has a planned outcome: all documents are indexed, or the
    first [k] of them and an error reported. *)
Record MemES := mkMemES { me_docs : list ObservationLog; me_plan : list (option nat) }.

#[local] Instance mem_elastic : Elastic := {|
  ES := MemES;
  es_Bulk := fun _ docs es => match me_plan es with
    | Some k :: plan => (mkMemES (me_docs es ++ take k docs) plan, Ok true)
    | None :: plan => (mkMemES (me_docs es ++ docs) plan, Ok false)
    | [] => (mkMemES (me_docs es ++ docs) [], Ok false)
    end;
  es_Count := fun _ _ _ success es =>
    Ok (Z.of_nat (length (List.filter (fun o => negb success || obs_IsSuccess o) (me_docs es))));
|}.

#[local] Program Instance mem_elastic_laws : ElasticLaws := {|
  es_docs es _ := me_docs es;
  es_between _ _ _ := true;
|}.
Next Obligation.
  intros index docs es. cbn. destruct (me_plan es) as [|[k|] plan]; cbn; [done | | done].
  exists (take k docs). split; [apply sublist_take | done].
Qed.
Next Obligation. intros index gte lte success es n. cbn. by intros [= <-]. Qed.

Definition mem_es (docs : list ObservationLog) (plan : list (option nat)) : @ES mem_elastic :=
  mkMemES docs plan.
Definition demo_logger : bufferedLogger := mkLogger true "server_observations" 2 (2 * Second) 3 (500 * Millisecond).
Definition demo_obs (ok : bool) : ObservationLog := mkObservationLog "5" ok 0.

Lemma observations_flushed_once_in_order_witness :
  exists s, rtc (logger_step demo_logger) (logger_start 2 (mem_es [] [])) s /\
    ls_accepted s = [demo_obs true; demo_obs false] /\ concat (ls_flushed s) = ls_accepted s.
Proof.
  assert (exists s, rtc (logger_step demo_logger) (logger_start 2 (mem_es [] [])) s /\
            ls_accepted s = [demo_obs true; demo_obs false] /\ ls_done s = true) as (s & Hr & Ha & Hd).
  { eexists. split; [| split].
    - eapply rtc_l; [eapply (step_log _ _ (demo_obs true)); reflexivity |].
      eapply rtc_l; [eapply (step_log _ _ (demo_obs false)); reflexivity |].
      eapply rtc_l; [eapply step_receive; reflexivity |].
      eapply rtc_l; [eapply step_receive; reflexivity |].
      eapply rtc_l; [eapply step_close; reflexivity |].
      eapply rtc_l; [eapply step_closed; reflexivity |]. apply rtc_refl.
    - reflexivity.
    - reflexivity. }
  exists s. split; [exact Hr |]. split; [exact Ha |].
  destruct (observations_flushed_once_in_order _ _ _ _ Hr) as (_ & _ & H). exact (H Hd).
Defined.

(** A configuration from the environment: the defaults start, an interval of
    nine quintillion nanoseconds wraps around and does not. *)
Example default_logger_starts : exists l ch,
  NewObservationLogger true "i" (LoadObservationLoggerConfig unset) = Done (l, ch) /\ flusher_begins l = Done tt.
Proof. apply logger_starts_iff. by vm_compute. Qed.
Example long_interval_crashes :
  match NewObservationLogger true "i" (mkObservationLoggerConfig 10 10 (2 ^ 63 / Millisecond + 1) 3 500) with
  | Done (l, _) => flusher_begins l = Panicked
  | Panicked => False
  end.
Proof. vm_compute. reflexivity. Qed.

(** Two observations are accepted, one is in the batch when the channel is
    closed, and the ticker fires in between. *)
Definition shutting_down : LoggerState :=
  mkLoggerState (mkChan [demo_obs false] 2 true) [demo_obs true] (mem_es [] []) false [demo_obs true; demo_obs false] [].

Lemma demo_logger_shutdown : rtc (logger_step demo_logger) (logger_start 2 (mem_es [] [])) shutting_down.
Proof.
  eapply rtc_l; [eapply (step_log _ _ (demo_obs true)); reflexivity |].
  eapply rtc_l; [eapply step_receive; reflexivity |].
  eapply rtc_l; [eapply (step_log _ _ (demo_obs false)); reflexivity |].
  apply rtc_once. apply step_close. reflexivity.
Qed.

Lemma shutdown_drains_witness :
  exists s, drain_run demo_logger 2 shutting_down s /\ concat (ls_flushed s) = [demo_obs true; demo_obs false].
Proof.
  destruct (shutdown_drains demo_logger 2 (mem_es [] []) shutting_down demo_logger_shutdown eq_refl eq_refl) as [_ Hall].
  assert (exists s, drain_run demo_logger 2 shutting_down s) as [s Hs].
  { eexists. eapply drained_one; [eapply drained_one; [apply drained_tick; [apply drained_none | reflexivity] |] |].
    - eapply drain_value; reflexivity.
    - apply drain_end; reflexivity. }
  destruct (Hall 2%nat s Hs) as (_ & Hdone & _ & Hflushed).
  exists s. split; [exact Hs | exact (Hflushed (proj2 Hdone eq_refl))].
Defined.

Lemma flush_delivers_witness :
  me_docs (flush demo_logger [demo_obs true] (mem_es [] [Some 0%nat; None])) = [demo_obs true] /\
  exists parts delivered,
    me_docs (flush demo_logger [demo_obs true] (mem_es [] [Some 0%nat; None])) =
      concat parts ++ (if delivered : bool then [demo_obs true] else []).
Proof.
  split; [reflexivity |].
  destruct (flush_delivers demo_logger [demo_obs true] (mem_es [] [Some 0%nat; None]) eq_refl)
    as (parts & d & H & _). exists parts, d. exact H.
Defined.

(** A batch of which a request indexes a part is sent again as a whole: the
    part is indexed twice. *)
Theorem retry_duplicates_documents :
  me_docs (flush demo_logger [demo_obs true; demo_obs false] (mem_es [] [Some 1%nat; None])) =
  [demo_obs true; demo_obs true; demo_obs false].
Proof. reflexivity. Qed.

Lemma CalculateUptime_ratio_witness :
  CalculateUptime (Some (mem_es [demo_obs true; demo_obs false] [])) "i" (fun _ => 0) 0 1 =
  Ok (float64_of_int 50) /\ 1 <= 2.
Proof.
  assert (CalculateUptime (Some (mem_es [demo_obs true; demo_obs false] [])) "i" (fun _ => 0) 0 1 =
          Ok (float64_of_int 50)) as H by (vm_compute; reflexivity).
  split; [exact H |]. exact (proj1 (CalculateUptime_ratio _ _ _ _ _ _ H)).
Defined.

#[local] Existing Instance mem_env.
Lemma log_after_shutdown_panics_witness :
  let w := mem_world [] [] (mem_table []) (mem_table []) (mem_table []) (mem_redis (mkRedisData ∅ ∅ ∅)) in
  (LogObservation "5" true (Shutdown w).1).2 = Panicked.
Proof.
  intros w. apply (log_after_shutdown_panics "5" true w (Shutdown w).1). reflexivity.
Defined.
