(* ===== verification/Monitoring.v ===== *)
(** * Monitoring: [internal/modules/monitoring] (state store, repository, service)

    The state of a server is a hash in Redis ([RedisServerStateStore]) and two
    columns of its row in PostgreSQL ([gormMonitoringRepository]).  [Evaluate]
    is the state machine that a ping result drives; it is shown to refine the
    abstract rule "offline after so many failures in a row". *)

From stdpp Require Import base list strings gmap numbers.
From Stdlib Require Import ZArith Lia.
From S2P Require Import Prelude GoStrings GoTime Domain Env MemEnv Servers Observation.
Open Scope Z_scope.

Definition ErrServerStateNotFound : error :=
  Sentinel "repository.ErrServerStateNotFound" "server state not found".

Section MonitoringService.
Context `{E : Env}.

(** ** [RedisServerStateStore] *)
Definition GetServerState (rdb : UniversalClient) (serverID : string) : M World (result ServerState) :=
  vals <-? redis_call rdb (redis_HGetAll (ServerInfoKey serverID))
    orelse Wrapped "failed to get server info from redis" ;;
  if bool_decide (vals = ∅) then ret (Err ErrServerStateNotFound)
  else
    let retryCount := (Atoi (default "" (vals !! "retry_count"%string))).1 in
    ret (Ok (mkServerState (default "" (vals !! "status"%string)) retryCount)).

Definition SetServerState (rdb : UniversalClient) (serverID status : string) (retryCount : Z)
  : M World (result ()) :=
  _a <-? redis_call rdb (redis_Exec [HSET (ServerInfoKey serverID)
           [("status"%string, status); ("retry_count"%string, Itoa retryCount)]])
    orelse Wrapped "failed to update redis status" ;;
  ret (Ok tt).

(** ** [gormMonitoringRepository] *)
Definition with_status (status : ServerStatus) (failures : Z) (s : Server) : Server :=
  mkServer (server_ServerID s) (server_ServerName s) (server_IPv4 s) status failures
    (server_CreatedAt s) (server_UpdatedAt s).

Definition UpdateServerStatus (serverID : string) (newStatus : ServerStatus) (consecutiveFailures : Z)
  : M World (result ()) :=
  r <-- db_servers (gorm_Updates (fun s => uuid_column_eq (server_ServerID s) serverID)
                      (with_status newStatus consecutiveFailures)) ;;
  ret (match r with Ok _ => Ok tt | Err e => Err e end).

(** ** [monitoringServiceImpl] *)
Record monitoringService := mkMonitoringService {
  mon_rdb : UniversalClient;
  mon_failureThreshold : Z;
}.

(** The state machine of [Evaluate]: the new status, if it changes, and the
    new retry count. *)
Definition state_machine (threshold : Z) (currentStatus : ServerStatus) (retryCount : Z)
  (pingSuccess : bool) : option ServerStatus * Z :=
  if pingSuccess then
    if String.eqb currentStatus ServerStatusOffline then (Some ServerStatusOnline, 0)
    else (None, 0)
  else if String.eqb currentStatus ServerStatusOnline then
    let retryCount := int64 (retryCount + 1) in
    if threshold <=? retryCount then (Some ServerStatusOffline, 0) else (None, retryCount)
  else (None, int64 (retryCount + 1)).

Definition Evaluate (s : monitoringService) (serverID ip : string) (pingSuccess : bool)
  : M World (result ()) :=
  LogObservation serverID pingSuccess ;;;
  state <-? GetServerState (mon_rdb s) serverID ;;
  let currentStatus := if String.eqb (state_Status state) "" then ServerStatusOnline
                       else state_Status state in
  let '(newStatus, retryCount) :=
    state_machine (mon_failureThreshold s) currentStatus (state_RetryCount state) pingSuccess in
  match newStatus with
  | Some newStatus =>
      _a <-? SetServerState (mon_rdb s) serverID newStatus retryCount ;;
      _b <-? UpdateServerStatus serverID newStatus retryCount
        orelse Wrapped "failed to update server status in postgres" ;;
      ret (Ok tt)
  | None =>
      _a <-? SetServerState (mon_rdb s) serverID currentStatus retryCount ;;
      if (0 <? retryCount) && negb pingSuccess && String.eqb currentStatus ServerStatusOnline then
        _b <-? UpdateServerStatus serverID currentStatus retryCount
          orelse Wrapped "failed to update consecutive failures in postgres" ;;
        ret (Ok tt)
      else ret (Ok tt)
  end.

End MonitoringService.

(** ** The effect of one evaluation *)
Section EvaluateFacts.
Context `{E : Env} {L : EnvLaws E}.
#[local] Abbreviation servers w := (rows (w_servers w)).
#[local] Abbreviation info w id := (hash_of (data (w_redis w)) (ServerInfoKey id)).

(** Redis and PostgreSQL answer and the logger runs. *)
Definition monitor_ok (w : World) : Prop :=
  redis_up (w_redis w) /\ table_up (w_servers w) /\ NoClash (servers w) /\
  ch_closed (w_observations w) = false.

(** What the state store holds for a server. *)
Definition cached (w : World) (id : string) (st : ServerStatus) (n : Z) : Prop :=
  info w id !! "status"%string = Some st /\ info w id !! "retry_count"%string = Some (Itoa n) /\
  min_int64 <= n <= max_int64.

(** The row of the server, if there is one, shows the status. *)
Definition row_shows (w : World) (id : string) (st : ServerStatus) : Prop :=
  forall x, x ∈ servers w -> uuid_column_eq (server_ServerID x) id = true -> server_CurrentStatus x = st.

(** Nothing but the status and the count of this server has changed. *)
Definition only_server (id : string) (w w' : World) : Prop :=
  (forall k f, k <> ServerInfoKey id \/ (f <> "status"%string /\ f <> "retry_count"%string) ->
     hash_of (data (w_redis w')) k !! f = hash_of (data (w_redis w)) k !! f) /\
  rd_sets (data (w_redis w')) = rd_sets (data (w_redis w)) /\
  rd_strings (data (w_redis w')) = rd_strings (data (w_redis w)) /\
  map server_ServerID (servers w') = map server_ServerID (servers w) /\
  (forall x, uuid_column_eq (server_ServerID x) id = false -> x ∈ servers w' <-> x ∈ servers w).

#[export] Instance only_server_preorder id : PreOrder (only_server id).
Proof.
  split.
  - intros w. unfold only_server. repeat split; done.
  - intros w1 w2 w3 (A1 & A2 & A3 & A4 & A5) (B1 & B2 & B3 & B4 & B5). unfold only_server.
    split; [intros k f Hk; by rewrite B1, A1 |]. do 3 (split; [congruence |]).
    intros x Hx. by rewrite B5, A5.
Qed.

Lemma wp_GetServerState id st n w (Q : result ServerState -> World -> Prop) X :
  redis_up (w_redis w) -> cached w id st n ->
  (forall r, redis_up r -> data r = data (w_redis w) -> Q (Ok (mkServerState st n)) (set_redis r w)) ->
  wp (GetServerState LiveClient id) w Q X.
Proof.
  intros Hup (Hst & Hn & Hr) HQ. unfold GetServerState. apply wp_bind, wp_redis_call; [| done].
  intros _ r a Hx. pose proof (redis_HGetAll_spec (ServerInfoKey id) (w_redis w)) as (Hd & Hu & Ha).
  rewrite Hx in *. cbn in *. destruct a as [vals|e]; [subst vals | done].
  case_bool_decide as He; [by rewrite He, lookup_empty in Hst |].
  apply wp_ret. rewrite Hst, Hn. cbn. rewrite Atoi_Itoa by done. auto.
Qed.

Lemma wp_SetServerState id st n w (Q : result () -> World -> Prop) X :
  redis_up (w_redis w) -> min_int64 <= n <= max_int64 ->
  (forall r, redis_up r -> cached (set_redis r w) id st n -> only_server id w (set_redis r w) ->
     Q (Ok tt) (set_redis r w)) ->
  wp (SetServerState LiveClient id st n) w Q X.
Proof.
  intros Hup Hn HQ. unfold SetServerState. apply wp_bind, wp_redis_Exec. intros r a Ha.
  destruct (Ha Hup) as (-> & Hu & Hd). cbn beta iota. apply wp_ret. cbn [foldl] in Hd.
  assert (forall k, hash_of (data r) k = if String.eqb k (ServerInfoKey id) then
    list_to_map [("status"%string, st); ("retry_count"%string, Itoa n)] ∪ info w id
    else hash_of (data (w_redis w)) k) as Hh by (intros k; by rewrite Hd, hash_of_HSET).
  apply HQ; [done | |].
  - unfold cached. world_simpl. rewrite Hh, String.eqb_refl.
    split; [by erewrite lookup_union_Some_l by reflexivity |].
    split; [by erewrite lookup_union_Some_l by reflexivity | done].
  - unfold only_server. world_simpl. split; [| by rewrite Hd].
    intros k f Hk. rewrite Hh. destruct (String.eqb_spec k (ServerInfoKey id)) as [->|]; [| done].
    destruct Hk as [|[Hs Hc]]; [done |]. cbn. rewrite lookup_union_r; [done |].
    by rewrite !lookup_insert_ne, lookup_empty by congruence.
Qed.

Definition known (st : ServerStatus) : Prop := st = ServerStatusOnline \/ st = ServerStatusOffline.

Lemma with_status_keeps st n :
  known st -> int32 n = n -> keeps_keys (Md := Server_Model) (with_status st n).
Proof.
  intros Hk Hn. split; [done |]. intros now r Hf. cbn -[int32] in *. rewrite Hn, Z.eqb_refl.
  apply andb_true_iff in Hf as [[Hf _]%andb_true_iff _]. rewrite Hf. by destruct Hk as [-> | ->].
Qed.

Lemma wp_UpdateServerStatus id st n w (Q : result () -> World -> Prop) X :
  known st -> int32 n = n -> table_up (w_servers w) -> NoClash (servers w) ->
  (forall t, table_up t -> NoClash (rows t) -> row_shows (set_servers t w) id st ->
     only_server id w (set_servers t w) -> Q (Ok tt) (set_servers t w)) ->
  wp (UpdateServerStatus id st n) w Q X.
Proof.
  intros Hk Hn Hup HN HQ. unfold UpdateServerStatus. apply wp_bind. unfold db_servers. apply wp_on.
  intros t r Hx. apply wp_ret.
  destruct (Updates_applied _ _ _ _ _ Hx (with_status_keeps st n Hk Hn) Hup HN) as (Ht & HN' & now & -> & Hr).
  apply HQ; [done | done | |].
  - intros x. world_simpl. rewrite Hr. intros (y & Hy & ->)%elem_of_update_rows.
    destruct (uuid_column_eq (server_ServerID y) id) eqn:Hid; cbn; [done | congruence].
  - unfold only_server. world_simpl. repeat (split; [done |]). rewrite Hr. split.
    + unfold update_rows. rewrite List.map_map. apply List.map_ext. intros y. by destruct (uuid_column_eq _ _).
    + intros x Hid. apply (update_rows_frame (fun y => uuid_column_eq (server_ServerID y) id = true));
        [| congruence]. by intros y Hy.
Qed.

(** The status and the count after a ping. *)
Definition next (threshold : Z) (st : ServerStatus) (n : Z) (ok : bool) : ServerStatus * Z :=
  let '(changed, n') := state_machine threshold st n ok in (default st changed, n').

Lemma next_range threshold st n ok :
  min_int64 <= (next threshold st n ok).2 <= max_int64.
Proof.
  pose proof (wrap_int_range 64 (n + 1) ltac:(lia)) as Hw. cbn in Hw. unfold next, state_machine, int64.
  unfold min_int64, max_int64. destruct ok; [destruct (String.eqb _ _); cbn; lia |].
  destruct (String.eqb _ _); [destruct (_ <=? _) |]; cbn -[wrap_int]; lia.
Qed.

Lemma next_known t st n ok : known st -> known (next t st n ok).1.
Proof.
  intros [-> | ->]; unfold next, state_machine; destruct ok; cbn -[int64]; try (by left); try (by right).
  destruct (t <=? _); [by right | by left].
Qed.

(** What is written to the row fits its column. *)
Lemma state_machine_fits t st n ok changed n' :
  t < 2 ^ 31 -> state_machine t st n ok = (changed, n') ->
  (changed <> None \/ (0 < n' /\ ok = false /\ st = ServerStatusOnline)) -> int32 n' = n'.
Proof.
  intros Ht. unfold state_machine.
  destruct ok; [destruct (String.eqb _ _); intros [= <- <-]; naive_solver |].
  destruct (String.eqb_spec st ServerStatusOnline) as [->|Hne].
  - destruct (Z.leb_spec t (int64 (n + 1))); intros [= <- <-] Hc; [done |].
    apply wrap_int_small; [lia |]. destruct Hc as [|Hc]; [done |]. lia.
  - intros [= <- <-] Hc. naive_solver.
Qed.

(** One evaluation, when Redis and PostgreSQL answer: no error, and both hold
    the status the state machine gives; nothing else has changed. *)
Lemma Evaluate_step s id ip ok st n w :
  mon_rdb s = LiveClient -> mon_failureThreshold s < 2 ^ 31 ->
  monitor_ok w -> cached w id st n -> known st -> row_shows w id st ->
  wp (Evaluate s id ip ok) w
    (fun r w' => r = Ok tt /\ monitor_ok w' /\ only_server id w w' /\
       let '(st', n') := next (mon_failureThreshold s) st n ok in
       cached w' id st' n' /\ row_shows w' id st')
    (fun _ => False).
Proof.
  intros Hc Hth (Hr & Ht & HN & Hch) Hca Hk Hrow. unfold Evaluate. rewrite Hc.
  pose proof (next_known (mon_failureThreshold s) st n ok Hk) as Hk'.
  pose proof (next_range (mon_failureThreshold s) st n ok) as Hrange. unfold next in *.
  apply wp_bind, wp_LogObservation; [| by rewrite Hch]. intros ch w1 Hsent _.
  assert (ch_closed ch = false) as Hch'
    by (destruct Hsent as [->|Hs]; [done | by destruct (chan_send_buf _ _ _ Hs) as (_ & _ & ?)]).
  apply wp_bind. apply (wp_GetServerState id st n); [done | done |]. intros r1 Hr1 Hd1. cbn beta iota zeta.
  cbn [state_Status state_RetryCount].
  assert (forall A (a b : A), (if String.eqb st "" then a else b) = b) as Hne by (intros; by destruct Hk as [-> | ->]).
  rewrite Hne. destruct (state_machine _ st n ok) as [changed n'] eqn:Hsm. cbn [fst snd] in *.
  pose proof (state_machine_fits _ _ _ _ _ _ Hth Hsm) as Hfit.
  set (w2 := set_redis r1 _).
  assert (only_server id w w2) as Hf2 by (unfold only_server, w2; world_simpl; rewrite Hd1; repeat split; done).
  destruct changed as [st'|]; cbn [from_option].
  - apply wp_bind. apply wp_SetServerState; [done | done |]. intros r3 Hr3 Hc3 Hf3. cbn beta iota.
    apply wp_bind. apply wp_UpdateServerStatus; [done | by apply Hfit; left | done | done |]. intros t Ht' HN' Hrow' Hf4. cbn beta iota.
    apply wp_ret. split; [done |]. split; [done |]. split; [by etrans; [| etrans] | done].
  - apply wp_bind. apply wp_SetServerState; [done | done |]. intros r3 Hr3 Hc3 Hf3. cbn beta iota.
    destruct (_ && _ && _)%bool eqn:Hcond.
    + apply andb_true_iff in Hcond as [[Hpos%Z.ltb_lt Hf%negb_true_iff]%andb_true_iff Hon%String.eqb_eq].
      apply wp_bind. apply wp_UpdateServerStatus; [done | by apply Hfit; right | done | done |]. intros t Ht' HN' Hrow' Hf4. cbn beta iota.
      apply wp_ret. split; [done |]. split; [done |]. split; [by etrans; [| etrans] | done].
    + apply wp_ret. split; [done |]. split; [done |]. split; [by etrans |]. split; [done |].
      exact Hrow.
Qed.

(** ** The rule the state machine implements *)

(** Failures since the last success, the status they give and the count kept. *)
Definition after_ping (f : Z) (ok : bool) : Z := if ok then 0 else f + 1.
Definition failures_in_a_row (pings : list bool) : Z := fold_left after_ping pings 0.
Definition status_rule (threshold f : Z) : ServerStatus :=
  if Z.max 1 threshold <=? f then ServerStatusOffline else ServerStatusOnline.
Definition count_rule (threshold f : Z) : Z :=
  if Z.max 1 threshold <=? f then f - Z.max 1 threshold else f.

Lemma next_rule threshold f ok :
  0 <= f < max_int64 ->
  next threshold (status_rule threshold f) (count_rule threshold f) ok =
  (status_rule threshold (after_ping f ok), count_rule threshold (after_ping f ok)).
Proof.
  intros Hf. assert (forall k, 0 <= k < max_int64 -> int64 (k + 1) = k + 1) as Hi
    by (intros k Hk; apply int64_small; unfold min_int64, max_int64 in *; lia).
  unfold next, state_machine, status_rule, count_rule, after_ping.
  destruct ok; [destruct (Z.leb_spec (Z.max 1 threshold) 0); [lia |]; by destruct (_ <=? f) |].
  destruct (Z.leb_spec (Z.max 1 threshold) f) as [H|H].
  - cbn [String.eqb ServerStatusOffline ServerStatusOnline Ascii.eqb Bool.eqb]. rewrite Hi by lia.
    destruct (Z.leb_spec (Z.max 1 threshold) (f + 1)); [| lia]. cbn. f_equal. lia.
  - cbn [String.eqb ServerStatusOffline ServerStatusOnline Ascii.eqb Bool.eqb]. rewrite Hi by lia.
    destruct (Z.leb_spec threshold (f + 1)), (Z.leb_spec (Z.max 1 threshold) (f + 1)); try lia; cbn; f_equal; lia.
Qed.

Lemma fold_failures_range pings f : 0 <= f -> 0 <= fold_left after_ping pings f <= f + Z.of_nat (length pings).
Proof.
  revert f. induction pings as [|ok pings IH]; intros f Hf; [cbn; lia |].
  change (length (ok :: pings)) with (S (length pings)). cbn [fold_left].
  specialize (IH (after_ping f ok)). unfold after_ping in *. destruct ok; lia.
Qed.

Definition tracked (threshold : Z) (id : string) (f : Z) (w : World) : Prop :=
  monitor_ok w /\ cached w id (status_rule threshold f) (count_rule threshold f) /\
  row_shows w id (status_rule threshold f).

(** The pings of a server, evaluated one after the other. *)
Definition evaluate_all (s : monitoringService) (id ip : string) (pings : list bool) : M World () :=
  for_each pings (fun ok => Evaluate s id ip ok ;;; ret tt).

(** C3: A server that was online with no failure is, after any sequence of pings,
    OFFLINE exactly when at least the threshold (and at least one) of the last
    pings failed in a row, in Redis and in PostgreSQL alike; one success brings
    it back.  No evaluation fails and no other server is touched. *)
Theorem offline_iff_failures_in_a_row s id ip pings w :
  mon_rdb s = LiveClient -> mon_failureThreshold s < 2 ^ 31 -> monitor_ok w -> cached w id ServerStatusOnline 0 ->
  row_shows w id ServerStatusOnline -> Z.of_nat (length pings) < max_int64 ->
  exists w', evaluate_all s id ip pings w = (w', Done tt) /\ only_server id w w' /\
    let f := failures_in_a_row pings in
    cached w' id (status_rule (mon_failureThreshold s) f) (count_rule (mon_failureThreshold s) f) /\
    row_shows w' id (status_rule (mon_failureThreshold s) f).
Proof.
  intros Hc Hth Hok Hca Hrow Hlen. set (t := mon_failureThreshold s).
  set (Inv := fun xs w1 => exists f, tracked t id f w1 /\ only_server id w w1 /\ 0 <= f /\
    f + Z.of_nat (length xs) < max_int64 /\ fold_left after_ping xs f = failures_in_a_row pings).
  assert (Inv pings w) as H0.
  { exists 0. split; [| split; [done |]; split; [lia |]; split; [lia | done]].
    unfold tracked, status_rule, count_rule. destruct (Z.leb_spec (Z.max 1 t) 0); [lia | done]. }
  assert (wp (evaluate_all s id ip pings) w (fun _ => Inv []) (fun _ => False)) as Hwp.
  { apply wp_for_each; [| exact H0]. intros ok xs w1 (f & (Hm & Hcd & Hr) & Ho & Hf & Hl & He).
    apply wp_bind. eapply wp_mono.
    - apply (Evaluate_step s id ip ok _ _ _ Hc Hth Hm Hcd); [| exact Hr].
      unfold status_rule. destruct (_ <=? _); [by right | by left].
    - cbn [length] in Hl. intros r w2 (_ & Hm2 & Ho2 & Hn). fold t in Hn. rewrite next_rule in Hn by lia.
      apply wp_ret. exists (after_ping f ok). split; [by split |]. split; [by etrans |].
      unfold after_ping in *. destruct ok; repeat split; (lia || exact He). }
  apply wp_total in Hwp as (w' & [] & Hrun & f & (_ & Hcd & Hr) & Ho & _ & _ & He). cbn in He.
  exists w'. rewrite <- He. done.
Qed.
End EvaluateFacts.

(** ** Witnesses *)
Section MonitoringExamples.
#[local] Existing Instance mem_env.
#[local] Existing Instance mem_laws.

Definition demo_monitor : monitoringService := mkMonitoringService LiveClient 2.
(** A server that the service itself has created. *)
Definition monitored_world : World :=
  server_world [mkServer "5" "web-1" "10.0.0.1" ServerStatusOnline 0 1 1].

Lemma monitored_world_ok :
  monitor_ok monitored_world /\ cached monitored_world "5" ServerStatusOnline 0 /\
  row_shows monitored_world "5" ServerStatusOnline.
Proof.
  split; [| split].
  - split; [constructor |]. split; [constructor |]. split; [| reflexivity].
    apply mem_NoClash. vm_compute. reflexivity.
  - split; [vm_compute; reflexivity |]. split; [vm_compute; reflexivity |].
    unfold min_int64, max_int64. lia.
  - intros x Hx _. apply list_elem_of_singleton in Hx as ->. reflexivity.
Qed.

Lemma offline_iff_failures_in_a_row_witness :
  exists w', evaluate_all demo_monitor "5" "10.0.0.1" [false; true; false; false; false] monitored_world
               = (w', Done tt) /\
    cached w' "5" ServerStatusOffline 1 /\ row_shows w' "5" ServerStatusOffline.
Proof.
  destruct monitored_world_ok as (H1 & H2 & H3).
  destruct (offline_iff_failures_in_a_row demo_monitor "5" "10.0.0.1" [false; true; false; false; false]
              monitored_world eq_refl eq_refl H1 H2 H3 ltac:(unfold max_int64; cbn; lia)) as (w' & Hr & _ & Hs).
  exists w'. split; [exact Hr | exact Hs].
Defined.

(** The count in PostgreSQL is not reset by a success of an online server, and
    an update of the server writes it back to Redis: with a threshold of 2, one
    failure after a success takes a renamed server offline. *)
Theorem stale_count_takes_server_offline :
  let rename := UpdateServer (mkServerService (Some demo_cache)) "5" (mkUpdateInput "web-2" "10.0.0.1") in
  let run := evaluate_all demo_monitor "5" "10.0.0.1" [false; true] ;;; rename ;;;
             evaluate_all demo_monitor "5" "10.0.0.1" [false] in
  let w' := (run monitored_world).1 in
  failures_in_a_row [false; true; false] = 1 /\
  (run monitored_world).2 = Done tt /\
  map server_CurrentStatus (rows (w_servers w')) = [ServerStatusOffline].
Proof. vm_compute. done. Qed.
End MonitoringExamples.
