(* ===== verification/Status.v ===== *)
(** * Status: the status column of the servers, across the components

    Four components write the column: creation and import
    ([server_management/service]), update, and the evaluation of pings
    ([monitoring/service]).  In the code it is a string type with two constants
    ([domain.ServerStatus]), and PostgreSQL stores any text.  The first part
    shows that the column is typed: whatever the operations do, and wherever
    they fail, it holds ONLINE or OFFLINE.  The second part looks at an update
    that a ping interrupts. *)

From stdpp Require Import base list strings gmap numbers.
From Stdlib Require Import ZArith Lia.
From S2P Require Import Prelude GoStrings GoTime Domain Env MemEnv Servers GoNet ImportExport Observation Monitoring.
Open Scope Z_scope.

Section StatusType.
Context `{E : Env} {L : EnvLaws E} `{X : Excelize}.
Variable c : CacheManager.
Context {CL : CacheLaws c}.
#[local] Abbreviation svc := (mkServerService (Some c)).

Definition typed_server (s : Server) : Prop := ServerStatus_IsValid (server_CurrentStatus s) = true.
Definition typed (w : World) : Prop := Forall typed_server (rows (w_servers w)).

(** [m] keeps the column typed, returning or panicking, and its result is in [P]. *)
Definition keeps_typed {A} (m : M World A) (P : A -> Prop) : Prop :=
  forall w, typed w -> wp m w (fun a w' => typed w' /\ P a) typed.
Definition any {A} (_ : A) : Prop := True.
Definition typed_result (r : result Server) : Prop := match r with Ok s => typed_server s | Err _ => True end.

Lemma typed_ret {A} (a : A) (P : A -> Prop) : P a -> keeps_typed (ret a) P.
Proof. intros H w Hw. by apply wp_ret. Qed.

Lemma typed_bind {A B} (m : M World A) (k : A -> M World B) P Q :
  keeps_typed m P -> (forall a, P a -> keeps_typed (k a) Q) -> keeps_typed (bind m k) Q.
Proof. intros Hm Hk w Hw. apply wp_bind. eapply wp_mono; [by apply Hm |]. intros a w' [Hw' Ha]. by apply Hk. Qed.

Lemma typed_frame {A} (m : M World A) :
  (forall w, wp m w (fun _ w' => w_servers w' = w_servers w) (fun w' => w_servers w' = w_servers w)) -> keeps_typed m any.
Proof. intros Hm w Hw. eapply wp_conseq; [apply Hm | |]; unfold typed; [intros a w' ->; by split | by intros w' ->]. Qed.

Lemma typed_cache (op : CacheManager -> M World (result ())) :
  (forall w, wp (op c) w (fun _ w' => same_db w w') (same_db w)) -> keeps_typed (with_cache svc op) any.
Proof.
  intros Hop. apply typed_frame. intros w. apply (with_cache_frame c); [apply Hop | |]; by intros w' (_ & _ & _ & ? & _).
Qed.

Lemma typed_first p : keeps_typed (first_server p) typed_result.
Proof.
  intros w Hw. unfold first_server. go_wp. destruct Hst as (Hr & _ & Hx).
  split; [unfold typed; cbn; by rewrite Hr |]. destruct r as [x|e]; cbn; [| by destruct (errors_Is _ _)].
  unfold typed in Hw. rewrite Forall_forall in Hw. apply Hw, list_elem_of_In. exact (proj1 Hx).
Qed.

Lemma typed_inserted rs rs' : Forall typed_server rs \/ Forall (fun s => server_CurrentStatus s = ""%string) rs ->
  inserted rs rs' -> Forall typed_server rs'.
Proof.
  intros Hrs Hi. induction Hi as [|r r' rs rs' (now & gen & serial & ->) Hi IH]; [apply Forall_nil_2 |].
  destruct Hrs as [Hrs|Hrs]; apply Forall_cons_1 in Hrs as [Hr Hrs]; (apply Forall_cons_2; [| auto]).
  - unfold typed_server in *. cbn. unfold default_string. destruct (String.eqb_spec (server_CurrentStatus r) ""); [done | exact Hr].
  - unfold typed_server. cbn. by rewrite Hr.
Qed.

Lemma typed_insert rs :
  Forall typed_server rs \/ Forall (fun s => server_CurrentStatus s = ""%string) rs ->
  keeps_typed (db_servers (gorm_Create rs)) (fun r => match r with Ok rs' => Forall typed_server rs' | Err _ => True end).
Proof.
  intros Hrs w Hw. go_wp. apply Create_outcome in Hst as [_ Hr]. unfold typed. cbn.
  destruct r as [rs'|e]; [| by destruct Hr as [-> _]]. destruct Hr as (Hi & -> & _).
  pose proof (typed_inserted _ _ Hrs Hi). split; [by apply Forall_app_2 | done].
Qed.

Lemma typed_updates p f :
  (forall s, typed_server s -> typed_server (f s)) -> keeps_typed (db_servers (gorm_Updates p f)) any.
Proof.
  intros Hf w Hw. go_wp. apply Updates_rows in Hst as [_ [Hr|[now Hr]]]; unfold typed; cbn; rewrite Hr; (split; [| done]); [exact Hw |].
  apply Forall_map. eapply Forall_impl; [| exact Hw]. intros x Hx. destruct (p x); [exact (Hf x Hx) | exact Hx].
Qed.

(** *** The operations *)
Lemma typed_GetByID id : keeps_typed (serverRepo_GetByID id) typed_result.
Proof. apply typed_first. Qed.
Lemma typed_GetByName n : keeps_typed (serverRepo_GetByName n) typed_result.
Proof. apply typed_first. Qed.
Lemma typed_GetByIPv4 ip : keeps_typed (serverRepo_GetByIPv4 ip) typed_result.
Proof. apply typed_first. Qed.
#[local] Hint Resolve typed_GetByID typed_GetByName typed_GetByIPv4 : typed.

Lemma typed_CreateServer input : keeps_typed (CreateServer svc input) any.
Proof.
  unfold CreateServer. eapply typed_bind; [apply typed_GetByName |]. intros [?|e] _; [by apply typed_ret |].
  destruct (negb _); [by apply typed_ret |]. eapply typed_bind; [apply typed_GetByIPv4 |].
  intros [?|e'] _; [by apply typed_ret |]. destruct (negb _); [by apply typed_ret |].
  eapply (typed_bind _ _ any); [| intros [s|] _; [| by apply typed_ret]].
  - unfold serverRepo_Create. eapply typed_bind; [| intros r _; by apply typed_ret].
    apply typed_insert. right. by apply Forall_cons_2; [| apply Forall_nil_2].
  - eapply typed_bind; [apply typed_cache; intros w; apply (Upsert_frame c) |]. intros [] _. by apply typed_ret.
Qed.

Lemma typed_Update s : typed_server s -> keeps_typed (serverRepo_Update s) any.
Proof.
  intros Hs. unfold serverRepo_Update. eapply typed_bind; [apply typed_updates; intros x _; exact Hs |].
  intros r _. by apply typed_ret.
Qed.

Lemma typed_UpdateServer id input : keeps_typed (UpdateServer svc id input) any.
Proof.
  unfold UpdateServer, update_found. eapply typed_bind; [apply typed_GetByID |]. intros [s|e] Hs; [| by apply typed_ret].
  eapply (typed_bind _ _ typed_result).
  { destruct (negb _); [| by apply typed_ret]. eapply typed_bind; [apply typed_GetByName |].
    intros r _. apply typed_ret. by destruct (taken_by_other id r) as [[]|]. }
  intros [s1|] Hs1; [| by apply typed_ret]. eapply (typed_bind _ _ typed_result).
  { destruct (negb _); [| by apply typed_ret]. eapply typed_bind; [apply typed_GetByIPv4 |].
    intros r _. apply typed_ret. by destruct (taken_by_other id r) as [[]|]. }
  intros [s2|] Hs2; [| by apply typed_ret]. eapply typed_bind; [by apply typed_Update |].
  intros [s3|] _; [| by apply typed_ret].
  eapply typed_bind; [apply typed_cache; intros w; apply (Upsert_frame c) |]. intros [] _. by apply typed_ret.
Qed.

Lemma typed_DeleteServer id : keeps_typed (DeleteServer svc id) any.
Proof.
  unfold DeleteServer. eapply typed_bind; [apply typed_GetByID |]. intros [s|e] Hs; [| by apply typed_ret].
  eapply (typed_bind _ _ any); [| intros [?|] _; [| by apply typed_ret]].
  - unfold serverRepo_Delete. eapply (typed_bind _ _ any); [| intros r _; by apply typed_ret].
    intros w Hw. go_wp. destruct Hst as [_ Hr]. unfold typed in *. cbn. split; [| done].
    destruct r as [n|e]; [destruct Hr as [_ ->] | by destruct Hr as [-> _]].
    rewrite Forall_forall in Hw |- *. intros x Hx. apply Hw. rewrite List.filter_In in Hx. apply Hx.
  - eapply typed_bind; [apply typed_cache; intros w; apply (Delete_frame c) |]. intros [] _. by apply typed_ret.
Qed.

(** What an import adds is ONLINE. *)
Lemma typed_grows w w' new : typed w -> grows w w' new -> typed w'.
Proof.
  unfold typed. intros Hw (-> & Hnew & _). apply Forall_app_2; [exact Hw |].
  eapply Forall_impl; [| exact Hnew]. intros x (_ & Hst & _). unfold typed_server. by rewrite Hst.
Qed.

Lemma typed_ImportServers file : keeps_typed (ImportServers svc file) any.
Proof.
  unfold ImportServers. destruct (maxFileSize <? _); [by apply typed_ret |].
  destruct (OpenReader file) as [wb|e]; [| by apply typed_ret]. cbn zeta.
  destruct (String.eqb _ _); [by apply typed_ret |].
  destruct (Rows wb _) as [[|header rows]|e]; try by apply typed_ret.
  destruct (header_columns header 0 None None) as [[ni|] [ii|]]; try by apply typed_ret.
  intros w Hw. eapply wp_conseq; [apply (import_rows_outcome c); by apply Forall_nil_2 | |].
  - intros r w' (new & Hg & _). split; [by eapply typed_grows | done].
  - intros w' (new & Hg). by eapply typed_grows.
Qed.

Lemma typed_redis {A} rdb (op : RedisServer -> RedisServer * A) : keeps_typed (redis_call rdb op) any.
Proof. apply typed_frame. intros w. by apply wp_redis_call. Qed.

Lemma typed_LogObservation id ok : keeps_typed (LogObservation id ok) any.
Proof. apply typed_frame. intros w. by apply wp_LogObservation. Qed.

Lemma typed_SetServerState rdb id st n : keeps_typed (SetServerState rdb id st n) any.
Proof.
  unfold SetServerState. eapply typed_bind; [apply typed_redis |]. intros [?|?] _; by apply typed_ret.
Qed.

Lemma typed_GetServerState rdb id : keeps_typed (GetServerState rdb id) any.
Proof.
  unfold GetServerState. eapply typed_bind; [apply typed_redis |].
  intros [vals|?] _; [case_bool_decide |]; by apply typed_ret.
Qed.

Lemma typed_UpdateServerStatus id st n : known st -> keeps_typed (UpdateServerStatus id st n) any.
Proof.
  intros Hst. unfold UpdateServerStatus. eapply typed_bind; [| intros r _; by apply typed_ret].
  apply typed_updates. intros s _. unfold typed_server. by destruct Hst as [-> | ->].
Qed.

(** A ping writes to the row only a status of its own, whatever Redis holds. *)
Lemma state_machine_known t st n ok st' n' : state_machine t st n ok = (Some st', n') -> known st'.
Proof.
  unfold state_machine. destruct ok; [destruct (String.eqb _ _); intros [= <- <-]; by left |].
  destruct (String.eqb _ _); [destruct (t <=? _) |]; intros [= <- <-]. by right.
Qed.

Lemma typed_Evaluate m id ip ok : keeps_typed (Evaluate m id ip ok) any.
Proof.
  unfold Evaluate. eapply typed_bind; [apply typed_LogObservation |]. intros _ _.
  eapply typed_bind; [apply typed_GetServerState |]. intros [st|] _; [| by apply typed_ret]. cbn zeta.
  destruct (state_machine _ _ _ _) as [[st'|] n] eqn:Hm.
  - eapply typed_bind; [apply typed_SetServerState |]. intros [?|] _; [| by apply typed_ret].
    eapply typed_bind; [by eapply typed_UpdateServerStatus, state_machine_known |]. intros [?|] _; by apply typed_ret.
  - eapply typed_bind; [apply typed_SetServerState |]. intros [?|] _; [| by apply typed_ret].
    destruct (_ && _) eqn:Hc; [| by apply typed_ret].
    apply andb_true_iff in Hc as [_ Hc%String.eqb_eq]. rewrite Hc.
    eapply typed_bind; [apply typed_UpdateServerStatus; by left |]. intros [?|] _; by apply typed_ret.
Qed.

(** ** Any sequence of operations *)
Inductive op :=
  | OpCreate (input : CreateServerInput)
  | OpUpdate (id : string) (input : UpdateServerInput)
  | OpDelete (id : string)
  | OpImport (file : string)
  | OpEvaluate (m : monitoringService) (id ip : string) (pingSuccess : bool).

Definition run_op (o : op) (w : World) : World :=
  match o with
  | OpCreate input => (CreateServer svc input w).1
  | OpUpdate id input => (UpdateServer svc id input w).1
  | OpDelete id => (DeleteServer svc id w).1
  | OpImport file => (ImportServers svc file w).1
  | OpEvaluate m id ip ok => (Evaluate m id ip ok w).1
  end.

Lemma keeps_typed_state {A} (m : M World A) P w : keeps_typed m P -> typed w -> typed (m w).1.
Proof. intros Hm Hw. specialize (Hm w Hw). unfold wp in Hm. destruct (m w) as [w' [a|]]; naive_solver. Qed.

Lemma run_op_typed o w : typed w -> typed (run_op o w).
Proof.
  destruct o; cbn; eapply keeps_typed_state;
    eauto using typed_CreateServer, typed_UpdateServer, typed_DeleteServer, typed_ImportServers, typed_Evaluate.
Qed.

(** C7: The status column is typed: from a table whose servers are ONLINE or
    OFFLINE, no sequence of creations, updates, deletions, imports and ping
    evaluations, whatever their inputs, wherever PostgreSQL, Redis or the
    logger fail and whatever Redis holds, leaves another value in it. *)
Theorem status_always_valid ops w :
  Forall (fun s => ServerStatus_IsValid (server_CurrentStatus s) = true) (rows (w_servers w)) ->
  Forall (fun s => ServerStatus_IsValid (server_CurrentStatus s) = true)
    (rows (w_servers (foldl (fun w o => run_op o w) w ops))).
Proof. revert w. induction ops as [|o ops IH]; intros w Hw; [exact Hw |]. by apply IH, run_op_typed. Qed.

(** ** An update that is interrupted *)

(** The writing half of an update leaves the status and the count it was given. *)
Lemma update_found_status id input x w :
  wp (update_found svc id input (Ok x)) w (fun r w' =>
    match r with
    | Ok _ => forall y, y ∈ rows (w_servers w') -> uuid_column_eq (server_ServerID y) (server_ServerID x) = true ->
                server_CurrentStatus y = server_CurrentStatus x /\
                server_ConsecutiveFailures y = server_ConsecutiveFailures x
    | Err _ => True
    end) (fun _ => True).
Proof.
  set (same (s : Server) := server_ServerID s = server_ServerID x /\
    server_CurrentStatus s = server_CurrentStatus x /\ server_ConsecutiveFailures s = server_ConsecutiveFailures x).
  set (kept (r : result Server) (_ : World) := match r with Ok s => same s | Err _ => True end).
  unfold update_found. apply wp_bind. apply (wp_mono _ _ _ _ kept).
  { destruct (negb _); [| by apply wp_ret]. apply wp_bind, first_server_outcome. intros r t _ _ _.
    apply wp_ret. by destruct (taken_by_other id r) as [[]|]. }
  intros [s1|e] w1 Hs1; [| by apply wp_ret]. apply wp_bind. apply (wp_mono _ _ _ _ kept).
  { destruct (negb _); [| by apply wp_ret]. apply wp_bind, first_server_outcome. intros r t _ _ _.
    apply wp_ret. by destruct (taken_by_other id r) as [[]|]. }
  intros [s2|e] w2 Hs2; [| by apply wp_ret]. destruct Hs2 as (Hid & Hst & Hn).
  apply wp_bind, Update_outcome; [intros t e _; by apply wp_ret |]. intros t now Hr _. cbn beta iota.
  apply wp_bind, (with_cache_frame c); [apply (Upsert_frame c) | | done].
  intros w' (_ & _ & _ & Hw & _). apply wp_ret. intros y Hy Hyx. rewrite Hw in Hy. world_simpl.
  rewrite Hr in Hy. apply elem_of_update_rows in Hy as (z & _ & ->). rewrite Hid in *.
  destruct (uuid_column_eq (server_ServerID z) (server_ServerID x)) eqn:Hz; cbn in *; [by rewrite Hst, Hn | congruence].
Qed.

(** C29: An update writes back the status it read: whatever the other goroutines do
    between its read of the row and its write ([other]), once it succeeds the
    row shows the status and the failure count it had in the table at the
    read; a ping that took the server OFFLINE meanwhile is lost. *)
Theorem update_writes_back_the_status_it_read id input x s w w1 w2 (other : World -> World) :
  serverRepo_GetByID id w = (w1, Done (Ok x)) ->
  update_found svc id input (Ok x) (other w1) = (w2, Done (Ok s)) ->
  x ∈ rows (w_servers w) /\ uuid_column_eq (server_ServerID x) id = true /\
  forall y, y ∈ rows (w_servers w2) -> uuid_column_eq (server_ServerID y) id = true ->
    server_CurrentStatus y = server_CurrentStatus x /\
    server_ConsecutiveFailures y = server_ConsecutiveFailures x.
Proof.
  intros Hread Hrun.
  assert (x ∈ rows (w_servers w) /\ uuid_column_eq (server_ServerID x) id = true) as [Hx Hid].
  { eapply run_wp; [exact Hread |]. apply first_server_outcome. intros r t _ _ Hr -> _. exact Hr. }
  split; [exact Hx |]. split; [exact Hid |].
  eapply run_wp; [exact Hrun |]. eapply wp_mono; [apply update_found_status |].
  intros r w' H -> -> y Hy Hyid. apply H; [exact Hy |]. rewrite uuid_column_sym in Hid. by eapply uuid_column_trans.
Qed.
End StatusType.

(** ** Concrete runs *)
Section StatusRuns.
#[local] Existing Instance mem_env.
#[local] Existing Instance mem_laws.
#[local] Existing Instance mem_excelize.

(** A threshold of 2, a failed ping each side of an update, an import of a file
    that is none, and a deletion. *)
Lemma status_always_valid_witness :
  Forall (fun s => ServerStatus_IsValid (server_CurrentStatus s) = true)
    (rows (w_servers (foldl (fun w o => run_op demo_cache o w) monitored_world
      [OpEvaluate demo_monitor "5" "10.0.0.1" false; OpUpdate "5" (mkUpdateInput "web-2" "10.0.0.1");
       OpEvaluate demo_monitor "5" "10.0.0.1" false; OpImport ""; OpCreate (mkCreateInput "db-1" "10.0.0.2");
       OpDelete "6"]))).
Proof. apply (status_always_valid demo_cache). vm_compute. by constructor. Defined.

(** The pings that run between the read and the write. *)
Definition two_failures (w : World) : World := (evaluate_all demo_monitor "5" "10.0.0.1" [false; false] w).1.

(** The pings take the server offline; after the update it is ONLINE again. *)
Lemma update_writes_back_the_status_it_read_witness :
  exists x s w1 w2, serverRepo_GetByID "5" monitored_world = (w1, Done (Ok x)) /\
    update_found (mkServerService (Some demo_cache)) "5" (mkUpdateInput "web-2" "10.0.0.1") (Ok x) (two_failures w1)
      = (w2, Done (Ok s)) /\
    map server_CurrentStatus (rows (w_servers (two_failures w1))) = [ServerStatusOffline] /\
    server_CurrentStatus x = ServerStatusOnline /\
    (forall y, y ∈ rows (w_servers w2) -> uuid_column_eq (server_ServerID y) "5" = true ->
       server_CurrentStatus y = server_CurrentStatus x).
Proof.
  set (x := mkServer "5" "web-1" "10.0.0.1" ServerStatusOnline 0 1 1).
  assert (exists s w1 w2, serverRepo_GetByID "5" monitored_world = (w1, Done (Ok x)) /\
    update_found (mkServerService (Some demo_cache)) "5" (mkUpdateInput "web-2" "10.0.0.1") (Ok x) (two_failures w1)
      = (w2, Done (Ok s)) /\
    map server_CurrentStatus (rows (w_servers (two_failures w1))) = [ServerStatusOffline]) as (s & w1 & w2 & H1 & H2 & H3).
  { eexists _, _, _. split; [apply run_outcome; vm_compute; reflexivity |].
    split; [apply run_outcome; vm_compute; reflexivity | vm_compute; reflexivity]. }
  exists x, s, w1, w2. split; [exact H1 |]. split; [exact H2 |]. split; [exact H3 |]. split; [reflexivity |].
  destruct (update_writes_back_the_status_it_read demo_cache "5" _ x s monitored_world w1 w2 two_failures H1 H2) as (_ & _ & H4).
  intros y Hy Hid. exact (proj1 (H4 y Hy Hid)).
Defined.
End StatusRuns.
