(* ===== verification/MonitorPool.v ===== *)
(** * MonitorPool: [worker/pinger.go], [worker/pool.go], [app/monitoring/app.go]
    and the distributed lock of [shared/database/redis.go]

    A monitoring cycle takes the lock in Redis and hands the identifiers of all
    cached servers to a pool of goroutines over a channel.  The pool is a step
    relation on its goroutines, the channel and the world; a goroutine's call
    of [processServer] is one step of it.  The network is a parameter of the
    relation: what the ping of each server, at an address and with a timeout,
    gives in this cycle.  Any number of instances of the monitor, each in its
    own cycle, are a second step relation on one world. *)

From stdpp Require Import base relations functions list strings gmap numbers sorting.
From Stdlib Require Import ZArith Lia.
From S2P Require Import Prelude GoStrings GoTime Domain Env MemEnv Servers Observation Monitoring.
Open Scope Z_scope.

(** ** [ICMPPinger]

    [probing.NewPinger] resolves the address; [Run] sends the echo requests and
    its statistics count the replies. *)
Class Probing := {
  probing_Pinger : Type;
  probing_NewPinger : string -> result probing_Pinger;
  probing_Run : bool -> Z -> Duration -> probing_Pinger -> result Z;
}.

Definition ICMPPinger_Ping `{Probing} (privileged : bool) (ip : string) (timeout : Duration) : bool :=
  match probing_NewPinger ip with
  | Err _ => false
  | Ok pinger => match probing_Run privileged 1 timeout pinger with
                 | Err _ => false
                 | Ok PacketsRecv => 0 <? PacketsRecv
                 end
  end.

Section Pool.
Context `{E : Env}.

(** [workerPool]; the pinger is a parameter of the calls that use it. *)
Record workerPool := mkWorkerPool {
  wp_rdb : UniversalClient;
  wp_monService : monitoringService;
  wp_concurrency : Z;
  wp_timeout : Duration;
}.

Definition processServer (p : workerPool) (Ping : string -> Duration -> bool) (serverID : string)
  : M World () :=
  ipv4 <-- redis_call (wp_rdb p) (redis_HGet (ServerInfoKey serverID) "ipv4") ;;
  match ipv4 with
  | Err _ => ret tt
  | Ok ipv4 =>
      if String.eqb ipv4 "" then ret tt
      else
        let success := Ping ipv4 (wp_timeout p) in
        Evaluate (wp_monService p) serverID ipv4 success ;;;
        ret tt
  end.

(** ** The goroutines of [Run]

    The main goroutine sends the identifiers, closes the channel and waits; a
    worker receives until the channel is closed and drained.  A panic of a
    worker ends the process. *)
Inductive main_pc :=
| Sending (rest : list string)
| Waiting
| Returned
| Crashed.

Inductive worker :=
| Idle
| Busy (id : string)
| Exited.

#[export] Instance worker_eq_dec : EqDecision worker.
Proof. solve_decision. Defined.

Record PoolState := mkPool {
  ps_main : main_pc;
  ps_chan : Chan string;
  ps_workers : list worker;
  ps_world : World;
  ps_done : list string;   (* history: the servers processed, in order *)
}.

(** What the pings of a cycle give, by server, address and timeout. *)
Definition Network : Type := string -> string -> Duration -> bool.

Inductive pool_step (p : workerPool) (net : Network) : PoolState -> PoolState -> Prop :=
| pool_send id rest ch ch' ws w d :
    chan_send id ch = Sent ch' ->
    pool_step p net (mkPool (Sending (id :: rest)) ch ws w d) (mkPool (Sending rest) ch' ws w d)
| pool_close ch ws w d :
    pool_step p net (mkPool (Sending []) ch ws w d) (mkPool Waiting (chan_close ch) ws w d)
| pool_take m ch ch' ws i id w d :
    m <> Crashed -> ws !! i = Some Idle -> chan_recv ch = Received id ch' ->
    pool_step p net (mkPool m ch ws w d) (mkPool m ch' (<[i := Busy id]> ws) w d)
| pool_exit m ch ws i w d :
    m <> Crashed -> ws !! i = Some Idle -> chan_recv ch = Closed ->
    pool_step p net (mkPool m ch ws w d) (mkPool m ch (<[i := Exited]> ws) w d)
| pool_process m ch ws i id w w' d :
    m <> Crashed -> ws !! i = Some (Busy id) -> processServer p (net id) id w = (w', Done tt) ->
    pool_step p net (mkPool m ch ws w d) (mkPool m ch (<[i := Idle]> ws) w' (d ++ [id]))
| pool_panic m ch ws i id w w' d :
    m <> Crashed -> ws !! i = Some (Busy id) -> processServer p (net id) id w = (w', Panicked) ->
    pool_step p net (mkPool m ch ws w d) (mkPool Crashed ch ws w' d)
| pool_return ch ws w d :
    Forall (fun x => x = Exited) ws ->
    pool_step p net (mkPool Waiting ch ws w d) (mkPool Returned ch ws w d).

Definition pool_start (p : workerPool) (ids : list string) (w : World) : PoolState :=
  mkPool (Sending ids) (mkChan [] (length ids) false) (replicate (Z.to_nat (wp_concurrency p)) Idle) w [].

(** The pool in a world that others have changed. *)
Definition with_world (s : PoolState) (w : World) : PoolState :=
  mkPool (ps_main s) (ps_chan s) (ps_workers s) w (ps_done s).

(** [Run]: from a world to its result and the world it leaves. *)
Inductive Pool_Run (p : workerPool) (net : Network) (w : World) : result () -> World -> Prop :=
| Run_fails e w' :
    redis_call (wp_rdb p) (redis_SMembers ServerAllIDsKey) w = (w', Done (Err e)) ->
    Pool_Run p net w (Err (Wrapped "failed to fetch server IDs from redis" e)) w'
| Run_nothing w' :
    redis_call (wp_rdb p) (redis_SMembers ServerAllIDsKey) w = (w', Done (Ok [])) ->
    Pool_Run p net w (Ok tt) w'
| Run_all id ids w' s :
    redis_call (wp_rdb p) (redis_SMembers ServerAllIDsKey) w = (w', Done (Ok (id :: ids))) ->
    rtc (pool_step p net) (pool_start p (id :: ids) w') s -> ps_main s = Returned ->
    Pool_Run p net w (Ok tt) (ps_world s).

(** ** [AcquireLock] and [App.runCycle] *)
Definition AcquireLock (rdb : UniversalClient) (key : string) (expiration : Duration)
  : M World (result bool) :=
  if iface_is_nil rdb then ret (Ok false)
  else now <-- time_Now ;; redis_call rdb (redis_SetNX now key "locked" expiration).

Record App := mkApp {
  app_RedisClient : UniversalClient;
  app_Pool : workerPool;
  app_lockKey : string;           (* MONITORING_WORKER_LOCK_KEY *)
  app_lockExpiration : Duration;  (* MONITORING_WORKER_LOCK_EXPIRATION *)
}.

Inductive runCycle (a : App) (net : Network) (w : World) : World -> Prop :=
| cycle_lock_error e w' :
    AcquireLock (app_RedisClient a) (app_lockKey a) (app_lockExpiration a) w = (w', Done (Err e)) ->
    runCycle a net w w'
| cycle_not_acquired w' :
    AcquireLock (app_RedisClient a) (app_lockKey a) (app_lockExpiration a) w = (w', Done (Ok false)) ->
    runCycle a net w w'
| cycle_acquired w1 r w' :
    AcquireLock (app_RedisClient a) (app_lockKey a) (app_lockExpiration a) w = (w1, Done (Ok true)) ->
    Pool_Run (app_Pool a) net (set_ticks (S (w_ticks w1)) w1) r w' ->
    runCycle a net w (set_ticks (S (w_ticks w')) w').

End Pool.

(** ** Every server is processed exactly once *)
Section PoolFacts.
Context `{E : Env}.
Variables (p : workerPool) (net : Network) (ids : list string).

Definition busy (ws : list worker) : list string :=
  omap (fun x => match x with Busy id => Some id | _ => None end) ws.
Definition pending (m : main_pc) : list string :=
  match m with Sending rest => rest | _ => [] end.

Definition pool_inv (s : PoolState) : Prop :=
  ps_main s = Crashed \/
  (ids ≡ₚ ps_done s ++ busy (ps_workers s) ++ ch_buf (ps_chan s) ++ pending (ps_main s) /\
   match ps_main s with
   | Sending rest => ch_closed (ps_chan s) = false /\
                     (length (ch_buf (ps_chan s)) + length rest <= ch_cap (ps_chan s))%nat
   | _ => ch_closed (ps_chan s) = true
   end /\
   (Exited ∈ ps_workers s -> ch_closed (ps_chan s) = true /\ ch_buf (ps_chan s) = []) /\
   (ps_main s = Returned -> Forall (fun x => x = Exited) (ps_workers s)) /\
   length (ps_workers s) = Z.to_nat (wp_concurrency p)).

Lemma busy_app l1 l2 : busy (l1 ++ l2) = busy l1 ++ busy l2.
Proof. apply omap_app. Qed.

Lemma exited_other l1 l2 y :
  y <> Exited -> Exited ∈ l1 ++ y :: l2 -> forall x, Exited ∈ l1 ++ x :: l2.
Proof. intros Hy. rewrite elem_of_app, elem_of_cons. intros H x. rewrite elem_of_app, elem_of_cons. naive_solver. Qed.

Lemma all_exited_idle l1 l2 x : Forall (fun x => x = Exited) (l1 ++ x :: l2) -> x = Exited.
Proof. intros [_ H]%Forall_app. by apply Forall_cons_1 in H as [? _]. Qed.

Lemma pool_inv_start w : pool_inv (pool_start p ids w).
Proof.
  right. unfold pool_start. cbn [ps_main ps_done ps_workers ps_chan ch_buf ch_closed ch_cap pending length app].
  assert (busy (replicate (Z.to_nat (wp_concurrency p)) Idle) = []) as ->
    by (induction (Z.to_nat (wp_concurrency p)); [done | exact IHn]).
  split; [done |]. split; [split; [done | lia] |]. split; [| split; [done | apply length_replicate]].
  by intros [? _]%elem_of_replicate.
Qed.

Lemma pool_inv_step s s' : pool_step p net s s' -> pool_inv s -> pool_inv s'.
Proof.
  intros Hstep Hinv. inversion Hstep as
    [id rest ch ch' ws w d Hs | ch ws w d | m ch ch' ws i id w d Hm Hi Hr | m ch ws i w d Hm Hi Hr
    | m ch ws i id w w' d Hm Hi Hp | m ch ws i id w w' d Hm Hi Hp | ch ws w d Hall]; subst;
    (destruct Hinv as [?|(Hperm & Hclosed & Hex & Hret & Hlen)];
      [cbn in *; try (by left); try congruence; try discriminate |]);
    cbn [ps_main ps_chan ps_workers ps_done pending] in *; try (by left); right;
    cbn [ps_main ps_chan ps_workers ps_done pending].
  - apply chan_send_buf in Hs as Hb. destruct Hb as (Hb & _ & Hc'). destruct Hclosed as [Hc Hcap].
    unfold chan_send in Hs. rewrite Hc in Hs. destruct (_ <? _)%nat; [| done]. injection Hs as <-. cbn in *.
    split; [by rewrite Hperm, <- !app_assoc |]. split; [split; [done |]; rewrite length_app; cbn; lia |].
    split; [| done]. intros H. by destruct (Hex H) as [? _]; congruence.
  - destruct Hclosed as [Hc Hcap]. cbn. split; [done |]. split; [done |]. split; [| done].
    intros H. split; [done |]. by apply Hex.
  - apply chan_recv_buf in Hr as (Hb & Hc' & Hcap).
    destruct (list_split_at _ _ _ Hi) as (l1 & l2 & -> & Hins). rewrite Hins.
    split; [| split; [| split; [| split]]].
    + rewrite Hperm, Hb, !busy_app. cbn [busy omap list_omap app]. rewrite <- !app_assoc. apply Permutation_app_head, Permutation_app_head.
      cbn. by rewrite <- Permutation_middle.
    + rewrite Hc', Hcap. destruct m; [| done..]. rewrite Hb in Hclosed. cbn in Hclosed. split; [tauto | lia].
    + intros H. eapply (exited_other _ _ _) in H; [| done]. apply Hex in H as [_ H]. by rewrite Hb in H.
    + intros ->. specialize (Hret eq_refl). by apply all_exited_idle in Hret.
    + rewrite length_app in *. cbn in *. lia.
  - unfold chan_recv in Hr. destruct (ch_buf ch) eqn:Hb; [| done]. destruct (ch_closed ch) eqn:Hc; [| done].
    destruct (list_split_at _ _ _ Hi) as (l1 & l2 & -> & Hins). rewrite Hins.
    split; [rewrite Hperm, !busy_app; done |]. split; [done |]. split; [done |]. split.
    + intros ->. specialize (Hret eq_refl). by apply all_exited_idle in Hret.
    + rewrite length_app in *. cbn in *. lia.
  - destruct (list_split_at _ _ _ Hi) as (l1 & l2 & -> & Hins). rewrite Hins.
    split; [| split; [done |]; split; [| split]].
    + rewrite Hperm, !busy_app. cbn [busy omap list_omap app]. rewrite <- !app_assoc. apply Permutation_app_head.
      cbn. by rewrite <- Permutation_middle.
    + intros H. eapply exited_other in H; [| done]. by apply Hex.
    + intros ->. specialize (Hret eq_refl). by apply all_exited_idle in Hret.
    + rewrite length_app in *. cbn in *. lia.
  - done.
Qed.

Lemma pool_inv_reach w s : rtc (pool_step p net) (pool_start p ids w) s -> pool_inv s.
Proof.
  intros H. assert (pool_inv (pool_start p ids w)) as H0 by apply pool_inv_start. revert H0.
  induction H as [|x y z Hxy _ IH]; [done |]. intros Hx. by eapply IH, pool_inv_step.
Qed.

Lemma pool_done_all w s :
  0 < wp_concurrency p -> rtc (pool_step p net) (pool_start p ids w) s -> ps_main s = Returned ->
  ps_done s ≡ₚ ids.
Proof.
  intros Hc Hrun Hm. destruct (pool_inv_reach _ _ Hrun) as [?|(Hperm & _ & Hex & Hret & Hlen)]; [congruence |].
  specialize (Hret Hm). rewrite Hm in Hperm. cbn in Hperm.
  assert (Exited ∈ ps_workers s) as Hin.
  { destruct (ps_workers s) as [|x ws]; [cbn in Hlen; lia |]. apply Forall_cons_1 in Hret as [-> _]. by left. }
  assert (busy (ps_workers s) = []) as Hb.
  { clear -Hret. induction Hret as [|x ws -> _ IH]; [done | exact IH]. }
  destruct (Hex Hin) as [_ Hbuf]. by rewrite Hperm, Hb, Hbuf, app_nil_r.
Qed.

(** When [Run] returns, and there is at least one worker, each identifier has
    been processed exactly once, whatever the interleaving. *)
Theorem pool_processes_each_once w s :
  0 < wp_concurrency p -> rtc (pool_step p net) (pool_start p ids w) s -> ps_main s = Returned ->
  ps_done s ≡ₚ ids.
Proof. apply pool_done_all. Qed.

(** Without a worker nothing is processed, and [Run] still returns. *)
Lemma pool_without_workers w s :
  wp_concurrency p <= 0 -> rtc (pool_step p net) (pool_start p ids w) s -> ps_done s = [].
Proof.
  intros Hc Hrun. assert (ps_workers (pool_start p ids w) = [] /\ ps_done (pool_start p ids w) = []) as H0.
  { cbn. by replace (Z.to_nat (wp_concurrency p)) with 0%nat by lia. }
  revert H0. induction Hrun as [x|x y z Hxy _ IH]; [tauto |]. intros [Hw Hd]. apply IH.
  inversion Hxy; subst; cbn in *; subst; done.
Qed.

(** *** Termination *)
Definition worker_weight (x : worker) : nat :=
  match x with Idle => 1 | Busy _ => 2 | Exited => 0 end.
Definition main_weight (m : main_pc) : nat :=
  match m with Sending rest => 2 + 3 * length rest | Waiting => 1 | Returned | Crashed => 0 end.
Definition pool_measure (s : PoolState) : nat :=
  main_weight (ps_main s) + 2 * length (ch_buf (ps_chan s)) + sum_list_with worker_weight (ps_workers s).

Lemma pool_measure_step s s' : pool_inv s -> pool_step p net s s' -> (pool_measure s' < pool_measure s)%nat.
Proof.
  intros Hinv Hstep. inversion Hstep as
    [id rest ch ch' ws w d Hs | ch ws w d | m ch ch' ws i id w d Hm Hi Hr | m ch ws i w d Hm Hi Hr
    | m ch ws i id w w' d Hm Hi Hp | m ch ws i id w w' d Hm Hi Hp | ch ws w d Hall]; subst;
    unfold pool_measure; cbn [ps_main ps_chan ps_workers];
    try (destruct (list_split_at _ _ _ Hi) as (l1 & l2 & -> & Hins); rewrite ?Hins, !sum_list_with_app;
         cbn [sum_list_with worker_weight]).
  - apply chan_send_buf in Hs as (-> & _). rewrite length_app. cbn. lia.
  - cbn. lia.
  - apply chan_recv_buf in Hr as (-> & _). cbn. lia.
  - lia.
  - lia.
  - destruct Hinv as [?|(_ & _ & _ & Hret & _)]; [done |]. cbn in Hret.
    destruct m; cbn; [lia | lia | | done]. specialize (Hret eq_refl). by apply all_exited_idle in Hret.
  - cbn. lia.
Qed.

(** As long as the process has not crashed and [Run] has not returned, some
    goroutine can move. *)
Lemma pool_progress s :
  pool_inv s -> ps_main s <> Crashed -> ps_main s <> Returned -> exists s', pool_step p net s s'.
Proof.
  intros [?|(Hperm & Hcl & Hex & _ & _)] Hc Hr; [done |]. destruct s as [m ch ws w d]. cbn in *.
  destruct m as [[|id rest]| | |]; [| | | done | done].
  - eexists. apply pool_close.
  - destruct Hcl as [Hopen Hcap]. cbn in Hcap. eexists. apply pool_send. unfold chan_send. rewrite Hopen.
    destruct (Nat.ltb_spec (length (ch_buf ch)) (ch_cap ch)); [done | lia].
  - destruct (decide (Forall (fun x => x = Exited) ws)) as [Hall|Hn].
    { eexists. by apply pool_return. }
    apply not_Forall_Exists in Hn; [| apply _].
    apply Exists_exists in Hn as (x & [i Hi]%list_elem_of_lookup & Hx). destruct x as [|id|]; [| | by destruct Hx].
    + destruct (ch_buf ch) as [|id q] eqn:Hb.
      * eexists. eapply pool_exit; [done | exact Hi |]. unfold chan_recv. by rewrite Hb, Hcl.
      * eexists. eapply pool_take; [done | exact Hi |]. unfold chan_recv. by rewrite Hb.
    + destruct (processServer p (net id) id w) as [w' [[]|]] eqn:Hp.
      * eexists. by eapply pool_process.
      * eexists. by eapply pool_panic.
Qed.

(** C21: [Run] terminates under every schedule: no run has more than
    [3 * ids + workers + 2] steps, and a run that cannot go on has returned, or
    a panic has ended the process. *)
Theorem pool_terminates w n s :
  nsteps (pool_step p net) n (pool_start p ids w) s ->
  (n <= 3 * length ids + Z.to_nat (wp_concurrency p) + 2)%nat /\
  ((forall s', ~ pool_step p net s s') -> ps_main s = Returned \/ ps_main s = Crashed).
Proof.
  intros Hn. assert (forall k s0 s1, nsteps (pool_step p net) k s0 s1 -> pool_inv s0 ->
                       (k + pool_measure s1 <= pool_measure s0)%nat /\ pool_inv s1) as Hbound.
  { intros k. induction k as [|k IH]; intros s0 s1 H H0.
    - inversion H; subst. split; [lia | done].
    - inversion H as [|? ? s2 ? Hstep Hrest]; subst. pose proof (pool_measure_step _ _ H0 Hstep).
      destruct (IH s2 s1 Hrest (pool_inv_step _ _ Hstep H0)). split; [lia | done]. }
  destruct (Hbound _ _ _ Hn (pool_inv_start w)) as [Hm Hinv]. split.
  - unfold pool_measure at 2 in Hm. cbn -[Nat.mul] in Hm.
    assert (forall c, sum_list_with worker_weight (replicate c Idle) = c) as Hr
      by (intros c; induction c; cbn; [done | by rewrite IHc]).
    rewrite Hr in Hm. lia.
  - intros Hstuck. destruct (ps_main s) eqn:Hs; [| | by left | by right];
      (destruct (pool_progress s Hinv) as [s' ?]; [congruence | congruence | by destruct (Hstuck s')]).
Qed.
End PoolFacts.

(** ** A cycle is one step of the state machine for every server *)
Section Cycle.
Context `{E : Env} {L : EnvLaws E}.
Variables (p : workerPool) (net : Network).
Hypothesis Hrdb : wp_rdb p = LiveClient.
Hypothesis Hmon : mon_rdb (wp_monService p) = LiveClient.
Hypothesis Hthreshold : mon_failureThreshold (wp_monService p) < 2 ^ 31.
#[local] Abbreviation threshold := (mon_failureThreshold (wp_monService p)).

(** A server the monitor can follow: its status is known and the same in Redis
    and PostgreSQL, and its address is cached. *)
Definition watched (w : World) (id ip : string) (st : ServerStatus) (n : Z) : Prop :=
  cached w id st n /\ known st /\ row_shows w id st /\
  ip <> ""%string /\ hash_of (data (w_redis w)) (ServerInfoKey id) !! "ipv4"%string = Some ip.

Lemma watched_other a b ip w w' st n :
  only_server a w w' -> uuid_column_eq b a = false -> watched w b ip st n -> watched w' b ip st n.
Proof.
  intros (Hh & _ & _ & _ & Hrows) Hne ((H1 & H2 & H3) & Hk & Hr & Hip & Hi).
  assert (ServerInfoKey b <> ServerInfoKey a) as Hkey
    by (intros ->%ServerInfoKey_inj; by rewrite uuid_column_refl in Hne).
  unfold watched, cached. rewrite !Hh by auto. split; [done |]. split; [done |]. split; [| done].
  intros x Hx Hxb. apply Hr; [| done]. apply Hrows; [| done].
  destruct (uuid_column_eq (server_ServerID x) a) eqn:Hxa; [| done].
  rewrite uuid_column_sym in Hxb. by rewrite (uuid_column_trans _ _ _ Hxb Hxa) in Hne.
Qed.

Lemma processServer_step Ping id ip w st n :
  monitor_ok w -> watched w id ip st n ->
  wp (processServer p Ping id) w
    (fun _ w' => monitor_ok w' /\ only_server id w w' /\
       let '(st', n') := next threshold st n (Ping ip (wp_timeout p)) in watched w' id ip st' n')
    (fun _ => False).
Proof.
  intros (Hr & Ht & HN & Hch) (Hc & Hk & Hrow & Hne & Hip). unfold processServer. rewrite Hrdb.
  apply wp_bind, wp_redis_call; [| done]. intros _ r a Hx.
  pose proof (redis_HGet_spec (ServerInfoKey id) "ipv4" (w_redis w)) as (Hd & Hu & Ha).
  rewrite Hx in *. cbn in Hd, Hu, Ha. destruct a as [ip'|e].
  2:{ destruct Ha as [Ha1 Ha2]. rewrite Ha1 in Hip; [done | by apply Ha2]. }
  assert (ip' = ip) as -> by congruence. destruct (String.eqb_spec ip ""); [done |]. cbn zeta.
  set (ok := Ping ip _). set (w1 := set_redis r w).
  assert (only_server id w w1) as Hf by (unfold only_server, w1; world_simpl; rewrite Hd; repeat split; done).
  assert (cached w1 id st n) as Hc1 by (unfold cached, w1; world_simpl; by rewrite Hd).
  apply wp_bind. eapply wp_mono; [apply (Evaluate_step _ id ip ok st n w1 Hmon Hthreshold); try done; by split; auto |].
  intros res w2 (_ & Hm2 & Ho & Hn). apply wp_ret. split; [done |]. split; [by etrans |].
  pose proof (next_known threshold st n ok Hk) as Hk'. destruct (next _ st n ok) as [st' n'].
  destruct Hn as [Hc2 Hr2]. split; [done |]. split; [done |]. split; [done |]. split; [done |].
  assert (only_server id w w2) as (Hh & _) by (by etrans). rewrite Hh; [done |]. right. done.
Qed.

Variables (ids : list string) (ip0 : string -> string) (st0 : string -> ServerStatus) (n0 : string -> Z).
Hypothesis Hids : NoDup ids.
Hypothesis Hapart : forall a b, a ∈ ids -> b ∈ ids -> uuid_column_eq a b = true -> a = b.

(** The server has made the transition of the state machine for the ping of
    this cycle at its address. *)
Definition stepped (w : World) (id : string) : Prop :=
  let '(st', n') := next threshold (st0 id) (n0 id) (net id (ip0 id) (wp_timeout p)) in watched w id (ip0 id) st' n'.

Definition cycle_inv (s : PoolState) : Prop :=
  ps_main s <> Crashed /\ pool_inv p ids s /\ monitor_ok (ps_world s) /\
  forall id, id ∈ ids -> (id ∈ ps_done s -> stepped (ps_world s) id) /\
                         (id ∉ ps_done s -> watched (ps_world s) id (ip0 id) (st0 id) (n0 id)).

Lemma busy_elem ws i id : ws !! i = Some (Busy id) -> id ∈ busy ws.
Proof.
  intros (l1 & l2 & -> & _)%list_split_at. rewrite busy_app. apply elem_of_app. right. by left.
Qed.

(** A server a worker is busy with is one of the list, and not yet processed. *)
Lemma busy_not_done s i id :
  pool_inv p ids s -> ps_main s <> Crashed -> ps_workers s !! i = Some (Busy id) ->
  id ∈ ids /\ id ∉ ps_done s.
Proof.
  intros [?|(Hperm & _)] Hm Hi%busy_elem; [done |]. split.
  - rewrite Hperm. rewrite !elem_of_app. auto.
  - rewrite Hperm in Hids. apply NoDup_app in Hids as (_ & Hd & _). intros Hdone.
    apply (Hd id Hdone). apply elem_of_app. by left.
Qed.

Lemma cycle_inv_process s w' i id :
  cycle_inv s -> ps_workers s !! i = Some (Busy id) -> processServer p (net id) id (ps_world s) = (w', Done tt) ->
  monitor_ok w' /\
  forall b, b ∈ ids -> (b ∈ ps_done s ++ [id] -> stepped w' b) /\
                       (b ∉ ps_done s ++ [id] -> watched w' b (ip0 b) (st0 b) (n0 b)).
Proof.
  intros (Hm & Hinv & Hok & Hall) Hi Hp. destruct (busy_not_done _ _ _ Hinv Hm Hi) as [Hid Hnd].
  pose proof (processServer_step (net id) id (ip0 id) (ps_world s) _ _ Hok (proj2 (Hall id Hid) Hnd)) as Hstep.
  unfold wp in Hstep. rewrite Hp in Hstep. destruct Hstep as (Hok' & Ho & Hnew).
  change (stepped w' id) in Hnew. split; [done |].
  assert (forall b, b ∈ ids -> b <> id -> uuid_column_eq b id = false) as Hne.
  { intros b Hb Hbi. destruct (uuid_column_eq b id) eqn:He; [| done]. destruct Hbi. by apply Hapart. }
  intros b Hb. destruct (Hall b Hb) as [H1 H2]. rewrite elem_of_app, list_elem_of_singleton. split.
  - intros [Hd | ->]; [| exact Hnew]. assert (b <> id) as Hbi by congruence.
    pose proof (H1 Hd) as Hs. unfold stepped in Hs |- *. destruct (next _ _ _ _) as [st' n'].
    eapply watched_other; [exact Ho | by apply Hne | done].
  - intros Hn. eapply watched_other; [exact Ho | apply Hne; naive_solver | naive_solver].
Qed.

Lemma cycle_inv_step s s' : pool_step p net s s' -> cycle_inv s -> cycle_inv s'.
Proof.
  intros Hstep Hc. pose proof Hc as (Hm & Hinv & Hok & Hall).
  pose proof (pool_inv_step _ _ _ _ _ Hstep Hinv) as Hinv'.
  inversion Hstep as [id rest ch ch' ws w d Hs | ch ws w d | m ch ch' ws i id w d ? Hi Hr | m ch ws i w d ? Hi Hr
    | m ch ws i id w w' d ? Hi Hp | m ch ws i id w w' d ? Hi Hp | ch ws w d Hex]; subst;
    try (split; [done |]; split; [done |]; split; [exact Hok | exact Hall]).
  - destruct (cycle_inv_process _ _ _ _ Hc Hi Hp) as [Hok' Hall'].
    split; [done |]. split; [done |]. split; [exact Hok' | exact Hall'].
  - destruct (busy_not_done _ _ _ Hinv Hm Hi) as [Hid Hnd].
    pose proof (processServer_step (net id) id (ip0 id) w _ _ Hok (proj2 (Hall id Hid) Hnd)) as Hw.
    unfold wp in Hw. by rewrite Hp in Hw.
Qed.

Lemma cycle_steps w s :
  0 < wp_concurrency p -> monitor_ok w -> (forall id, id ∈ ids -> watched w id (ip0 id) (st0 id) (n0 id)) ->
  rtc (pool_step p net) (pool_start p ids w) s ->
  ps_main s <> Crashed /\ (ps_main s = Returned -> forall id, id ∈ ids -> stepped (ps_world s) id).
Proof.
  intros Hcc Hok Hw Hrun.
  assert (cycle_inv s) as (Hm & Hinv & _ & Hall).
  { assert (cycle_inv (pool_start p ids w)) as H0.
    { split; [done |]. split; [apply pool_inv_start |]. split; [done |]. intros id Hid.
      split; [by intros ?%not_elem_of_nil | auto]. }
    revert H0. clear -Hrdb Hmon Hthreshold Hids Hapart Hrun. induction Hrun as [|x y z Hxy _ IH]; [done |].
    intros Hx. by eapply IH, cycle_inv_step. }
  split; [done |]. intros Hret id Hid. apply (Hall id Hid).
  by rewrite (pool_done_all _ _ _ _ _ Hcc Hrun Hret).
Qed.

(** C4: With Redis, PostgreSQL and the logger running, at least one worker, a
    threshold within 32 bits and distinct servers that are online or offline
    alike in both stores and have a cached address, no schedule of the pool
    crashes, and when it returns every server has made exactly one transition
    of the state machine, from its own state and for what its own ping at its
    own address gave, in Redis and PostgreSQL alike. *)
Theorem cycle_steps_every_server w s :
  0 < wp_concurrency p -> monitor_ok w -> (forall id, id ∈ ids -> watched w id (ip0 id) (st0 id) (n0 id)) ->
  rtc (pool_step p net) (pool_start p ids w) s ->
  ps_main s <> Crashed /\ (ps_main s = Returned -> forall id, id ∈ ids -> stepped (ps_world s) id).
Proof. apply cycle_steps. Qed.
End Cycle.

(** ** Any number of instances

    [runCycle] of every instance in single steps on one world.  The lock is
    taken by the first of them and released by none: it expires.  An instance
    in a cycle carries the instant at which it took the lock. *)
Section Apart.
Variable d : Z.

Lemma apart_elems (l : list Time) t u :
  StronglySorted (fun later earlier => earlier + d <= later) l -> t ∈ l -> u ∈ l -> t <> u ->
  t + d <= u \/ u + d <= t.
Proof.
  induction 1 as [|x l _ IH Hx]; intros Ht Hu Hne; [by apply not_elem_of_nil in Ht |].
  rewrite Forall_forall in Hx. apply elem_of_cons in Ht as [->|Ht], Hu as [->|Hu]; [done | | |].
  - right. by apply Hx.
  - left. by apply Hx.
  - by apply IH.
Qed.
End Apart.

Section Cluster.
Context `{E : Env} {L : EnvLaws E}.
Variable apps : nat -> App.
Variable key : string.

Inductive inst_pc :=
| Resting
| Fetching (since : Time)
| Cycling (since : Time) (s : PoolState).

Record Cluster := mkCluster {
  cl_world : World;
  cl_insts : nat -> inst_pc;
  cl_starts : list Time;     (* history: when the lock was taken, the last time first *)
}.

Definition now_of (w : World) : Time := w_clock w (w_ticks w).
Definition tick (w : World) : World := set_ticks (S (w_ticks w)) w.

#[local] Abbreviation lock i w :=
  (AcquireLock (app_RedisClient (apps i)) (app_lockKey (apps i)) (app_lockExpiration (apps i)) w).
#[local] Abbreviation fetch i w := (redis_call (wp_rdb (app_Pool (apps i))) (redis_SMembers ServerAllIDsKey) w).

Inductive cluster_step : Cluster -> Cluster -> Prop :=
| cl_refused i r w w' ins ts :
    ins i = Resting -> lock i w = (w', Done r) -> r <> Ok true ->
    cluster_step (mkCluster w ins ts) (mkCluster w' ins ts)
| cl_acquired i w w' ins ts :
    ins i = Resting -> lock i w = (w', Done (Ok true)) ->
    cluster_step (mkCluster w ins ts) (mkCluster (tick w') (<[i := Fetching (now_of w)]> ins) (now_of w :: ts))
| cl_nothing i t r w w' ins ts :
    ins i = Fetching t -> fetch i w = (w', Done r) -> (forall id ids, r <> Ok (id :: ids)) ->
    cluster_step (mkCluster w ins ts) (mkCluster (tick w') (<[i := Resting]> ins) ts)
| cl_begins i t id ids w w' ins ts :
    ins i = Fetching t -> fetch i w = (w', Done (Ok (id :: ids))) ->
    cluster_step (mkCluster w ins ts)
      (mkCluster w' (<[i := Cycling t (pool_start (app_Pool (apps i)) (id :: ids) w')]> ins) ts)
| cl_pool i t net s s' w ins ts :
    ins i = Cycling t s -> pool_step (app_Pool (apps i)) net (with_world s w) s' ->
    cluster_step (mkCluster w ins ts) (mkCluster (ps_world s') (<[i := Cycling t s']> ins) ts)
| cl_ends i t s w ins ts :
    ins i = Cycling t s -> ps_main s = Returned ->
    cluster_step (mkCluster w ins ts) (mkCluster (tick w) (<[i := Resting]> ins) ts)
(* the rest of the deployment, which does not write the key of the lock *)
| cl_other w w' ins ts :
    (redis_up (w_redis w) -> redis_up (w_redis w')) ->
    rd_strings (data (w_redis w')) !! key = rd_strings (data (w_redis w)) !! key ->
    cluster_step (mkCluster w ins ts) (mkCluster w' ins ts).

(** *** A call of [runCycle] is a run of these steps *)
Definition same_insts (ins is' : nat -> inst_pc) : Prop := forall j, is' j = ins j.

Lemma pool_run_steps i t net s s' ins ts :
  rtc (pool_step (app_Pool (apps i)) net) s s' -> ins i = Cycling t s ->
  exists is', rtc cluster_step (mkCluster (ps_world s) ins ts) (mkCluster (ps_world s') is' ts) /\
    is' i = Cycling t s' /\ forall j, j <> i -> is' j = ins j.
Proof.
  intros Hrun. revert ins. induction Hrun as [s|s s1 s2 Hstep _ IH]; intros ins Hi; [by exists ins |].
  destruct (IH (<[i := Cycling t s1]> ins)) as (is' & Hr & Hi' & Ho); [by rewrite fn_lookup_insert |].
  exists is'. split; [| split; [done |]].
  - eapply rtc_l; [| exact Hr]. eapply cl_pool; [exact Hi |]. by destruct s.
  - intros j Hj. rewrite Ho by done. by rewrite fn_lookup_insert_ne.
Qed.

Lemma same_insts_back i ins is' :
  ins i = Resting -> (forall j, j <> i -> is' j = ins j) -> same_insts ins (<[i := Resting]> is').
Proof.
  intros Hi Ho j. destruct (decide (j = i)) as [->|Hj]; [by rewrite fn_lookup_insert |].
  rewrite fn_lookup_insert_ne by done. by apply Ho.
Qed.

Lemma runCycle_steps i net w w' ins ts :
  ins i = Resting -> runCycle (apps i) net w w' ->
  exists is' ts', rtc cluster_step (mkCluster w ins ts) (mkCluster w' is' ts') /\ same_insts ins is'.
Proof.
  intros Hi [e w1 Hl|w1 Hl|w1 r w2 Hl Hrun].
  - exists ins, ts. split; [apply rtc_once; by eapply cl_refused | done].
  - exists ins, ts. split; [apply rtc_once; by eapply cl_refused | done].
  - set (is1 := <[i := Fetching (now_of w)]> ins).
    assert (is1 i = Fetching (now_of w)) as H1 by (unfold is1; by rewrite fn_lookup_insert).
    assert (forall j, j <> i -> is1 j = ins j) as Ho by (intros j Hj; unfold is1; by rewrite fn_lookup_insert_ne).
    assert (cluster_step (mkCluster w ins ts) (mkCluster (tick w1) is1 (now_of w :: ts))) as Hs by (by apply cl_acquired).
    destruct Hrun as [e w3 Hf|w3 Hf|id ids w3 s Hf Hpool Hret].
    + exists (<[i := Resting]> is1), (now_of w :: ts). split; [| by apply same_insts_back].
      eapply rtc_l; [exact Hs |]. apply rtc_once. by eapply cl_nothing.
    + exists (<[i := Resting]> is1), (now_of w :: ts). split; [| by apply same_insts_back].
      eapply rtc_l; [exact Hs |]. apply rtc_once. by eapply cl_nothing.
    + set (is2 := <[i := Cycling (now_of w) (pool_start (app_Pool (apps i)) (id :: ids) w3)]> is1).
      destruct (pool_run_steps i (now_of w) net _ _ is2 (now_of w :: ts) Hpool) as (is3 & Hr & H3 & Ho3);
        [unfold is2; by rewrite fn_lookup_insert |].
      exists (<[i := Resting]> is3), (now_of w :: ts). split.
      * eapply rtc_l; [exact Hs |]. eapply rtc_l; [by eapply (cl_begins i (now_of w) id ids) |].
        eapply rtc_r; [exact Hr |]. by eapply cl_ends.
      * apply same_insts_back; [done |]. intros j Hj. rewrite Ho3 by done. unfold is2.
        rewrite fn_lookup_insert_ne by done. by apply Ho.
Qed.

(** *** What a cycle does to the lock: nothing *)

(** On a Redis that answers, [m] leaves the strings alone. *)
Definition keeps_strings {A} (m : M World A) : Prop :=
  forall w, redis_up (w_redis w) ->
    let ok w' := redis_up (w_redis w') /\ rd_strings (data (w_redis w')) = rd_strings (data (w_redis w)) in
    wp m w (fun _ => ok) ok.

Lemma strings_ret {A} (x : A) : keeps_strings (ret x).
Proof. intros w Hup. by apply wp_ret. Qed.
Lemma strings_bind {A B} (m : M World A) (k : A -> M World B) :
  keeps_strings m -> (forall x, keeps_strings (k x)) -> keeps_strings (bind m k).
Proof.
  intros Hm Hk w Hup. apply wp_bind. eapply wp_mono; [by apply Hm |]. intros x w1 [Hup1 H1].
  eapply wp_conseq; [by apply Hk | |]; cbn; intros; naive_solver congruence.
Qed.
Lemma strings_off_redis {S A} (get : World -> S) set (op : S -> S * A) :
  (forall s w, w_redis (set s w) = w_redis w) -> keeps_strings (on get set op).
Proof. intros Hs w Hup. apply wp_on. intros s x _. by rewrite Hs. Qed.
Lemma strings_redis {A} c (op : RedisServer -> RedisServer * A) :
  (forall r, redis_up r -> redis_up (op r).1 /\ rd_strings (data (op r).1) = rd_strings (data r)) ->
  keeps_strings (redis_call c op).
Proof.
  intros Hop w Hup. unfold redis_call. destruct c; [done | done |]. apply wp_on. intros r x Hx.
  destruct (Hop (w_redis w) Hup) as [H1 H2]. rewrite Hx in H1, H2. by world_simpl.
Qed.
Lemma strings_Log id ok : keeps_strings (LogObservation id ok).
Proof. intros w Hup. by apply wp_LogObservation. Qed.

Lemma strings_HGet k f r : redis_up r -> redis_up (redis_HGet k f r).1 /\ rd_strings (data (redis_HGet k f r).1) = rd_strings (data r).
Proof. intros Hup. destruct (redis_HGet_spec k f r) as (-> & Hu & _). auto. Qed.
Lemma strings_HGetAll k r : redis_up r -> redis_up (redis_HGetAll k r).1 /\ rd_strings (data (redis_HGetAll k r).1) = rd_strings (data r).
Proof. intros Hup. destruct (redis_HGetAll_spec k r) as (-> & Hu & _). auto. Qed.
Lemma strings_SMembers k r : redis_up r -> redis_up (redis_SMembers k r).1 /\ rd_strings (data (redis_SMembers k r).1) = rd_strings (data r).
Proof. intros Hup. destruct (redis_SMembers_spec k r) as (-> & Hu & _). auto. Qed.
Lemma strings_HSET k fs r :
  redis_up r -> redis_up (redis_Exec [HSET k fs] r).1 /\ rd_strings (data (redis_Exec [HSET k fs] r).1) = rd_strings (data r).
Proof.
  intros Hup. destruct (redis_Exec_spec [HSET k fs] r) as [Hu Hd]. destruct (redis_Exec [HSET k fs] r).2; [| done].
  rewrite Hd. auto.
Qed.

Ltac strings :=
  repeat (first [ apply strings_ret | apply strings_Log | (apply strings_off_redis; reflexivity)
                | (apply strings_redis; first [apply strings_HGet | apply strings_HGetAll | apply strings_HSET])
                | (apply strings_bind; [| intros ?])
                | match goal with
                  | |- keeps_strings (match ?x with _ => _ end) => destruct x
                  | |- keeps_strings (if ?x then _ else _) => destruct x
                  | |- keeps_strings (let '(_, _) := ?x in _) => destruct x
                  end ]).

Lemma strings_processServer p Ping id : keeps_strings (processServer p Ping id).
Proof. unfold processServer, Evaluate, GetServerState, SetServerState, UpdateServerStatus. strings. Qed.

Lemma keeps_strings_done {A} (m : M World A) w w' x :
  keeps_strings m -> redis_up (w_redis w) -> m w = (w', x) ->
  redis_up (w_redis w') /\ rd_strings (data (w_redis w')) = rd_strings (data (w_redis w)).
Proof. intros Hm Hup Hrun. specialize (Hm w Hup). unfold wp in Hm. rewrite Hrun in Hm. by destruct x. Qed.

Lemma pool_strings p net s s' :
  pool_step p net s s' -> redis_up (w_redis (ps_world s)) ->
  redis_up (w_redis (ps_world s')) /\ rd_strings (data (w_redis (ps_world s'))) = rd_strings (data (w_redis (ps_world s))).
Proof.
  intros Hstep Hup. destruct Hstep; cbn in *; try done;
    (eapply keeps_strings_done; [apply strings_processServer | done | eassumption]).
Qed.

(** *** Exclusion *)
Variable expiration : Duration.
Hypothesis Hpos : 0 < expiration.
Hypothesis Hms : expiration mod Millisecond = 0.
Hypothesis Hkey : forall i, app_lockKey (apps i) = key.
Hypothesis Hexp : forall i, app_lockExpiration (apps i) = expiration.

(** Up to the instant [t] the lock cannot be taken. *)
Definition locked_until (w : World) (t : Time) : Prop :=
  exists v, rd_strings (data (w_redis w)) !! key = Some (v, t).

(** An attempt: it finds the lock free and takes it for the whole expiration,
    or changes nothing. *)
Lemma AcquireLock_outcome i w w' r :
  lock i w = (w', Done r) -> redis_up (w_redis w) ->
  redis_up (w_redis w') /\
  match r with
  | Ok true => locked_until w' (now_of w + expiration) /\ forall e, locked_until w e -> e <= now_of w
  | _ => rd_strings (data (w_redis w')) = rd_strings (data (w_redis w))
  end.
Proof.
  rewrite Hkey, Hexp. intros Hrun Hup. eapply run_wp; [exact Hrun |]. clear Hrun. unfold AcquireLock.
  destruct (iface_is_nil _); [apply wp_ret; by intros <- <- |].
  apply wp_bind, wp_time_Now, wp_redis_call; [| done]. intros _ rd x Hx. world_simpl. intros -> <-.
  destruct (redis_SetNX_spec (now_of w) key "locked" expiration (w_redis w) Hpos Hms) as [Hu Ha].
  unfold now_of in *. rewrite Hx in Hu, Ha. cbn in Hu, Ha. split; [by apply Hu |]. unfold locked_until. world_simpl.
  destruct r as [[|]|e]; [| | done].
  - destruct Ha as [Hl Hd]. rewrite Hd. cbn. rewrite lookup_insert_eq.
    split; [by eexists |]. intros e (v & Hv). unfold live_string in Hl. rewrite Hv in Hl.
    destruct (Z.ltb_spec (w_clock w (w_ticks w)) e); [done | lia].
  - by destruct Ha as [-> _].
Qed.

Definition since (pc : inst_pc) : option Time :=
  match pc with Resting => None | Fetching t | Cycling t _ => Some t end.

(** The lock is held since the last start; starts are apart, and those of the
    instances in a cycle are among them, each for one instance. *)
Record cluster_inv (s : Cluster) : Prop := {
  ci_up : redis_up (w_redis (cl_world s));
  ci_lock : forall t ts, cl_starts s = t :: ts -> locked_until (cl_world s) (t + expiration);
  ci_apart : StronglySorted (fun later earlier => earlier + expiration <= later) (cl_starts s);
  ci_since : forall i t, since (cl_insts s i) = Some t -> t ∈ cl_starts s;
  ci_one : forall i j t, since (cl_insts s i) = Some t -> since (cl_insts s j) = Some t -> i = j;
}.

Lemma locked_frame w w' t :
  rd_strings (data (w_redis w')) !! key = rd_strings (data (w_redis w)) !! key -> locked_until w t -> locked_until w' t.
Proof. intros Hs [v Hv]. exists v. congruence. Qed.

(** An instance moves within its cycle, or ends it. *)
Lemma cluster_inv_moves w w' ins ts i pc :
  cluster_inv (mkCluster w ins ts) -> redis_up (w_redis w') ->
  rd_strings (data (w_redis w')) = rd_strings (data (w_redis w)) ->
  since pc = since (ins i) \/ since pc = None -> cluster_inv (mkCluster w' (<[i := pc]> ins) ts).
Proof.
  intros [Hup Hl Ha Hs Hone] Hup' Hstr Hpc. cbn in *.
  assert (forall j t, since ((<[i := pc]> ins) j) = Some t -> since (ins j) = Some t) as Hold.
  { intros j t. destruct (decide (j = i)) as [->|Hj]; [rewrite fn_lookup_insert | by rewrite fn_lookup_insert_ne].
    intros He. destruct Hpc; congruence. }
  split; cbn; [done | | done | |].
  - intros t us He. eapply locked_frame; [| by eapply Hl]. by rewrite Hstr.
  - intros j t Hj. by eapply Hs, Hold.
  - intros j k t Hj Hk. by eapply Hone; apply Hold.
Qed.

Lemma cluster_inv_starts w w' ins ts i s' :
  cluster_inv (mkCluster w ins ts) -> redis_up (w_redis w') -> locked_until w' (now_of w + expiration) ->
  (forall e, locked_until w e -> e <= now_of w) -> since s' = Some (now_of w) ->
  cluster_inv (mkCluster w' (<[i := s']> ins) (now_of w :: ts)).
Proof.
  intros [Hup Hl Ha Hs Hone] Hup' Hnew Hfree Hpc. cbn in *.
  assert (Forall (fun t => t + expiration <= now_of w) ts) as Hts.
  { destruct ts as [|t ts]; [constructor |]. assert (t + expiration <= now_of w) as Ht by (by eapply Hfree, Hl).
    constructor; [done |]. inversion Ha as [|? ? _ Hall]; subst. eapply Forall_impl; [exact Hall |]. cbn. lia. }
  assert (forall j t, since (ins j) = Some t -> t <> now_of w) as Hne.
  { intros j t Hj ->. apply Hs in Hj. rewrite Forall_forall in Hts. apply Hts in Hj; lia. }
  split; cbn; [done | | by constructor | |].
  - by intros t us [= <- <-].
  - intros j t. destruct (decide (j = i)) as [->|Hj]; [rewrite fn_lookup_insert | rewrite fn_lookup_insert_ne by done].
    + rewrite Hpc. intros [= <-]. by left.
    + intros Ht. right. by eapply Hs.
  - intros j k t. destruct (decide (j = i)) as [->|Hj], (decide (k = i)) as [->|Hk];
      rewrite ?fn_lookup_insert, ?fn_lookup_insert_ne, ?Hpc by done; [done | | |].
    + intros [= <-] Hk'. by apply Hne in Hk'.
    + intros Hj' [= <-]. by apply Hne in Hj'.
    + apply Hone.
Qed.

Lemma cluster_inv_step s s' : cluster_step s s' -> cluster_inv s -> cluster_inv s'.
Proof.
  intros Hstep Hinv. pose proof (ci_up _ Hinv) as Hup. destruct Hstep; cbn in *.
  - destruct (AcquireLock_outcome _ _ _ _ H0 Hup) as [Hup' Hl].
    assert (rd_strings (data (w_redis w')) = rd_strings (data (w_redis w))) as Hsame by (by destruct r as [[|]|]).
    clear Hl.
    destruct Hinv as [_ H2 H3 H4 H5]. split; cbn in *; [done | | done | done | done].
    intros t us He. eapply locked_frame; [| by eapply H2]. by rewrite Hsame.
  - destruct (AcquireLock_outcome _ _ _ _ H0 Hup) as [Hup' Hl].
    destruct Hl as [Hl Hfree]. by apply (cluster_inv_starts w).
  - destruct (keeps_strings_done _ _ _ _ (strings_redis _ _ (strings_SMembers _)) Hup H0) as [Hup' Hs].
    apply (cluster_inv_moves w); [done | done | done | by right].
  - destruct (keeps_strings_done _ _ _ _ (strings_redis _ _ (strings_SMembers _)) Hup H0) as [Hup' Hs].
    apply (cluster_inv_moves w); [done | done | done |]. left. by rewrite H.
  - destruct (pool_strings _ _ _ _ H0 Hup) as [Hup' Hs].
    apply (cluster_inv_moves w); [done | done | done |]. left. by rewrite H.
  - apply (cluster_inv_moves w); [done | done | done | by right].
  - destruct Hinv as [_ H2 H3 H4 H5]. split; cbn in *; [by auto | | done | done | done].
    intros t us He. eapply locked_frame; [exact H0 | by eapply H2].
Qed.

(** C20: Any number of instances of the monitor run their cycles in any
    interleaving of the single steps of [runCycle], with the rest of the
    deployment, which leaves the key of the lock alone.  While Redis answers,
    for a positive expiration in whole milliseconds, the instants at which
    cycles start are at least the expiration apart; and of two instances that
    are in a cycle at the same time one started at least the expiration before
    the other, so that cycles that are done within it never overlap. *)
Theorem cycles_are_exclusive w s :
  redis_up (w_redis w) -> rtc cluster_step (mkCluster w (fun _ => Resting) []) s ->
  StronglySorted (fun later earlier => earlier + expiration <= later) (cl_starts s) /\
  forall i j t u, since (cl_insts s i) = Some t -> since (cl_insts s j) = Some u -> i <> j ->
    t + expiration <= u \/ u + expiration <= t.
Proof.
  intros Hup Hrun.
  assert (cluster_inv s) as [_ _ Ha Hs Hone].
  { revert s Hrun. apply (rtc_ind_r cluster_inv).
    - split; cbn; try done. constructor.
    - intros x y _ Hxy Hx. by eapply cluster_inv_step. }
  split; [done |]. intros i j t u Hi Hj Hij.
  assert (t <> u) as Htu by (intros ->; apply Hij; by eapply Hone).
  eapply apart_elems; [exact Ha | by eapply Hs | by eapply Hs | done].
Qed.

(** An instance that asks when the lock is free gets it. *)
Lemma AcquireLock_free w :
  redis_up (w_redis w) -> live_string (data (w_redis w)) (now_of w) key = None ->
  rd_hashes (data (w_redis w)) !! key = None -> rd_sets (data (w_redis w)) !! key = None ->
  (AcquireLock LiveClient key expiration w).2 = Done (Ok true).
Proof.
  intros Hup Hl Hh Hs. unfold AcquireLock, bind, time_Now, redis_call, on. cbn.
  destruct (redis_SetNX_spec (now_of w) key "locked" expiration (w_redis w) Hpos Hms) as [_ Ha].
  unfold now_of in *. destruct (redis_SetNX _ _ _ _ _) as [r [[|]|]]; cbn in *; [done | | done].
  destruct Ha as (_ & [[? H]|[[? H]|[? H]]]); congruence.
Qed.
End Cluster.

(** ** Concrete runs *)
Section MonitorRuns.
#[local] Existing Instance mem_env.
#[local] Existing Instance mem_laws.

Definition demo_pool : workerPool := mkWorkerPool LiveClient demo_monitor 1 (3 * Second).
Definition no_reply (_ : string) (_ : Duration) : bool := false.
Definition unanswered : Network := fun _ => no_reply.
Definition cycle_end : PoolState :=
  mkPool Returned (mkChan [] 1 true) [Exited] (processServer demo_pool no_reply "5" monitored_world).1 ["5"%string].

Lemma demo_cycle_steps : nsteps (pool_step demo_pool unanswered) 6 (pool_start demo_pool ["5"%string] monitored_world) cycle_end.
Proof.
  assert (processServer demo_pool (unanswered "5") "5" monitored_world =
          ((processServer demo_pool no_reply "5" monitored_world).1, Done tt)) as Hp
    by (apply run_outcome; vm_compute; reflexivity).
  eapply nsteps_l; [apply (pool_send demo_pool unanswered "5"); reflexivity |].
  eapply nsteps_l; [apply pool_close |].
  eapply nsteps_l; [eapply (pool_take demo_pool unanswered _ _ _ _ 0); [discriminate | reflexivity | reflexivity] |].
  eapply nsteps_l; [eapply (pool_process demo_pool unanswered _ _ _ 0); [discriminate | reflexivity | exact Hp] |].
  eapply nsteps_l; [eapply (pool_exit demo_pool unanswered _ _ _ 0); [discriminate | reflexivity | reflexivity] |].
  eapply nsteps_l; [apply pool_return; repeat constructor |]. apply nsteps_O.
Qed.

Lemma demo_cycle : rtc (pool_step demo_pool unanswered) (pool_start demo_pool ["5"%string] monitored_world) cycle_end.
Proof. eapply rtc_nsteps_2, demo_cycle_steps. Qed.

Lemma pool_processes_each_once_witness : ["5"%string] ≡ₚ ["5"%string] /\ 0 < 1.
Proof.
  split; [| lia].
  exact (pool_processes_each_once demo_pool unanswered ["5"%string] monitored_world cycle_end eq_refl demo_cycle eq_refl).
Defined.

(** A whole cycle of one server and one worker uses the bound up: six steps. *)
Lemma pool_terminates_witness :
  nsteps (pool_step demo_pool unanswered) 6 (pool_start demo_pool ["5"%string] monitored_world) cycle_end /\
  (6 <= 3 * 1 + 1 + 2)%nat /\
  ((forall s', ~ pool_step demo_pool unanswered cycle_end s') -> ps_main cycle_end = Returned \/ ps_main cycle_end = Crashed).
Proof.
  split; [exact demo_cycle_steps |].
  exact (pool_terminates demo_pool unanswered ["5"%string] monitored_world 6 cycle_end demo_cycle_steps).
Defined.

Lemma monitored_world_watched : watched monitored_world "5" "10.0.0.1" ServerStatusOnline 0.
Proof.
  destruct monitored_world_ok as (_ & H2 & H3). split; [exact H2 |]. split; [by left |].
  split; [exact H3 |]. split; [done | vm_compute; reflexivity].
Qed.

(** The unanswered ping is the first failure: still online, count 1. *)
Lemma cycle_steps_every_server_witness : watched (ps_world cycle_end) "5" "10.0.0.1" ServerStatusOnline 1.
Proof.
  refine (proj2 (cycle_steps_every_server demo_pool unanswered eq_refl eq_refl eq_refl ["5"%string] (fun _ => "10.0.0.1"%string)
    (fun _ => ServerStatusOnline) (fun _ => 0) (NoDup_singleton _) _ monitored_world cycle_end _ _ _ demo_cycle)
    eq_refl "5"%string _).
  - intros a b Ha Hb _. apply list_elem_of_singleton in Ha as ->. apply list_elem_of_singleton in Hb as ->. reflexivity.
  - reflexivity.
  - exact (proj1 monitored_world_ok).
  - intros id Hid. apply list_elem_of_singleton in Hid as ->. exact monitored_world_watched.
  - apply list_elem_of_singleton. reflexivity.
Defined.

(** Two instances with a lock of two seconds: the first one's cycle is under way
    when the second one asks and is refused; after the lock has expired the
    second one starts, with the first one still in its cycle. *)
Definition two_apps (i : nat) : App := mkApp LiveClient demo_pool "lock:monitoring_worker" (2 * Second).

Definition at_first : World := tick (AcquireLock LiveClient "lock:monitoring_worker" (2 * Second) monitored_world).1.
Definition at_fetched : World := (redis_call LiveClient (redis_SMembers ServerAllIDsKey) at_first).1.
Definition at_refused : World := (AcquireLock LiveClient "lock:monitoring_worker" (2 * Second) (set_ticks 1 at_fetched)).1.
Definition at_second : World := tick (AcquireLock LiveClient "lock:monitoring_worker" (2 * Second) at_refused).1.

Lemma demo_cluster : exists s,
  rtc (cluster_step two_apps "lock:monitoring_worker") (mkCluster monitored_world (fun _ => Resting) []) s /\
  since (cl_insts s 0) = Some (now_of monitored_world) /\ since (cl_insts s 1) = Some (now_of at_refused) /\
  cl_starts s = [now_of at_refused; now_of monitored_world].
Proof.
  eexists. split; [| split; [| split]].
  - eapply rtc_l; [eapply (cl_acquired _ _ 0); [reflexivity | apply run_outcome; vm_compute; reflexivity] |].
    eapply rtc_l; [eapply (cl_begins _ _ 0 _ "5"%string []); [reflexivity | apply run_outcome; vm_compute; reflexivity] |].
    eapply rtc_l; [apply (cl_other _ _ _ (set_ticks 1 at_fetched)); [done | reflexivity] |].
    eapply rtc_l; [eapply (cl_refused _ _ 1 (Ok false) _ at_refused); [reflexivity | apply run_outcome; vm_compute; reflexivity | done] |].
    eapply rtc_l; [eapply (cl_acquired _ _ 1); [reflexivity | apply run_outcome; vm_compute; reflexivity] |].
    apply rtc_refl.
  - reflexivity.
  - reflexivity.
  - reflexivity.
Qed.

Lemma cycles_are_exclusive_witness :
  now_of monitored_world + 2 * Second <= now_of at_refused \/ now_of at_refused + 2 * Second <= now_of monitored_world.
Proof.
  destruct demo_cluster as (s & Hrun & H0 & H1 & _).
  apply (proj2 (cycles_are_exclusive two_apps "lock:monitoring_worker" (2 * Second) eq_refl eq_refl
                  (fun _ => eq_refl) (fun _ => eq_refl) monitored_world s (proj1 (proj1 monitored_world_ok)) Hrun) 0%nat 1%nat _ _ H0 H1).
  discriminate.
Defined.

(** Without a worker the pool returns at once and no server is evaluated. *)
Theorem no_workers_no_evaluation :
  let p := mkWorkerPool LiveClient demo_monitor 0 (3 * Second) in
  forall net, Pool_Run p net monitored_world (Ok tt)
    (redis_call LiveClient (redis_SMembers ServerAllIDsKey) monitored_world).1.
Proof.
  intros p net. set (w1 := (redis_call LiveClient _ monitored_world).1).
  assert (Hm : redis_call LiveClient (redis_SMembers ServerAllIDsKey) monitored_world =
                 (w1, Done (Ok ["5"%string]))) by (apply run_outcome; vm_compute; reflexivity).
  apply (Run_all p net monitored_world "5" [] w1 (mkPool Returned (mkChan ["5"%string] 1 true) [] w1 []) Hm); [| done].
  eapply rtc_l; [apply (pool_send p net "5"); reflexivity |].
  eapply rtc_l; [apply pool_close |].
  eapply rtc_l; [apply pool_return; constructor |]. apply rtc_refl.
Qed.
End MonitorRuns.
