(* ===== verification/MonitorRun.v ===== *)
(** * MonitorRun: [App.Run] of [internal/app/monitoring/app.go]

    A goroutine runs a cycle at once and then one per tick; the main goroutine
    waits for the signal, cancels the context, sleeps two seconds and shuts the
    observation logger down.  The process is a step relation on the two, the
    channel of the ticker (which holds one tick), the pool of a cycle that is
    running ([MonitorPool]) and the world.

    Under the cancelled context the commands to Redis fail.  A worker of the
    pool that had its address before then still ends its ping and logs the
    observation, which needs no context; the evaluation fails after that. *)

From stdpp Require Import base list strings gmap numbers relations.
From Stdlib Require Import ZArith Lia.
From S2P Require Import Prelude GoStrings GoTime Domain Env MemEnv Servers Config Observation Monitoring MonitorPool.
Open Scope Z_scope.


Section MonitorRun.
Context `{E : Env}.
Variable a : MonitorPool.App.





#[local] Abbreviation lock c w := (under_ctx c (AcquireLock (app_RedisClient a) (app_lockKey a) (app_lockExpiration a)) w).
#[local] Abbreviation fetch c w := (under_ctx c (redis_call (wp_rdb (app_Pool a)) (redis_SMembers ServerAllIDsKey)) w).


End MonitorRun.

(** ** When the process crashes *)
Section Crashes.
Context `{E : Env} {L : EnvLaws E}.
Variable a : MonitorPool.App.
Hypothesis rdb_live : app_RedisClient a = LiveClient.
Hypothesis pool_live : wp_rdb (app_Pool a) = LiveClient.
Hypothesis mon_live : mon_rdb (wp_monService (app_Pool a)) = LiveClient.
#[local] Abbreviation closed w := (ch_closed (w_observations w)).

(** A computation that neither opens nor closes the channel, and panics only
    when it is closed. *)
Definition careful {A} (m : M World A) : Prop :=
  forall w, wp m w (fun _ w' => closed w' = closed w) (fun _ => closed w = true).

Lemma careful_ret {A} (x : A) : careful (ret x).
Proof. intros w. by apply wp_ret. Qed.
Lemma careful_bind {A B} (m : M World A) (k : A -> M World B) :
  careful m -> (forall x, careful (k x)) -> careful (bind m k).
Proof.
  intros Hm Hk w. apply wp_bind. eapply wp_mono; [apply Hm |]. intros x w1 H1.
  eapply wp_conseq; [apply Hk | |]; cbn; congruence.
Qed.
Lemma careful_on {S A} (get : World -> S) set (op : S -> S * A) :
  (forall s w, w_observations (set s w) = w_observations w) -> careful (on get set op).
Proof. intros Hs w. apply wp_on. intros s x _. by rewrite Hs. Qed.
Lemma careful_redis {A} (op : RedisServer -> RedisServer * A) : careful (redis_call LiveClient op).
Proof. by apply careful_on. Qed.
Lemma careful_Log id ok : careful (LogObservation id ok).
Proof.
  intros w. apply wp_LogObservation; [| done]. intros ch w1 [->|Hs] Hc; cbn; [done |].
  apply chan_send_buf in Hs as (_ & _ & Hs). congruence.
Qed.
Ltac careful :=
  repeat (first [ apply careful_ret | apply careful_Log | apply careful_redis | (apply careful_on; reflexivity)
                | (apply careful_bind; [| intros ?])
                | match goal with
                  | |- careful (match ?x with _ => _ end) => destruct x
                  | |- careful (if ?x then _ else _) => destruct x
                  | |- careful (let '(_, _) := ?x in _) => destruct x
                  end ]).







End Crashes.

(** ** Concrete runs: a ping takes longer than the two seconds *)
Section MonitorRuns.
#[local] Existing Instance mem_env.
#[local] Existing Instance mem_laws.






End MonitorRuns.
