(* ===== verification/Reporting.v ===== *)
(** * Reporting: [internal/modules/reporting] and [internal/app/scheduler]

    A request for a report is stored, queued on a bounded channel and worked
    off by goroutines that count the servers, ask Elasticsearch for the uptime,
    render an HTML template and hand the mail to a notifier.  The template
    engine, the uptime calculator and the notifier are parameters of the
    worker, as they are interfaces of the code ([domain.UptimeCalculator],
    [domain.ReportNotifier]) or a library. *)

From stdpp Require Import base list strings gmap numbers.
From Stdlib Require Import ZArith Lia.
From S2P Require Import Prelude GoStrings GoTime GoFloat Domain Env MemEnv Security Rpc.
Open Scope Z_scope.

Definition ErrInvalidEmail : error := Sentinel "domain.ErrInvalidEmail" "invalid email address".

Section ReportingService.
Context `{E : Env}.

(** ** [domain.NewReportRequest] *)
Definition NewReportRequest (requestorEmail : string) (startTime endTime : Time) (correlationID : string)
  : M World (result ReportRequest) :=
  if String.eqb (TrimSpace requestorEmail) "" then ret (Err ErrInvalidEmail)
  else
    requestID <-- uuid_New ;;
    ret (Ok (mkReportRequest requestID requestorEmail startTime endTime ReportStatusPending
               correlationID zero_time zero_time)).

(** ** [gormReportingRepository] *)
(** The caller's struct takes the values the insert has filled in. *)
Definition CreateReportRequest (req : ReportRequest) : M World (result ReportRequest) :=
  r <-- db_reports (gorm_Create [req]) ;;
  ret (match r with
       | Ok (r :: _) => Ok r
       | Ok [] => Ok req
       | Err e => Err e
       end).

Definition with_report_status (status : string) (r : ReportRequest) : ReportRequest :=
  mkReportRequest (report_ID r) (report_RequestorEmail r) (report_StartTime r) (report_EndTime r)
    status (report_CorrelationID r) (report_CreatedAt r) (report_UpdatedAt r).

Definition UpdateReportStatus (reqID status : string) : M World (result ()) :=
  r <-- db_reports (gorm_Updates (fun r => uuid_column_eq (uuid_String (report_ID r)) reqID)
                      (with_report_status status)) ;;
  ret (match r with Ok _ => Ok tt | Err e => Err e end).

Definition GetServerCountByStatus (status : string) : M World (result Z) :=
  db_servers (gorm_Count (fun s => String.eqb status "" || String.eqb (server_CurrentStatus s) status)).

(** ** [reportingServiceImpl.RequestReport]

    The send on the job queue blocks while the queue is full: [None]. *)
Definition blocking (A : Type) : Type := option (World * exec A).

Definition EnqueueReport (req : ReportRequest) (w : World) : blocking () :=
  match chan_send req (w_jobs w) with
  | Sent ch => Some (set_jobs ch w, Done tt)
  | WouldBlock => None
  | SendPanics => Some (w, Panicked)
  end.

(** Up to the queue. *)
Definition store_request (email startDate endDate : string) : M World (result ReportRequest) :=
  match Parse_date startDate with
  | Err e => ret (Err e)
  | Ok start =>
    match Parse_date endDate with
    | Err e => ret (Err e)
    | Ok end_ =>
        let end_ := time_Add (time_Add end_ (24 * Hour)) (- Nanosecond) in
        correlationID <-- uuid_New ;;
        req <-? NewReportRequest email start end_ (uuid_String correlationID) ;;
        CreateReportRequest req
    end
  end.

Definition RequestReport (email startDate endDate : string) (w : World) : blocking (result ()) :=
  match store_request email startDate endDate w with
  | (w, Panicked) => Some (w, Panicked)
  | (w, Done (Err e)) => Some (w, Done (Err e))
  | (w, Done (Ok req)) =>
      match EnqueueReport req w with
      | None => None
      | Some (w, Done _) => Some (w, Done (Ok tt))
      | Some (w, Panicked) => Some (w, Panicked)
      end
  end.

(** ** [ReportingGrpcHandler.RequestReport] *)
Definition rpc_RequestReport (start_date end_date target_email : string) (w : World)
  : blocking (result Response) :=
  if String.eqb target_email "" then Some (w, Done (Err (Status InvalidArgument "target_email is required")))
  else
    match RequestReport target_email start_date end_date w with
    | None => None
    | Some (w, Panicked) => Some (w, Panicked)
    | Some (w, Done (Err err)) =>
        Some (w, Done (Err (if errors_Is err ErrInvalidEmail then Status InvalidArgument (error_string err)
                            else Status Internal ("failed to request report: " +:+ error_string err))))
    | Some (w, Done (Ok _)) =>
        Some (w, Done (Ok (RequestReportResponse "processing" 202
          "Report request accepted and is being processed in the background")))
    end.

(** ** [reportingWorkerImpl] *)
Record TemplateData := mkTemplateData {
  td_StartDate : string;
  td_EndDate : string;
  td_PeriodDays : Z;
  td_TotalServers : Z;
  td_OnlineServers : Z;
  td_OfflineServers : Z;
  td_UptimePercent : float64;
  td_OnlinePercent : float64;
  td_OfflinePercent : float64;
  td_HealthLabel : string;
}.

(** [rw_template]: the parsed [statusReportTemplate] and its execution. *)
Record reportingWorker := mkReportingWorker {
  rw_uptimeCalc : Time -> Time -> M World (result float64);
  rw_notifier : option (string -> string -> string -> M World (result ()));
  rw_template : result (TemplateData -> result string);
  rw_workerCount : Z;
  rw_jobQueueSize : Z;
}.

Definition NewReportingWorker uptimeCalc (workerCount jobQueueSize : Z) notifier template : reportingWorker :=
  let workerCount := if workerCount <=? 0 then 5 else workerCount in
  let jobQueueSize := if jobQueueSize <=? 0 then 100 else jobQueueSize in
  mkReportingWorker uptimeCalc notifier template workerCount jobQueueSize.

Definition percentage (value total : Z) : float64 :=
  if total <=? 0 then float64_of_int 0
  else float64_div (float64_mul (float64_of_int value) (float64_of_int 100)) (float64_of_int total).

Definition healthLabel (uptime : float64) : string :=
  if float64_leb (float64_of_int 99) uptime then "Healthy"
  else if float64_leb (float64_of_int 95) uptime then "Attention Recommended"
  else "Action Required".

Definition period_days (startTime endTime : Time) : Z :=
  int64 (int_of_float64 (float64_div (duration_Hours (time_Sub endTime startTime)) (float64_of_int 24)) + 1).

(** The times of a queued request are in UTC, as [time.Parse] gave them. *)
Definition template_data (req : ReportRequest) (total online offline : Z) (uptime : float64) : TemplateData :=
  mkTemplateData (Format_date 0 (report_StartTime req)) (Format_date 0 (report_EndTime req))
    (period_days (report_StartTime req) (report_EndTime req))
    total online offline uptime (percentage online total) (percentage offline total) (healthLabel uptime).

Definition doWork (rw : reportingWorker) (req : ReportRequest) : M World (result ()) :=
  totalServers <-? GetServerCountByStatus "" ;;
  onlineServers <-? GetServerCountByStatus "ONLINE" ;;
  offlineServers <-? GetServerCountByStatus "OFFLINE" ;;
  uptimePercent <-? rw_uptimeCalc rw (report_StartTime req) (report_EndTime req) ;;
  match rw_template rw with
  | Err e => ret (Err (Wrapped "failed to parse email template" e))
  | Ok tmpl =>
      match tmpl (template_data req totalServers onlineServers offlineServers uptimePercent) with
      | Err e => ret (Err (Wrapped "failed to execute email template" e))
      | Ok htmlStr =>
          match rw_notifier rw with
          | None => ret (Ok tt)
          | Some SendReportEmail =>
              _a <-? SendReportEmail (report_RequestorEmail req) "Server Status Report" htmlStr
                orelse Wrapped "failed to send email" ;;
              ret (Ok tt)
          end
      end
  end.

Definition processReport (rw : reportingWorker) (req : ReportRequest) : M World () :=
  err <-- UpdateReportStatus (uuid_String (report_ID req)) ReportStatusProcessing ;;
  match err with
  | Err _ => ret tt
  | Ok _ =>
      err <-- doWork rw req ;;
      let finalStatus := match err with Ok _ => ReportStatusCompleted | Err _ => ReportStatusFailed end in
      UpdateReportStatus (uuid_String (report_ID req)) finalStatus ;;;
      ret tt
  end.

(** ** The scheduler: [setupCronJobs]

    [now.AddDate(0, 0, -1)] keeps the clock time of the local zone: [time.Date]
    looks the offset up at the clock time taken as UTC, and again at the
    instant that offset gives. *)
Definition AddDate_day (t : Time) (days : Z) : Time :=
  let u := t + local_offset t * Second + days * Day in
  u - local_offset (u - local_offset u * Second) * Second.

Definition daily_job (adminEmail : string) (w : World) : blocking (result ()) :=
  let '(w, now) := (set_ticks (S (w_ticks w)) w, w_clock w (w_ticks w)) in
  let t := AddDate_day now (-1) in
  let yesterday := Format_date (local_offset t) t in
  RequestReport adminEmail yesterday yesterday w.

End ReportingService.

(** ** A request is stored and queued *)
Section RequestFacts.
Context `{E : Env} {L : EnvLaws E}.
#[local] Abbreviation reports w := (rows (w_reports w)).

Lemma report_insertable (l : list ReportRequest) r now gen serial :
  NoClash l -> (forall x, x ∈ l -> report_ID x <> report_ID r) ->
  NoClash (l ++ [with_defaults now gen serial r]).
Proof.
  intros HN Hfresh. apply NoClash_snoc; [done |]. intros x Hx. cbn.
  split; apply N.eqb_neq; [| apply not_eq_sym]; by apply Hfresh.
Qed.

Lemma wp_CreateReportRequest req w (Q : result ReportRequest -> World -> Prop) X :
  table_up (w_reports w) -> NoClash (reports w) -> (forall x, x ∈ reports w -> report_ID x <> report_ID req) ->
  fits req = true ->
  (forall t now gen serial, let req' := with_defaults now gen serial req in
     rows t = reports w ++ [req'] -> Q (Ok req') (set_reports t w)) ->
  wp (CreateReportRequest req) w Q X.
Proof.
  intros Hup HN Hfresh Hfit HQ. unfold CreateReportRequest. go_wp. apply Create_outcome in Hst as [_ Hr].
  destruct r as [l|e].
  - destruct Hr as ((now & gen & serial & ->)%inserted_one & Hr & _ & _). by apply (HQ s now gen serial).
  - destruct Hr as [_ Hc]. destruct (Hc Hup) as (rs' & (now & gen & serial & ->)%inserted_one & Hn).
    destruct Hn. split; [by apply report_insertable | by apply Forall_cons_2; [| apply Forall_nil_2]].
Qed.

(** The database can take a request of this address: it answers, the next
    identifier is new and the texts are within the columns' lengths. *)
Definition storable (email : string) (w : World) : Prop :=
  table_up (w_reports w) /\ NoClash (reports w) /\
  (forall x, x ∈ reports w -> report_ID x <> w_uuids w (S (w_drawn w))) /\
  char_count email <= 255 /\ char_count (uuid_String (w_uuids w (w_drawn w))) <= 255.

(** The job queue is open and has room. *)
Definition queue_has_room (w : World) : Prop :=
  ch_closed (w_jobs w) = false /\ (length (ch_buf (w_jobs w)) < ch_cap (w_jobs w))%nat.

(** What a request asks for: the days from the first to the last, whole. *)
Definition asks_for (email : string) (d1 d2 : Time) (req : ReportRequest) : Prop :=
  report_RequestorEmail req = email /\ report_StartTime req = d1 /\ report_EndTime req = d2 + Day - 1 /\
  report_Status req = ReportStatusPending.

Lemma wp_store_request email s1 s2 d1 d2 w (Q : result ReportRequest -> World -> Prop) X :
  Parse_date s1 = Ok d1 -> Parse_date s2 = Ok d2 -> TrimSpace email <> ""%string ->
  storable email w ->
  (forall req w', asks_for email d1 d2 req -> reports w' = reports w ++ [req] -> w_jobs w' = w_jobs w ->
     w_servers w' = w_servers w -> Q (Ok req) w') ->
  wp (store_request email s1 s2) w Q X.
Proof.
  intros H1 H2 Hm (Hup & HN & Hfresh & He & Hc) HQ. unfold store_request. rewrite H1, H2. cbn zeta.
  apply wp_bind, wp_uuid_New. apply wp_bind. unfold NewReportRequest.
  destruct (String.eqb_spec (TrimSpace email) ""); [done |]. apply wp_bind, wp_uuid_New, wp_ret. cbn beta iota.
  apply wp_CreateReportRequest; [done | done | exact Hfresh | |].
  { cbn. apply Z.leb_le in He, Hc. by rewrite He, Hc. }
  intros t now gen serial req' Hr.
  apply HQ; [| exact Hr | done | done]. by repeat split.
Qed.

Lemma request_accepted email s1 s2 d1 d2 w :
  Parse_date s1 = Ok d1 -> Parse_date s2 = Ok d2 -> TrimSpace email <> ""%string ->
  storable email w -> queue_has_room w ->
  exists req w', RequestReport email s1 s2 w = Some (w', Done (Ok tt)) /\ asks_for email d1 d2 req /\
    reports w' = reports w ++ [req] /\ ch_buf (w_jobs w') = ch_buf (w_jobs w) ++ [req].
Proof.
  intros H1 H2 Hm Hst [Hopen Hroom].
  assert (wp (store_request email s1 s2) w (fun r w' => exists req, r = Ok req /\ asks_for email d1 d2 req /\
            reports w' = reports w ++ [req] /\ w_jobs w' = w_jobs w) (fun _ => False)) as Hwp
    by (apply (wp_store_request email s1 s2 d1 d2); [done.. |]; intros req w' Ha Hr Hj _; eauto).
  apply wp_total in Hwp as (w1 & r & Hrun & req & -> & Ha & Hr & Hj).
  unfold RequestReport, EnqueueReport. rewrite Hrun, Hj. unfold chan_send. rewrite Hopen.
  destruct (Nat.ltb_spec (length (ch_buf (w_jobs w))) (ch_cap (w_jobs w))); [| lia].
  exists req. eexists. split; [reflexivity |]. split; [done |]. split; [exact Hr | done].
Qed.

(** A request for valid days, when the database answers and the queue has room:
    it is accepted, one row is stored, pending, that covers exactly the days
    from the first instant of the first to the last nanosecond of the last, and
    the same request is the last of the queue. *)
Theorem RequestReport_stores_and_queues email s1 s2 d1 d2 w :
  Parse_date s1 = Ok d1 -> Parse_date s2 = Ok d2 -> TrimSpace email <> ""%string ->
  storable email w -> queue_has_room w ->
  exists req w', RequestReport email s1 s2 w = Some (w', Done (Ok tt)) /\ asks_for email d1 d2 req /\
    reports w' = reports w ++ [req] /\ ch_buf (w_jobs w') = ch_buf (w_jobs w) ++ [req].
Proof. apply request_accepted. Qed.

(** A request that is refused, for its dates or its address, leaves no row and
    no job. *)
Theorem RequestReport_refuses email s1 s2 w :
  ~ (is_ok (Parse_date s1) = true /\ is_ok (Parse_date s2) = true /\ TrimSpace email <> ""%string) ->
  exists w' e, RequestReport email s1 s2 w = Some (w', Done (Err e)) /\
    w_reports w' = w_reports w /\ w_jobs w' = w_jobs w.
Proof.
  intros Hbad. unfold RequestReport, store_request.
  destruct (Parse_date s1) as [d1|e1]; [| by do 2 eexists].
  destruct (Parse_date s2) as [d2|e2]; [| by do 2 eexists]. unfold bind, uuid_New, NewReportRequest.
  destruct (String.eqb_spec (TrimSpace email) ""); [by do 2 eexists | by destruct Hbad].
Qed.
End RequestFacts.

(** ** A report is worked off *)
Section WorkerFacts.
Context `{E : Env} {L : EnvLaws E}.
#[local] Abbreviation reports w := (rows (w_reports w)).

(** The calculator and the notifier return, and leave the reports alone. *)
Class WorkerLaws (rw : reportingWorker) := {
  uptimeCalc_law : forall t1 t2 w,
    wp (rw_uptimeCalc rw t1 t2) w
      (fun _ w' => w_reports w' = w_reports w /\ w_jobs w' = w_jobs w) (fun _ => False);
  notifier_law : forall send email subject body w, rw_notifier rw = Some send ->
    wp (send email subject body) w
      (fun _ w' => w_reports w' = w_reports w /\ w_jobs w' = w_jobs w) (fun _ => False);
}.

(** The row of a request shows a status; the other rows are those they were. *)
Definition report_shows (id : UUID) (status : string) (w : World) : Prop :=
  forall x, x ∈ reports w -> report_ID x = id -> report_Status x = status.
Definition only_report (id : UUID) (w w' : World) : Prop :=
  map report_ID (reports w') = map report_ID (reports w) /\
  forall x, report_ID x <> id -> x ∈ reports w' <-> x ∈ reports w.

Lemma with_report_status_keeps st :
  char_count st <= 50 -> keeps_keys (Md := ReportRequest_Model) (with_report_status st).
Proof.
  intros Hst. split; [done |]. intros now r Hf. cbn in *. apply Z.leb_le in Hst. rewrite Hst.
  apply andb_true_iff in Hf as [[-> _]%andb_true_iff ->]. done.
Qed.

Lemma report_column r id : uuid_column_eq (uuid_String (report_ID r)) (uuid_String id) = true <-> report_ID r = id.
Proof. split; [apply uuid_column_String | intros ->; apply uuid_column_refl]. Qed.

Lemma wp_UpdateReportStatus id st w (Q : result () -> World -> Prop) X :
  char_count st <= 50 -> table_up (w_reports w) -> NoClash (reports w) ->
  (forall t, table_up t -> NoClash (rows t) -> report_shows id st (set_reports t w) ->
     only_report id w (set_reports t w) -> Q (Ok tt) (set_reports t w)) ->
  wp (UpdateReportStatus (uuid_String id) st) w Q X.
Proof.
  intros Hst Hup HN HQ. unfold UpdateReportStatus. apply wp_bind. unfold db_reports. apply wp_on.
  intros t r Hx. apply wp_ret.
  destruct (Updates_applied _ _ _ _ _ Hx (with_report_status_keeps st Hst) Hup HN) as (Ht & HN' & now & -> & Hr).
  apply HQ; [done | done | |]; unfold report_shows, only_report; world_simpl; rewrite Hr.
  - intros x (y & Hy & ->)%elem_of_update_rows Hid. destruct (uuid_column_eq _ _) eqn:He; [done |].
    apply report_column in Hid. congruence.
  - split.
    + unfold update_rows. rewrite List.map_map. apply List.map_ext. intros y. by destruct (uuid_column_eq _ _).
    + intros x Hid. apply (update_rows_frame (fun y => report_ID y = id)); [| done].
      intros y Hy%report_column. done.
Qed.

Lemma wp_count st w (Q : result Z -> World -> Prop) X :
  (forall t r, rows t = rows (w_servers w) ->
     (forall n, r = Ok n -> n = count_rows (fun s => String.eqb st "" || String.eqb (server_CurrentStatus s) st)
                                  (rows (w_servers w))) ->
     Q r (set_servers t w)) ->
  wp (GetServerCountByStatus st) w Q X.
Proof.
  intros HQ. unfold GetServerCountByStatus, db_servers. apply wp_on. intros t r (Hr & _ & Hn)%Count_outcome.
  apply HQ; [done |]. intros n ->. done.
Qed.

Lemma doWork_frame rw req w :
  WorkerLaws rw ->
  wp (doWork rw req) w (fun _ w' => w_reports w' = w_reports w /\ w_jobs w' = w_jobs w) (fun _ => False).
Proof.
  intros HL. unfold doWork.
  do 3 (apply wp_bind, wp_count; intros ? [?|?] ? ?; [| by apply wp_ret]).
  apply wp_bind. eapply wp_mono; [apply uptimeCalc_law |]. intros [up|e] w1 [Hr Hj]; [| by apply wp_ret].
  destruct (rw_template rw) as [tmpl|]; [| by apply wp_ret].
  destruct (tmpl _) as [html|]; [| by apply wp_ret].
  destruct (rw_notifier rw) as [send|] eqn:Hn; [| by apply wp_ret].
  apply wp_bind. eapply wp_mono; [by apply notifier_law |].
  intros [[]|e] w2 [Hr2 Hj2]; apply wp_ret; world_simpl; split; congruence.
Qed.

Lemma doWork_run rw req w w' r :
  doWork rw req w = (w', Done r) -> WorkerLaws rw -> w_reports w' = w_reports w /\ w_jobs w' = w_jobs w.
Proof. intros Hrun HL. pose proof (doWork_frame rw req w HL) as H. unfold wp in H. by rewrite Hrun in H. Qed.

Lemma doWork_no_panic rw req w w' : WorkerLaws rw -> doWork rw req w <> (w', Panicked).
Proof. intros HL Hrun. pose proof (doWork_frame rw req w HL) as H. unfold wp in H. by rewrite Hrun in H. Qed.

(** When the database answers, a queued report ends COMPLETED if the work
    succeeded and FAILED if it did not, whatever went wrong in it; it is marked
    PROCESSING before the work begins, and no other report is touched. *)
Theorem processReport_final_status rw req w :
  WorkerLaws rw -> table_up (w_reports w) -> NoClash (reports w) ->
  exists w1 w2 r w', doWork rw req w1 = (w2, Done r) /\ processReport rw req w = (w', Done tt) /\
    report_shows (report_ID req) ReportStatusProcessing w1 /\
    report_shows (report_ID req) (if is_ok r then ReportStatusCompleted else ReportStatusFailed) w' /\
    only_report (report_ID req) w w'.
Proof.
  intros HL Hup HN.
  assert (wp (processReport rw req) w (fun _ w' => exists w1 w2 r, doWork rw req w1 = (w2, Done r) /\
    report_shows (report_ID req) ReportStatusProcessing w1 /\
    report_shows (report_ID req) (if is_ok r then ReportStatusCompleted else ReportStatusFailed) w' /\
    only_report (report_ID req) w w') (fun _ => False)) as Hwp.
  { unfold processReport. apply wp_bind, wp_UpdateReportStatus; [done | done | done |]. intros t Ht HN' Hs Ho. cbn beta iota.
    set (w1 := set_reports t w) in *. pose proof (doWork_frame rw req w1 HL) as Hd.
    apply wp_total in Hd as (w2 & r & Hrun & Hf & _). apply wp_bind. unfold wp at 1. rewrite Hrun. cbn zeta.
    apply wp_bind, wp_UpdateReportStatus; [by destruct r | by rewrite Hf | by rewrite Hf |]. intros t2 Ht2 HN2 Hs2 Ho2.
    apply wp_ret. exists w1, w2, r. split; [done |]. split; [done |].
    split; [by destruct r |]. unfold only_report in *. rewrite Hf in Ho2. world_simpl.
    split; [by rewrite (proj1 Ho2), (proj1 Ho) |]. intros x Hx. by rewrite (proj2 Ho2), (proj2 Ho). }
  apply wp_total in Hwp as (w' & [] & Hrun & w1 & w2 & r & H1 & H2 & H3 & H4). eauto 10.
Qed.

Lemma doWork_mailed rw req w w' send :
  WorkerLaws rw -> rw_notifier rw = Some send -> doWork rw req w = (w', Done (Ok tt)) ->
  exists uptime w1 tmpl html,
    let l := rows (w_servers w) in
    let count st := count_rows (fun s => String.eqb (server_CurrentStatus s) st) l in
    rw_template rw = Ok tmpl /\
    tmpl (template_data req (Z.of_nat (length l)) (count ServerStatusOnline) (count ServerStatusOffline) uptime)
      = Ok html /\
    send (report_RequestorEmail req) "Server Status Report"%string html w1 = (w', Done (Ok tt)).
Proof.
  intros HL Hn Hrun. eapply run_wp; [exact Hrun |]. clear Hrun. unfold doWork.
  assert (forall l, count_rows (fun _ : Server => true) l = Z.of_nat (length l)) as Hall.
  { intros l. unfold count_rows. f_equal. induction l as [|x l IH]; cbn; [done | by rewrite IH]. }
  apply wp_bind, wp_count. intros t1 r1 Hr1 Hc1. destruct r1 as [n1|]; [| by apply wp_ret].
  specialize (Hc1 _ eq_refl). cbn in Hc1. rewrite Hall in Hc1.
  apply wp_bind, wp_count. intros t2 r2 Hr2 Hc2. destruct r2 as [n2|]; [| by apply wp_ret].
  specialize (Hc2 _ eq_refl). world_simpl. rewrite Hr1 in Hc2.
  apply wp_bind, wp_count. intros t3 r3 Hr3 Hc3. destruct r3 as [n3|]; [| by apply wp_ret].
  specialize (Hc3 _ eq_refl). world_simpl. rewrite Hr2, Hr1 in Hc3.
  apply wp_bind. eapply wp_conseq; [apply uptimeCalc_law | | done]. intros [up|e] w1 _; [| by apply wp_ret].
  destruct (rw_template rw) as [tmpl|]; [| by apply wp_ret].
  destruct (tmpl _) as [html|] eqn:Ht; [| by apply wp_ret].
  rewrite Hn. apply wp_bind. unfold wp at 1. destruct (send _ _ html w1) as [w2 [[[]|e]|]] eqn:Hs; [| | done].
  - apply wp_ret. intros _ <-. exists up, w1, tmpl, html. cbn zeta. split; [done |]. subst. done.
  - by apply wp_ret.
Qed.

(** A successful report was mailed to the requestor, once, with the numbers of
    servers the table held in all and by status. *)
Theorem doWork_mails_the_counts rw req w w' send :
  WorkerLaws rw -> rw_notifier rw = Some send -> doWork rw req w = (w', Done (Ok tt)) ->
  exists uptime w1 tmpl html,
    let l := rows (w_servers w) in
    let count st := count_rows (fun s => String.eqb (server_CurrentStatus s) st) l in
    rw_template rw = Ok tmpl /\
    tmpl (template_data req (Z.of_nat (length l)) (count ServerStatusOnline) (count ServerStatusOffline) uptime)
      = Ok html /\
    send (report_RequestorEmail req) "Server Status Report"%string html w1 = (w', Done (Ok tt)).
Proof. apply doWork_mailed. Qed.
End WorkerFacts.

(** ** The length of the period *)

(** The period of [n] whole days a request covers. *)
Definition days_shown (n : Z) : Z := period_days 0 (n * Day - 1).

(** The number of days in the mail is right for every period of up to 170 days. *)
Theorem period_days_exact n : 1 <= n <= 170 -> days_shown n = n.
Proof.
  intros Hn. assert (forallb (fun k => days_shown (Z.of_nat k) =? Z.of_nat k) (seq 1 170) = true) as Hall
    by (vm_compute; reflexivity).
  rewrite List.forallb_forall in Hall. specialize (Hall (Z.to_nat n)).
  rewrite List.in_seq in Hall. specialize (Hall ltac:(lia)). rewrite Z2Nat.id in Hall by lia. by apply Z.eqb_eq.
Qed.

(** From 171 days on (here, for ten years) the quotient of the hours by 24 is
    rounded up to the whole number and the mail shows one day too many. *)
Theorem period_days_too_long n : 171 <= n <= 3660 -> days_shown n = n + 1.
Proof.
  intros Hn. assert (forallb (fun k => days_shown (Z.of_nat k) =? Z.of_nat k + 1) (seq 171 3490) = true) as Hall
    by (vm_compute; reflexivity).
  rewrite List.forallb_forall in Hall. specialize (Hall (Z.to_nat n)).
  rewrite List.in_seq in Hall. specialize (Hall ltac:(lia)). rewrite Z2Nat.id in Hall by lia. by apply Z.eqb_eq.
Qed.

(** The label of the mail by the uptime: its thresholds are inclusive. *)
Lemma healthLabel_thresholds :
  map (fun n => healthLabel (float64_of_int n)) [100; 99; 98; 95; 94; 0] =
  ["Healthy"; "Healthy"; "Attention Recommended"; "Attention Recommended"; "Action Required"; "Action Required"]%string.
Proof. vm_compute. reflexivity. Qed.

(** ** The daily report *)
Section Daily.
Context `{E : Env} {L : EnvLaws E}.
#[local] Abbreviation reports w := (rows (w_reports w)).
Variable off : Z.
Hypothesis fixed_zone : forall t, local_offset t = off.

Lemma AddDate_day_fixed t n : AddDate_day t n = t + n * Day.
Proof. unfold AddDate_day. rewrite !fixed_zone. lia. Qed.

Lemma daily_request email w :
  let now := w_clock w (w_ticks w) in
  let day := (now + off * Second) / Day * Day - Day in
  0 <= year_of off (now - Day) <= 9999 -> TrimSpace email <> ""%string ->
  storable email w -> queue_has_room w ->
  exists req w', daily_job email w = Some (w', Done (Ok tt)) /\
    asks_for email day day req /\ reports w' = reports w ++ [req].
Proof.
  intros now day Hy Hm Hst Hroom. unfold daily_job. fold now.
  rewrite AddDate_day_fixed, fixed_zone. replace (now + -1 * Day) with (now - Day) by lia.
  assert (Parse_date (Format_date off (now - Day)) = Ok day) as Hp.
  { rewrite Parse_Format_date by done. unfold day. f_equal.
    replace (now - Day + off * Second) with (now + off * Second + (-1) * Day) by lia.
    rewrite Z.div_add by done. lia. }
  destruct (request_accepted email (Format_date off (now - Day)) (Format_date off (now - Day)) day day
              (set_ticks (S (w_ticks w)) w)) as (req & w' & H1 & H2 & H3 & _); try done.
  exists req, w'. done.
Qed.

(** In a zone of a fixed offset the daily job requests exactly the day before
    the current one of that zone's calendar; the day requested is the UTC day
    of that date. *)
Theorem daily_job_requests_yesterday email w :
  let now := w_clock w (w_ticks w) in
  let day := (now + off * Second) / Day * Day - Day in
  0 <= year_of off (now - Day) <= 9999 -> TrimSpace email <> ""%string ->
  storable email w -> queue_has_room w ->
  exists req w', daily_job email w = Some (w', Done (Ok tt)) /\
    asks_for email day day req /\ reports w' = reports w ++ [req].
Proof. apply daily_request. Qed.

(** The job takes its date from the zone of the process ([off]), not from the
    one SCHEDULER_TIMEZONE gives the cron: when it fires at midnight of a zone
    that is further east, it asks for the day before yesterday of that zone. *)
Theorem configured_zone_is_ignored zone email w :
  let now := w_clock w (w_ticks w) in
  let today := (now + zone * Second) / Day * Day in
  0 < (zone - off) * Second <= Day -> (now + zone * Second) mod Day = 0 ->
  0 <= year_of off (now - Day) <= 9999 -> TrimSpace email <> ""%string ->
  storable email w -> queue_has_room w ->
  exists req w', daily_job email w = Some (w', Done (Ok tt)) /\
    asks_for email (today - 2 * Day) (today - 2 * Day) req.
Proof.
  intros now today Hz Hmid Hy Hm Hst Hroom.
  destruct (daily_request email w Hy Hm Hst Hroom) as (req & w' & Hrun & Hreq & _).
  exists req, w'. split; [exact Hrun |]. fold now in Hreq.
  assert ((now + off * Second) / Day = (now + zone * Second) / Day - 1) as Hd.
  { pose proof (Z.div_mod (now + zone * Second) Day ltac:(done)) as Hdm. rewrite Hmid in Hdm.
    symmetry. apply (Z.div_unique _ _ _ (Day - (zone - off) * Second)); [left; lia | lia]. }
  unfold today. rewrite Hd in Hreq.
  replace ((now + zone * Second) / Day * Day - 2 * Day) with (((now + zone * Second) / Day - 1) * Day - Day) by lia.
  exact Hreq.
Qed.

(** East of Greenwich the requested day is not over when the job runs at the
    zone's midnight: the period ends [off] seconds later. *)
Theorem daily_period_ends_in_the_future email now req :
  0 < off -> (now + off * Second) mod Day = 0 ->
  let day := (now + off * Second) / Day * Day - Day in
  asks_for email day day req ->
  report_EndTime req = now + off * Second - 1 /\ now < report_EndTime req.
Proof.
  intros Hoff Hmid day (_ & _ & He & _). pose proof (Z.div_mod (now + off * Second) Day ltac:(done)) as Hd.
  rewrite Hmid in Hd. assert (1 < off * Second) by (unfold Second; lia). unfold day in He. lia.
Qed.
End Daily.

(** ** Concrete runs *)
Section ReportRuns.
#[local] Existing Instance mem_env.
#[local] Existing Instance mem_laws.

Definition demo_request : ReportRequest :=
  mkReportRequest 3 "ops@example.com" 0 (Day - 1) ReportStatusPending "c" 1 1.
Definition report_world (l : list ReportRequest) : World :=
  mem_world [] [] (mem_table []) (mem_table []) (mem_table l) (mem_redis no_data).

Definition demo_worker : reportingWorker :=
  NewReportingWorker (fun _ _ => ret (Ok (float64_of_int 99))) 0 0
    (Some (fun _ _ _ => ret (Ok tt))) (Ok (fun d => Ok (td_StartDate d))).

#[local] Instance demo_worker_laws : WorkerLaws demo_worker.
Proof.
  split.
  - intros t1 t2 w. by apply wp_ret.
  - intros send email subject body w [= <-]. by apply wp_ret.
Qed.

Lemma report_fresh : forall x, x ∈ rows (w_reports (report_world [demo_request])) ->
  report_ID x <> w_uuids (report_world [demo_request]) 1.
Proof. intros x ->%list_elem_of_singleton. done. Qed.

Lemma report_NoClash : NoClash (rows (w_reports (report_world [demo_request]))).
Proof. apply mem_NoClash. reflexivity. Qed.

Lemma report_up : table_up (w_reports (report_world [demo_request])).
Proof. constructor. Qed.

Lemma report_storable : storable "ops@example.com" (report_world [demo_request]).
Proof.
  split; [exact report_up |]. split; [exact report_NoClash |]. split; [exact report_fresh |]. by vm_compute.
Qed.

Lemma report_room : queue_has_room (report_world [demo_request]).
Proof. split; [reflexivity | cbn; lia]. Qed.

Lemma RequestReport_stores_and_queues_witness :
  exists req w', RequestReport "ops@example.com" "2024-02-28" "2024-02-29" (report_world [demo_request])
                   = Some (w', Done (Ok tt)) /\
    asks_for "ops@example.com" (738943 * Day) (738944 * Day) req.
Proof.
  destruct (RequestReport_stores_and_queues "ops@example.com" "2024-02-28" "2024-02-29"
    (738943 * Day) (738944 * Day) (report_world [demo_request])) as (req & w' & H1 & H2 & _).
  - vm_compute. reflexivity.
  - vm_compute. reflexivity.
  - vm_compute. discriminate.
  - exact report_storable.
  - exact report_room.
  - exists req, w'. split; [exact H1 | exact H2].
Defined.

Lemma processReport_final_status_witness :
  exists w', processReport demo_worker demo_request (report_world [demo_request]) = (w', Done tt) /\
    (report_shows 3 ReportStatusCompleted w' \/ report_shows 3 ReportStatusFailed w').
Proof.
  destruct (processReport_final_status demo_worker demo_request (report_world [demo_request])
    demo_worker_laws report_up report_NoClash) as (w1 & w2 & r & w' & _ & H & _ & Hs & _).
  exists w'. split; [exact H |]. destruct r; [left | right]; exact Hs.
Defined.

Lemma doWork_mails_the_counts_witness :
  exists uptime w1, (fun _ _ _ => ret (Ok tt)) "ops@example.com" "Server Status Report"
    (Format_date 0 0) w1 = ((doWork demo_worker demo_request (report_world [demo_request])).1, Done (@Ok () tt))
    /\ td_TotalServers (template_data demo_request 0 0 0 uptime) = 0.
Proof.
  destruct (doWork_mails_the_counts demo_worker demo_request (report_world [demo_request])
    (doWork demo_worker demo_request (report_world [demo_request])).1 (fun _ _ _ => ret (Ok tt))
    demo_worker_laws eq_refl) as (up & w1 & tmpl & html & Ht & Hh & Hs).
  - apply run_outcome. vm_compute. reflexivity.
  - injection Ht as <-. exists up, w1. split; [exact Hs | reflexivity].
Defined.

Lemma RequestReport_refuses_witness :
  exists w' e, RequestReport " " "2024-02-28" "2024-02-29" (report_world []) = Some (w', Done (Err e)).
Proof.
  destruct (RequestReport_refuses " " "2024-02-28" "2024-02-29" (report_world [])) as (w' & e & H & _).
  - intros (_ & _ & H). apply H. vm_compute. reflexivity.
  - exists w', e. exact H.
Defined.

Lemma period_days_exact_witness : days_shown 30 = 30.
Proof. apply (period_days_exact 30). lia. Defined.

Lemma period_days_too_long_witness : days_shown 365 = 366.
Proof. apply (period_days_too_long 365). lia. Defined.

Lemma daily_job_requests_yesterday_witness :
  exists req w', daily_job "ops@example.com" (report_world [demo_request]) = Some (w', Done (Ok tt)) /\
    report_Status req = ReportStatusPending.
Proof.
  destruct (daily_job_requests_yesterday (E := mem_env) 0 (fun _ => eq_refl) "ops@example.com" (report_world [demo_request]))
    as (req & w' & H1 & (_ & _ & _ & H2) & _).
  - vm_compute. split; discriminate.
  - vm_compute. discriminate.
  - exact report_storable.
  - exact report_room.
  - exists req, w'. split; [exact H1 | exact H2].
Defined.

(** Midnight eight hours east of the process. *)
Lemma configured_zone_is_ignored_witness :
  exists req w', daily_job "ops@example.com" (report_world [demo_request]) = Some (w', Done (Ok tt)) /\
    report_StartTime req = (mem_start + 28800 * Second) - 2 * Day.
Proof.
  destruct (configured_zone_is_ignored (E := mem_env) 0 (fun _ => eq_refl) 28800 "ops@example.com"
    (report_world [demo_request])) as (req & w' & H1 & (_ & H2 & _)).
  - vm_compute. split; [reflexivity | discriminate].
  - vm_compute. reflexivity.
  - vm_compute. split; discriminate.
  - vm_compute. discriminate.
  - exact report_storable.
  - exact report_room.
  - exists req, w'. split; [exact H1 |]. rewrite H2. vm_compute. reflexivity.
Defined.

(** Seven hours east, at midnight. *)
Lemma daily_period_ends_in_the_future_witness :
  let now := 738944 * Day - 7 * Hour in
  now < report_EndTime (mkReportRequest 1 "ops@example.com" (738943 * Day) (738944 * Day - 1)
                          ReportStatusPending "c" 1 1).
Proof.
  intros now.
  exact (proj2 (daily_period_ends_in_the_future 25200 "ops@example.com" now
    (mkReportRequest 1 "ops@example.com" (738943 * Day) (738944 * Day - 1) ReportStatusPending "c" 1 1)
    ltac:(lia) ltac:(vm_compute; reflexivity) ltac:(vm_compute; repeat split))).
Defined.
End ReportRuns.
