(* ===== verification/ReportPool.v ===== *)
(** * ReportPool: the goroutines of the report worker

    [Start] launches a fixed number of workers that range over the job queue;
    requests are stored by the goroutines of their callers, which then send
    them on the queue and block while it is full; [Stop] closes the queue and
    waits for the workers.  A state holds the senders that have stored a
    request and not yet sent it, the workers, and the world, whose [w_jobs] is
    the queue.  The three statements of [processReport] are separate steps, so
    that the workers interleave within a report.

    The workers run under the context [Start] was given, which the scheduler
    never cancels and the service cancels at its shutdown ([Lifecycle]); the
    facts here are about a context that is not cancelled ([done = false]).

    A send on the closed queue panics.  Behind the gRPC server the panic is
    recovered and the request stays stored ([recovers = true]); in the
    scheduler nothing recovers it and the process ends. *)

From stdpp Require Import base list strings gmap numbers relations.
From Stdlib Require Import ZArith Lia.
From S2P Require Import Prelude GoStrings GoTime GoFloat Domain Env MemEnv Reporting.
Open Scope Z_scope.

Inductive rworker :=
| RIdle
| RTaken (req : ReportRequest)                  (* received *)
| RWorking (req : ReportRequest)                (* marked PROCESSING *)
| RFinishing (req : ReportRequest) (st : string) (* worked, not yet marked *)
| RExited.

#[export] Instance ReportRequest_eq_dec : EqDecision ReportRequest.
Proof. solve_decision. Defined.
#[export] Instance rworker_eq_dec : EqDecision rworker.
Proof. solve_decision. Defined.

(** Where the owner of the worker is: running, in [Stop], past it. *)
Inductive owner_pc := Serving | Stopping | Stopped | Aborted.

Section ReportPool.
Context `{E : Env}.

Record RState := mkRState {
  rs_owner : owner_pc;
  rs_senders : list ReportRequest;
  rs_workers : list rworker;
  rs_finished : list (ReportRequest * string);   (* history: reports worked off, with their status *)
  rs_lost : list ReportRequest;                  (* history: stored, sent too late *)
  rs_world : World;
}.

Variables (rw : reportingWorker) (recovers : bool).

(** Whether the context the workers were started with has been cancelled. *)
Variable done : bool.

Definition final_status (r : result ()) : string :=
  match r with Ok _ => ReportStatusCompleted | Err _ => ReportStatusFailed end.

Inductive rpool_step : RState -> RState -> Prop :=
(* a caller of RequestReport *)
| r_store email d1 d2 o ss ws f lost w w' req :
    o <> Aborted -> store_request email d1 d2 w = (w', Done (Ok req)) ->
    rpool_step (mkRState o ss ws f lost w) (mkRState o (ss ++ [req]) ws f lost w')
| r_refuse email d1 d2 o ss ws f lost w w' e :
    o <> Aborted -> store_request email d1 d2 w = (w', Done (Err e)) ->
    rpool_step (mkRState o ss ws f lost w) (mkRState o ss ws f lost w')
| r_send i req o ss ws f lost w w' :
    o <> Aborted -> ss !! i = Some req -> EnqueueReport req w = Some (w', Done tt) ->
    rpool_step (mkRState o ss ws f lost w) (mkRState o (delete i ss) ws f lost w')
| r_send_panics i req o ss ws f lost w w' :
    o <> Aborted -> ss !! i = Some req -> EnqueueReport req w = Some (w', Panicked) ->
    rpool_step (mkRState o ss ws f lost w)
      (mkRState (if recovers then o else Aborted) (delete i ss) ws f (lost ++ [req]) w')
(* a worker *)
| r_take i req o ss ws f lost w ch :
    o <> Aborted -> ws !! i = Some RIdle -> chan_recv (w_jobs w) = Received req ch ->
    rpool_step (mkRState o ss ws f lost w) (mkRState o ss (<[i := RTaken req]> ws) f lost (set_jobs ch w))
| r_begin i req o ss ws f lost w w' :
    o <> Aborted -> ws !! i = Some (RTaken req) ->
    under_ctx done (UpdateReportStatus (uuid_String (report_ID req)) ReportStatusProcessing) w = (w', Done (Ok tt)) ->
    rpool_step (mkRState o ss ws f lost w) (mkRState o ss (<[i := RWorking req]> ws) f lost w')
| r_abandon i req o ss ws f lost w w' e :
    o <> Aborted -> ws !! i = Some (RTaken req) ->
    under_ctx done (UpdateReportStatus (uuid_String (report_ID req)) ReportStatusProcessing) w = (w', Done (Err e)) ->
    rpool_step (mkRState o ss ws f lost w)
      (mkRState o ss (<[i := RIdle]> ws) (f ++ [(req, ReportStatusPending)]) lost w')
| r_work i req o ss ws f lost w w' r :
    o <> Aborted -> ws !! i = Some (RWorking req) -> under_ctx done (doWork rw req) w = (w', Done r) ->
    rpool_step (mkRState o ss ws f lost w)
      (mkRState o ss (<[i := RFinishing req (final_status r)]> ws) f lost w')
| r_work_panics i req o ss ws f lost w w' :
    o <> Aborted -> ws !! i = Some (RWorking req) -> under_ctx done (doWork rw req) w = (w', Panicked) ->
    rpool_step (mkRState o ss ws f lost w) (mkRState Aborted ss ws f lost w')
| r_finish i req st o ss ws f lost w w' r :
    o <> Aborted -> ws !! i = Some (RFinishing req st) ->
    under_ctx done (UpdateReportStatus (uuid_String (report_ID req)) st) w = (w', Done r) ->
    rpool_step (mkRState o ss ws f lost w)
      (mkRState o ss (<[i := RIdle]> ws)
         (f ++ [(req, if is_ok r then st else ReportStatusProcessing)]) lost w')
| r_exit i o ss ws f lost w :
    o <> Aborted -> ws !! i = Some RIdle -> chan_recv (w_jobs w) = Closed ->
    rpool_step (mkRState o ss ws f lost w) (mkRState o ss (<[i := RExited]> ws) f lost w)
(* Stop *)
| r_stop ss ws f lost w :
    rpool_step (mkRState Serving ss ws f lost w)
      (mkRState Stopping ss ws f lost (set_jobs (chan_close (w_jobs w)) w))
| r_stopped ss ws f lost w :
    Forall (fun x => x = RExited) ws ->
    rpool_step (mkRState Stopping ss ws f lost w) (mkRState Stopped ss ws f lost w)
(* everything else: it leaves the reports and the queue alone *)
| r_other o ss ws f lost w w' :
    o <> Aborted -> w_reports w' = w_reports w -> w_jobs w' = w_jobs w ->
    rpool_step (mkRState o ss ws f lost w) (mkRState o ss ws f lost w').

(** [Start], on the queue [NewReportingWorker] has made. *)
Definition rpool_start (w : World) : RState :=
  mkRState Serving [] (replicate (Z.to_nat (rw_workerCount rw)) RIdle) [] []
    (set_jobs (mkChan [] (Z.to_nat (rw_jobQueueSize rw)) false) w).

(** The steps of one worker on one report are [processReport]; the first thing
    [doWork] does is a query under the context. *)
Lemma processReport_phases req w :
  processReport rw req w =
  (begun <-- UpdateReportStatus (uuid_String (report_ID req)) ReportStatusProcessing ;;
   match begun with
   | Err _ => ret tt
   | Ok _ => r <-- doWork rw req ;;
             UpdateReportStatus (uuid_String (report_ID req)) (final_status r) ;;; ret tt
   end)%go w.
Proof. reflexivity. Qed.
End ReportPool.

(** ** The status of a report tells where it is *)

Section Board.
Context `{E : Env} {L : EnvLaws E}.
#[local] Abbreviation reports w := (rows (w_reports w)).

(** The requests in flight or worked off, each with the status its row shows. *)
#[local] Abbreviation ticket := (ReportRequest * string)%type.
Definition ticket_id (t : ticket) : UUID := report_ID t.1.
Definition shown (w : World) (t : ticket) : Prop :=
  report_shows (ticket_id t) t.2 w /\ ticket_id t ∈ map report_ID (reports w).
(** The board: each request has one ticket, its row shows the ticket's status,
    and every row that was not there before ([known]) has a ticket. *)
Variable known : list UUID.
Definition board (w : World) (l : list ticket) : Prop :=
  table_up (w_reports w) /\ NoClash (reports w) /\ NoDup (map ticket_id l) /\ Forall (shown w) l /\
  forall id, id ∈ map report_ID (reports w) -> id ∈ known \/ id ∈ map ticket_id l.

#[export] Instance board_Proper w : Proper ((≡ₚ) ==> iff) (board w).
Proof.
  intros l k Hp. unfold board. rewrite Hp. assert (map ticket_id l ≡ₚ map ticket_id k) as Hm by (by rewrite Hp).
  by setoid_rewrite Hm.
Qed.

Lemma shown_other id w w' t : only_report id w w' -> ticket_id t <> id -> shown w t -> shown w' t.
Proof.
  intros [Hids Ho] Hne [Hs Hin]. split; [| by rewrite Hids].
  intros x Hx Hid. apply Hs; [| done]. apply Ho; [congruence | done].
Qed.

Lemma board_move r st st' l w w' :
  only_report (report_ID r) w w' -> report_shows (report_ID r) st' w' ->
  table_up (w_reports w') -> NoClash (reports w') ->
  board w ((r, st) :: l) -> board w' ((r, st') :: l).
Proof.
  intros Ho Hs Hup HN (_ & _ & Hd & Hf & Hk). cbn [map] in Hd. apply NoDup_cons in Hd as [Hni Hd]. apply Forall_cons_1 in Hf as [[_ Hin] Hf].
  split; [done |]. split; [done |]. split; [by apply NoDup_cons_2 |]. split; [apply Forall_cons_2 |].
  - split; [done |]. unfold ticket_id. cbn. by rewrite (proj1 Ho).
  - rewrite Forall_forall in *. intros t Ht. eapply shown_other; [done | | by apply Hf].
    intros He. apply Hni. change (ticket_id (r, st)) with (report_ID r). rewrite <- He. by apply list_elem_of_fmap_2.
  - by rewrite (proj1 Ho).
Qed.

Lemma board_frame l w w' : w_reports w' = w_reports w -> board w l -> board w' l.
Proof. unfold board, shown, report_shows. by intros ->. Qed.

Lemma board_new r l w w' :
  reports w' = reports w ++ [r] -> table_up (w_reports w') -> NoClash (reports w') ->
  board w l -> board w' ((r, report_Status r) :: l).
Proof.
  intros Hr Hup HN (_ & _ & Hd & Hf & Hk). rewrite Hr in HN.
  assert (forall x, x ∈ reports w -> report_ID x <> report_ID r) as Hfresh.
  { intros x Hx. pose proof (NoClash_last _ _ _ HN Hx) as Hc. cbn in Hc. by apply N.eqb_neq in Hc. }
  assert (report_ID r ∉ map report_ID (reports w)) as Hni.
  { intros (x & Hx & Hin)%list_elem_of_fmap. by apply (Hfresh x). }
  unfold board, shown, report_shows. rewrite Hr. split; [done |]. split; [done |]. split; [| split].
  - apply NoDup_cons. split; [| done]. intros (t & Ht & Hin)%list_elem_of_fmap.
    rewrite Forall_forall in Hf. apply Hf in Hin as [_ Hin]. by rewrite <- Ht in Hin.
  - apply Forall_cons_2.
    + split; [| rewrite map_app; apply elem_of_app; right; by left].
      intros x [Hx|Hx%list_elem_of_singleton]%elem_of_app Hid; [by destruct (Hfresh x Hx) | by subst].
    + rewrite Forall_forall in *. intros t Ht. destruct (Hf t Ht) as [Hs Hin]. split.
      * intros x [Hx|Hx%list_elem_of_singleton]%elem_of_app Hid; [by apply Hs |].
        subst x. destruct Hni. rewrite Hid. done.
      * rewrite map_app. apply elem_of_app. by left.
  - intros id. rewrite map_app. cbn. rewrite elem_of_app, list_elem_of_singleton, elem_of_cons.
    intros [[Hin|Hin]%Hk | ->]; auto.
Qed.

Lemma UpdateReportStatus_jobs id st w w' r :
  UpdateReportStatus id st w = (w', Done r) -> w_jobs w' = w_jobs w.
Proof. intros Hrun. eapply run_wp; [exact Hrun |]. unfold UpdateReportStatus. go_wp. by intros <- <-. Qed.

(** What storing a request does, and what marking one does, on a run. *)
Lemma store_request_run email d1 d2 w w' r :
  store_request email d1 d2 w = (w', Done r) -> table_up (w_reports w) -> NoClash (reports w) ->
  w_jobs w' = w_jobs w /\ table_up (w_reports w') /\ NoClash (reports w') /\
  match r with
  | Ok req => reports w' = reports w ++ [req] /\ report_Status req = ReportStatusPending
  | Err _ => reports w' = reports w
  end.
Proof.
  intros Hrun Hup HN. eapply run_wp; [exact Hrun |]. clear Hrun. unfold store_request.
  destruct (Parse_date d1) as [t1|]; [| by apply wp_ret; intros <- <-].
  destruct (Parse_date d2) as [t2|]; [| by apply wp_ret; intros <- <-]. cbn zeta.
  apply wp_bind, wp_uuid_New. unfold NewReportRequest.
  destruct (String.eqb _ _); apply wp_bind; [by apply wp_ret, wp_ret; intros <- <- |].
  apply wp_bind, wp_uuid_New, wp_ret. cbn beta iota.
  unfold CreateReportRequest. go_wp. apply Create_outcome in Hst as [Hup' Hr].
  destruct r0 as [l|e].
  - destruct Hr as ((now & gen & serial & ->)%inserted_one & Hr & HN' & _).
    intros <- <-. world_simpl. rewrite Hr. split; [done |]. split; [by apply Hup' |].
    split; [by apply HN' | done].
  - destruct Hr as [Hr _]. intros <- <-. world_simpl. rewrite Hr. split; [done |]. split; [by apply Hup' | done].
Qed.

Lemma UpdateReportStatus_run id st w w' r :
  UpdateReportStatus (uuid_String id) st w = (w', Done r) -> char_count st <= 50 ->
  table_up (w_reports w) -> NoClash (reports w) ->
  r = Ok tt /\ w_jobs w' = w_jobs w /\ table_up (w_reports w') /\ NoClash (reports w') /\
  only_report id w w' /\ report_shows id st w'.
Proof.
  intros Hrun Hst Hup HN. eapply run_wp; [exact Hrun |]. apply wp_UpdateReportStatus; [done.. |].
  intros t Ht HN' Hs Ho <- <-. done.
Qed.

Lemma UpdateReportStatus_total id st w :
  char_count st <= 50 -> table_up (w_reports w) -> NoClash (reports w) ->
  exists w', UpdateReportStatus (uuid_String id) st w = (w', Done (Ok tt)).
Proof.
  intros Hst Hup HN. destruct (wp_outcome (UpdateReportStatus (uuid_String id) st) w (fun _ => True) (Ok tt))
    as (w' & ? & _); [| eauto]. by apply wp_UpdateReportStatus.
Qed.
End Board.

(** In a list of distinct keys a filter by key gives one element. *)
Lemma filter_unique {A} (key : A -> UUID) (l : list A) a k :
  NoDup (map key l) -> a ∈ l -> key a = k -> List.filter (fun x => N.eqb (key x) k) l = [a].
Proof.
  intros Hd Ha Hk. induction l as [|b l IH]; [by apply not_elem_of_nil in Ha |].
  cbn in *. apply NoDup_cons in Hd as [Hni Hd]. apply elem_of_cons in Ha as [->|Ha].
  - rewrite Hk, N.eqb_refl. f_equal. apply filter_none. intros x Hx. apply N.eqb_neq. intros He.
    apply Hni. rewrite Hk, <- He. by apply list_elem_of_fmap_2.
  - destruct (N.eqb_spec (key b) k) as [He|_]; [| by apply IH].
    destruct Hni. rewrite He, <- Hk. by apply list_elem_of_fmap_2.
Qed.

(** ** Every run of the pool *)
Section PoolRuns.
Context `{E : Env} {L : EnvLaws E}.
Variables (rw : reportingWorker) (recovers : bool).
Context {WL : WorkerLaws rw}.
#[local] Abbreviation reports w := (rows (w_reports w)).
#[local] Abbreviation queue w := (ch_buf (w_jobs w)).
#[local] Abbreviation ticket := (ReportRequest * string)%type.

Definition waiting (r : ReportRequest) : ticket := (r, ReportStatusPending).
Definition held (x : rworker) : option ticket :=
  match x with
  | RTaken r => Some (waiting r)
  | RWorking r | RFinishing r _ => Some (r, ReportStatusProcessing)
  | RIdle | RExited => None
  end.
Definition tickets (s : RState) : list ticket :=
  map waiting (rs_senders s ++ queue (rs_world s) ++ rs_lost s) ++ omap held (rs_workers s) ++ rs_finished s.

Definition final (st : string) : Prop := st = ReportStatusCompleted \/ st = ReportStatusFailed.

(** The bookkeeping of the goroutines. *)
Record orderly (s : RState) : Prop := {
  closed_when : ch_closed (w_jobs (rs_world s)) = true <-> rs_owner s <> Serving;
  exited_when : RExited ∈ rs_workers s -> rs_owner s <> Serving /\ queue (rs_world s) = [];
  stopped_when : rs_owner s = Stopped -> Forall (fun x => x = RExited) (rs_workers s);
  worker_count : length (rs_workers s) = Z.to_nat (rw_workerCount rw);
  finishing_final : Forall (fun x => forall r st, x = RFinishing r st -> final st) (rs_workers s);
  finished_final : Forall (fun t : ticket => final t.2) (rs_finished s);
  lost_late : rs_lost s <> [] -> rs_owner s <> Serving;
}.

Variable known : list UUID.
Definition rpool_inv (s : RState) : Prop :=
  rs_owner s = Aborted \/ (board known (rs_world s) (tickets s) /\ orderly s).

Lemma held_split ws i x :
  ws !! i = Some x -> exists k, omap held ws ≡ₚ option_list (held x) ++ k /\
    forall y, omap held (<[i := y]> ws) ≡ₚ option_list (held y) ++ k.
Proof.
  intros (l1 & l2 & -> & Hins)%list_split_at. exists (omap held l1 ++ omap held l2).
  assert (forall y, omap held (l1 ++ y :: l2) ≡ₚ option_list (held y) ++ omap held l1 ++ omap held l2) as H.
  { intros y. rewrite omap_app. cbn. destruct (held y); cbn; [by rewrite Permutation_middle | done]. }
  split; [apply H |]. intros y. rewrite Hins. apply H.
Qed.

(** A worker's step replaces its ticket. *)
Lemma tickets_worker o ss ws f lost w i x :
  ws !! i = Some x ->
  exists k, tickets (mkRState o ss ws f lost w) ≡ₚ option_list (held x) ++ k /\
    forall o' y f' w', queue w' = queue w ->
      tickets (mkRState o' ss (<[i := y]> ws) (f ++ f') lost w') ≡ₚ option_list (held y) ++ f' ++ k.
Proof.
  intros (k & H1 & H2)%held_split. exists (map waiting (ss ++ queue w ++ lost) ++ k ++ f). unfold tickets. cbn. split.
  - rewrite H1. destruct (held x); cbn; solve_perm.
  - intros o' y f' w' ->. rewrite H2. destruct (held y); cbn; solve_perm.
Qed.

Lemma rpool_inv_start w :
  known = map report_ID (reports w) -> table_up (w_reports w) -> NoClash (reports w) -> rpool_inv (rpool_start rw w).
Proof.
  intros Hk Hup HN. right. unfold rpool_start. split.
  - assert (tickets (mkRState Serving [] (replicate (Z.to_nat (rw_workerCount rw)) RIdle) [] []
      (set_jobs (mkChan [] (Z.to_nat (rw_jobQueueSize rw)) false) w)) = []) as ->.
    { unfold tickets. cbn. rewrite app_nil_r. induction (Z.to_nat (rw_workerCount rw)); [done | exact IHn]. }
    split; [done |]. split; [done |]. split; [constructor |]. split; [by apply Forall_nil_2 |]. intros id Hid. left. by rewrite Hk.
  - split; cbn; try done.
    + by intros [? _]%elem_of_replicate.
    + apply length_replicate.
    + apply Forall_replicate. done.
Qed.

Lemma exited_insert (ws : list rworker) (i : nat) x y :
  ws !! i = Some x -> y <> RExited -> RExited ∈ <[i := y]> ws -> RExited ∈ ws.
Proof.
  intros (l1 & l2 & -> & ->)%list_split_at Hy. rewrite !elem_of_app, !elem_of_cons. naive_solver.
Qed.

Lemma all_exited_lookup (ws : list rworker) (i : nat) x : Forall (fun x => x = RExited) ws -> ws !! i = Some x -> x = RExited.
Proof. intros H Hi. by eapply Forall_lookup_1 in H. Qed.

(** A worker's step, but for leaving the loop. *)
Lemma orderly_worker o ss ws f lost w i x y f' w' :
  ws !! i = Some x -> x <> RExited -> y <> RExited -> (forall r st, y = RFinishing r st -> final st) ->
  Forall (fun t : ticket => final t.2) f' ->
  ch_closed (w_jobs w') = ch_closed (w_jobs w) -> (queue w = [] -> queue w' = []) ->
  orderly (mkRState o ss ws f lost w) -> orderly (mkRState o ss (<[i := y]> ws) (f ++ f') lost w').
Proof.
  intros Hi Hx Hy Hfin Hf' Hc Hq [H1 H2 H3 H4 H5 H6 H7]. split; cbn in *.
  - by rewrite Hc.
  - intros Hin. apply (exited_insert _ _ _ _ Hi Hy) in Hin. destruct (H2 Hin) as [? ?]. auto.
  - intros Ho. by destruct Hx; eapply all_exited_lookup; [by apply H3 |].
  - by rewrite length_insert.
  - by apply Forall_insert.
  - by apply Forall_app.
  - done.
Qed.

Lemma final_status_final r : final (final_status r).
Proof. destruct r; [by left | by right]. Qed.

Lemma final_short st : final st -> char_count st <= 50.
Proof. intros [-> | ->]; by vm_compute. Qed.

(** A stored, refused, or unrelated request. *)
Lemma inv_storing o ss ss' ws f lost w w' email d1 d2 r :
  store_request email d1 d2 w = (w', Done r) ->
  ss' = match r with Ok req => ss ++ [req] | Err _ => ss end ->
  board known w (tickets (mkRState o ss ws f lost w)) -> orderly (mkRState o ss ws f lost w) ->
  board known w' (tickets (mkRState o ss' ws f lost w')) /\ orderly (mkRState o ss' ws f lost w').
Proof.
  intros Hrun -> Hb Ho. destruct (store_request_run _ _ _ _ _ _ Hrun (proj1 Hb) (proj1 (proj2 Hb))) as (Hj & Hup & HN & Hr).
  split; [| destruct Ho as [H1 H2 H3 H4 H5 H6 H7]; by split; cbn in *; rewrite ?Hj].
  destruct r as [req|e].
  - destruct Hr as [Hr Hp].
    assert (tickets (mkRState o (ss ++ [req]) ws f lost w') ≡ₚ
      (req, report_Status req) :: tickets (mkRState o ss ws f lost w)) as ->.
    { unfold tickets. cbn. rewrite Hj, Hp. unfold waiting. rewrite !map_app. cbn. solve_perm. }
    by eapply board_new.
  - unfold tickets in *. cbn in *. rewrite Hj. destruct Hb as (_ & _ & Hd & Hf & Hk). split; [done |]. split; [done |].
    split; [done |]. unfold shown, report_shows in *. by rewrite Hr.
Qed.

(** A request on its way into the queue, or lost at its closed end. *)
Lemma inv_sending o ss ws f lost w i req w' r :
  ss !! i = Some req -> EnqueueReport req w = Some (w', r) ->
  board known w (tickets (mkRState o ss ws f lost w)) -> orderly (mkRState o ss ws f lost w) ->
  let lost' := match r with Done _ => lost | Panicked => lost ++ [req] end in
  board known w' (tickets (mkRState o (delete i ss) ws f lost' w')) /\ orderly (mkRState o (delete i ss) ws f lost' w').
Proof.
  intros Hi Hq Hb Ho. unfold EnqueueReport in Hq. apply delete_Permutation in Hi.
  assert (w_reports w' = w_reports w) as Hr.
  { destruct (chan_send req (w_jobs w)); [| done |]; injection Hq as <- _; done. }
  cbn zeta. split.
  - apply (board_frame known _ w); [done |]. revert Hb. apply (board_Proper known). unfold tickets. cbn.
    destruct (chan_send req (w_jobs w)) as [ch| |] eqn:Hs; [| done |]; injection Hq as <- <-; cbn.
    + apply chan_send_buf in Hs as (-> & _). rewrite Hi at 2. rewrite !map_app. cbn. solve_perm.
    + rewrite Hi at 2. rewrite !map_app. cbn. solve_perm.
  - destruct Ho as [H1 H2 H3 H4 H5 H6 H7]. destruct (chan_send req (w_jobs w)) as [ch| |] eqn:Hs; [| done |];
      injection Hq as <- <-; cbn in *.
    + apply chan_send_buf in Hs as (Hbuf & Hc & Hc'). split; cbn; try done; [by rewrite Hc', <- Hc |].
      intros Hin. destruct (H2 Hin) as [Hns _]. apply H1 in Hns. congruence.
    + split; cbn; try done. intros _. apply H1. unfold chan_send in Hs.
      destruct (ch_closed _); [done |]. by destruct (_ <? _)%nat.
Qed.

(** A worker that takes a request off the queue. *)
Lemma inv_taking o ss ws f lost w i req ch :
  ws !! i = Some RIdle -> chan_recv (w_jobs w) = Received req ch ->
  board known w (tickets (mkRState o ss ws f lost w)) -> orderly (mkRState o ss ws f lost w) ->
  let s' := mkRState o ss (<[i := RTaken req]> ws) f lost (set_jobs ch w) in
  board known (set_jobs ch w) (tickets s') /\ orderly s'.
Proof.
  intros Hi Hq Hb Ho. cbn zeta. apply chan_recv_buf in Hq as (Hbuf & Hc & _). split.
  - apply (board_frame known _ w); [done |]. revert Hb. apply (board_Proper known). unfold tickets. cbn. rewrite Hbuf.
    apply held_split in Hi as (k & H1 & H2). rewrite H1, H2, !map_app. cbn. solve_perm.
  - rewrite <- (app_nil_r f). eapply orderly_worker; try done. cbn. by rewrite Hbuf.
Qed.

(** A worker that marks its request in the table. *)
Lemma inv_marking o ss ws f lost w i x y f' req st0 st w' r :
  ws !! i = Some x -> x <> RExited -> held x = Some (req, st0) ->
  UpdateReportStatus (uuid_String (report_ID req)) st w = (w', Done r) -> char_count st <= 50 ->
  (option_list (held y) ++ f' = [(req, st)]) -> y <> RExited -> (forall r st, y = RFinishing r st -> final st) ->
  Forall (fun t : ticket => final t.2) f' ->
  board known w (tickets (mkRState o ss ws f lost w)) -> orderly (mkRState o ss ws f lost w) ->
  let s' := mkRState o ss (<[i := y]> ws) (f ++ f') lost w' in
  board known w' (tickets s') /\ orderly s'.
Proof.
  intros Hi Hx Hh Hrun Hst Hy Hye Hfin Hf' Hb Ho. cbn zeta.
  destruct (UpdateReportStatus_run _ _ _ _ _ Hrun Hst (proj1 Hb) (proj1 (proj2 Hb))) as (_ & Hj & Hup & HN & Hor & Hsh).
  split; [| eapply (orderly_worker _ _ _ _ _ w _ x); try done; by rewrite Hj].
  destruct (tickets_worker o ss ws f lost w i x Hi) as (k & H1 & H2). rewrite H1, Hh in Hb. cbn in Hb.
  rewrite H2, app_assoc, Hy by (by rewrite Hj). by eapply board_move.
Qed.

Lemma rpool_inv_step s s' : rpool_step rw recovers false s s' -> rpool_inv s -> rpool_inv s'.
Proof.
  intros Hstep [Ha|[Hb Ho]]; [inversion Hstep; subst; cbn in *; congruence |].
  inversion Hstep as
    [email d1 d2 o ss ws f lost w w' req Hna Hrun | email d1 d2 o ss ws f lost w w' e Hna Hrun
    | i req o ss ws f lost w w' Hna Hi Hq | i req o ss ws f lost w w' Hna Hi Hq
    | i req o ss ws f lost w ch Hna Hi Hq | i req o ss ws f lost w w' Hna Hi Hrun
    | i req o ss ws f lost w w' e Hna Hi Hrun | i req o ss ws f lost w w' r Hna Hi Hrun
    | i req o ss ws f lost w w' Hna Hi Hrun | i req st o ss ws f lost w w' r Hna Hi Hrun
    | i o ss ws f lost w Hna Hi Hq | ss ws f lost w | ss ws f lost w Hall | o ss ws f lost w w' Hna Hr Hj];
    subst; cbn [rs_world under_ctx] in *.
  - right. by eapply inv_storing.
  - right. by eapply inv_storing.
  - right. by eapply (inv_sending o ss ws f lost w i req w' (Done tt)).
  - destruct recovers; [right | by left]. by eapply (inv_sending o ss ws f lost w i req w' Panicked).
  - right. by eapply inv_taking.
  - right. rewrite <- (app_nil_r f). by eapply inv_marking.
  - destruct (UpdateReportStatus_run _ _ _ _ _ Hrun) as [? _]; [by vm_compute | apply Hb | apply Hb | done].
  - right. apply doWork_run in Hrun as [Hr Hj]; [| done]. rewrite <- (app_nil_r f). split.
    + apply (board_frame known _ w); [done |]. revert Hb.
      destruct (tickets_worker o ss ws f lost w i _ Hi) as (k & H1 & H2). by rewrite H1, H2 by (by rewrite Hj).
    + eapply (orderly_worker _ _ _ _ _ w); try done; try (by rewrite Hj).
      intros r' st [= _ <-]. apply final_status_final.
  - by destruct (doWork_no_panic rw req w w').
  - right. pose proof (Forall_lookup_1 _ _ _ _ (finishing_final _ Ho) Hi _ _ eq_refl) as Hst.
    destruct (UpdateReportStatus_run _ _ _ _ _ Hrun) as [-> _]; [by apply final_short | apply Hb | apply Hb |].
    eapply inv_marking; try done; [by apply final_short |]. by apply Forall_cons_2; [| apply Forall_nil_2].
  - right. unfold chan_recv in Hq. destruct (queue w) eqn:Hbuf; [| done]. destruct (ch_closed _) eqn:Hc; [| done].
    destruct Ho as [H1 H2 H3 H4 H5 H6 H7]. cbn in *. split.
    + revert Hb. destruct (tickets_worker o ss ws f lost w i _ Hi) as (k & Hk1 & Hk2).
      specialize (Hk2 o RExited [] w eq_refl). rewrite app_nil_r in Hk2. by rewrite Hk1, Hk2.
    + split; cbn; [done | | | by rewrite length_insert | | done | done].
      * intros _. split; [by apply H1 | done].
      * intros Hs. apply Forall_insert; [by apply H3 | done].
      * by apply Forall_insert.
  - right. destruct Ho as [H1 H2 H3 H4 H5 H6 H7]. split; [by apply (board_frame known _ w) |].
    split; cbn in *; try done. intros Hin. by destruct (H2 Hin).
  - right. destruct Ho as [H1 H2 H3 H4 H5 H6 H7]. split; [done |].
    split; cbn in *; try done; [by split; [| intros _; apply H1] | intros Hin; by destruct (H2 Hin)].
  - right. destruct Ho as [H1 H2 H3 H4 H5 H6 H7]. split; [| by split; cbn in *; rewrite ?Hj].
    unfold tickets in *. cbn in *. rewrite Hj. by apply (board_frame known _ w).
Qed.

Lemma rpool_inv_reach s s' : rtc (rpool_step rw recovers false) s s' -> rpool_inv s -> rpool_inv s'.
Proof. intros H. induction H as [|x y z Hxy _ IH]; [done |]. intros Hx. by eapply IH, rpool_inv_step. Qed.

(** The row of a ticket, and the ticket of a row. *)
Lemma board_status w l x :
  board known w l -> x ∈ reports w -> report_ID x ∉ known ->
  exists t, t ∈ l /\ ticket_id t = report_ID x /\ report_Status x = t.2.
Proof.
  intros (_ & _ & _ & Hf & Hk) Hx Hn. destruct (Hk (report_ID x)) as [?|(t & Ht & Hin)%list_elem_of_fmap];
    [by apply list_elem_of_fmap_2 | done |].
  exists t. split; [done |]. split; [done |]. rewrite Forall_forall in Hf. by apply (Hf t Hin).
Qed.

(** *** What is left after [Stop] *)
Definition owner_weight (o : owner_pc) : nat :=
  match o with Serving => 2 | Stopping => 1 | Stopped | Aborted => 0 end.
Definition rworker_weight (x : rworker) : nat :=
  match x with RIdle => 1 | RTaken _ => 4 | RWorking _ => 3 | RFinishing _ _ => 2 | RExited => 0 end.
Definition drain_measure (s : RState) : nat :=
  owner_weight (rs_owner s) + 4 * length (queue (rs_world s)) + sum_list_with rworker_weight (rs_workers s).

(** A step that does not concern the workers: their state, the queue and the
    owner stay as they are. *)
Definition outside (s s' : RState) : Prop :=
  rs_owner s' = rs_owner s /\ rs_workers s' = rs_workers s /\ w_jobs (rs_world s') = w_jobs (rs_world s).

Lemma weight_insert (ws : list rworker) (i : nat) x y :
  ws !! i = Some x ->
  (sum_list_with rworker_weight (<[i := y]> ws) + rworker_weight x =
   sum_list_with rworker_weight ws + rworker_weight y)%nat.
Proof.
  intros (l1 & l2 & -> & ->)%list_split_at. rewrite !sum_list_with_app. cbn. lia.
Qed.

Lemma drain_step s s' :
  rpool_inv s -> rs_owner s = Stopping -> rpool_step rw recovers false s s' ->
  (drain_measure s' < drain_measure s)%nat \/ outside s s'.
Proof.
  intros [Ha|[Hb Ho]] Hs Hstep; [congruence |]. unfold drain_measure, outside.
  pose proof (proj2 (closed_when _ Ho)) as Hc. rewrite Hs in Hc. specialize (Hc ltac:(done)).
  destruct Hstep as
    [email d1 d2 o ss ws f lost w w' req Hna Hrun | email d1 d2 o ss ws f lost w w' e Hna Hrun
    | i req o ss ws f lost w w' Hna Hi Hq | i req o ss ws f lost w w' Hna Hi Hq
    | i req o ss ws f lost w ch Hna Hi Hq | i req o ss ws f lost w w' Hna Hi Hrun
    | i req o ss ws f lost w w' e Hna Hi Hrun | i req o ss ws f lost w w' r Hna Hi Hrun
    | i req o ss ws f lost w w' Hna Hi Hrun | i req st o ss ws f lost w w' r Hna Hi Hrun
    | i o ss ws f lost w Hna Hi Hq | ss ws f lost w | ss ws f lost w Hall | o ss ws f lost w w' Hna Hr Hj];
    cbn [rs_owner rs_world rs_workers] in *; subst;
    try (pose proof (weight_insert _ _ _ RIdle Hi) as Hw; pose proof (weight_insert _ _ _ (RTaken req) Hi) as Hw2;
         pose proof (weight_insert _ _ _ (RWorking req) Hi) as Hw3;
         cbn [rworker_weight] in Hw, Hw2, Hw3).
  1,2: right; by destruct (store_request_run _ _ _ _ _ _ Hrun (proj1 Hb) (proj1 (proj2 Hb))) as [? _].
  1,2: unfold EnqueueReport, chan_send in Hq; rewrite Hc in Hq; try done; injection Hq as <-.
  all: try (apply UpdateReportStatus_jobs in Hrun; left; rewrite Hrun; lia).
  - destruct recovers; [by right | left; cbn; lia].
  - apply chan_recv_buf in Hq as [-> _]. left. cbn [w_jobs set_jobs length]. cbn. lia.
  - left. apply doWork_run in Hrun as [_ ->]; [| done].
    pose proof (weight_insert _ _ _ (RFinishing req (final_status r)) Hi) as Hw4. cbn [rworker_weight] in Hw4. lia.
  - by destruct (doWork_no_panic rw req w w').
  - left. pose proof (weight_insert _ _ _ RExited Hi) as Hw4. cbn [rworker_weight] in Hw4. lia.
  - done.
  - left. cbn. lia.
  - by right.
Qed.

Lemma drain_progress s :
  rpool_inv s -> rs_owner s = Stopping ->
  exists s', rpool_step rw recovers false s s' /\ (drain_measure s' < drain_measure s)%nat.
Proof.
  intros Hinv Hs. assert (exists s', rpool_step rw recovers false s s' /\ ~ outside s s') as (s' & Hstep & Hin).
  { destruct Hinv as [?|[Hb Ho]]; [congruence |]. pose proof (proj2 (closed_when _ Ho)) as Hc. rewrite Hs in Hc.
    specialize (Hc ltac:(done)). destruct s as [o ss ws f lost w]. cbn in *. subst o. unfold outside.
    destruct (decide (Forall (fun x => x = RExited) ws)) as [Hall|Hn].
    { eexists. split; [by apply r_stopped | by intros [? _]]. }
    apply not_Forall_Exists in Hn; [| apply _].
    apply Exists_exists in Hn as (x & [i Hi]%list_elem_of_lookup & Hx).
    assert (forall y, <[i := y]> ws = ws -> y = x) as Hsame.
    { intros y Hy. pose proof (list_lookup_insert_eq ws i y (lookup_lt_Some _ _ _ Hi)) as He. congruence. }
    destruct x as [|r|r|r st|]; [| | | | by destruct Hx].
    - destruct (queue w) as [|r q] eqn:Hq.
      + eexists. split; [eapply r_exit; [done | exact Hi |]; unfold chan_recv; by rewrite Hq, Hc |].
        intros (_ & H & _). by apply Hsame in H.
      + eexists. split; [eapply r_take; [done | exact Hi |]; unfold chan_recv; by rewrite Hq |].
        intros (_ & H & _). by apply Hsame in H.
    - destruct (UpdateReportStatus_total (report_ID r) ReportStatusProcessing w ltac:(by vm_compute) (proj1 Hb)
        (proj1 (proj2 Hb))) as [w' Hrun].
      eexists. split; [by eapply r_begin |]. intros (_ & H & _). by apply Hsame in H.
    - destruct (wp_total _ _ _ (doWork_frame rw r w WL)) as (w' & res & Hrun & _).
      eexists. split; [by eapply r_work |]. intros (_ & H & _). by apply Hsame in H.
    - pose proof (Forall_lookup_1 _ _ _ _ (finishing_final _ Ho) Hi _ _ eq_refl) as Hst%final_short.
      destruct (UpdateReportStatus_total (report_ID r) st w Hst (proj1 Hb) (proj1 (proj2 Hb))) as [w' Hrun].
      eexists. split; [by eapply r_finish |]. intros (_ & H & _). by apply Hsame in H. }
  exists s'. split; [done |]. by destruct (drain_step s s' Hinv Hs Hstep).
Qed.
End PoolRuns.

(** *** The promises of the worker *)
Section PoolTheorems.
Context `{E : Env} {L : EnvLaws E}.
Variables (rw : reportingWorker) (recovers : bool).
Context {WL : WorkerLaws rw}.
Variables (w0 : World) (s : RState).
Hypothesis Hup : table_up (w_reports w0).
Hypothesis HN : NoClash (rows (w_reports w0)).
Hypothesis Hworkers : 0 < rw_workerCount rw.

#[local] Abbreviation new_reports := (fun x => x ∈ rows (w_reports (rs_world s)) /\
                                       report_ID x ∉ map report_ID (rows (w_reports w0))).

Lemma reached :
  rtc (rpool_step rw recovers false) (rpool_start rw w0) s -> rpool_inv rw (map report_ID (rows (w_reports w0))) s.
Proof. intros Hrun. eapply (rpool_inv_reach rw recovers); [exact Hrun |]. by apply rpool_inv_start. Qed.

(** C11: At every moment, whatever the interleaving of requests and workers, the
    status column of a report tells where the report is: PENDING until a worker
    has begun it, PROCESSING in the hands of one, COMPLETED or FAILED after. *)
Theorem status_tells_progress x :
  rtc (rpool_step rw recovers false) (rpool_start rw w0) s -> rs_owner s <> Aborted -> new_reports x ->
  (report_Status x = ReportStatusPending /\
     exists r, report_ID r = report_ID x /\
       (r ∈ rs_senders s ++ ch_buf (w_jobs (rs_world s)) ++ rs_lost s \/ RTaken r ∈ rs_workers s)) \/
  (report_Status x = ReportStatusProcessing /\
     exists r, report_ID r = report_ID x /\
       (RWorking r ∈ rs_workers s \/ exists st, RFinishing r st ∈ rs_workers s)) \/
  ((report_Status x = ReportStatusCompleted \/ report_Status x = ReportStatusFailed) /\
     exists r, report_ID r = report_ID x /\ (r, report_Status x) ∈ rs_finished s).
Proof.
  intros Hrun Hna [Hx Hnew]. destruct (reached Hrun) as [?|[Hb Ho]]; [done |].
  destruct (board_status _ _ _ _ Hb Hx Hnew) as (t & Ht & Hid & Hst). unfold tickets in Ht.
  rewrite !elem_of_app in Ht. destruct Ht as [(r & -> & Hr)%list_elem_of_fmap|[(y & Hy & Hh)%list_elem_of_omap|Hf]].
  - left. split; [done |]. exists r. split; [done |]. by left.
  - destruct y as [|r|r|r st|]; try done; injection Hh as <-; cbn in Hst, Hid.
    + left. eauto.
    + right. left. eauto.
    + right. left. eauto 6.
  - right. right. pose proof (finished_final _ _ Ho) as Hfin. rewrite Forall_forall in Hfin.
    destruct t as [r st]. specialize (Hfin _ Hf). cbn in *. subst st. split; [exact Hfin |]. eauto.
Qed.

(** What [Stop] leaves. *)
Lemma stopped_reports x :
  rtc (rpool_step rw recovers false) (rpool_start rw w0) s -> rs_owner s = Stopped -> new_reports x ->
  (exists r, r ∈ rs_senders s ++ rs_lost s /\ report_ID r = report_ID x /\ report_Status x = ReportStatusPending) \/
  ((report_Status x = ReportStatusCompleted \/ report_Status x = ReportStatusFailed) /\
   exists r, List.filter (fun t => N.eqb (report_ID t.1) (report_ID x)) (rs_finished s) = [(r, report_Status x)]).
Proof.
  intros Hrun Hs [Hx Hnew]. destruct (reached Hrun) as [?|[Hb Ho]]; [congruence |].
  pose proof (stopped_when _ _ Ho Hs) as Hall. pose proof (worker_count _ _ Ho) as Hlen.
  assert (ch_buf (w_jobs (rs_world s)) = []) as Hq.
  { apply (exited_when _ _ Ho). destruct (rs_workers s) as [|y ws]; [cbn in Hlen; lia |].
    apply Forall_cons_1 in Hall as [-> _]. by left. }
  assert (omap held (rs_workers s) = []) as Hh.
  { clear -Hall. induction Hall as [|y ws -> _ IH]; [done | exact IH]. }
  destruct (board_status _ _ _ _ Hb Hx Hnew) as (t & Ht & Hid & Hst). unfold tickets in *. rewrite Hq, Hh in *.
  rewrite elem_of_app in Ht. destruct Ht as [(r & -> & Hr)%list_elem_of_fmap|Hf].
  - left. by exists r.
  - right. pose proof (finished_final _ _ Ho) as Hfin. rewrite Forall_forall in Hfin. specialize (Hfin _ Hf).
    destruct t as [r st]. cbn in *. subst st. split; [exact Hfin |]. exists r.
    apply (filter_unique ticket_id); [| done | done].
    destruct Hb as (_ & _ & Hd & _). rewrite map_app in Hd. by apply NoDup_app in Hd as (_ & _ & ?).
Qed.

(** C12: When [Stop] returns, with the context of the workers not cancelled, as in
    the scheduler, every report stored since the start is COMPLETED or FAILED,
    and was worked off once; only a request whose caller had not yet sent it
    when the queue was closed is still PENDING.  (The API cancels the context
    before it stops the workers: [Lifecycle.signal_freezes_reports].) *)
Theorem stop_drains_reports x :
  rtc (rpool_step rw recovers false) (rpool_start rw w0) s -> rs_owner s = Stopped -> new_reports x ->
  (exists r, r ∈ rs_senders s ++ rs_lost s /\ report_ID r = report_ID x /\ report_Status x = ReportStatusPending) \/
  ((report_Status x = ReportStatusCompleted \/ report_Status x = ReportStatusFailed) /\
   exists r, List.filter (fun t => N.eqb (report_ID t.1) (report_ID x)) (rs_finished s) = [(r, report_Status x)]).
Proof. apply stopped_reports. Qed.

(** C27: After [Stop] was called the workers end: as long as it has not returned
    some worker, or [Stop] itself, can take a step, each such step lowers the
    measure, and nothing else ever raises it. *)
Theorem stop_terminates :
  rtc (rpool_step rw recovers false) (rpool_start rw w0) s -> rs_owner s = Stopping ->
  (exists s', rpool_step rw recovers false s s' /\ (drain_measure s' < drain_measure s)%nat) /\
  (forall s', rpool_step rw recovers false s s' -> (drain_measure s' < drain_measure s)%nat \/ outside s s').
Proof.
  intros Hrun Hs. pose proof (reached Hrun) as Hinv. split; [by eapply drain_progress |]. intros s' Hstep. by eapply drain_step.
Qed.
End PoolTheorems.

(** ** Concrete runs *)
Section ReportPoolRuns.
#[local] Existing Instance mem_env.
#[local] Existing Instance mem_laws.

(** One worker; a request is stored, sent, worked off, and [Stop] returns. *)
Definition solo : reportingWorker :=
  NewReportingWorker (fun _ _ => ret (Ok (float64_of_int 99))) 1 1
    (Some (fun _ _ _ => ret (Ok tt))) (Ok (fun d => Ok (td_StartDate d))).

#[local] Instance solo_laws : WorkerLaws solo.
Proof. split; [intros t1 t2 w | intros send email subject body w [= <-]]; by apply wp_ret. Qed.

Definition pool_world : World := report_world [demo_request].
#[local] Abbreviation run1 m w := (m w).1.

Definition stored_req : ReportRequest :=
  match store_request "ops@example.com" "2024-02-28" "2024-02-29" (rs_world (rpool_start solo pool_world)) with
  | (_, Done (Ok r)) => r
  | _ => demo_request
  end.
Definition at_store : World :=
  run1 (store_request "ops@example.com" "2024-02-28" "2024-02-29") (rs_world (rpool_start solo pool_world)).
Definition at_send : World := set_jobs (mkChan [stored_req] 1 false) at_store.
Definition at_take : World := set_jobs (mkChan [] 1 false) at_send.
Definition at_begin : World := run1 (UpdateReportStatus (uuid_String (report_ID stored_req)) ReportStatusProcessing) at_take.
Definition at_work : World := run1 (doWork solo stored_req) at_begin.
Definition at_finish : World := run1 (UpdateReportStatus (uuid_String (report_ID stored_req)) ReportStatusCompleted) at_work.
Definition at_stop : World := set_jobs (chan_close (w_jobs at_finish)) at_finish.

Definition drained (o : owner_pc) (ws : list rworker) : RState :=
  mkRState o [] ws [(stored_req, ReportStatusCompleted)] [] at_stop.

Definition demo_state (o : owner_pc) (ss : list ReportRequest) (ws : list rworker) (f : list (ReportRequest * string))
  (w : World) : RState := mkRState o ss ws f [] w.
#[local] Abbreviation step := (rpool_step solo true false).

Lemma demo_store :
  store_request "ops@example.com" "2024-02-28" "2024-02-29" (rs_world (rpool_start solo pool_world)) =
  (at_store, Done (Ok stored_req)).
Proof. apply run_outcome. vm_compute. reflexivity. Qed.

Lemma demo_queue : w_jobs at_store = mkChan [] 1 false.
Proof. vm_compute. reflexivity. Qed.

Lemma demo_served : rtc step (rpool_start solo pool_world) (demo_state Serving [] [RWorking stored_req] [] at_begin).
Proof.
  apply (rtc_l _ _ (demo_state Serving [stored_req] [RIdle] [] at_store)).
  { apply (r_store solo true false "ops@example.com" "2024-02-28" "2024-02-29" Serving [] [RIdle]); [done | exact demo_store]. }
  apply (rtc_l _ _ (demo_state Serving [] [RIdle] [] at_send)).
  { apply (r_send solo true false 0 stored_req Serving [stored_req] [RIdle] [] [] at_store at_send); [done | done |].
    unfold EnqueueReport. by rewrite demo_queue. }
  apply (rtc_l _ _ (demo_state Serving [] [RTaken stored_req] [] at_take)).
  { by apply (r_take solo true false 0 stored_req Serving [] [RIdle] [] [] at_send (mkChan [] 1 false)). }
  apply rtc_once.
  apply (r_begin solo true false 0 stored_req Serving [] [RTaken stored_req] [] [] at_take at_begin); [done | done |].
  apply run_outcome. vm_compute. reflexivity.
Qed.

Lemma demo_stopping : rtc step (rpool_start solo pool_world) (drained Stopping [RIdle]).
Proof.
  etrans; [exact demo_served |].
  apply (rtc_l _ _ (demo_state Serving [] [RFinishing stored_req ReportStatusCompleted] [] at_work)).
  { apply (r_work solo true false 0 stored_req Serving [] [RWorking stored_req] [] [] at_begin at_work (Ok tt));
      [done | done |]. apply run_outcome. vm_compute. reflexivity. }
  apply (rtc_l _ _ (demo_state Serving [] [RIdle] [(stored_req, ReportStatusCompleted)] at_finish)).
  { apply (r_finish solo true false 0 stored_req ReportStatusCompleted Serving [] [RFinishing stored_req ReportStatusCompleted]
             [] [] at_work at_finish (Ok tt)); [done | done |]. apply run_outcome. vm_compute. reflexivity. }
  apply rtc_once, r_stop.
Qed.

Lemma demo_stopped : rtc step (rpool_start solo pool_world) (drained Stopped [RExited]).
Proof.
  etrans; [exact demo_stopping |]. apply (rtc_l _ _ (drained Stopping [RExited])).
  { apply (r_exit solo true false 0 Stopping [] [RIdle] [(stored_req, ReportStatusCompleted)] [] at_stop); [done | done |].
    vm_compute. reflexivity. }
  apply rtc_once, r_stopped. by apply Forall_cons_2; [| apply Forall_nil_2].
Qed.

Definition stored_row : ReportRequest := default demo_request (rows (w_reports at_finish) !! 1%nat).

Definition begun_row : ReportRequest := default demo_request (rows (w_reports at_begin) !! 1%nat).

Lemma status_tells_progress_witness : report_Status begun_row = ReportStatusProcessing.
Proof.
  destruct (status_tells_progress solo true pool_world (demo_state Serving [] [RWorking stored_req] [] at_begin)
    report_up report_NoClash begun_row demo_served)
    as [[H _]|[[H _]|[[H|H] _]]].
  - done.
  - split; [apply (list_elem_of_lookup_2 _ 1); vm_compute; reflexivity |].
    intros H%list_elem_of_In. vm_compute in H. by destruct H as [H|[]].
  - by vm_compute in H.
  - exact H.
  - by vm_compute in H.
  - by vm_compute in H.
Defined.

Lemma stop_drains_reports_witness : report_Status stored_row = ReportStatusCompleted.
Proof.
  destruct (stop_drains_reports solo true pool_world (drained Stopped [RExited]) report_up report_NoClash
    ltac:(reflexivity) stored_row demo_stopped eq_refl) as [(r & Hr & _)|[[H|H] _]].
  - split; [apply (list_elem_of_lookup_2 _ 1); vm_compute; reflexivity |].
    intros H%list_elem_of_In. vm_compute in H. by destruct H as [H|[]].
  - by apply not_elem_of_nil in Hr.
  - exact H.
  - by vm_compute in H.
Defined.

Lemma stop_terminates_witness : exists s', step (drained Stopping [RIdle]) s' /\ (drain_measure s' < 2)%nat.
Proof.
  exact (proj1 (stop_terminates solo true pool_world (drained Stopping [RIdle]) report_up report_NoClash
    demo_stopping eq_refl)).
Defined.

(** A request whose row is written and whose send comes after [Stop]: where
    nothing recovers, as in the scheduler, the process ends. *)
Example late_request_aborts :
  exists s, rtc (rpool_step solo false false) (rpool_start solo pool_world) s /\ rs_owner s = Aborted.
Proof.
  set (w1 := at_store). set (w2 := set_jobs (chan_close (w_jobs w1)) w1).
  exists (mkRState Aborted [] [RIdle] [] [stored_req] w2). split; [| done].
  apply (rtc_l _ _ (demo_state Serving [stored_req] [RIdle] [] w1)).
  { apply (r_store solo false false "ops@example.com" "2024-02-28" "2024-02-29" Serving [] [RIdle]); [done | exact demo_store]. }
  apply (rtc_l _ _ (demo_state Stopping [stored_req] [RIdle] [] w2)); [apply r_stop |].
  apply rtc_once. by apply (r_send_panics solo false false 0 stored_req Stopping [stored_req] [RIdle] [] [] w2 w2).
Qed.
End ReportPoolRuns.
