(* ===== verification/Lifecycle.v ===== *)
(** * Lifecycle: [internal/app/run.go], start and shutdown of the service

    [Run] starts the workers under the context that the signal cancels, serves,
    and on the signal calls [Shutdown]: the gRPC server finishes its calls (ten
    seconds at most, then it is stopped), the HTTP server is shut down, and at
    last [ReportingWorker.Stop] drains the queue.  The process is a step
    relation on the position of [Run], the calls the gRPC server has accepted
    and whose handlers have not yet stored anything, and the pool of
    [ReportPool]; a call of RequestReport that has stored its request is one of
    the pool's senders.

    What the two servers do is a parameter of the steps: [GracefulStop] returns
    when no call is left, the timer may be faster, [HTTPServer.Shutdown] may
    return an error, and either server may fail at any time. *)

From stdpp Require Import base list strings gmap numbers relations.
From Stdlib Require Import ZArith Lia.
From S2P Require Import Prelude GoStrings GoTime GoFloat Domain Env MemEnv Reporting ReportPool.
Open Scope Z_scope.

Definition ErrServerClosed : error := Sentinel "http.ErrServerClosed" "http: Server closed".

(** Where [Run] is: in its [select]; in [Shutdown] before the gRPC server has
    stopped, before the HTTP server has, in [ReportingWorker.Stop]; returned. *)
Inductive run_pc :=
| InSelect
| InGracefulStop
| InHTTPShutdown
| InWorkerStop
| RunReturned (r : result ()).

Section Lifecycle.
Context `{E : Env}.
Variable rw : reportingWorker.

Record RunState := mkRunState {
  run_pc_of : run_pc;
  run_cancelled : bool;      (* the signal has cancelled the context *)
  run_forced : bool;         (* history: the ten seconds passed *)
  run_calls : nat;
  run_pool : RState;
}.

(** [Run] up to its [select]: the workers run before the gateway is set up. *)
Definition Run (gateway : result ()) (w : World) : RunState :=
  mkRunState (match gateway with Err e => RunReturned (Err e) | Ok _ => InSelect end) false false 0
    (rpool_start rw w).

(** The pool of this process: its context, and the recovery interceptor. *)
#[local] Abbreviation pool_step c := (rpool_step rw true c).

Definition running (pc : run_pc) : Prop := match pc with RunReturned _ => False | _ => True end.

Inductive run_step : RunState -> RunState -> Prop :=
(* the signal, and the select *)
| run_signal c f n p : run_step (mkRunState InSelect c f n p) (mkRunState InSelect true f n p)
| run_shutdown f n p : run_step (mkRunState InSelect true f n p) (mkRunState InGracefulStop true f n p)
| run_server_failed err c f n p :
    run_step (mkRunState InSelect c f n p)
      (mkRunState (RunReturned (if errors_Is err ErrServerClosed then Ok tt else Err err)) c f n p)
(* the calls of the gRPC server *)
| run_accept c f n p : run_step (mkRunState InSelect c f n p) (mkRunState InSelect c f (S n) p)
| run_answer pc c f n p : running pc -> run_step (mkRunState pc c f (S n) p) (mkRunState pc c f n p)
| run_store pc c f n p p' :
    running pc -> pool_step c p p' -> length (rs_senders p') = S (length (rs_senders p)) ->
    run_step (mkRunState pc c f (S n) p) (mkRunState pc c f n p')
(* senders and workers *)
| run_work pc c f n p p' :
    running pc -> pool_step c p p' -> (length (rs_senders p') <= length (rs_senders p))%nat ->
    (rs_owner p' = rs_owner p \/ rs_owner p' = Aborted) ->
    run_step (mkRunState pc c f n p) (mkRunState pc c f n p')
(* Shutdown *)
| run_graceful c f p :
    rs_senders p = [] -> run_step (mkRunState InGracefulStop c f 0 p) (mkRunState InHTTPShutdown c f 0 p)
| run_timeout c f n p : run_step (mkRunState InGracefulStop c f n p) (mkRunState InHTTPShutdown c true n p)
| run_http_failed err c f n p :
    run_step (mkRunState InHTTPShutdown c f n p) (mkRunState (RunReturned (Err err)) c f n p)
| run_http_closed c f n p p' :
    pool_step c p p' -> rs_owner p = Serving -> rs_owner p' = Stopping ->
    run_step (mkRunState InHTTPShutdown c f n p) (mkRunState InWorkerStop c f n p')
| run_stopped c f n p p' :
    pool_step c p p' -> rs_owner p = Stopping -> rs_owner p' = Stopped ->
    run_step (mkRunState InWorkerStop c f n p) (mkRunState (RunReturned (Ok tt)) c f n p').
End Lifecycle.

(** ** Steps of the pool *)
Section PoolSteps.
Context `{E : Env} {L : EnvLaws E}.
Variables (rw : reportingWorker) (recovers : bool).
Context {WL : WorkerLaws rw}.
#[local] Abbreviation jobs p := (w_jobs (rs_world p)).

Lemma store_request_jobs email d1 d2 w w' r : store_request email d1 d2 w = (w', Done r) -> w_jobs w' = w_jobs w.
Proof.
  intros Hrun. eapply run_wp; [exact Hrun |]. unfold store_request.
  destruct (Parse_date d1) as [t1|]; [| by apply wp_ret; intros _ <-].
  destruct (Parse_date d2) as [t2|]; [| by apply wp_ret; intros _ <-]. cbn zeta.
  apply wp_bind, wp_uuid_New. unfold NewReportRequest.
  destruct (String.eqb _ _); apply wp_bind; [by apply wp_ret, wp_ret; intros _ <- |].
  apply wp_bind, wp_uuid_New, wp_ret. cbn beta iota. unfold CreateReportRequest. go_wp; by intros _ <-.
Qed.

(** While the queue is open nothing is lost and it stays open; nothing is lost
    either when nobody is left to send. *)
Lemma pool_keeps c p p' :
  rpool_step rw recovers c p p' -> rs_owner p' = rs_owner p \/ rs_owner p' = Aborted ->
  (ch_closed (jobs p) = false \/ rs_senders p = []) ->
  rs_lost p' = rs_lost p /\ ch_closed (jobs p') = ch_closed (jobs p).
Proof.
  intros Hstep Hown Hc. destruct Hstep; cbn in *; try (by split).
  - apply store_request_jobs in H0. by rewrite H0.
  - apply store_request_jobs in H0. by rewrite H0.
  - unfold EnqueueReport, chan_send in H1. destruct (ch_closed (w_jobs w)) eqn:Hcl; [done |].
    destruct (_ <? _)%nat; [| done]. injection H1 as <-. cbn. by split.
  - unfold EnqueueReport, chan_send in H1. destruct (ch_closed (w_jobs w)) eqn:Hcl; [| by destruct (_ <? _)%nat].
    destruct Hc as [Hc|Hs]; [done |]. subst ss. done.
  - unfold chan_recv in H1. destruct (ch_buf (w_jobs w)); [by destruct (ch_closed _) |]. injection H1 as <- <-. by split.
  - apply under_ctx_run in H1 as [(_ & -> & _)|[_ H1]]; [done |]. by rewrite (UpdateReportStatus_jobs _ _ _ _ _ H1).
  - apply under_ctx_run in H1 as [(_ & -> & _)|[_ H1]]; [done |]. by rewrite (UpdateReportStatus_jobs _ _ _ _ _ H1).
  - apply under_ctx_run in H1 as [(_ & -> & _)|[_ H1]]; [done |]. apply doWork_run in H1 as [_ ->]; done.
  - destruct c; cbn in H1; [done |]. by apply doWork_no_panic in H1.
  - apply under_ctx_run in H1 as [(_ & -> & _)|[_ H1]]; [done |]. by rewrite (UpdateReportStatus_jobs _ _ _ _ _ H1).
  - by destruct Hown.
  - by rewrite H1.
Qed.
Lemma owner_stop c p p' :
  rpool_step rw recovers c p p' -> rs_owner p' <> rs_owner p -> rs_owner p' <> Aborted ->
  rs_lost p' = rs_lost p /\ rs_senders p' = rs_senders p.
Proof. intros Hstep Hne Hna. destruct Hstep; cbn in *; try done. by destruct recovers. Qed.
End PoolSteps.

(** ** Shutdown *)
Section Shutdown.
Context `{E : Env} {L : EnvLaws E}.
Variable rw : reportingWorker.
Context {WL : WorkerLaws rw}.
#[local] Abbreviation jobs s := (w_jobs (rs_world (run_pool s))).
#[local] Abbreviation reports s := (rows (w_reports (rs_world (run_pool s)))).

(** No request is lost, the queue is open until [Stop], and when the gRPC
    server has stopped nobody is left to send on it. *)
Definition orderly_run (s : RunState) : Prop :=
  rs_lost (run_pool s) = [] /\
  match run_pc_of s with
  | InSelect | InGracefulStop => ch_closed (jobs s) = false
  | InHTTPShutdown => ch_closed (jobs s) = false /\ run_calls s = 0%nat /\ rs_senders (run_pool s) = []
  | InWorkerStop => run_calls s = 0%nat /\ rs_senders (run_pool s) = []
  | RunReturned _ => rs_owner (run_pool s) = Stopped -> rs_senders (run_pool s) = []
  end /\
  (running (run_pc_of s) -> rs_owner (run_pool s) <> Stopped).

Lemma store_owner c p p' :
  rpool_step rw true c p p' -> length (rs_senders p') = S (length (rs_senders p)) -> rs_owner p' = rs_owner p.
Proof. intros Hstep Hlen. destruct Hstep; cbn in *; done || (exfalso; lia). Qed.

Lemma orderly_run_step s s' :
  run_step rw s s' -> run_forced s' = false -> (run_forced s = false -> orderly_run s) -> orderly_run s'.
Proof.
  intros Hstep Hf' Hinv. destruct Hstep; cbn in Hf';
    (destruct (Hinv Hf') as (Hl & Hpc & Hns) || discriminate Hf'); unfold orderly_run; cbn in *.
  1, 2, 4, 5: (repeat split; try done; destruct pc; naive_solver).
  - split; [done |]. split; [| done]. intros Hs. by destruct (Hns I).
  - pose proof (store_owner _ _ _ H0 H1) as Ho.
    assert (ch_closed (w_jobs (rs_world p)) = false) as Hcl by (destruct pc; naive_solver).
    destruct (pool_keeps rw true c p p' H0 (or_introl Ho) (or_introl Hcl)) as [-> Hc'].
    split; [done |]. rewrite Ho, Hc'. split; [| done]. destruct pc; naive_solver.
  - assert (ch_closed (w_jobs (rs_world p)) = false \/ rs_senders p = []) as Hcl by (destruct pc; naive_solver).
    destruct (pool_keeps rw true c p p' H0 H2 Hcl) as [-> Hc']. rewrite Hc'.
    assert (rs_senders p = [] -> rs_senders p' = []) as Hss
      by (intros Hs; rewrite Hs in H1; destruct (rs_senders p'); [done | cbn in H1; lia]).
    split; [done |]. split; [destruct pc; naive_solver |]. intros Hr. destruct H2 as [->| ->]; [by apply Hns | done].
  - by repeat split.
  - split; [done |]. split; [| done]. intros Hs. by destruct (Hns I).
  - destruct (owner_stop rw true _ _ _ H) as [-> ->]; [congruence | congruence |]. split; [done |].
    split; [naive_solver |]. intros _. congruence.
  - destruct (owner_stop rw true _ _ _ H) as [-> ->]; [congruence | congruence |]. split; [done |]. split; naive_solver.
Qed.

Lemma orderly_run_reach gateway w s :
  rtc (run_step rw) (Run rw gateway w) s -> run_forced s = false -> orderly_run s.
Proof.
  revert s. apply (rtc_ind_r (fun s => run_forced s = false -> orderly_run s)).
  - intros _. unfold orderly_run, Run. cbn. by destruct gateway.
  - intros s s' _ Hstep IH Hf. by eapply orderly_run_step.
Qed.

(** C13: A shutdown within its ten seconds loses no request: every request that was
    stored was sent to the queue before it was closed, whatever calls were
    under way at the signal; when [Stop] has returned nobody waits to send. *)
Theorem graceful_shutdown_loses_nothing gateway w s :
  rtc (run_step rw) (Run rw gateway w) s -> run_forced s = false ->
  rs_lost (run_pool s) = [] /\ (rs_owner (run_pool s) = Stopped -> rs_senders (run_pool s) = []).
Proof.
  intros Hrun Hf. destruct (orderly_run_reach gateway w s Hrun Hf) as (Hl & Hpc & Hns). split; [done |].
  intros Hs. destruct (run_pc_of s); try (by destruct (Hns I)). by apply Hpc.
Qed.

(** *** The workers after the signal *)
Definition frozen (w w' : World) : Prop :=
  table_up (w_reports w') /\ NoClash (rows (w_reports w')) /\
  exists added, rows (w_reports w') = rows (w_reports w) ++ added /\
    Forall (fun x => report_Status x = ReportStatusPending) added.

Lemma frozen_same w w' : table_up (w_reports w) -> NoClash (rows (w_reports w)) -> w_reports w' = w_reports w -> frozen w w'.
Proof. intros Hup HN Hr. unfold frozen. rewrite Hr. repeat split; [done | done |]. exists []. by rewrite app_nil_r. Qed.

Lemma frozen_trans w1 w2 w3 : frozen w1 w2 -> frozen w2 w3 -> frozen w1 w3.
Proof.
  intros (_ & _ & a1 & H1 & F1) (Hup & HN & a2 & H2 & F2). repeat split; [done | done |].
  exists (a1 ++ a2). rewrite H2, H1, app_assoc. split; [done |]. by apply Forall_app_2.
Qed.

Lemma pool_frozen p p' :
  rpool_step rw true true p p' -> table_up (w_reports (rs_world p)) -> NoClash (rows (w_reports (rs_world p))) ->
  frozen (rs_world p) (rs_world p').
Proof.
  intros Hstep Hup HN.
  assert (forall email d1 d2 w w' r, w = rs_world p -> store_request email d1 d2 w = (w', Done r) -> frozen w w') as Hst.
  { intros email d1 d2 w w' r -> Hrun. destruct (store_request_run _ _ _ _ _ _ Hrun Hup HN) as (_ & Hup' & HN' & Hr).
    repeat split; [done | done |]. destruct r as [req|e]; [destruct Hr as [Hr Hp]; exists [req] | exists []].
    - split; [done |]. by apply Forall_cons_2; [| apply Forall_nil_2].
    - by rewrite app_nil_r. }
  destruct Hstep; cbn in *; try (eapply Hst; [reflexivity | eassumption]); try (by apply frozen_same);
    try (injection H1 as <-; by apply frozen_same).
  - apply frozen_same; [done | done |]. unfold EnqueueReport in H1. destruct (chan_send _ _); [| done | done].
    by injection H1 as <-.
  - apply frozen_same; [done | done |]. unfold EnqueueReport in H1. destruct (chan_send _ _); [done | done |].
    by injection H1 as <-.
Qed.

Lemma run_step_frozen s s' :
  run_step rw s s' -> run_cancelled s = true -> table_up (w_reports (rs_world (run_pool s))) -> NoClash (reports s) ->
  run_cancelled s' = true /\ frozen (rs_world (run_pool s)) (rs_world (run_pool s')).
Proof.
  intros Hstep Hc Hup HN. destruct Hstep; cbn in *; try (subst c); (split; [done |]);
    first [by apply frozen_same | by apply pool_frozen].
Qed.

(** C15: After the signal no report moves on: the statements of the workers fail
    under the cancelled context.  Until the process ends, the rows of the
    reports are those of the moment of the signal, a queued report PENDING and
    one in work PROCESSING, and new ones are PENDING. *)
Theorem signal_freezes_reports s s' :
  rtc (run_step rw) s s' -> run_cancelled s = true ->
  table_up (w_reports (rs_world (run_pool s))) -> NoClash (reports s) ->
  exists added, reports s' = reports s ++ added /\ Forall (fun x => report_Status x = ReportStatusPending) added.
Proof.
  intros Hrun Hc Hup HN.
  assert (run_cancelled s' = true /\ frozen (rs_world (run_pool s)) (rs_world (run_pool s'))) as [_ (_ & _ & H)]; [| exact H].
  revert s' Hrun. apply (rtc_ind_r (fun s' => run_cancelled s' = true /\ frozen (rs_world (run_pool s)) (rs_world (run_pool s')))).
  - split; [done |]. by apply frozen_same.
  - intros s1 s2 _ Hstep [Hc1 Hf]. pose proof Hf as (Hup1 & HN1 & _).
    destruct (run_step_frozen _ _ Hstep Hc1 Hup1 HN1) as [Hc2 Hf2]. split; [done |]. by eapply frozen_trans.
Qed.
End Shutdown.

(** ** A concrete run: a request is accepted, the signal comes, the request is
    stored and queued, and the process stops gracefully *)
Section LifecycleRuns.
#[local] Existing Instance mem_env.
#[local] Existing Instance mem_laws.
#[local] Existing Instance solo_laws.

Definition closed_at : World := set_jobs (chan_close (w_jobs at_send)) at_send.
Definition emptied_at : World := set_jobs (mkChan [] 1 true) closed_at.
Definition pool_at (o : owner_pc) (ss : list ReportRequest) (y : rworker) (f : list (ReportRequest * string)) (w : World) : RState :=
  mkRState o ss [y] f [] w.
Definition abandoned : list (ReportRequest * string) := [(stored_req, ReportStatusPending)].

Definition signalled : RunState := mkRunState InSelect true false 1 (rpool_start solo pool_world).
Definition ended : RunState :=
  mkRunState (RunReturned (Ok tt)) true false 0 (pool_at Stopped [] RExited abandoned emptied_at).

Lemma demo_signalled : rtc (run_step solo) (Run solo (Ok tt) pool_world) signalled.
Proof. eapply rtc_l; [apply run_accept |]. apply rtc_once, run_signal. Qed.

Lemma demo_shutdown : rtc (run_step solo) signalled ended.
Proof.
  eapply rtc_l; [apply run_shutdown |].
  apply (rtc_l _ _ (mkRunState InGracefulStop true false 0 (pool_at Serving [stored_req] RIdle [] at_store))).
  { apply run_store; [done | | done].
    apply (r_store solo true true "ops@example.com" "2024-02-28" "2024-02-29" Serving [] [RIdle]); [done | exact demo_store]. }
  apply (rtc_l _ _ (mkRunState InGracefulStop true false 0 (pool_at Serving [] RIdle [] at_send))).
  { apply run_work; [done | | cbn; lia | by left].
    apply (r_send solo true true 0 stored_req Serving [stored_req] [RIdle] [] [] at_store at_send); [done | done |].
    unfold EnqueueReport. by rewrite demo_queue. }
  eapply rtc_l; [by apply run_graceful |].
  apply (rtc_l _ _ (mkRunState InWorkerStop true false 0 (pool_at Stopping [] RIdle [] closed_at))).
  { by apply run_http_closed; [apply r_stop | |]. }
  apply (rtc_l _ _ (mkRunState InWorkerStop true false 0 (pool_at Stopping [] (RTaken stored_req) [] emptied_at))).
  { apply run_work; [done | | done | by left].
    by apply (r_take solo true true 0 stored_req Stopping [] [RIdle] [] [] closed_at (mkChan [] 1 true)). }
  apply (rtc_l _ _ (mkRunState InWorkerStop true false 0 (pool_at Stopping [] RIdle abandoned emptied_at))).
  { apply run_work; [done | | done | by left].
    by apply (r_abandon solo true true 0 stored_req Stopping [] [RTaken stored_req] [] [] emptied_at emptied_at context_Canceled). }
  apply (rtc_l _ _ (mkRunState InWorkerStop true false 0 (pool_at Stopping [] RExited abandoned emptied_at))).
  { apply run_work; [done | | done | by left]. by apply (r_exit solo true true 0 Stopping [] [RIdle] abandoned [] emptied_at). }
  apply rtc_once. apply (run_stopped solo true false 0 (pool_at Stopping [] RExited abandoned emptied_at)
           (pool_at Stopped [] RExited abandoned emptied_at)); [| reflexivity | reflexivity].
  apply r_stopped. by apply Forall_cons_2; [| apply Forall_nil_2].
Qed.

Lemma graceful_shutdown_loses_nothing_witness : rs_lost (run_pool ended) = [].
Proof.
  refine (proj1 (graceful_shutdown_loses_nothing solo (Ok tt) pool_world ended _ eq_refl)).
  etransitivity; [exact demo_signalled | exact demo_shutdown].
Defined.

(** The request was accepted and the process returned without an error; the
    report is still PENDING. *)
Lemma signal_freezes_reports_witness :
  exists added, rows (w_reports (rs_world (run_pool ended))) = rows (w_reports (rs_world (run_pool signalled))) ++ added /\
    Forall (fun x => report_Status x = ReportStatusPending) added.
Proof.
  apply (signal_freezes_reports solo signalled ended demo_shutdown eq_refl); [exact report_up | exact report_NoClash].
Defined.

Example accepted_report_is_left_pending :
  map report_Status (rows (w_reports (rs_world (run_pool ended)))) = [report_Status demo_request; ReportStatusPending].
Proof. vm_compute. reflexivity. Qed.
End LifecycleRuns.
