(* ===== verification/SchedulerRun.v ===== *)
(** * SchedulerRun: [internal/app/scheduler], the life of the daily scheduler

    [Start] starts the report workers under a context that is never cancelled
    and then the cron, which runs the daily job in a goroutine of its own;
    [Stop] stops the cron, which does not wait for a job that runs, and then
    the workers.  The process is a step relation on the position of [main],
    the jobs that run and have not yet stored their request, and the pool of
    [ReportPool]; nothing recovers a panic ([recovers = false]). *)

From stdpp Require Import base list strings gmap numbers relations.
From Stdlib Require Import ZArith Lia.
From S2P Require Import Prelude GoStrings GoTime GoFloat Domain Env MemEnv Reporting ReportPool Lifecycle.
Open Scope Z_scope.

(** Where [main] is: waiting for the signal; in [Stop], after [cron.Stop]; in
    [reportingWorker.Stop]; returned. *)
Inductive sched_main := SchedRuns | SchedCronStopped | SchedStops | SchedStopped.

Section Scheduler.
Context `{E : Env}.
Variables (rw : reportingWorker) (adminEmail : string).

Record SchedState := mkSched {
  sc_main : sched_main;
  sc_jobs : nat;         (* jobs that have not stored their request *)
  sc_late : bool;        (* history: a job was under way when the queue was closed *)
  sc_pool : RState;
}.

(** The daily job up to the queue. *)
Definition daily_store (w : World) : World * exec (result ReportRequest) :=
  let '(w, now) := (set_ticks (S (w_ticks w)) w, w_clock w (w_ticks w)) in
  let t := AddDate_day now (-1) in
  let yesterday := Format_date (local_offset t) t in
  store_request adminEmail yesterday yesterday w.

(** The two halves of the job. *)
Lemma daily_job_halves w :
  daily_job adminEmail w =
  match daily_store w with
  | (w, Panicked) => Some (w, Panicked)
  | (w, Done (Err e)) => Some (w, Done (Err e))
  | (w, Done (Ok req)) =>
      match EnqueueReport req w with
      | None => None
      | Some (w, Done _) => Some (w, Done (Ok tt))
      | Some (w, Panicked) => Some (w, Panicked)
      end
  end.
Proof. unfold daily_job, RequestReport, daily_store. cbv zeta. reflexivity. Qed.

Definition Start (w : World) : SchedState := mkSched SchedRuns 0 false (rpool_start rw w).

Definition with_sender (req : ReportRequest) (w : World) (p : RState) : RState :=
  mkRState (rs_owner p) (rs_senders p ++ [req]) (rs_workers p) (rs_finished p) (rs_lost p) w.
Definition in_world (w : World) (p : RState) : RState :=
  mkRState (rs_owner p) (rs_senders p) (rs_workers p) (rs_finished p) (rs_lost p) w.

#[local] Abbreviation pool_step := (rpool_step rw false false).

Inductive sched_step : SchedState -> SchedState -> Prop :=
(* the cron *)
| sched_fire n late p :
    rs_owner p <> Aborted -> sched_step (mkSched SchedRuns n late p) (mkSched SchedRuns (S n) late p)
| sched_store m n late p w' req :
    rs_owner p <> Aborted -> daily_store (rs_world p) = (w', Done (Ok req)) ->
    sched_step (mkSched m (S n) late p) (mkSched m n late (with_sender req w' p))
| sched_refused m n late p w' e :
    rs_owner p <> Aborted -> daily_store (rs_world p) = (w', Done (Err e)) ->
    sched_step (mkSched m (S n) late p) (mkSched m n late (in_world w' p))
(* jobs that send, and workers *)
| sched_work m n late p p' :
    pool_step p p' -> (length (rs_senders p') <= length (rs_senders p))%nat ->
    (rs_owner p' = rs_owner p \/ rs_owner p' = Aborted) ->
    sched_step (mkSched m n late p) (mkSched m n late p')
(* Stop *)
| sched_cron_stop n late p :
    rs_owner p <> Aborted -> sched_step (mkSched SchedRuns n late p) (mkSched SchedCronStopped n late p)
| sched_stop n late p p' :
    pool_step p p' -> rs_owner p = Serving -> rs_owner p' = Stopping ->
    sched_step (mkSched SchedCronStopped n late p)
      (mkSched SchedStops n (late || (0 <? n)%nat || (0 <? length (rs_senders p))%nat) p')
| sched_stopped n late p p' :
    pool_step p p' -> rs_owner p = Stopping -> rs_owner p' = Stopped ->
    sched_step (mkSched SchedStops n late p) (mkSched SchedStopped n late p').
End Scheduler.

(** ** Facts *)
Section SchedulerFacts.
Context `{E : Env} {L : EnvLaws E}.
Variables (rw : reportingWorker) (adminEmail : string).
Context {WL : WorkerLaws rw}.
#[local] Abbreviation jobs s := (w_jobs (rs_world (sc_pool s))).
#[local] Abbreviation step := (sched_step rw adminEmail).

(** The pool of the scheduler runs as a pool does. *)
Lemma pool_stores o ss ws f lost w w' req :
  o <> Aborted -> daily_store adminEmail w = (w', Done (Ok req)) ->
  rtc (rpool_step rw false false) (mkRState o ss ws f lost w) (mkRState o (ss ++ [req]) ws f lost w').
Proof.
  unfold daily_store. cbv zeta. set (y := Format_date _ _). set (w1 := set_ticks _ w). intros Hna Hd.
  apply (rtc_l _ _ (mkRState o ss ws f lost w1)); [by apply r_other |].
  apply rtc_once. exact (r_store rw false false adminEmail y y o ss ws f lost w1 w' req Hna Hd).
Qed.

Lemma pool_refuses o ss ws f lost w w' e :
  o <> Aborted -> daily_store adminEmail w = (w', Done (Err e)) ->
  rtc (rpool_step rw false false) (mkRState o ss ws f lost w) (mkRState o ss ws f lost w').
Proof.
  unfold daily_store. cbv zeta. set (y := Format_date _ _). set (w1 := set_ticks _ w). intros Hna Hd.
  apply (rtc_l _ _ (mkRState o ss ws f lost w1)); [by apply r_other |].
  apply rtc_once. exact (r_refuse rw false false adminEmail y y o ss ws f lost w1 w' e Hna Hd).
Qed.

Lemma sched_pool s s' : step s s' -> rtc (rpool_step rw false false) (sc_pool s) (sc_pool s').
Proof.
  intros Hstep. destruct Hstep; cbn [sc_pool]; try (by apply rtc_refl); try (by apply rtc_once); destruct p as [o ss ws f lost w];
    cbn [rs_owner rs_world] in *; [by apply pool_stores | by eapply pool_refuses].
Qed.

Lemma sched_pool_reach w s :
  rtc step (Start rw w) s -> rtc (rpool_step rw false false) (rpool_start rw w) (sc_pool s).
Proof.
  revert s. apply (rtc_ind_r (fun s => rtc _ _ (sc_pool s))); [apply rtc_refl |].
  intros s s' _ Hstep IH. etransitivity; [exact IH | by apply sched_pool].
Qed.

(** The process ends in a panic only by a send on the closed queue. *)
Lemma pool_no_abort p p' :
  rpool_step rw false false p p' -> (ch_closed (w_jobs (rs_world p)) = false \/ rs_senders p = []) ->
  rs_owner p <> Aborted -> rs_owner p' <> Aborted.
Proof.
  intros Hstep Hc Hna. destruct Hstep; cbn in *; try done.
  - destruct Hc as [Hc| ->]; [| done]. unfold EnqueueReport, chan_send in H1. rewrite Hc in H1.
    by destruct (_ <? _)%nat.
  - by apply doWork_no_panic in H1.
Qed.

Lemma daily_store_jobs w w' r : daily_store adminEmail w = (w', Done r) -> w_jobs w' = w_jobs w.
Proof. unfold daily_store. cbn zeta. intros H%store_request_jobs. by rewrite H. Qed.

(** As long as no job was under way at [Stop]: nothing is lost, the queue is
    open until then, and nobody is left to send afterwards. *)
Definition sched_inv (s : SchedState) : Prop :=
  rs_lost (sc_pool s) = [] /\ rs_owner (sc_pool s) <> Aborted /\
  match sc_main s with
  | SchedRuns | SchedCronStopped => ch_closed (jobs s) = false
  | SchedStops | SchedStopped => sc_jobs s = 0%nat /\ rs_senders (sc_pool s) = []
  end.

Lemma sched_inv_step s s' :
  step s s' -> sc_late s' = false -> (sc_late s = false -> sched_inv s) -> sched_inv s'.
Proof.
  intros Hstep Hl Hinv. destruct Hstep; cbn in Hl.
  6: apply orb_false_iff in Hl as [[Hl Hn]%orb_false_iff Hs].
  all: destruct (Hinv Hl) as (Hlost & Hna & Hm); unfold sched_inv; cbn in *.
  1, 5: done.
  - rewrite (daily_store_jobs _ _ _ H0). split; [done |]. split; [done |]. destruct m; naive_solver.
  - rewrite (daily_store_jobs _ _ _ H0). split; [done |]. split; [done |]. destruct m; naive_solver.
  - assert (ch_closed (w_jobs (rs_world p)) = false \/ rs_senders p = []) as Hc by (destruct m; naive_solver).
    destruct (pool_keeps rw false false p p' H H1 Hc) as [-> ->].
    split; [done |]. split; [by eapply pool_no_abort |].
    assert (rs_senders p = [] -> rs_senders p' = []) as Hss
      by (intros Hs; rewrite Hs in H0; destruct (rs_senders p'); [done | cbn in H0; lia]).
    destruct m; naive_solver.
  - destruct (owner_stop rw false _ _ _ H) as [-> ->]; [congruence | congruence |].
    split; [done |]. split; [congruence |]. destruct n; [| done].
    by destruct (rs_senders p).
  - destruct (owner_stop rw false _ _ _ H) as [-> ->]; [congruence | congruence |].
    split; [done |]. split; [congruence | done].
Qed.
Lemma sched_inv_reach w s : rtc step (Start rw w) s -> sc_late s = false -> sched_inv s.
Proof.
  revert s. apply (rtc_ind_r (fun s => sc_late s = false -> sched_inv s)); [by intros _; split |].
  intros s s' _ Hstep IH Hl. by eapply sched_inv_step.
Qed.

(** C14: A scheduler that is stopped while no daily job is under way never ends in a
    panic and loses no request, and when it has stopped every report its jobs
    have requested is COMPLETED or FAILED. *)
Theorem scheduler_stop_completes_reports w s :
  table_up (w_reports w) -> NoClash (rows (w_reports w)) -> 0 < rw_workerCount rw ->
  rtc (sched_step rw adminEmail) (Start rw w) s -> sc_late s = false ->
  rs_owner (sc_pool s) <> Aborted /\ rs_lost (sc_pool s) = [] /\
  (rs_owner (sc_pool s) = Stopped -> sc_main s = SchedStopped ->
   forall x, x ∈ rows (w_reports (rs_world (sc_pool s))) -> report_ID x ∉ map report_ID (rows (w_reports w)) ->
     report_Status x = ReportStatusCompleted \/ report_Status x = ReportStatusFailed).
Proof.
  intros Hup HN Hw Hrun Hl. destruct (sched_inv_reach w s Hrun Hl) as (Hlost & Hna & Hm).
  split; [done |]. split; [done |]. intros Hs Hmain x Hx Hnew. rewrite Hmain in Hm. destruct Hm as [_ Hss].
  destruct (stopped_reports rw false w (sc_pool s) Hup HN Hw x (sched_pool_reach w s Hrun) Hs (conj Hx Hnew))
    as [(r & Hr & _)|[Hf _]]; [| exact Hf].
  rewrite Hss, Hlost in Hr. by apply not_elem_of_nil in Hr.
Qed.
End SchedulerFacts.

(** ** Concrete runs *)
Section SchedulerRuns.
#[local] Existing Instance mem_env.
#[local] Existing Instance mem_laws.
#[local] Existing Instance solo_laws.

#[local] Abbreviation ops := "ops@example.com"%string.
#[local] Abbreviation start := (Start solo pool_world).
#[local] Abbreviation dstep := (sched_step solo ops).
#[local] Abbreviation run1 m w := (m w).1.

Definition daily_req : ReportRequest :=
  match daily_store ops (rs_world (sc_pool start)) with (_, Done (Ok r)) => r | _ => demo_request end.
Definition d_store : World := run1 (daily_store ops) (rs_world (sc_pool start)).
Definition d_send : World := set_jobs (mkChan [daily_req] 1 false) d_store.
Definition d_take : World := set_jobs (mkChan [] 1 false) d_send.
Definition d_begin : World := run1 (UpdateReportStatus (uuid_String (report_ID daily_req)) ReportStatusProcessing) d_take.
Definition d_work : World := run1 (doWork solo daily_req) d_begin.
Definition d_finish : World := run1 (UpdateReportStatus (uuid_String (report_ID daily_req)) ReportStatusCompleted) d_work.
Definition d_stop : World := set_jobs (chan_close (w_jobs d_finish)) d_finish.

Definition at_point (m : sched_main) (n : nat) (o : owner_pc) (ss : list ReportRequest) (x : rworker)
  (f : list (ReportRequest * string)) (w : World) : SchedState :=
  mkSched m n false (mkRState o ss [x] f [] w).
#[local] Abbreviation finished := [(daily_req, ReportStatusCompleted)].

(** The job fires and stores its request. *)
Lemma demo_job : rtc dstep start (at_point SchedRuns 0 Serving [daily_req] RIdle [] d_store).
Proof.
  apply (rtc_l _ _ (mkSched SchedRuns 1 false (rpool_start solo pool_world))); [by apply sched_fire |].
  apply rtc_once. apply (sched_store solo ops SchedRuns 0 false (rpool_start solo pool_world) d_store daily_req); [done |].
  apply run_outcome. vm_compute. reflexivity.
Qed.

Lemma daily_queue : w_jobs d_store = mkChan [] 1 false.
Proof. vm_compute. reflexivity. Qed.

(** It is worked off, and the scheduler stops. *)
Lemma demo_daily : rtc dstep start (at_point SchedStopped 0 Stopped [] RExited finished d_stop).
Proof.
  etransitivity; [exact demo_job |].
  apply (rtc_l _ _ (at_point SchedRuns 0 Serving [] RIdle [] d_send)).
  { apply sched_work; [| cbn; lia | by left].
    apply (r_send solo false false 0 daily_req Serving [daily_req] [RIdle] [] [] d_store d_send); [done | done |].
    unfold EnqueueReport. by rewrite daily_queue. }
  apply (rtc_l _ _ (at_point SchedRuns 0 Serving [] (RTaken daily_req) [] d_take)).
  { apply sched_work; [| done | by left].
    by apply (r_take solo false false 0 daily_req Serving [] [RIdle] [] [] d_send (mkChan [] 1 false)). }
  apply (rtc_l _ _ (at_point SchedRuns 0 Serving [] (RWorking daily_req) [] d_begin)).
  { apply sched_work; [| done | by left].
    apply (r_begin solo false false 0 daily_req Serving [] [RTaken daily_req] [] [] d_take d_begin); [done | done |].
    apply run_outcome. vm_compute. reflexivity. }
  apply (rtc_l _ _ (at_point SchedRuns 0 Serving [] (RFinishing daily_req ReportStatusCompleted) [] d_work)).
  { apply sched_work; [| done | by left].
    apply (r_work solo false false 0 daily_req Serving [] [RWorking daily_req] [] [] d_begin d_work (Ok tt)); [done | done |].
    apply run_outcome. vm_compute. reflexivity. }
  apply (rtc_l _ _ (at_point SchedRuns 0 Serving [] RIdle finished d_finish)).
  { apply sched_work; [| done | by left].
    apply (r_finish solo false false 0 daily_req ReportStatusCompleted Serving [] [RFinishing daily_req ReportStatusCompleted]
             [] [] d_work d_finish (Ok tt)); [done | done |]. apply run_outcome. vm_compute. reflexivity. }
  apply (rtc_l _ _ (at_point SchedCronStopped 0 Serving [] RIdle finished d_finish)); [by apply sched_cron_stop |].
  apply (rtc_l _ _ (at_point SchedStops 0 Stopping [] RIdle finished d_stop)).
  { apply (sched_stop solo ops 0 false); [apply r_stop | done | done]. }
  apply (rtc_l _ _ (at_point SchedStops 0 Stopping [] RExited finished d_stop)).
  { apply sched_work; [| done | by left].
    apply (r_exit solo false false 0 Stopping [] [RIdle] finished [] d_stop); [done | done |]. vm_compute. reflexivity. }
  apply rtc_once, sched_stopped; [| done | done]. apply r_stopped. by apply Forall_cons_2; [| apply Forall_nil_2].
Qed.

Definition daily_row : ReportRequest := default demo_request (rows (w_reports d_stop) !! 1%nat).

Lemma scheduler_stop_completes_reports_witness : report_Status daily_row = ReportStatusCompleted.
Proof.
  destruct (scheduler_stop_completes_reports solo ops pool_world _ report_up report_NoClash eq_refl demo_daily eq_refl)
    as (_ & _ & H).
  destruct (H eq_refl eq_refl daily_row) as [Hd|Hd].
  - apply (list_elem_of_lookup_2 _ 1). vm_compute. reflexivity.
  - intros Hin%list_elem_of_In. vm_compute in Hin. by destruct Hin as [Hin|[]].
  - exact Hd.
  - by vm_compute in Hd.
Defined.

(** A job that is between its two halves when the scheduler stops takes the
    process down, and its report stays PENDING. *)
Example job_under_way_crashes :
  exists s, rtc dstep start s /\ sc_late s = true /\ rs_owner (sc_pool s) = Aborted /\
    map report_Status (rows (w_reports (rs_world (sc_pool s)))) = [ReportStatusPending; ReportStatusPending].
Proof.
  set (w2 := set_jobs (chan_close (w_jobs d_store)) d_store).
  exists (mkSched SchedStops 0 true (mkRState Aborted [] [RIdle] [] [daily_req] w2)).
  split; [| split; [done | split; [done | vm_compute; reflexivity]]].
  etransitivity; [exact demo_job |].
  apply (rtc_l _ _ (at_point SchedCronStopped 0 Serving [daily_req] RIdle [] d_store)); [by apply sched_cron_stop |].
  apply (rtc_l _ _ (mkSched SchedStops 0 true (mkRState Stopping [daily_req] [RIdle] [] [] w2))).
  { apply (sched_stop solo ops 0 false (mkRState Serving [daily_req] [RIdle] [] [] d_store)); [apply r_stop | done | done]. }
  apply rtc_once, sched_work; [| cbn; lia | by right].
  apply (r_send_panics solo false false 0 daily_req Stopping [daily_req] [RIdle] [] [] w2 w2); [done | done |].
  unfold EnqueueReport, w2. cbn [w_jobs set_jobs]. by rewrite daily_queue.
Qed.
End SchedulerRuns.
