(* ===== verification/Notification.v ===== *)
(** * Notification: [internal/modules/notification]

    The mailer builds a MIME message and speaks SMTP.  A conversation is a
    world of its own ([Wire]): the commands sent so far and the replies the
    server gives, one per command, which may be anything.  What package
    net/smtp does before it sends a command is part of the model: [Mail] and
    [Rcpt] refuse an address with a line break, [PlainAuth] refuses to send a
    password over an unencrypted connection to another host. *)

From stdpp Require Import base list strings numbers.
From Stdlib Require Import ZArith Lia Ascii.
From S2P Require Import Prelude GoStrings GoTime GoFloat Domain Env MemEnv Servers Config Reporting.
Open Scope Z_scope.

Record Message := mkMessage {
  msg_To : string;
  msg_Subject : string;
  msg_TextBody : string;
  msg_HTMLBody : string;
}.

(** ** [mime.go] *)
Definition crlf : string := bytes [13; 10]%nat.
Definition dq : string := bytes [34]%nat.
Definition mimeHeaderEncode (s : string) : string := s.

(** [time.Now().UnixNano()] *)
Definition UnixNano (t : Time) : Z := int64 (t - unix_epoch * Second).

Definition buildMultipartMessage (now : Time) (from to subject textBody htmlBody : string) : string :=
  let boundary := "portal-boundary-" +:+ Itoa (UnixNano now) in
  "From: " +:+ from +:+ crlf +:+
  "To: " +:+ to +:+ crlf +:+
  "Subject: " +:+ mimeHeaderEncode subject +:+ crlf +:+
  "MIME-Version: 1.0" +:+ crlf +:+
  "Content-Type: multipart/alternative; boundary=" +:+ dq +:+ boundary +:+ dq +:+ crlf +:+
  crlf +:+
  "--" +:+ boundary +:+ crlf +:+
  "Content-Type: text/plain; charset=" +:+ dq +:+ "UTF-8" +:+ dq +:+ crlf +:+
  "Content-Transfer-Encoding: 8bit" +:+ crlf +:+
  crlf +:+
  textBody +:+
  crlf +:+
  "--" +:+ boundary +:+ crlf +:+
  "Content-Type: text/html; charset=" +:+ dq +:+ "UTF-8" +:+ dq +:+ crlf +:+
  "Content-Transfer-Encoding: 8bit" +:+ crlf +:+
  crlf +:+
  htmlBody +:+
  crlf +:+
  "--" +:+ boundary +:+ "--" +:+ crlf.

(** ** The conversation *)
Inductive SmtpCmd :=
| DIAL (addr : string)
| BANNER                             (* smtp.NewClient reads the greeting *)
| CLOSE_CONN
| STARTTLS (serverName : string)
| AUTH_PLAIN (username password : string)
| AUTH_ABORT                         (* the line * *)
| MAIL (from : string)
| RCPT (to : string)
| DATA
| BODY (raw : string)
| END_DATA
| QUIT
| CLOSE.

#[export] Instance SmtpCmd_eq_dec : EqDecision SmtpCmd.
Proof. solve_decision. Defined.

Record Wire := mkWire {
  wire_sent : list SmtpCmd;
  wire_reply : nat -> result ();   (* to the n-th command *)
  wire_now : Time;
  wire_cut : nat -> bool;          (* the n-th command failed with the connection, not by a reply *)
}.

Definition smtp (c : SmtpCmd) : M Wire (result ()) :=
  fun w => (mkWire (wire_sent w ++ [c]) (wire_reply w) (wire_now w) (wire_cut w),
            Done (wire_reply w (length (wire_sent w)))).

Definition has_line_break (s : string) : bool :=
  negb (forall_string (fun c => negb (byte_val c =? 13) && negb (byte_val c =? 10)) s).
Definition line_error : error := Fresh "smtp: A line must not contain CR or LF".

(** [client.Mail], [client.Rcpt] *)
Definition smtp_Mail (from : string) : M Wire (result ()) :=
  if has_line_break from then ret (Err line_error) else smtp (MAIL from).
Definition smtp_Rcpt (to : string) : M Wire (result ()) :=
  if has_line_break to then ret (Err line_error) else smtp (RCPT to).

(** [isLocalhost] *)
Definition isLocalhost (name : string) : bool :=
  bool_decide (name ∈ ["localhost"; "127.0.0.1"; "::1"]%string).

(** [client.Auth(PlainAuth("", username, password, host))], on a connection to
    that host: when the mechanism refuses, the client quits; when the server
    refuses, or goes on with a challenge, it aborts the exchange and quits. *)
Definition smtp_Auth (tls : bool) (host username password : string) : M Wire (result ()) :=
  if negb tls && negb (isLocalhost host) then
    smtp QUIT ;;; ret (Err (Fresh "unencrypted connection"))
  else
    r <-- smtp (AUTH_PLAIN username password) ;;
    match r with
    | Ok _ => ret (Ok tt)
    | Err e =>
        cut <-- gets (fun w => wire_cut w (pred (length (wire_sent w)))) ;;
        if cut then ret (Err e)
        else smtp AUTH_ABORT ;;; smtp QUIT ;;; ret (Err e)
    end.

(** [net.JoinHostPort] *)
Definition JoinHostPort (host port : string) : string :=
  if Contains host ":" || Contains host "%" then "[" +:+ host +:+ "]:" +:+ port
  else host +:+ ":" +:+ port.

(** ** [SMTPMailer.Send] *)

(** The part after the client exists, under [defer client.Close()]. *)
Definition converse (cfg : SMTPConfig) (msg : Message) (raw : string) : M Wire (result ()) :=
  _tls <-? (if smtp_UseTLS cfg then smtp (STARTTLS (smtp_Host cfg)) else ret (Ok tt)) orelse Wrapped "start tls" ;;
  _auth <-? (if smtp_UseAuth cfg
             then smtp_Auth (smtp_UseTLS cfg) (smtp_Host cfg) (smtp_Username cfg) (smtp_Password cfg)
             else ret (Ok tt)) orelse Wrapped "smtp auth" ;;
  _mail <-? smtp_Mail (smtp_From cfg) orelse Wrapped "smtp mail from" ;;
  _rcpt <-? smtp_Rcpt (msg_To msg) orelse Wrapped "smtp rcpt to" ;;
  _data <-? smtp DATA orelse Wrapped "smtp data" ;;
  written <-- smtp (BODY raw) ;;
  match written with
  | Err e => smtp END_DATA ;;; ret (Err (Wrapped "write message" e))
  | Ok _ =>
      _end <-? smtp END_DATA orelse Wrapped "close message writer" ;;
      _quit <-? smtp QUIT orelse Wrapped "smtp quit" ;;
      ret (Ok tt)
  end.

Definition Send (cfg : SMTPConfig) (msg : Message) : M Wire (result ()) :=
  let fromHeader := if negb (String.eqb (TrimSpace (smtp_FromName cfg)) "")
                    then mimeHeaderEncode (smtp_FromName cfg) +:+ " <" +:+ smtp_From cfg +:+ ">"
                    else smtp_From cfg in
  now <-- gets wire_now ;;
  let raw := buildMultipartMessage now fromHeader (msg_To msg) (msg_Subject msg) (msg_TextBody msg)
               (msg_HTMLBody msg) in
  let addr := JoinHostPort (smtp_Host cfg) (smtp_Port cfg) in
  _conn <-? smtp (DIAL addr) orelse Wrapped "dial smtp server" ;;
  client <-- smtp BANNER ;;
  match client with
  | Err e => smtp CLOSE_CONN ;;; ret (Err (Wrapped "create smtp client" e))
  | Ok _ =>
      r <-- converse cfg msg raw ;;
      match r with
      | Ok _ => ret (Ok tt)
      | Err e => smtp CLOSE ;;; ret (Err e)
      end
  end.

(** [Ping]: the connection is opened and closed; an error of the closing is
    only logged. *)
Definition smtp_Ping (host port : string) : M Wire (result ()) :=
  let addr := JoinHostPort host port in
  _conn <-? smtp (DIAL addr) orelse Wrapped ("dial smtp server " +:+ addr) ;;
  smtp CLOSE_CONN ;;; ret (Ok tt).

(** [NotificationService.SendReportEmail] *)
Definition SendReportEmail (cfg : SMTPConfig) (toEmail subject htmlBody : string) : M Wire (result ()) :=
  Send cfg (mkMessage toEmail subject "" htmlBody).

(** ** Properties *)

(** [spoke w cs]: the conversation of [w] went on with [cs]. *)
Definition spoke (w : Wire) (cs : list SmtpCmd) : Wire :=
  mkWire (wire_sent w ++ cs) (wire_reply w) (wire_now w) (wire_cut w).
(** The reply to the [i]-th command from [w] on. *)
Definition reply (w : Wire) (i : nat) : result () := wire_reply w (length (wire_sent w) + i).

Lemma spoke_nil w : spoke w [] = w.
Proof. destruct w. unfold spoke. cbn. by rewrite app_nil_r. Qed.

Lemma wp_smtp c w cs (Q : result () -> Wire -> Prop) X :
  (forall r, reply w (length cs) = r -> Q r (spoke w (cs ++ [c]))) -> wp (smtp c) (spoke w cs) Q X.
Proof.
  intros H. specialize (H _ eq_refl). unfold wp, smtp, reply, spoke in *. cbn in *.
  by rewrite length_app, <- app_assoc.
Qed.

(** *** What a delivery is *)

(** The addresses that go into commands have no line break, and a password is
    only given to an encrypted connection or to the local host. *)
Definition sendable (cfg : SMTPConfig) (msg : Message) : bool :=
  negb (has_line_break (smtp_From cfg)) && negb (has_line_break (msg_To msg)) &&
  (negb (smtp_UseAuth cfg) || smtp_UseTLS cfg || isLocalhost (smtp_Host cfg)).

Definition from_header (cfg : SMTPConfig) : string :=
  if negb (String.eqb (TrimSpace (smtp_FromName cfg)) "")
  then smtp_FromName cfg +:+ " <" +:+ smtp_From cfg +:+ ">" else smtp_From cfg.

(** The commands of a delivery, in order. *)
Definition delivery (cfg : SMTPConfig) (msg : Message) (now : Time) : list SmtpCmd :=
  [DIAL (JoinHostPort (smtp_Host cfg) (smtp_Port cfg)); BANNER] ++
  (if smtp_UseTLS cfg then [STARTTLS (smtp_Host cfg)] else []) ++
  (if smtp_UseAuth cfg then [AUTH_PLAIN (smtp_Username cfg) (smtp_Password cfg)] else []) ++
  [MAIL (smtp_From cfg); RCPT (msg_To msg); DATA;
   BODY (buildMultipartMessage now (from_header cfg) (msg_To msg) (msg_Subject msg) (msg_TextBody msg) (msg_HTMLBody msg));
   END_DATA; QUIT].

(** The server accepts the next [n] commands. *)
Definition accepts (w : Wire) (n : nat) : bool := forallb (fun i => is_ok (reply w i)) (seq 0 n).

(** [smtp_cases]: every conversation of the goal's computation, one goal per
    sequence of replies. *)
Ltac smtp_cases :=
  repeat (cbn beta iota zeta;
    lazymatch goal with
    | |- wp (bind _ _) _ _ _ => apply wp_bind
    | |- wp (gets _) _ _ _ => apply wp_gets
    | |- wp (ret _) _ _ _ => apply wp_ret
    | |- wp (smtp _) _ _ _ =>
        apply wp_smtp; let r := fresh "r" in let H := fresh "Hr" in
        intros r H; cbn [length app] in *; destruct r as [[]|]
    | |- wp (if ?b then _ else _) _ _ _ => destruct b eqn:?
    end).

Lemma wp_Send cfg msg w :
  wp (Send cfg msg) w (fun r w' =>
    let script := delivery cfg msg (wire_now w) in
    if is_ok r
    then sendable cfg msg = true /\ accepts w (length script) = true /\ w' = spoke w script
    else sendable cfg msg && accepts w (length script) = false)
    (fun _ => False).
Proof.
  rewrite <- (spoke_nil w) at 1.
  unfold Send, converse, smtp_Auth, smtp_Mail, smtp_Rcpt, delivery, sendable, from_header.
  destruct (smtp_UseTLS cfg), (smtp_UseAuth cfg), (isLocalhost (smtp_Host cfg)); cbn [negb andb]; smtp_cases.
  all: cbn; unfold accepts, mimeHeaderEncode in *; cbn [length app seq forallb].
  all: repeat match goal with H : reply _ _ = _ |- _ => rewrite H; clear H
                         | H : has_line_break _ = _ |- _ => rewrite H; clear H end.
  all: by rewrite ?andb_false_r.
Qed.

(** C36: A mail is delivered exactly when it can be sent and the server accepts every
    command; then exactly the commands of a delivery were sent, in order, with
    the message built from it. *)
Theorem Send_delivers cfg msg w w' :
  Send cfg msg w = (w', Done (Ok tt)) <->
  sendable cfg msg = true /\ accepts w (length (delivery cfg msg (wire_now w))) = true /\
  w' = spoke w (delivery cfg msg (wire_now w)).
Proof.
  pose proof (wp_Send cfg msg w) as H. apply wp_total in H as (w1 & r & Hrun & H). rewrite Hrun. cbn zeta in H.
  destruct r as [[]|e]; cbn [is_ok] in H.
  - destruct H as (Hs & Ha & ->). split; [intros [= <-]; done | by intros (_ & _ & ->)].
  - split; [done |]. intros (Hs & Ha & _). by rewrite Hs, Ha in H.
Qed.

(** C35: Whatever the server answers, the mailer returns, closes the connection it
    opened (its last command closes it unless the dialling failed), and gives
    the password only to the local host or after the server accepted STARTTLS. *)
Theorem Send_is_safe cfg msg w :
  exists r cs, Send cfg msg w = (spoke w cs, Done r) /\
    (is_ok (reply w 0) = true -> exists c, list.last cs = Some c /\ c ∈ [QUIT; CLOSE; CLOSE_CONN]) /\
    (forall i u p, cs !! i = Some (AUTH_PLAIN u p) ->
       isLocalhost (smtp_Host cfg) = true \/
       exists j, (j < i)%nat /\ cs !! j = Some (STARTTLS (smtp_Host cfg)) /\ reply w j = Ok tt).
Proof.
  assert (wp (Send cfg msg) w (fun _ w' => exists cs, w' = spoke w cs /\
    (is_ok (reply w 0) = true -> exists c, list.last cs = Some c /\ c ∈ [QUIT; CLOSE; CLOSE_CONN]) /\
    (forall i u p, cs !! i = Some (AUTH_PLAIN u p) ->
       isLocalhost (smtp_Host cfg) = true \/
       exists j, (j < i)%nat /\ cs !! j = Some (STARTTLS (smtp_Host cfg)) /\ reply w j = Ok tt)) (fun _ => False)) as Hwp.
  { rewrite <- (spoke_nil w) at 1. unfold Send, converse, smtp_Auth, smtp_Mail, smtp_Rcpt.
    destruct (smtp_UseTLS cfg), (smtp_UseAuth cfg), (isLocalhost (smtp_Host cfg)); cbn [negb andb]; smtp_cases.
    all: eexists; split; [reflexivity |]; split.
    all: try (intros Hd; cbn; eexists; split; [reflexivity | by rewrite !elem_of_cons; eauto]).
    all: try (intros Hd; exfalso; match goal with H : reply _ 0 = Err _ |- _ => by rewrite H in Hd end).
    all: try (intros; by left).
    all: intros i u p Hi.
    all: do 12 (destruct i as [|i]; [try discriminate Hi; by (right; exists 2%nat; repeat split; try lia) |]).
    all: discriminate Hi. }
  apply wp_total in Hwp as (w' & r & Hrun & cs & -> & H). eauto.
Qed.

(** ** The mailer as the notifier of the report worker *)
Section Mailing.
Context `{E : Env} {L : EnvLaws E}.

(** The server's side of the conversation may depend on the world. *)
Definition smtp_notifier (cfg : SMTPConfig) (wire : World -> Wire)
    (email subject body : string) : M World (result ()) :=
  fun w => (w, (SendReportEmail cfg email subject body (wire w)).2).

Lemma smtp_notifier_total cfg wire email subject body w :
  wp (smtp_notifier cfg wire email subject body) w (fun _ w' => w' = w) (fun _ => False).
Proof.
  pose proof (wp_total _ _ _ (wp_Send cfg (mkMessage email subject "" body) (wire w))) as (w' & r & Hrun & _).
  unfold wp, smtp_notifier, SendReportEmail. by rewrite Hrun.
Qed.

(** The worker's promise to its clients needs only that the calculator behaves. *)
Lemma smtp_worker_laws rw cfg wire :
  rw_notifier rw = Some (smtp_notifier cfg wire) ->
  (forall t1 t2 w, wp (rw_uptimeCalc rw t1 t2) w
     (fun _ w' => w_reports w' = w_reports w /\ w_jobs w' = w_jobs w) (fun _ => False)) ->
  WorkerLaws rw.
Proof.
  intros Hn Hup. split; [exact Hup |]. intros send email subject body w. rewrite Hn. intros [= <-].
  eapply wp_mono; [apply smtp_notifier_total |]. by intros r w' ->.
Qed.

(** C34: A report that the worker counts as done was handed to the mail server: every
    command of a delivery to the requestor was accepted, and the body of the
    message is the rendered template of the servers' counts. *)
Theorem report_reaches_the_mail_server rw cfg wire req w w' :
  rw_notifier rw = Some (smtp_notifier cfg wire) ->
  (forall t1 t2 w, wp (rw_uptimeCalc rw t1 t2) w
     (fun _ w' => w_reports w' = w_reports w /\ w_jobs w' = w_jobs w) (fun _ => False)) ->
  doWork rw req w = (w', Done (Ok tt)) ->
  exists uptime tmpl html,
    let l := rows (w_servers w) in
    let count st := count_rows (fun s => String.eqb (server_CurrentStatus s) st) l in
    let msg := mkMessage (report_RequestorEmail req) "Server Status Report" "" html in
    rw_template rw = Ok tmpl /\
    tmpl (template_data req (Z.of_nat (length l)) (count ServerStatusOnline) (count ServerStatusOffline) uptime)
      = Ok html /\
    Send cfg msg (wire w') = (spoke (wire w') (delivery cfg msg (wire_now (wire w'))), Done (Ok tt)).
Proof.
  intros Hn Hup Hrun.
  destruct (doWork_mailed rw req w w' _ (smtp_worker_laws rw cfg wire Hn Hup) Hn Hrun)
    as (up & w1 & tmpl & html & Ht & Hh & Hs).
  exists up, tmpl, html. cbn zeta. split; [done |]. split; [done |].
  unfold smtp_notifier, SendReportEmail in Hs. injection Hs as -> Hr.
  set (msg := mkMessage _ _ _ _) in *. pose proof (wp_total _ _ _ (wp_Send cfg msg (wire w'))) as (w2 & r & Hrun2 & H).
  rewrite Hrun2 in Hr |- *. cbn in Hr. injection Hr as ->. by destruct H as (_ & _ & ->).
Qed.
End Mailing.

(** ** Concrete runs *)
Section MailRuns.
#[local] Existing Instance mem_env.
#[local] Existing Instance mem_laws.

Definition demo_smtp : SMTPConfig := mkSMTPConfig "mail.example.com" "587" true true "u" "p" "noreply@example.com" "Ops".
Definition agreeable : Wire := mkWire [] (fun _ => Ok tt) (738944 * Day) (fun _ => false).

Definition mailing_worker : reportingWorker :=
  NewReportingWorker (fun _ _ => ret (Ok (float64_of_int 99))) 0 0
    (Some (smtp_notifier demo_smtp (fun _ => agreeable))) (Ok (fun d => Ok (td_StartDate d))).

Lemma report_reaches_the_mail_server_witness :
  exists html, let msg := mkMessage "ops@example.com" "Server Status Report" "" html in
    (Send demo_smtp msg agreeable).2 = Done (Ok tt).
Proof.
  destruct (report_reaches_the_mail_server mailing_worker demo_smtp (fun _ => agreeable) demo_request
    (report_world [demo_request]) (doWork mailing_worker demo_request (report_world [demo_request])).1
    eq_refl) as (up & tmpl & html & Ht & Hh & Hs).
  - intros t1 t2 w. by apply wp_ret.
  - apply run_outcome. vm_compute. reflexivity.
  - exists html. exact (f_equal snd Hs).
Defined.

(** A server that refuses STARTTLS gets neither the password nor the mail. *)
Example refused_tls :
  wire_sent (Send demo_smtp (mkMessage "a@b" "s" "" "h")
    (mkWire [] (fun n => if (n =? 2)%nat then Err (Fresh "502") else Ok tt) 0 (fun _ => false))).1 =
  [DIAL "mail.example.com:587"; BANNER; STARTTLS "mail.example.com"; CLOSE].
Proof. vm_compute. reflexivity. Qed.

(** A server that refuses the password is told that the exchange is over, and
    the client quits. *)
Example refused_password :
  wire_sent (Send demo_smtp (mkMessage "a@b" "s" "" "h")
    (mkWire [] (fun n => if (n =? 3)%nat then Err (Fresh "535") else Ok tt) 0 (fun _ => false))).1 =
  [DIAL "mail.example.com:587"; BANNER; STARTTLS "mail.example.com"; AUTH_PLAIN "u" "p"; AUTH_ABORT; QUIT; CLOSE].
Proof. vm_compute. reflexivity. Qed.

(** An address with a line break never reaches the server. *)
Example injected_recipient :
  wire_sent (Send demo_smtp (mkMessage ("a@b" +:+ crlf +:+ "RCPT TO:<c@d>") "s" "" "h") agreeable).1 =
  [DIAL "mail.example.com:587"; BANNER; STARTTLS "mail.example.com"; AUTH_PLAIN "u" "p";
   MAIL "noreply@example.com"; CLOSE].
Proof. vm_compute. reflexivity. Qed.
End MailRuns.
