(* ===== verification/App.v ===== *)
(** * App: [internal/app], the service put together

    [New] reads the environment, seeds the accounts and builds the parts from
    one Redis client; [route] is the registration of the three services on the
    gRPC server and [serve] a call through the interceptor chain.  The call
    RequestReport, which may block on the job queue, is [Reporting]'s; here its
    route is left out and its guard is that of every method.

    What can fail at start-up is a parameter ([connect], the opening of the
    database); the pings of Redis and Elasticsearch are only logged. *)

From stdpp Require Import base list strings gmap numbers.
From Stdlib Require Import ZArith Lia.
From S2P Require Import Prelude GoStrings GoTime GoFloat Domain Env MemEnv Security Identity Seed Rpc.
From S2P Require Import AuthServer Servers ImportExport ServerHandlers RateLimit Config Middleware Reporting Notification.
Open Scope Z_scope.

Section App.
Context `{E : Env} {RS : RateStore RedisServer} `{PV : Protovalidate} `{X : Excelize}.

Record App := mkApp {
  app_Config : Config;
  app_RedisClient : UniversalClient;
  app_ServerSvc : serverService;
  app_AuthSvc : authServiceImpl;
  app_Mailer : SMTPConfig;
  app_Worker : reportingWorker;
  app_Deps : GRPCServerDeps;
}.

Variable connect : string -> result ().                       (* database.GetInstance *)
Variable uptime : Time -> Time -> M World (result float64).   (* NewESUptimeCalculator *)
Variable wire : World -> Wire.                                (* the mail server's side *)
Variable template : result (TemplateData -> result string).
Variable salts : N * N.

(** [cfg, err := Load...(); if err != nil { log }]: nil on an error. *)
Definition or_nil {A} (r : result A) : option A := match r with Ok a => Some a | Err _ => None end.

Definition rate_limiter (cfg : option RateLimitConfig) (client : UniversalClient) : option Limiter * KeyBuilder :=
  match cfg with
  | Some c =>
      if rl_Enabled c then
        match NewRedisLimiter client with
        | Ok client => (Some (RedisLimiter_Allow client), NewKeyBuilder (rl_Prefix c))
        | Err _ => (None, mkKeyBuilder "")
        end
      else (None, mkKeyBuilder "")
  | None => (None, mkKeyBuilder "")
  end.

Definition New (env : Environ) : M World (result App) :=
  match Load env with
  | Err e => ret (Err e)
  | Ok cfg =>
      match connect (cfg_DBUrl cfg) with
      | Err e => ret (Err e)
      | Ok _ =>
          SeedUsers salts (cfg_AdminEmail cfg) (cfg_AdminPassword cfg) (cfg_UserEmail cfg) (cfg_UserPassword cfg) ;;;
          let redisClient := as_interface (NewRedisClient (or_nil (LoadRedisConfig env))) in
          let rateLimitCfg := or_nil (LoadRateLimitConfig env) in
          let '(rateLimiter, keyBuilder) := rate_limiter rateLimitCfg redisClient in
          ret (Ok (mkApp cfg redisClient
            (mkServerService (Some (NewServerCache redisClient)))
            (mkAuthService redisClient (cfg_JWTSecret cfg))
            (cfg_SMTP cfg)
            (NewReportingWorker uptime (rep_WorkerCount (cfg_Reporting cfg)) (rep_JobQueueSize (cfg_Reporting cfg))
               (Some (smtp_notifier (cfg_SMTP cfg) wire)) template)
            (mkDeps (Some (mkAuthenticator (cfg_JWTSecret cfg) redisClient)) (Some NewAuthorizer)
               rateLimiter keyBuilder rateLimitCfg)))
      end
  end.

(** The handlers [RegisterAuthServiceServer] and
    [RegisterServerManagementServiceServer] put behind the method names; each
    receives a request of its own type. *)
Definition routes (a : App) : list (string * Handler) :=
  let wrong : M World (result Response) := ret (Err (Status Internal "grpc: error unmarshalling request")) in
  [ (AuthService_Login, fun ctx req =>
       match req with LoginRequest i p => rpc_Login (app_AuthSvc a) ctx i p | _ => wrong end);
    (AuthService_RefreshToken, fun ctx req =>
       match req with RefreshRequest t => rpc_RefreshToken (app_AuthSvc a) ctx t | _ => wrong end);
    (AuthService_Logout, fun ctx req =>
       match req with LogoutRequest => rpc_Logout (app_AuthSvc a) ctx | _ => wrong end);
    (AuthService_LogoutAll, fun ctx req =>
       match req with LogoutAllRequest => rpc_LogoutAll (app_AuthSvc a) ctx | _ => wrong end);
    (SM_CreateServer, fun ctx req =>
       match req with CreateServerRequest n ip => rpc_CreateServer (app_ServerSvc a) n ip | _ => wrong end);
    (SM_UpdateServer, fun ctx req =>
       match req with UpdateServerRequest id n ip => rpc_UpdateServer (app_ServerSvc a) id n ip | _ => wrong end);
    (SM_DeleteServer, fun ctx req =>
       match req with DeleteServerRequest id => rpc_DeleteServer (app_ServerSvc a) id | _ => wrong end);
    (SM_ViewServers, fun ctx req =>
       match req with ViewServersRequest v => rpc_ViewServers (app_ServerSvc a) v | _ => wrong end);
    (SM_ImportServers, fun ctx req =>
       match req with ImportServersRequest f _ => rpc_ImportServers (app_ServerSvc a) f | _ => wrong end);
    (SM_ExportServers, fun ctx req =>
       match req with ExportServersRequest v => rpc_ExportServers (app_ServerSvc a) v | _ => wrong end) ].

Definition route (a : App) (method : string) : option Handler :=
  (fun kv => kv.2) <$> List.find (fun kv => String.eqb kv.1 method) (routes a).

(** A call of a registered method. *)
Definition serve (a : App) (method : string) (ctx : Ctx) (req : Request) : M World (result Response) :=
  match route a method with
  | Some h => chain (app_Deps a) method h ctx req
  | None => ret (Err (Status Unimplemented ("unknown method " +:+ method)))
  end.
End App.

(** ** What leaves the servers alone *)
Section Frames.
Context `{E : Env} {L : EnvLaws E} {RS : RateStore RedisServer} `{PV : Protovalidate} `{X : Excelize}.

(** The servers are what they were, or [G]. *)
Variable G : Prop.
Definition same_servers (w w' : World) : Prop := G \/ rows (w_servers w') = rows (w_servers w).
Definition keeps {A} (m : M World A) : Prop := forall w, wp m w (fun _ => same_servers w) (same_servers w).

Lemma keeps_ret {A} (a : A) : keeps (ret a).
Proof. intros w. apply wp_ret. by right. Qed.

Lemma keeps_bind {A B} (m : M World A) (k : A -> M World B) :
  keeps m -> (forall a, keeps (k a)) -> keeps (bind m k).
Proof.
  intros Hm Hk w. apply wp_bind. eapply wp_mono; [exact (Hm w) |]. intros a w' Hw.
  eapply wp_conseq; [exact (Hk a w') | |]; cbn; unfold same_servers in *; intros; naive_solver congruence.
Qed.

Lemma keeps_for_each {A} (l : list A) (body : A -> M World ()) :
  (forall x, keeps (body x)) -> keeps (for_each l body).
Proof. intros Hb. induction l; cbn; [apply keeps_ret | by apply keeps_bind]. Qed.

Lemma keeps_on {S A} (get : World -> S) set (op : S -> S * A) :
  (forall s w, w_servers (set s w) = w_servers w) -> keeps (on get set op).
Proof. intros Hs w. apply wp_on. intros s a _. right. by rewrite Hs. Qed.

Lemma keeps_redis {A} c (op : RedisServer -> RedisServer * A) : keeps (redis_call c op).
Proof. intros w. unfold redis_call. destruct c; [by right | by right |]. by apply keeps_on. Qed.

Lemma keeps_gets {A} (f : World -> A) : keeps (gets f).
Proof. intros w. apply wp_gets. by right. Qed.

Lemma keeps_time : keeps time_Now.
Proof. intros w. apply wp_time_Now. by right. Qed.
Lemma keeps_uuid : keeps uuid_New.
Proof. intros w. apply wp_uuid_New. by right. Qed.
Lemma keeps_rand : keeps rand_Read.
Proof. intros w. apply wp_rand_Read. by right. Qed.
Lemma keeps_headers l : keeps (grpc_SetHeader l).
Proof. intros w. apply wp_SetHeader. by right. Qed.

(** Reading the servers keeps their rows. *)
Lemma keeps_find q : keeps (db_servers (gorm_Find q)).
Proof. intros w. unfold db_servers. apply wp_on. intros t r (Hr & _)%Find_outcome. by right. Qed.
Lemma keeps_count p : keeps (db_servers (gorm_Count p)).
Proof. intros w. unfold db_servers. apply wp_on. intros t r (Hr & _)%Count_outcome. by right. Qed.
End Frames.

#[export] Hint Resolve keeps_ret keeps_time keeps_uuid keeps_rand keeps_headers keeps_redis keeps_gets
  keeps_find keeps_count : keeps.

(** [keeping]: the whole of a computation, statement by statement. *)
Ltac keeping :=
  repeat match goal with
  | |- forall _, _ => intro
  | |- keeps _ (bind _ _) => apply keeps_bind
  | |- keeps _ (for_each _ _) => apply keeps_for_each
  | |- keeps _ (if ?b then _ else _) => destruct b
  | |- keeps _ (match ?x with _ => _ end) => destruct x
  | |- keeps _ (db_users _) => apply keeps_on; done
  | |- keeps _ (db_sessions _) => apply keeps_on; done
  | |- keeps _ (db_tokens _) => apply keeps_on; done
  | |- keeps _ _ => solve [auto with keeps]
  end.

Section HandlerFrames.
Variable G : Prop.
Context `{E : Env} {L : EnvLaws E} {RS : RateStore RedisServer} `{PV : Protovalidate} `{X : Excelize}.

Lemma keeps_MarkRevoked c sid t : keeps G (revoStore_MarkRevoked c sid t).
Proof. unfold revoStore_MarkRevoked. keeping. Qed.
#[local] Hint Resolve keeps_MarkRevoked : keeps.

Lemma keeps_LogoutAll s uid : keeps G (LogoutAll s uid).
Proof. unfold LogoutAll, sessionRepo_ListActiveByUserID, sessionRepo_RevokeAllByUserID, refreshRepo_RevokeByUserID. keeping. Qed.
#[local] Hint Resolve keeps_LogoutAll : keeps.

Lemma keeps_Logout s sid : keeps G (Logout s sid).
Proof. unfold Logout, sessionRepo_FindActiveByID, sessionRepo_RevokeByID, refreshRepo_RevokeBySessionID. keeping. Qed.
#[local] Hint Resolve keeps_Logout : keeps.

Lemma keeps_AccessToken secret uid role sid : keeps G (GenerateAccessToken secret uid role sid).
Proof. unfold GenerateAccessToken. keeping. Qed.
#[local] Hint Resolve keeps_AccessToken : keeps.

Lemma keeps_Login s email pw ip ua : keeps G (Login s email pw ip ua).
Proof. unfold Login, userRepo_FindByEmail, GenerateRefreshToken, sessionRepo_Create, refreshRepo_Create. keeping. Qed.
#[local] Hint Resolve keeps_Login : keeps.

Lemma keeps_Refresh s t : keeps G (Refresh s t).
Proof.
  unfold Refresh, refreshRepo_FindByTokenHash, sessionRepo_FindActiveByID, userRepo_FindByID, GenerateRefreshToken,
    refreshRepo_RevokeByID, refreshRepo_Create, refreshRepo_MarkReplacement. keeping.
Qed.
#[local] Hint Resolve keeps_Refresh : keeps.

Lemma keeps_cookies a r n : keeps G (send_cookies a r n).
Proof. unfold send_cookies, GenerateCSRFToken. keeping. Qed.
#[local] Hint Resolve keeps_cookies : keeps.

Lemma keeps_Authenticate a tok : keeps G (Authenticate a tok).
Proof. unfold Authenticate. keeping. Qed.

Lemma keeps_Allow c key policy : keeps G (RedisLimiter_Allow c key policy).
Proof. unfold RedisLimiter_Allow. keeping. Qed.

(** The public methods and the two ends of a session change no server, and
    neither does reading the servers. *)
Definition harmless : list string :=
  [AuthService_Login; AuthService_RefreshToken; AuthService_Logout; AuthService_LogoutAll; SM_ViewServers].

Lemma harmless_keeps a method h ctx req :
  method ∈ harmless -> route a method = Some h -> keeps G (h ctx req).
Proof.
  unfold harmless. intros Hm Hr.
  repeat (apply elem_of_cons in Hm as [->|Hm]; [injection Hr as <- |]); [.. | by apply not_elem_of_nil in Hm];
    destruct req; auto with keeps.
  - unfold rpc_Login. keeping.
  - unfold rpc_RefreshToken. keeping.
  - unfold rpc_Logout. keeping.
  - unfold rpc_LogoutAll. keeping.
  - unfold rpc_ViewServers, SearchServers, serverRepo_Search. keeping.
Qed.
End HandlerFrames.

(** ** Who can change the servers *)
Section Guarded.
Variable G : Prop.
Context `{E : Env} {L : EnvLaws E} {RS : RateStore RedisServer} `{PV : Protovalidate} `{X : Excelize}.

(** As [keeps_bind], remembering that the value came out of the first part. *)
Lemma keeps_bind_run {A B} (m : M World A) (k : A -> M World B) :
  keeps G m -> (forall w a w', m w = (w', Done a) -> keeps G (k a)) -> keeps G (bind m k).
Proof.
  intros Hm Hk w. specialize (Hm w). unfold wp, bind in *. destruct (m w) as [w1 [a|]] eqn:Hr; [| done].
  specialize (Hk _ _ _ Hr w1). unfold wp, same_servers in *. destruct (k a w1) as [w2 [b|]]; naive_solver congruence.
Qed.

Lemma keeps_run_checks (l : Limiter) fo policy checks next :
  (forall k p, keeps G (l k p)) -> keeps G next -> keeps G (run_checks l fo policy checks next).
Proof.
  intros Hl Hn. induction checks as [|[scope key] rest IH]; cbn; [done |].
  apply keeps_bind; [apply Hl |]. intros [r|e]; [| by destruct fo; auto with keeps].
  destruct (negb _); [keeping | done].
Qed.

Lemma keeps_limited l kb cfg ph m (h : Handler) ctx req :
  (forall l', l = Some l' -> forall k p, keeps G (l' k p)) -> keeps G (h ctx req) ->
  keeps G (rateLimitInterceptor l kb cfg ph m h ctx req).
Proof.
  intros Hl Hh. unfold rateLimitInterceptor. destruct cfg as [cfg|], l as [l|]; try done.
  destruct (negb _); [done |]. destruct (negb _); [done |]. apply keeps_run_checks; [by apply Hl | done].
Qed.

Lemma keeps_validated m (h : Handler) ctx req : keeps G (h ctx req) -> keeps G (ValidationInterceptor m h ctx req).
Proof.
  intros Hh. unfold ValidationInterceptor.
  destruct req; lazymatch goal with
                | |- keeps G (match Validate ?r with _ => _ end) =>
                    destruct (Validate r); [exact Hh | apply keeps_ret]
                | _ => apply keeps_ret
                end.
Qed.

Lemma keeps_csrf m (h : Handler) ctx req : keeps G (h ctx req) -> keeps G (CSRFInterceptor m h ctx req).
Proof.
  intros Hh. unfold CSRFInterceptor. destruct (negb _); [exact Hh |]. destruct (ctx_metadata ctx); [| exact Hh].
  destruct (_ && _)%bool; [exact Hh |]. destruct (ValidateCSRFToken _ _); [exact Hh | apply keeps_ret].
Qed.

Lemma keeps_given {A} (m : M World A) : G -> keeps G m.
Proof. intros HG w. unfold wp. destruct (m w) as [w' [r|]]; by left. Qed.

(** The contexts the permission check can see for a call. *)
Definition presented (a : Authenticator) (ctx : Ctx) (method : string) (ctx' : Ctx) : Prop :=
  (method ∈ buildGRPCPublicMethods /\ ctx' = ctx) \/
  exists tok c now, extractBearerTokenFromMetadata ctx = Ok tok /\ jwt_parse (auth_secret a) now tok = Ok c /\
    ctx' = SetPrincipal ctx (principal_of_claims c).

Lemma wp_any {W A} (m : M W A) w : wp m w (fun _ _ => True) (fun _ => True).
Proof. unfold wp. by destruct (m w) as [? []]. Qed.

Lemma Authenticate_claims a tok w w' p :
  Authenticate a tok w = (w', Done (Ok p)) ->
  exists c now, jwt_parse (auth_secret a) now tok = Ok c /\ p = principal_of_claims c.
Proof.
  intros Hrun. eapply run_wp; [exact Hrun |]. unfold Authenticate. apply wp_bind, wp_time_Now.
  destruct (jwt_parse _ _ _) as [c|] eqn:Hj; [| apply wp_ret; intros [=]].
  apply wp_bind. eapply wp_conseq; [apply wp_any | | done].
  intros [] w1 _; apply wp_ret; [intros [=] |]. intros [= <-] _. eauto.
Qed.

Lemma keeps_chain deps a method (h : Handler) ctx req :
  deps_Authenticator deps = Some a ->
  (forall l, deps_RateLimiter deps = Some l -> forall k p, keeps G (l k p)) ->
  (forall ctx', presented a ctx method ctx' ->
     keeps G (PermissionInterceptor (deps_Authorizer deps) buildGRPCMethodPermissions method h ctx' req)) ->
  keeps G (chain deps method h ctx req).
Proof.
  intros Ha Hl Hp. unfold chain. set (inner := PreAuthRateLimitInterceptor _ _ _ _ _).
  assert (keeps G (inner ctx req)) as Hin.
  { apply keeps_limited; [done |].
    assert (keeps G (AuthenticationInterceptor (deps_Authenticator deps) buildGRPCPublicMethods method
      (PostAuthRateLimitInterceptor (deps_RateLimiter deps) (deps_KeyBuilder deps) (deps_RateLimitConfig deps) method
         (PermissionInterceptor (deps_Authorizer deps) buildGRPCMethodPermissions method h)) ctx req)) as HA.
    { unfold AuthenticationInterceptor. rewrite Ha. case_bool_decide as Hpub.
      - apply keeps_limited; [exact Hl |]. apply Hp. left. split; [exact Hpub | reflexivity].
      - destruct (extractBearerTokenFromMetadata ctx) as [tok|] eqn:Ht; [| apply keeps_ret].
        apply keeps_bind_run; [apply keeps_Authenticate |]. intros w [p|e] w' Hrun; [| apply keeps_ret].
        apply Authenticate_claims in Hrun as (c & now & Hj & ->).
        apply keeps_limited; [done |]. apply Hp. right. eauto 6. }
    apply keeps_validated, keeps_csrf, HA. }
  intros w. specialize (Hin w). unfold wp, RecoveryInterceptor in *. by destruct (inner ctx req w) as [w' [r|]].
Qed.

(** The permission check lets only administrators past, but for reading. *)
Lemma keeps_refused method perm (h : Handler) ctx req :
  buildGRPCMethodPermissions !! method = Some perm -> perm <> PermServerRead -> perm <> ""%string ->
  (forall p, ctx_principal ctx = Some p -> principal_RoleCode p <> RoleCodeAdmin) ->
  keeps G (PermissionInterceptor (Some NewAuthorizer) buildGRPCMethodPermissions method h ctx req).
Proof.
  intros Hm Hr He Hp. unfold PermissionInterceptor, GetPrincipal. rewrite Hm.
  destruct (ctx_principal ctx) as [p|] eqn:Hc; [| apply keeps_ret]. specialize (Hp p eq_refl).
  destruct (HasPermission NewAuthorizer (Some p) perm) eqn:Hperm; [| apply keeps_ret].
  apply HasPermission_cases in Hperm as [?|[?|[_ ?]]]; contradiction.
Qed.

Lemma route_guarded a method h :
  route a method = Some h -> method ∉ harmless ->
  exists perm, buildGRPCMethodPermissions !! method = Some perm /\ perm <> PermServerRead /\ perm <> ""%string /\
    method ∉ buildGRPCPublicMethods.
Proof.
  unfold route. intros Hr Hm. destruct (List.find _ (routes a)) as [[k h']|] eqn:Hf; [| done].
  apply List.find_some in Hf as [Hin Hk%String.eqb_eq]. cbn in Hk. subst k.
  apply (List.in_map fst) in Hin. cbn [map routes fst] in Hin. unfold harmless in Hm.
  repeat destruct Hin as [<-|Hin]; try done;
    try (exfalso; apply Hm; rewrite !elem_of_cons; by eauto 8);
    (eexists; split; [vm_compute; reflexivity |]; split; [done |]; split; [done |];
     apply (bool_decide_unpack (_ ∉ buildGRPCPublicMethods)); vm_compute; exact I).
Qed.

(** The service as [New] builds it: authentication against the configured
    secret, the role table, and a limiter on the Redis client. *)
Definition assembled (a : App) : Prop :=
  deps_Authenticator (app_Deps a) = Some (mkAuthenticator (cfg_JWTSecret (app_Config a)) (app_RedisClient a)) /\
  deps_Authorizer (app_Deps a) = Some NewAuthorizer /\
  (forall l, deps_RateLimiter (app_Deps a) = Some l -> l = RedisLimiter_Allow (app_RedisClient a)).

Lemma New_assembled connect uptime wire template salts env w w' a :
  New connect uptime wire template salts env w = (w', Done (Ok a)) -> assembled a.
Proof.
  intros Hrun. unfold New in Hrun. destruct (Load env) as [cfg|]; [| done].
  destruct (connect _); [| done]. apply bind_Done in Hrun as (w1 & [] & _ & Hrun).
  unfold rate_limiter, NewRedisLimiter in Hrun. cbn zeta in Hrun.
  set (client := as_interface _) in *. set (rl := or_nil (LoadRateLimitConfig env)) in *.
  destruct rl as [rl|]; [destruct (rl_Enabled rl); [destruct (iface_is_nil client) |] |];
    cbn in Hrun; injection Hrun as _ <-; (split; [done |]; split; [done |]); by intros l [= <-].
Qed.

End Guarded.

Section Theorems.
Context `{E : Env} {L : EnvLaws E} {RS : RateStore RedisServer} `{PV : Protovalidate} `{X : Excelize}.

(** The call [ctx] makes carries a token of the app's secret for the role ADMIN. *)
Definition admin_token (a : App) (ctx : Ctx) : Prop :=
  exists tok c now, extractBearerTokenFromMetadata ctx = Ok tok /\
    jwt_parse (cfg_JWTSecret (app_Config a)) now tok = Ok c /\ claims_RoleCode c = RoleCodeAdmin.

Lemma serve_keeps a method ctx req :
  assembled a -> ctx_principal ctx = None -> keeps (admin_token a ctx) (serve a method ctx req).
Proof.
  intros (Ha & Hz & Hl) Hnone.
  unfold serve. destruct (route a method) as [h|] eqn:Hr; [| apply keeps_ret].
  eapply keeps_chain; [exact Ha | by intros l ->%Hl k p; apply keeps_Allow |]. intros ctx' Hctx.
  destruct (decide (method ∈ harmless)) as [Hm|Hm].
  { unfold PermissionInterceptor. rewrite Hz.
    destruct (_ !! method); [destruct (GetPrincipal ctx'); [destruct (negb _) |] |];
      first [apply keeps_ret | by eapply harmless_keeps]. }
  destruct (route_guarded a method h Hr Hm) as (perm & Hp & Hread & Hne & Hpub).
  destruct Hctx as [[Hin _]|(tok & c & now & Htok & Hj & ->)]; [contradiction |].
  destruct (decide (claims_RoleCode c = RoleCodeAdmin)) as [Hadm|Hadm].
  { apply keeps_given. unfold admin_token. eauto 6. }
  rewrite Hz. eapply keeps_refused; [exact Hp | done | done |]. by intros p [= <-].
Qed.

(** C6: Only administrators change servers: whatever call of whatever method the
    running service receives, if the table of servers is not the same after
    it, the call carried a token that the configured secret verifies and
    that was issued for the role ADMIN. *)
Theorem only_admins_change_servers connect uptime wire template salts env w0 w1 a method ctx req w w' r :
  New connect uptime wire template salts env w0 = (w1, Done (Ok a)) ->
  ctx_principal ctx = None ->
  serve a method ctx req w = (w', r) -> rows (w_servers w') <> rows (w_servers w) ->
  exists tok c now, extractBearerTokenFromMetadata ctx = Ok tok /\
    jwt_parse (cfg_JWTSecret (app_Config a)) now tok = Ok c /\ claims_RoleCode c = RoleCodeAdmin.
Proof.
  intros Ha%New_assembled Hnone Hrun Hchg. pose proof (serve_keeps a method ctx req Ha Hnone w) as Hk.
  unfold wp in Hk. rewrite Hrun in Hk. by destruct r, Hk.
Qed.

(** What [New] passes on when Redis and the limits are left at their defaults. *)
Lemma New_redis_off connect uptime wire template salts env w w' a :
  New connect uptime wire template salts env w = (w', Done (Ok a)) ->
  env "REDIS_ENABLED"%string = ""%string -> env "RATE_LIMIT_ENABLED"%string = ""%string ->
  deps_Authenticator (app_Deps a) = Some (mkAuthenticator (cfg_JWTSecret (app_Config a)) TypedNilClient) /\
  deps_RateLimiter (app_Deps a) = None.
Proof.
  intros Hrun Hr Hl. unfold New in Hrun. destruct (Load env) as [cfg|]; [| done].
  destruct (connect _); [| done]. apply bind_Done in Hrun as (w1 & [] & _ & Hrun).
  assert (as_interface (NewRedisClient (or_nil (LoadRedisConfig env))) = TypedNilClient) as Hc.
  { destruct (LoadRedisConfig env) as [rc|] eqn:Hrc; [| done]. cbn. by rewrite (redis_off env rc Hrc Hr). }
  rewrite Hc in Hrun. assert (forall c, (rate_limiter (or_nil (LoadRateLimitConfig env)) c).1 = None) as Hrl.
  { intros c. destruct (LoadRateLimitConfig env) as [lc|] eqn:Hlc; [| done]. cbn.
    by rewrite (limits_off env lc Hlc Hl). }
  specialize (Hrl TypedNilClient). destruct (rate_limiter _ TypedNilClient) as [l kb]. cbn in Hrl. subst l.
  injection Hrun as _ <-. done.
Qed.

(** Validation and CSRF check either answer, or leave the call to the handler. *)
Lemma checked_first method ctx req w :
  exists e, forall h : Handler,
    ValidationInterceptor method (CSRFInterceptor method h) ctx req w = (w, Done (Err e)) \/
    ValidationInterceptor method (CSRFInterceptor method h) ctx req w = h ctx req w.
Proof.
  assert (exists e, forall h : Handler, CSRFInterceptor method h ctx req w = (w, Done (Err e)) \/
            CSRFInterceptor method h ctx req w = h ctx req w) as [e Hc].
  { unfold CSRFInterceptor. destruct (negb _); [exists (Fresh ""); by right |].
    destruct (ctx_metadata ctx); [| exists (Fresh ""); by right].
    destruct (_ && _)%bool; [exists (Fresh ""); by right |].
    destruct (ValidateCSRFToken _ _); [exists (Fresh ""); by right | by eexists; left]. }
  unfold ValidationInterceptor.
  destruct req; lazymatch goal with
                | |- context [Validate ?r] => destruct (Validate r); [exists e; exact Hc | eexists; by left]
                | _ => eexists; by left
                end.
Qed.

(** Without Redis, which is the default, the service starts and refuses every
    call that carries a token of a session: the check for its revocation
    panics on the nil client, and the caller gets an error whatever the
    method. *)
Theorem redis_off_refuses_sessions connect uptime wire template salts env w0 w1 a method ctx req w tok c :
  New connect uptime wire template salts env w0 = (w1, Done (Ok a)) ->
  env "REDIS_ENABLED"%string = ""%string -> env "RATE_LIMIT_ENABLED"%string = ""%string ->
  method ∉ buildGRPCPublicMethods ->
  extractBearerTokenFromMetadata ctx = Ok tok ->
  jwt_parse (cfg_JWTSecret (app_Config a)) (w_clock w (w_ticks w)) tok = Ok c -> claims_SessionID c <> ""%string ->
  exists w' e, serve a method ctx req w = (w', Done (Err e)) /\ w_servers w' = w_servers w.
Proof.
  intros Hnew Hr Hl Hpub Htok Hj Hs. destruct (New_redis_off _ _ _ _ _ _ _ _ _ Hnew Hr Hl) as [Ha Hlim].
  unfold serve. destruct (route a method) as [h|]; [| by do 2 eexists].
  pose proof (typed_nil_panics _ _ _ _ Hj Hs) as Hp.
  pose proof (Authenticate_tables (mkAuthenticator (cfg_JWTSecret (app_Config a)) TypedNilClient) tok w) as Ht.
  destruct (Authenticate _ tok w) as [w2 o] eqn:Hauth. cbn in Hp, Ht. subst o.
  assert (forall h', AuthenticationInterceptor (deps_Authenticator (app_Deps a)) buildGRPCPublicMethods method h' ctx req w
            = (w2, Panicked)) as HA.
  { intros h'. unfold AuthenticationInterceptor, bind. by rewrite Ha, bool_decide_eq_false_2, Htok, Hauth by done. }
  unfold chain, RecoveryInterceptor, PreAuthRateLimitInterceptor, rateLimitInterceptor. rewrite Hlim.
  assert (exists e, forall h', (ValidationInterceptor method (CSRFInterceptor method
     (AuthenticationInterceptor (deps_Authenticator (app_Deps a)) buildGRPCPublicMethods method h')) ctx req w)
     = (w, Done (Err e)) \/ ValidationInterceptor method (CSRFInterceptor method
     (AuthenticationInterceptor (deps_Authenticator (app_Deps a)) buildGRPCPublicMethods method h')) ctx req w
     = (w2, Panicked)) as [e He].
  { destruct (checked_first method ctx req w) as (e & Hc). exists e. intros h'. destruct (Hc (AuthenticationInterceptor
      (deps_Authenticator (app_Deps a)) buildGRPCPublicMethods method h')) as [Hx|Hx]; [by left |].
    right. rewrite Hx. apply HA. }
  destruct (deps_RateLimitConfig (app_Deps a)) as [cfg|];
    (match goal with |- context [AuthenticationInterceptor _ _ _ ?h'] => destruct (He h') as [Hx|Hx] end;
     rewrite Hx; by do 2 eexists).
Qed.
End Theorems.

(** ** Concrete runs *)
Section AppRuns.
#[local] Existing Instance mem_env.
#[local] Existing Instance mem_laws.
#[local] Existing Instance spent_store.
#[local] Existing Instance accept_all.
#[local] Existing Instance mem_excelize.

Definition set_of (l : list (string * string)) : Environ := fun k =>
  match List.find (fun kv => String.eqb kv.1 k) l with Some (_, v) => v | None => ""%string end.
Definition demo_env : Environ := set_of [("JWT_SECRET", "key"); ("REDIS_ENABLED", "true")]%string.

Definition start (env : Environ) : M World (result App) :=
  New (fun _ => Ok tt) (fun _ _ => ret (Ok (float64_of_int 99))) (fun _ => agreeable)
    (Ok (fun d => Ok (td_StartDate d))) (1%N, 2%N) env.
Definition no_config : Config :=
  mkConfig "" "" "" "" 0 0 "" "" "" "" "" "" "" (mkLoggerConfig "" "" 0 0 0 false)
    (mkSMTPConfig "" "" false false "" "" "" "") (mkReportingConfig 0 0).
Definition no_app : App :=
  mkApp no_config NilInterface (mkServerService None) (mkAuthService NilInterface "") (cfg_SMTP no_config)
    (NewReportingWorker (fun _ _ => ret (Ok (float64_of_int 0))) 0 0 None (Err (Fresh "")))
    (mkDeps None None None (mkKeyBuilder "") None).
Definition started (env : Environ) : App :=
  match (start env plain_world).2 with Done (Ok a) => a | _ => no_app end.

Definition token_for (role : RoleCode) : string :=
  match jwt_sign "key" (mkClaims "2" "8" "" "" "" role 63000000000 0) with Ok t => t | Err _ => "" end.
Definition call_ctx (role : RoleCode) : Ctx :=
  mkCtx (Some [("authorization"%string, "Bearer " +:+ token_for role)]) None None.

Definition create : Request := CreateServerRequest "web-9" "10.0.0.9".
Definition created_by (role : RoleCode) : World * exec (result Response) :=
  serve (started demo_env) SM_CreateServer (call_ctx role) create plain_world.

(** A user's call is refused, an administrator's stores the server. *)
Example roles_at_work :
  length (rows (w_servers (created_by RoleCodeUser).1)) = length (rows (w_servers plain_world)) /\
  length (rows (w_servers (created_by RoleCodeAdmin).1)) = S (length (rows (w_servers plain_world))).
Proof. vm_compute. done. Qed.

Lemma only_admins_change_servers_witness :
  exists tok c now, extractBearerTokenFromMetadata (call_ctx RoleCodeAdmin) = Ok tok /\
    jwt_parse "key" now tok = Ok c /\ claims_RoleCode c = RoleCodeAdmin.
Proof.
  apply (only_admins_change_servers (fun _ => Ok tt) (fun _ _ => ret (Ok (float64_of_int 99))) (fun _ => agreeable)
    (Ok (fun d => Ok (td_StartDate d))) (1%N, 2%N) demo_env plain_world (start demo_env plain_world).1
    (started demo_env) SM_CreateServer (call_ctx RoleCodeAdmin) create plain_world
    (created_by RoleCodeAdmin).1 (created_by RoleCodeAdmin).2).
  - apply (run_outcome (start demo_env)). reflexivity.
  - reflexivity.
  - unfold created_by. by destruct (serve _ _ _ _ _).
  - intros H. apply (f_equal length) in H. vm_compute in H. discriminate H.
Defined.

Definition bare_env : Environ := set_of [("JWT_SECRET", "key")]%string.

Lemma redis_off_refuses_sessions_witness :
  exists w' e, serve (started bare_env) SM_ViewServers (call_ctx RoleCodeAdmin)
    (ViewServersRequest (mkViewRequest 1 10 "" "" "" "" "" "")) plain_world = (w', Done (Err e)).
Proof.
  destruct (redis_off_refuses_sessions (fun _ => Ok tt) (fun _ _ => ret (Ok (float64_of_int 99))) (fun _ => agreeable)
    (Ok (fun d => Ok (td_StartDate d))) (1%N, 2%N) bare_env plain_world (start bare_env plain_world).1
    (started bare_env) SM_ViewServers (call_ctx RoleCodeAdmin) (ViewServersRequest (mkViewRequest 1 10 "" "" "" "" "" ""))
    plain_world (token_for RoleCodeAdmin) (mkClaims "2" "8" "" "" "" RoleCodeAdmin 63000000000 0)) as (w' & e & H & _).
  - apply (run_outcome (start bare_env)). reflexivity.
  - reflexivity.
  - reflexivity.
  - apply (bool_decide_unpack (SM_ViewServers ∉ buildGRPCPublicMethods)). vm_compute. exact I.
  - vm_compute. reflexivity.
  - vm_compute. reflexivity.
  - discriminate.
  - exists w', e. exact H.
Defined.
End AppRuns.
