(* ===== verification/Gateway.v ===== *)
(** * Gateway: the HTTP side of the service

    [setupHTTPRoutes] of [app/http_routes.go] on Go's [http.ServeMux], and the
    reverse proxy of grpc-gateway behind its last route: the handlers that
    [gen/go/*/v1/*.pb.gw.go] registers turn an HTTP request into the message of
    a call and make the call on the gRPC server ([App.serve]).  The runtime of
    grpc-gateway is a parameter ([GatewayRuntime]): matching a path against a
    template, the metadata made of the headers, and the decoding of JSON and of
    query parameters.

    A call of RequestReport may block on the job queue; the front hands it over
    ([OutReport]) and [Reporting.rpc_RequestReport] is its handler. *)

From stdpp Require Import base list strings gmap numbers.
From Stdlib Require Import ZArith Lia Ascii.
From S2P Require Import Prelude GoStrings GoTime GoFloat Domain Env MemEnv Security Identity Seed Rpc.
From S2P Require Import AuthServer Servers ImportExport ServerHandlers RateLimit Config Middleware Reporting Notification App.
Open Scope Z_scope.

(** ** Requests *)

(** The path is that of [URL.EscapedPath], cut at the slashes after the first. *)
Record WebRequest := mkWebRequest {
  web_method : string;
  web_segments : list string;
  web_headers : list (string * string);          (* canonical names *)
  web_access_cookie : option string;
  web_body : result string;
  web_query : list (string * string);
  web_query_error : option error;                (* of ParseForm *)
  web_form : list (string * string);             (* what ParseForm reads from the body of a form *)
}.

Definition Header_Get (headers : list (string * string)) (key : string) : string :=
  match List.find (fun kv => String.eqb kv.1 key) headers with Some (_, v) => v | None => "" end.

(** What the REST handlers see of it. *)
Definition rest_request (r : WebRequest) : HttpRequest :=
  mkHttpRequest (web_method r) (Header_Get (web_headers r) "Authorization") (web_access_cookie r)
    (Header_Get (web_headers r) "Content-Type") (web_body r) (web_query r).

Definition unhex (c : ascii) : option Z :=
  let b := byte_val c in
  if (48 <=? b) && (b <=? 57) then Some (b - 48)
  else if (65 <=? b) && (b <=? 70) then Some (b - 55)
  else if (97 <=? b) && (b <=? 102) then Some (b - 87) else None.

Fixpoint path_unescape (s : string) : option string :=
  match s with
  | EmptyString => Some EmptyString
  | String c s1 =>
      if Ascii.eqb c "%" then
        match s1 with
        | String h (String l s2) =>
            a ← unhex h; b ← unhex l; t ← path_unescape s2;
            Some (String (ascii_of_nat (Z.to_nat (16 * a + b))) t)
        | _ => None
        end
      else t ← path_unescape s1; Some (String c t)
  end.
Definition PathUnescape (s : string) : string := default s (path_unescape s).

(** [URL.Path] *)
Definition url_path (r : WebRequest) : string := "/" +:+ String.concat "/" (map PathUnescape (web_segments r)).

(** ** [setupHTTPRoutes] on [http.ServeMux]

    The mux matches segment by segment, each unescaped; it redirects a path
    that [path.Clean] would change, and the bare name of a subtree. *)
Fixpoint clean_path (segments : list string) : bool :=
  match segments with
  | [] => true
  | [s] => negb (String.eqb s "." || String.eqb s "..")
  | s :: rest => negb (String.eqb s "" || String.eqb s "." || String.eqb s "..") && clean_path rest
  end.

Inductive MuxTarget := ToHealth | ToOpenAPI | ToDocs | ToImport | ToExport | ToGateway | ToRedirect.

Definition setupHTTPRoutes (r : WebRequest) : MuxTarget :=
  if negb (String.eqb (web_method r) "CONNECT") && negb (clean_path (web_segments r)) then ToRedirect
  else
    let segments := map PathUnescape (web_segments r) in
    if decide (segments = ["health"]%string) then ToHealth
    else if decide (segments = ["docs"]%string) then ToDocs
    else if decide (segments = ["openapi"]%string) then ToRedirect
    else if decide (head segments = Some "openapi"%string) then ToOpenAPI
    else if decide (segments = ["api"; "v1"; "servers"; "import"]%string) then ToImport
    else if decide (segments = ["api"; "v1"; "servers"; "export"]%string) then ToExport
    else ToGateway.

(** ** grpc-gateway *)
Inductive Seg := Lit (s : string) | Var (name : string).
#[export] Instance Seg_eq_dec : EqDecision Seg.
Proof. solve_decision. Defined.
Definition Template : Type := list Seg.
Abbreviation Params := (gmap string string).

Definition io_EOF : error := Sentinel "io.EOF" "EOF".

(** What a segment of a template makes of a component of a path. *)
Definition seg_fits (g : Seg) (c : string) (ps : Params) : Prop :=
  match g with Lit s => c = s | Var x => ps !! x = Some c end.

Class GatewayRuntime `{HM : HeaderMatcher} := {
  (** [runtime.ServeMux]: a literal matches itself, a variable one component. *)
  pattern_Match : Template -> string -> option Params;
  (** [AnnotateContext], and the metadata the server then receives. *)
  AnnotateContext : list (string * string) -> result (list (string * string));
  runtime_String : string -> result string;
  (** [marshaler.NewDecoder(body).Decode(&m)]: the fields, and an error. *)
  decode_Login : result string -> (string * string) * option error;
  decode_Refresh : result string -> string * option error;
  decode_Empty : result string -> () * option error;
  decode_CreateServer : result string -> (string * string) * option error;
  decode_UpdateServer : result string -> (string * string * string) * option error;
  decode_ImportServers : result string -> (string * string) * option error;
  decode_RequestReport : result string -> (string * string * string) * option error;
  (** [strings.ToUpper] of a method that overrides another *)
  method_upper : string -> string;
  (** [PopulateQueryParameters] *)
  populate_View : list (string * string) -> result ViewRequest;
}.

Class GatewayLaws `{GR : GatewayRuntime} := {
  pattern_Match_spec : forall t path ps, pattern_Match t path = Some ps ->
    exists comps, path = "/" +:+ String.concat "/" comps /\ Forall (fun c => lacks "/" c) comps /\
                  Forall2 (fun g c => seg_fits g c ps) t comps;
  (** An authorization of the call is the value of a header of the request. *)
  annotate_authorization : forall headers md v, AnnotateContext headers = Ok md -> ("authorization"%string, v) ∈ md ->
    exists h, (h, v) ∈ headers /\ (h = "Authorization"%string \/ CustomIncomingMatcher h = Some "authorization"%string);
  runtime_String_spec : forall v, runtime_String v = Ok v;
}.

Section Proxy.
Context `{E : Env} {RS : RateStore RedisServer} `{PV : Protovalidate} `{X : Excelize} `{MP : Multipart}.
Context `{GR : GatewayRuntime}.

(** [if err := ...Decode(&protoReq); err != nil && !errors.Is(err, io.EOF)] *)
Definition decoded {A} (d : A * option error) : result A :=
  match d.2 with
  | Some err => if errors_Is err io_EOF then Ok d.1 else Err (Status InvalidArgument (error_string err))
  | None => Ok d.1
  end.

Definition path_param (ps : Params) (name : string) : result string :=
  match ps !! name with
  | None => Err (Status InvalidArgument ("missing parameter " +:+ name))
  | Some val =>
      match runtime_String val with
      | Ok v => Ok v
      | Err err => Err (Status InvalidArgument ("type mismatch, parameter: " +:+ name +:+ ", error: " +:+ error_string err))
      end
  end.

(** [req.ParseForm] and [PopulateQueryParameters]: the values of the body of a
    form come before those of the query. *)
Definition query_message (r : WebRequest) : result ViewRequest :=
  match web_query_error r with
  | Some err => Err (Status InvalidArgument (error_string err))
  | None =>
      match populate_View (web_form r ++ web_query r) with
      | Ok v => Ok v
      | Err err => Err (Status InvalidArgument (error_string err))
      end
  end.

#[local] Notation "'try' x <- m ; k" := (match m with Ok x => k | Err e => Err e end)
  (at level 60, x pattern, right associativity, only parsing).

Definition request_CreateServer_0 (r : WebRequest) (ps : Params) : result Request :=
  try (name, ip) <- decoded (decode_CreateServer (web_body r));
  Ok (CreateServerRequest name ip).
Definition request_UpdateServer_0 (r : WebRequest) (ps : Params) : result Request :=
  try (_, name, ip) <- decoded (decode_UpdateServer (web_body r));
  try id <- path_param ps "server_id";
  Ok (UpdateServerRequest id name ip).
Definition request_DeleteServer_0 (r : WebRequest) (ps : Params) : result Request :=
  try id <- path_param ps "server_id";
  Ok (DeleteServerRequest id).
Definition request_ViewServers_0 (r : WebRequest) (ps : Params) : result Request :=
  try v <- query_message r;
  Ok (ViewServersRequest v).
Definition request_ImportServers_0 (r : WebRequest) (ps : Params) : result Request :=
  try (content, filename) <- decoded (decode_ImportServers (web_body r));
  Ok (ImportServersRequest content filename).
Definition request_ExportServers_0 (r : WebRequest) (ps : Params) : result Request :=
  try v <- query_message r;
  Ok (ExportServersRequest v).
Definition request_Login_0 (r : WebRequest) (ps : Params) : result Request :=
  try (identifier, password) <- decoded (decode_Login (web_body r));
  Ok (LoginRequest identifier password).
Definition request_RefreshToken_0 (r : WebRequest) (ps : Params) : result Request :=
  try token <- decoded (decode_Refresh (web_body r));
  Ok (RefreshRequest token).
Definition request_Logout_0 (r : WebRequest) (ps : Params) : result Request :=
  try _ <- decoded (decode_Empty (web_body r));
  Ok LogoutRequest.
Definition request_LogoutAll_0 (r : WebRequest) (ps : Params) : result Request :=
  try _ <- decoded (decode_Empty (web_body r));
  Ok LogoutAllRequest.
Definition request_RequestReport_0 (r : WebRequest) (ps : Params) : result Request :=
  try (start_date, end_date, email) <- decoded (decode_RequestReport (web_body r));
  Ok (RequestReportRequest start_date end_date email).

(** *** The registered handlers *)
Record GwEntry := mkGwEntry {
  gw_method : string;
  gw_template : Template;
  gw_rpc : string;
  gw_request : WebRequest -> Params -> result Request;
}.

Definition servers_path : Template := [Lit "api"; Lit "v1"; Lit "servers"].
Definition auth_path : Template := [Lit "api"; Lit "v1"; Lit "auth"].

Definition RegisterServerManagementServiceHandlerClient : list GwEntry :=
  [ mkGwEntry "POST" servers_path SM_CreateServer request_CreateServer_0;
    mkGwEntry "PUT" (servers_path ++ [Var "server_id"]) SM_UpdateServer request_UpdateServer_0;
    mkGwEntry "DELETE" (servers_path ++ [Var "server_id"]) SM_DeleteServer request_DeleteServer_0;
    mkGwEntry "GET" servers_path SM_ViewServers request_ViewServers_0;
    mkGwEntry "POST" (servers_path ++ [Lit "import"]) SM_ImportServers request_ImportServers_0;
    mkGwEntry "GET" (servers_path ++ [Lit "export"]) SM_ExportServers request_ExportServers_0 ].
Definition RegisterReportingServiceHandlerClient : list GwEntry :=
  [ mkGwEntry "POST" (servers_path ++ [Lit "report"]) ReportingService_RequestReport request_RequestReport_0 ].
Definition RegisterAuthServiceHandlerClient : list GwEntry :=
  [ mkGwEntry "POST" (auth_path ++ [Lit "login"]) AuthService_Login request_Login_0;
    mkGwEntry "POST" (auth_path ++ [Lit "refresh"]) AuthService_RefreshToken request_RefreshToken_0;
    mkGwEntry "POST" (auth_path ++ [Lit "logout"]) AuthService_Logout request_Logout_0;
    mkGwEntry "POST" (auth_path ++ [Lit "logout-all"]) AuthService_LogoutAll request_LogoutAll_0 ].

Definition setupGRPCGateway : list GwEntry :=
  RegisterServerManagementServiceHandlerClient ++ RegisterReportingServiceHandlerClient
  ++ RegisterAuthServiceHandlerClient.

(** A handler of the method whose template matches, with the parameters. *)
Definition gw_matches (r : WebRequest) (e : GwEntry) : option Params :=
  if String.eqb (gw_method e) (web_method r) then pattern_Match (gw_template e) (url_path r) else None.
Fixpoint gw_find (r : WebRequest) (table : list GwEntry) : option (GwEntry * Params) :=
  match table with
  | [] => None
  | e :: rest => match gw_matches r e with Some ps => Some (e, ps) | None => gw_find r rest end
  end.

(** *** Path length fallback

    A form that is posted may stand for a request of another method, which the
    header [X-HTTP-Method-Override] names; without a handler for POST it may
    stand for a GET.  Reading the form consumes the body. *)
Definition isPathLengthFallback (r : WebRequest) : bool :=
  String.eqb (web_method r) "POST"
  && String.eqb (Header_Get (web_headers r) "Content-Type") "application/x-www-form-urlencoded".

Definition with_method (m : string) (r : WebRequest) : WebRequest :=
  mkWebRequest m (web_segments r) (web_headers r) (web_access_cookie r) (web_body r) (web_query r)
    (web_query_error r) (web_form r).
Definition form_read (r : WebRequest) : WebRequest :=
  mkWebRequest (web_method r) (web_segments r) (web_headers r) (web_access_cookie r) (Ok "") (web_query r)
    (web_query_error r) (web_form r).

(** The first handler of another method that matches, in the order in which Go
    ranges over the map of the methods. *)
Fixpoint gw_other (r : WebRequest) (table : list GwEntry) (order : list string) : option (GwEntry * Params) :=
  match order with
  | [] => None
  | m :: rest =>
      if String.eqb m (web_method r) then gw_other r table rest
      else match gw_find (with_method m r) table with
           | Some x => Some x
           | None => gw_other r table rest
           end
  end.

Inductive Outcome :=
| OutPage (t : MuxTarget)                     (* health, documentation, redirect *)
| OutNoRoute
| OutNotAllowed                               (* 405 *)
| OutRest (resp : HttpResponse)
| OutError (e : error)                        (* runtime.HTTPError *)
| OutCall (resp : result Response)
| OutReport (ctx : Ctx) (req : Request).

(** The closure registered for an entry: annotate, decode, call. *)
Definition gw_handle (a : App) (peer : option string) (e : GwEntry) (r : WebRequest) (ps : Params) : M World Outcome :=
  match AnnotateContext (web_headers r) with
  | Err err => ret (OutError err)
  | Ok md =>
      match gw_request e r ps with
      | Err err => ret (OutError err)
      | Ok req =>
          let ctx := mkCtx (Some md) peer None in
          if String.eqb (gw_rpc e) ReportingService_RequestReport then ret (OutReport ctx req)
          else resp <-- serve a (gw_rpc e) ctx req ;; ret (OutCall resp)
      end
  end.

(** [gateway.CookieMiddleware(gwmux)] *)
Definition with_cookie (r : WebRequest) : WebRequest :=
  mkWebRequest (web_method r) (web_segments r) (CookieMiddleware (web_headers r) (web_access_cookie r))
    (web_access_cookie r) (web_body r) (web_query r) (web_query_error r) (web_form r).

(** [runtime.ServeMux.ServeHTTP] *)
Definition form_error (r : WebRequest) : option error :=
  (fun err => Status InvalidArgument (error_string err)) <$> web_query_error r.

Definition gw_route (a : App) (peer : option string) (order : list string) (r : WebRequest) : M World Outcome :=
  match gw_find r setupGRPCGateway with
  | Some (e, ps) => gw_handle a peer e r ps
  | None =>
      match gw_other r setupGRPCGateway order with
      | None => ret OutNoRoute
      | Some (e, ps) =>
          if isPathLengthFallback r && String.eqb (gw_method e) "GET" then
            match form_error r with
            | Some err => ret (OutError err)
            | None => gw_handle a peer e (form_read r) ps
            end
          else ret OutNotAllowed
      end
  end.

Definition gw_serve (a : App) (peer : option string) (order : list string) (r : WebRequest) : M World Outcome :=
  let override := Header_Get (web_headers r) "X-Http-Method-Override" in
  if negb (String.eqb override "") && isPathLengthFallback r then
    match form_error r with
    | Some err => ret (OutError err)
    | None => gw_route a peer order (with_method (method_upper override) (form_read r))
    end
  else gw_route a peer order r.

(** A REST route on the app's authenticator, which [New] always sets. *)
Definition rest_route (a : App) (route : Authenticator -> serverService -> HttpHandler) (r : WebRequest) : M World Outcome :=
  match deps_Authenticator (app_Deps a) with
  | None => panic
  | Some auth => resp <-- route auth (app_ServerSvc a) None (rest_request r) ;; ret (OutRest resp)
  end.

(** [order]: how this request ranges over the methods of the gateway. *)
Definition http_serve (a : App) (peer : option string) (order : list string) (r : WebRequest) : M World Outcome :=
  match setupHTTPRoutes r with
  | ToImport => rest_route a import_route r
  | ToExport => rest_route a export_route r
  | ToGateway => gw_serve a peer order (with_cookie r)
  | t => ret (OutPage t)
  end.
End Proxy.

(** ** Properties *)

(** *** Routes *)

(** Two templates that some path could match both. *)
Fixpoint overlap (t1 t2 : Template) : bool :=
  match t1, t2 with
  | [], [] => true
  | g1 :: t1, g2 :: t2 =>
      match g1, g2 with Lit a, Lit b => String.eqb a b | _, _ => true end && overlap t1 t2
  | _, _ => false
  end.

Lemma fits_overlap t1 t2 ps1 ps2 comps :
  Forall2 (fun g c => seg_fits g c ps1) t1 comps -> Forall2 (fun g c => seg_fits g c ps2) t2 comps ->
  overlap t1 t2 = true.
Proof.
  intros H1. revert t2. induction H1 as [|g1 c t1 comps Hg1 _ IH]; intros t2 H2; inversion H2 as [|g2 ? t2' ? Hg2 H2']; subst.
  - done.
  - cbn. rewrite (IH _ H2'), andb_true_r. destruct g1, g2; cbn in *; try done. subst. apply String.eqb_refl.
Qed.

(** The components of a path are determined by it. *)
Lemma components_inj c1 c2 :
  Forall (fun c => lacks "/" c) c1 -> Forall (fun c => lacks "/" c) c2 -> c1 <> [] -> c2 <> [] ->
  ("/" +:+ String.concat "/" c1 = "/" +:+ String.concat "/" c2)%string -> c1 = c2.
Proof.
  intros H1 H2 N1 N2 He. injection He as He. change (String.concat "/" c1 = String.concat "/" c2) in He. rewrite <- (Split_concat "/" c1), <- (Split_concat "/" c2) by done.
  by rewrite He.
Qed.

Section Routes.
Context `{E : Env} {RS : RateStore RedisServer} `{PV : Protovalidate} `{X : Excelize}.
Context `{GR : GatewayRuntime} {GL : GatewayLaws}.

Definition clash (e1 e2 : GwEntry) : bool :=
  String.eqb (gw_method e1) (gw_method e2) && overlap (gw_template e1) (gw_template e2).

Lemma matched r e ps : gw_matches r e = Some ps -> web_method r = gw_method e /\ pattern_Match (gw_template e) (url_path r) = Some ps.
Proof. unfold gw_matches. by destruct (String.eqb_spec (gw_method e) (web_method r)). Qed.

Lemma both_match_clash r e1 e2 ps1 ps2 :
  gw_template e1 <> [] -> gw_template e2 <> [] ->
  gw_matches r e1 = Some ps1 -> gw_matches r e2 = Some ps2 -> clash e1 e2 = true.
Proof.
  intros N1 N2 [M1 P1]%matched [M2 P2]%matched. unfold clash. rewrite <- M1, <- M2, String.eqb_refl. cbn [andb].
  apply pattern_Match_spec in P1 as (c1 & E1 & L1 & F1), P2 as (c2 & E2 & L2 & F2).
  assert (c1 = c2) as ->.
  { apply components_inj; [done | done | | | congruence]; intros ->; [inversion F1 | inversion F2]; congruence. }
  by eapply fits_overlap.
Qed.

Lemma templates_apart i j e1 e2 :
  setupGRPCGateway !! i = Some e1 -> setupGRPCGateway !! j = Some e2 -> clash e1 e2 = true -> i = j.
Proof.
  intros H1 H2 Hc.
  assert (forallb (fun p => implb (clash p.1.2 p.2.2) (p.1.1 =? p.2.1)%nat)
            (list_prod (imap pair setupGRPCGateway) (imap pair setupGRPCGateway)) = true) as Hall by reflexivity.
  assert (forall k e, setupGRPCGateway !! k = Some e -> In (k, e) (imap pair setupGRPCGateway)) as Hin.
  { intros k e H. apply list_elem_of_In, (list_elem_of_lookup_2 _ k). by rewrite list_lookup_imap, H. }
  rewrite forallb_forall in Hall. specialize (Hall _ (in_prod _ _ _ _ (Hin _ _ H1) (Hin _ _ H2))).
  cbn [fst snd] in Hall. rewrite Hc in Hall. by apply Nat.eqb_eq.
Qed.

(** Routing does not depend on the order of the registrations: no request
    matches two of the handlers of the gateway. *)
Theorem gateway_routes_unambiguous r i j e1 e2 :
  setupGRPCGateway !! i = Some e1 -> setupGRPCGateway !! j = Some e2 ->
  is_Some (gw_matches r e1) -> is_Some (gw_matches r e2) -> i = j.
Proof.
  intros H1 H2 [ps1 M1] [ps2 M2]. eapply templates_apart; [done | done |].
  assert (Forall (fun e => gw_template e <> []) setupGRPCGateway) as Hne by (repeat constructor; discriminate).
  eapply both_match_clash; [| | done | done]; by eapply (Forall_lookup_1 _ _ _ _ Hne).
Qed.
End Routes.

(** *** Who changes servers over HTTP *)
Section HttpGuards.
Context `{E : Env} {L : EnvLaws E} {RS : RateStore RedisServer} `{PV : Protovalidate} `{X : Excelize} `{MP : Multipart}.
Context `{GR : GatewayRuntime} {GL : GatewayLaws}.

(** The tokens a request offers: what the REST handlers read, and the bearer of
    any header, the access cookie counted as one. *)
Definition offers (r : WebRequest) (tok : string) : Prop :=
  tok = extractBearer (rest_request r) \/
  exists h v, (h, v) ∈ CookieMiddleware (web_headers r) (web_access_cookie r) /\
    extractBearerTokenFromMetadata (mkCtx (Some [("authorization"%string, v)]) None None) = Ok tok.

Definition offers_admin (a : App) (r : WebRequest) : Prop :=
  exists tok c now, offers r tok /\
    jwt_parse (cfg_JWTSecret (app_Config a)) now tok = Ok c /\ claims_RoleCode c = RoleCodeAdmin.

(** The bearer of a call is that of one of its authorizations. *)
Lemma bearer_single md peer p tok :
  extractBearerTokenFromMetadata (mkCtx (Some md) peer p) = Ok tok ->
  exists v, ("authorization"%string, v) ∈ md /\
    extractBearerTokenFromMetadata (mkCtx (Some [("authorization"%string, v)]) None None) = Ok tok.
Proof.
  unfold extractBearerTokenFromMetadata. cbn [ctx_metadata]. destruct (md_Get md "authorization") as [|v l] eqn:Hm; [done |].
  intros Ht. exists v. split; [| exact Ht]. unfold md_Get in Hm.
  destruct (List.filter _ md) as [|[k v'] l'] eqn:Hf; [done |]. injection Hm as -> _.
  assert (In (k, v) (List.filter (fun kv => String.eqb kv.1 "authorization") md)) as Hin by (rewrite Hf; by left).
  apply List.filter_In in Hin as [Hin Hk]. cbn in Hk. apply String.eqb_eq in Hk as ->. by apply list_elem_of_In.
Qed.

Lemma gw_handle_keeps a peer e r r' ps :
  assembled a -> web_headers r' = web_headers (with_cookie r) -> keeps (offers_admin a r) (gw_handle a peer e r' ps).
Proof.
  intros Ha Hh'. unfold gw_handle. rewrite Hh'. destruct (AnnotateContext _) as [md|] eqn:Hmd; [| apply keeps_ret].
  destruct (gw_request e _ ps); [| apply keeps_ret]. destruct (String.eqb _ _); [apply keeps_ret |].
  apply keeps_bind; [| intros ?; apply keeps_ret].
  intros w. eapply wp_conseq; [apply (serve_keeps a _ (mkCtx (Some md) peer None)); [exact Ha | reflexivity] | |];
    cbn; unfold same_servers; (intros ? ? [Hadm|?] || intros ? [Hadm|?]); auto; left;
    destruct Hadm as (tok & c & now & (v & Hv & Htok)%bearer_single & Hj & Hr);
    destruct (annotate_authorization _ _ _ Hmd Hv) as (h & Hh & _);
    exists tok, c, now; (split; [right; eauto | auto]).
Qed.

Lemma gw_route_keeps a peer order r r' :
  assembled a -> web_headers r' = web_headers (with_cookie r) -> keeps (offers_admin a r) (gw_route a peer order r').
Proof.
  intros Ha Hh. unfold gw_route. destruct (gw_find r' _) as [[e ps]|]; [by apply gw_handle_keeps |].
  destruct (gw_other _ _ _) as [[e ps]|]; [| apply keeps_ret]. destruct (_ && _)%bool; [| apply keeps_ret].
  destruct (form_error r'); [apply keeps_ret | by apply gw_handle_keeps].
Qed.

Lemma gw_serve_keeps a peer order r :
  assembled a -> keeps (offers_admin a r) (gw_serve a peer order (with_cookie r)).
Proof.
  intros Ha. unfold gw_serve. destruct (_ && _)%bool; [| by apply gw_route_keeps].
  destruct (form_error _); [apply keeps_ret | by apply gw_route_keeps].
Qed.

Lemma rest_route_keeps a r (next : serverService -> HttpHandler) perm :
  assembled a -> perm <> ""%string -> perm <> PermServerRead ->
  keeps (offers_admin a r)
    (rest_route a (fun auth svc => AuthMiddleware auth (PermissionMiddleware NewAuthorizer perm (next svc))) r).
Proof.
  intros (Ha & _ & _) Hne Hread. unfold rest_route. rewrite Ha. apply keeps_bind; [| intros ?; apply keeps_ret].
  unfold AuthMiddleware. destruct (String.eqb _ _); [apply keeps_ret |].
  apply keeps_bind_run; [apply keeps_Authenticate |]. intros w [p|e] w' Hrun; [| apply keeps_ret].
  unfold PermissionMiddleware. destruct (HasPermission _ _ _) eqn:Hp; [| apply keeps_ret]. cbn [negb].
  apply HasPermission_cases in Hp as [?|[Hadm|[_ ?]]]; [done | | done].
  apply keeps_given. apply Authenticate_claims in Hrun as (c & now & Hj & ->).
  exists (extractBearer (rest_request r)), c, now. split; [by left |]. split; [exact Hj | exact Hadm].
Qed.

(** C5: Over HTTP, too, only administrators change servers.  Whatever request the
    running service receives, and whether it answers or panics: if the table
    of servers is not the same after it, the request offered a token that the
    configured secret verifies and that was issued for the role ADMIN. *)
Theorem http_only_admins_change_servers connect uptime wire template salts env w0 w1 a peer order r w w' o :
  New connect uptime wire template salts env w0 = (w1, Done (Ok a)) ->
  http_serve a peer order r w = (w', o) -> rows (w_servers w') <> rows (w_servers w) ->
  exists tok c now, offers r tok /\
    jwt_parse (cfg_JWTSecret (app_Config a)) now tok = Ok c /\ claims_RoleCode c = RoleCodeAdmin.
Proof.
  intros Ha%New_assembled Hrun Hchg. assert (keeps (offers_admin a r) (http_serve a peer order r)) as Hk.
  { unfold http_serve. destruct (setupHTTPRoutes r); try apply keeps_ret.
    - by apply (rest_route_keeps a r (fun svc _ => HandleImport svc) PermServerImport).
    - by apply (rest_route_keeps a r (fun svc _ => HandleExport svc) PermServerExport).
    - by apply gw_serve_keeps. }
  specialize (Hk w). unfold wp in Hk. rewrite Hrun in Hk. by destruct o, Hk.
Qed.

(** The path names the server an update or a delete is about, whatever the
    body says. *)
Theorem path_names_the_server r e ps id req :
  map PathUnescape (web_segments r) = ["api"; "v1"; "servers"; id]%string -> lacks "/" id ->
  web_method r = "PUT"%string \/ web_method r = "DELETE"%string ->
  gw_find r setupGRPCGateway = Some (e, ps) -> gw_request e r ps = Ok req ->
  (exists name ip, req = UpdateServerRequest id name ip) \/ req = DeleteServerRequest id.
Proof.
  intros Hseg Hid Hm Hf Hreq.
  assert (forall t, gw_template e = t -> t = servers_path ++ [Var "server_id"] -> gw_matches r e = Some ps ->
            ps !! "server_id"%string = Some id) as Hps.
  { intros t Ht -> [_ Hp]%matched. rewrite Ht in Hp. apply pattern_Match_spec in Hp as (comps & Hu & Hl & HF).
    assert (comps = ["api"; "v1"; "servers"; id]%string) as ->.
    { apply components_inj; [done | | | done | by rewrite <- Hu; unfold url_path; rewrite Hseg].
      - repeat (apply Forall_cons_2; [done |]). apply Forall_nil_2.
      - intros ->. inversion HF. }
    unfold servers_path in HF. cbn [app] in HF. do 3 apply Forall2_cons_1, proj2 in HF.
    apply Forall2_cons_1 in HF as [HF _]. exact HF. }
  unfold setupGRPCGateway, RegisterServerManagementServiceHandlerClient, RegisterReportingServiceHandlerClient,
    RegisterAuthServiceHandlerClient in Hf. cbn [app gw_find] in Hf.
  assert (forall m t rpc f, m <> "PUT"%string -> m <> "DELETE"%string -> gw_matches r (mkGwEntry m t rpc f) = None) as Hno.
  { intros m t rpc f H1 H2. unfold gw_matches. cbn. destruct (String.eqb_spec m (web_method r)); [| done]. naive_solver. }
  rewrite !(Hno "POST"%string), !(Hno "GET"%string) in Hf by discriminate.
  destruct (gw_matches r (mkGwEntry "PUT" _ _ _)) as [ps'|] eqn:M1.
  - injection Hf as <- <-. cbn [gw_request] in Hreq. unfold request_UpdateServer_0, path_param in Hreq.
    destruct (decoded _) as [[[? name] ip]|]; [| done]. rewrite (Hps _ eq_refl eq_refl M1), runtime_String_spec in Hreq.
    injection Hreq as <-. left. eauto.
  - destruct (gw_matches r (mkGwEntry "DELETE" _ _ _)) as [ps'|] eqn:M2; [| done].
    injection Hf as <- <-. cbn [gw_request] in Hreq. unfold request_DeleteServer_0, path_param in Hreq.
    rewrite (Hps _ eq_refl eq_refl M2), runtime_String_spec in Hreq. injection Hreq as <-. by right.
Qed.
End HttpGuards.

(** ** Concrete runs: a runtime that reads fields separated by commas *)
Section GatewayRuns.
#[local] Existing Instance mem_env.
#[local] Existing Instance mem_laws.
#[local] Existing Instance spent_store.
#[local] Existing Instance accept_all.
#[local] Existing Instance mem_excelize.
#[local] Existing Instance no_multipart.
#[local] Existing Instance no_matcher.

Fixpoint match_segs (t : Template) (comps : list string) : option Params :=
  match t, comps with
  | [], [] => Some ∅
  | Lit s :: t, c :: comps => if String.eqb c s then match_segs t comps else None
  | Var x :: t, c :: comps => ps ← match_segs t comps; match ps !! x with None => Some (<[x := c]> ps) | Some _ => None end
  | _, _ => None
  end.

Lemma seg_fits_weaken g c ps x v : ps !! x = None -> seg_fits g c ps -> seg_fits g c (<[x := v]> ps).
Proof.
  intros Hx. destruct g as [s|y]; unfold seg_fits; [done |]. intros Hy. rewrite lookup_insert_ne; [done |]. intros ->. congruence.
Qed.

Lemma match_segs_fits t comps ps : match_segs t comps = Some ps -> Forall2 (fun g c => seg_fits g c ps) t comps.
Proof.
  revert comps ps. induction t as [|g t IH]; intros [|c comps] ps H;
    [by apply Forall2_nil_2 | done | by destruct g |].
  destruct g as [s|x]; cbn in H.
  - destruct (String.eqb_spec c s); [| done]. apply Forall2_cons_2; [done | by apply IH].
  - destruct (match_segs t comps) as [ps'|] eqn:Hm; [| done]. cbn in H. destruct (ps' !! x) eqn:Hx; [done |].
    injection H as <-. apply Forall2_cons_2; [unfold seg_fits; by rewrite lookup_insert_eq |].
    eapply Forall2_impl; [| exact (IH _ _ Hm)]. intros g c'. by apply seg_fits_weaken.
Qed.

Definition toy_match (t : Template) (path : string) : option Params :=
  match path with
  | String c rest => if Ascii.eqb c "/" then match_segs t (Split rest "/"%char) else None
  | EmptyString => None
  end.

Definition fields (body : result string) : list string :=
  match body with Ok b => Split b ","%char | Err _ => [] end.
Definition field (body : result string) (i : nat) : string := nth i (fields body) ""%string.

Fixpoint upper_string (s : string) : string :=
  match s with
  | EmptyString => EmptyString
  | String c s' => String (if (97 <=? byte_val c) && (byte_val c <=? 122) then ascii_of_nat (nat_of_ascii c - 32) else c) (upper_string s')
  end.

#[local] Instance toy_runtime : GatewayRuntime := {|
  pattern_Match := toy_match;
  AnnotateContext headers :=
    Ok (map (fun h => ("authorization"%string, h.2)) (List.filter (fun h => String.eqb h.1 "Authorization") headers));
  runtime_String v := Ok v;
  decode_Login b := ((field b 0, field b 1), None);
  decode_Refresh b := (field b 0, None);
  decode_Empty _ := (tt, Some io_EOF);
  decode_CreateServer b := ((field b 0, field b 1), None);
  decode_UpdateServer b := ((field b 0, field b 1, field b 2), None);
  decode_ImportServers b := ((field b 0, field b 1), None);
  decode_RequestReport b := ((field b 0, field b 1, field b 2), None);
  method_upper := upper_string;
  populate_View _ := Ok (mkViewRequest 1 10 "" "" "" "" "" "");
|}.

#[local] Program Instance toy_laws : GatewayLaws (GR := toy_runtime).
Next Obligation.
  intros t path ps H. unfold pattern_Match, toy_runtime, toy_match in H. destruct path as [|c rest]; [done |].
  destruct (Ascii.eqb_spec c "/") as [->|]; [| done]. apply match_segs_fits in H.
  exists (Split rest "/"). destruct (Split_join rest "/") as [Hj Hl]. split; [by rewrite <- Hj | done].
Qed.
Next Obligation.
  intros headers md v [= <-] (h & [= ->] & Hh)%list_elem_of_fmap. apply list_elem_of_In, List.filter_In in Hh as [Hh He].
  apply String.eqb_eq in He. exists h.1. split; [| by left]. apply list_elem_of_In. by destruct h.
Qed.
Next Obligation. reflexivity. Qed.

Definition web (method : string) (path : list string) (role : RoleCode) (body : string) : WebRequest :=
  mkWebRequest method path [] (Some (token_for role)) (Ok body) [] None [].
Definition methods : list string := ["GET"; "POST"; "PUT"; "DELETE"]%string.

Definition post_server : WebRequest := web "POST" ["api"; "v1"; "servers"] RoleCodeAdmin "web-9,10.0.0.9".

(** A browser with the cookie of an administrator adds a server; a user's
    cookie, and a bare request, add none; a report is handed over. *)
Example http_at_work :
  let added r := length (rows (w_servers (http_serve (started demo_env) None methods r plain_world).1)) in
  added post_server = S (length (rows (w_servers plain_world))) /\
  added (web "POST" ["api"; "v1"; "servers"] RoleCodeUser "web-9,10.0.0.9") = length (rows (w_servers plain_world)) /\
  added (mkWebRequest "POST" ["api"; "v1"; "servers"] [] None (Ok "web-9,10.0.0.9") [] None [])%string
    = length (rows (w_servers plain_world)) /\
  setupHTTPRoutes (web "POST" ["api"; "v1"; "servers"; "import"] RoleCodeAdmin "") = ToImport /\
  setupHTTPRoutes (web "POST" ["api"; ".."; "docs"] RoleCodeAdmin "") = ToRedirect.
Proof. vm_compute. done. Qed.

(** An escaped slash reaches the import of the gateway past the REST handler. *)
Example escaped_slash :
  let r := web "POST" ["api"; "v1"; "servers%2Fimport"] RoleCodeAdmin "" in
  setupHTTPRoutes r = ToGateway /\
  (gw_rpc ∘ fst <$> gw_find r setupGRPCGateway) = Some SM_ImportServers.
Proof. vm_compute. done. Qed.

(** A form posted with an override is a deletion, and it needs the role all the
    same; without one it is refused, since the path has handlers only for PUT
    and DELETE; and a path with a handler only for GET is read by a form. *)
Definition form (override : list (string * string)) (path : list string) (role : RoleCode) : WebRequest :=
  mkWebRequest "POST" path (("Content-Type", "application/x-www-form-urlencoded")%string :: override)
    (Some (token_for role)) (Ok ""%string) [] None [].
Definition deletes : list (string * string) := [("X-Http-Method-Override", "delete")%string].
Example form_overrides :
  let answer r := (http_serve (started demo_env) None methods r plain_world).2 in
  answer (form [] ["api"; "v1"; "servers"; "5"]%string RoleCodeAdmin) = Done OutNotAllowed /\
  answer (form deletes ["api"; "v1"; "servers"; "5"]%string RoleCodeUser)
    = Done (OutCall (Err (Status PermissionDenied "forbidden"))) /\
  gw_rpc ∘ fst <$> gw_other (form [] ["api"; "v1"; "servers%2Fexport"]%string RoleCodeAdmin) setupGRPCGateway methods
    = Some SM_ExportServers.
Proof. vm_compute. done. Qed.

Lemma http_only_admins_change_servers_witness :
  exists tok c now, offers post_server tok /\ jwt_parse "key" now tok = Ok c /\ claims_RoleCode c = RoleCodeAdmin.
Proof.
  apply (http_only_admins_change_servers (fun _ => Ok tt) (fun _ _ => ret (Ok (float64_of_int 99))) (fun _ => agreeable)
    (Ok (fun d => Ok (td_StartDate d))) (1%N, 2%N) demo_env plain_world (start demo_env plain_world).1
    (started demo_env) None methods post_server plain_world
    (http_serve (started demo_env) None methods post_server plain_world).1
    (http_serve (started demo_env) None methods post_server plain_world).2).
  - apply (run_outcome (start demo_env)). reflexivity.
  - by destruct (http_serve _ _ _ _ _).
  - intros H. apply (f_equal length) in H. vm_compute in H. discriminate H.
Defined.

Definition put_server : WebRequest := web "PUT" ["api"; "v1"; "servers"; "5"] RoleCodeAdmin "7,web-2,10.0.0.2".

Lemma path_names_the_server_witness :
  request_UpdateServer_0 put_server {["server_id"%string := "5"%string]} = Ok (UpdateServerRequest "5" "web-2" "10.0.0.2") /\
  ((exists name ip, UpdateServerRequest "5" "web-2" "10.0.0.2" = UpdateServerRequest "5" name ip) \/
   UpdateServerRequest "5" "web-2" "10.0.0.2" = DeleteServerRequest "5").
Proof.
  split; [reflexivity |].
  apply (path_names_the_server put_server (mkGwEntry "PUT" (servers_path ++ [Var "server_id"]) SM_UpdateServer request_UpdateServer_0)
           {["server_id"%string := "5"%string]} "5" (UpdateServerRequest "5" "web-2" "10.0.0.2")).
  - vm_compute. reflexivity.
  - vm_compute. reflexivity.
  - by left.
  - vm_compute. reflexivity.
  - reflexivity.
Defined.

Lemma gateway_routes_unambiguous_witness :
  ~ is_Some (gw_matches put_server
      (mkGwEntry "DELETE" (servers_path ++ [Var "server_id"]) SM_DeleteServer request_DeleteServer_0)).
Proof.
  intros H. discriminate (gateway_routes_unambiguous put_server 1 2
    (mkGwEntry "PUT" (servers_path ++ [Var "server_id"]) SM_UpdateServer request_UpdateServer_0)
    (mkGwEntry "DELETE" (servers_path ++ [Var "server_id"]) SM_DeleteServer request_DeleteServer_0)
    eq_refl eq_refl ltac:(vm_compute; by eexists) H).
Defined.
End GatewayRuns.
