(* ===== verification/GatewayLocal.v ===== *)
(** * GatewayLocal: the rest of the generated gateway code

    [gen/go/*/v1/*.pb.gw.go] can be registered in two ways.  The service uses
    the handlers that call the gRPC server over a connection ([Gateway]); the
    other ones ([local_request_*], [Register*HandlerServer]) call an
    implementation of the service in the same process.  The two decode a
    request alike; the second go past the interceptors.  [FromEndpoint] makes
    and closes the connection. *)

From stdpp Require Import base list strings gmap numbers.
From Stdlib Require Import ZArith Lia.
From S2P Require Import Prelude GoStrings GoTime GoFloat Domain Env MemEnv Security Identity Seed Rpc.
From S2P Require Import AuthServer Servers ImportExport ServerHandlers RateLimit Config Middleware Reporting Notification App Gateway.
Open Scope Z_scope.

Section Local.
Context `{E : Env} {RS : RateStore RedisServer} `{PV : Protovalidate} `{X : Excelize} `{MP : Multipart}.
Context `{GR : GatewayRuntime}.

(** ** The interfaces of the services *)
Record ServerManagementServiceServer := mkSMServer {
  sm_CreateServer : Ctx -> string -> string -> M World (result Response);
  sm_UpdateServer : Ctx -> string -> string -> string -> M World (result Response);
  sm_DeleteServer : Ctx -> string -> M World (result Response);
  sm_ViewServers : Ctx -> ViewRequest -> M World (result Response);
  sm_ImportServers : Ctx -> string -> string -> M World (result Response);
  sm_ExportServers : Ctx -> ViewRequest -> M World (result Response);
}.
Record AuthServiceServer := mkAuthServer {
  as_Login : Ctx -> string -> string -> M World (result Response);
  as_RefreshToken : Ctx -> string -> M World (result Response);
  as_Logout : Ctx -> M World (result Response);
  as_LogoutAll : Ctx -> M World (result Response);
}.
(** The call may block. *)
Definition ReportingServiceServer : Type := Ctx -> string -> string -> string -> World -> blocking (result Response).

(** ** The handlers *)
Definition LocalHandler : Type := Ctx -> WebRequest -> Params -> M World (result Response).

#[local] Notation "'attempt' x <- m ; k" := (match m with Ok x => k | Err e => ret (Err e) end)
  (at level 60, x pattern, right associativity, only parsing).

Section ServerManagement.
Variable server : ServerManagementServiceServer.
Definition local_request_CreateServer_0 : LocalHandler := fun ctx r ps =>
  attempt (name, ip) <- decoded (decode_CreateServer (web_body r));
  sm_CreateServer server ctx name ip.
Definition local_request_UpdateServer_0 : LocalHandler := fun ctx r ps =>
  attempt (_, name, ip) <- decoded (decode_UpdateServer (web_body r));
  attempt id <- path_param ps "server_id";
  sm_UpdateServer server ctx id name ip.
Definition local_request_DeleteServer_0 : LocalHandler := fun ctx r ps =>
  attempt id <- path_param ps "server_id";
  sm_DeleteServer server ctx id.
Definition local_request_ViewServers_0 : LocalHandler := fun ctx r ps =>
  attempt v <- query_message r;
  sm_ViewServers server ctx v.
Definition local_request_ImportServers_0 : LocalHandler := fun ctx r ps =>
  attempt (content, filename) <- decoded (decode_ImportServers (web_body r));
  sm_ImportServers server ctx content filename.
Definition local_request_ExportServers_0 : LocalHandler := fun ctx r ps =>
  attempt v <- query_message r;
  sm_ExportServers server ctx v.
End ServerManagement.

Section Auth.
Variable server : AuthServiceServer.
Definition local_request_Login_0 : LocalHandler := fun ctx r ps =>
  attempt (identifier, password) <- decoded (decode_Login (web_body r));
  as_Login server ctx identifier password.
Definition local_request_RefreshToken_0 : LocalHandler := fun ctx r ps =>
  attempt token <- decoded (decode_Refresh (web_body r));
  as_RefreshToken server ctx token.
Definition local_request_Logout_0 : LocalHandler := fun ctx r ps =>
  attempt _ <- decoded (decode_Empty (web_body r));
  as_Logout server ctx.
Definition local_request_LogoutAll_0 : LocalHandler := fun ctx r ps =>
  attempt _ <- decoded (decode_Empty (web_body r));
  as_LogoutAll server ctx.
End Auth.

Definition local_request_RequestReport_0 (server : ReportingServiceServer) (ctx : Ctx) (r : WebRequest) (ps : Params) (w : World)
  : blocking (result Response) :=
  match decoded (decode_RequestReport (web_body r)) with
  | Ok (start_date, end_date, email) => server ctx start_date end_date email w
  | Err e => Some (w, Done (Err e))
  end.

(** ** The tables *)
Record LocalEntry := mkLocalEntry {
  le_method : string;
  le_template : Template;
  le_rpc : string;
  le_call : LocalHandler;
}.

Definition RegisterServerManagementServiceHandlerServer (server : ServerManagementServiceServer) : list LocalEntry :=
  [ mkLocalEntry "POST" servers_path SM_CreateServer (local_request_CreateServer_0 server);
    mkLocalEntry "PUT" (servers_path ++ [Var "server_id"]) SM_UpdateServer (local_request_UpdateServer_0 server);
    mkLocalEntry "DELETE" (servers_path ++ [Var "server_id"]) SM_DeleteServer (local_request_DeleteServer_0 server);
    mkLocalEntry "GET" servers_path SM_ViewServers (local_request_ViewServers_0 server);
    mkLocalEntry "POST" (servers_path ++ [Lit "import"]) SM_ImportServers (local_request_ImportServers_0 server);
    mkLocalEntry "GET" (servers_path ++ [Lit "export"]) SM_ExportServers (local_request_ExportServers_0 server) ].
Definition RegisterAuthServiceHandlerServer (server : AuthServiceServer) : list LocalEntry :=
  [ mkLocalEntry "POST" (auth_path ++ [Lit "login"]) AuthService_Login (local_request_Login_0 server);
    mkLocalEntry "POST" (auth_path ++ [Lit "refresh"]) AuthService_RefreshToken (local_request_RefreshToken_0 server);
    mkLocalEntry "POST" (auth_path ++ [Lit "logout"]) AuthService_Logout (local_request_Logout_0 server);
    mkLocalEntry "POST" (auth_path ++ [Lit "logout-all"]) AuthService_LogoutAll (local_request_LogoutAll_0 server) ].

(** The one route of the reporting service, whose handler may block. *)
Definition RegisterReportingServiceHandlerServer (server : ReportingServiceServer)
  : string * Template * string * (Ctx -> WebRequest -> Params -> World -> blocking (result Response)) :=
  ("POST"%string, servers_path ++ [Lit "report"], ReportingService_RequestReport, local_request_RequestReport_0 server).

(** [AnnotateIncomingContext]: the metadata of the call. *)
Variable AnnotateIncomingContext : list (string * string) -> result (list (string * string)).

(** The closure registered for an entry: annotate, decode, call; there is no
    peer. *)
Definition local_handle (e : LocalEntry) (r : WebRequest) (ps : Params) : M World Outcome :=
  match AnnotateIncomingContext (web_headers r) with
  | Err err => ret (OutError err)
  | Ok md =>
      resp <-- le_call e (mkCtx (Some md) None None) r ps ;;
      ret (match resp with Err err => OutError err | Ok _ => OutCall resp end)
  end.

(** ** The handlers of the service *)
Definition app_SMServer (a : App) : ServerManagementServiceServer := {|
  sm_CreateServer _ name ip := rpc_CreateServer (app_ServerSvc a) name ip;
  sm_UpdateServer _ id name ip := rpc_UpdateServer (app_ServerSvc a) id name ip;
  sm_DeleteServer _ id := rpc_DeleteServer (app_ServerSvc a) id;
  sm_ViewServers _ v := rpc_ViewServers (app_ServerSvc a) v;
  sm_ImportServers _ content _ := rpc_ImportServers (app_ServerSvc a) content;
  sm_ExportServers _ v := rpc_ExportServers (app_ServerSvc a) v;
|}.
Definition app_AuthServer (a : App) : AuthServiceServer := {|
  as_Login ctx i p := rpc_Login (app_AuthSvc a) ctx i p;
  as_RefreshToken ctx t := rpc_RefreshToken (app_AuthSvc a) ctx t;
  as_Logout ctx := rpc_Logout (app_AuthSvc a) ctx;
  as_LogoutAll ctx := rpc_LogoutAll (app_AuthSvc a) ctx;
|}.

(** ** [Register*HandlerFromEndpoint]

    The connection, and when it is closed. *)
Inductive Closing := AtOnce | WhenContextEnds.
Definition HandlerFromEndpoint {Conn} (dial : result Conn) (register : Conn -> option error) : option error * option (Conn * Closing) :=
  match dial with
  | Err e => (Some e, None)
  | Ok conn =>
      match register conn with
      | Some e => (Some e, Some (conn, AtOnce))
      | None => (None, Some (conn, WhenContextEnds))
      end
  end.

(** ** Properties *)

(** A call of the method without the interceptors. *)
Definition bare_call (a : App) (e : GwEntry) (ctx : Ctx) (r : WebRequest) (ps : Params) : M World (result Response) :=
  match gw_request e r ps with
  | Err err => ret (Err err)
  | Ok req =>
      match route a (gw_rpc e) with
      | Some h => h ctx req
      | None => ret (Err (Status Unimplemented ("unknown method " +:+ gw_rpc e)))
      end
  end.

(** The same routes, decoding and handler. *)
Definition same_but_bare (a : App) (l : LocalEntry) (e : GwEntry) : Prop :=
  le_method l = gw_method e /\ le_template l = gw_template e /\ le_rpc l = gw_rpc e /\
  forall ctx r ps, le_call l ctx r ps = bare_call a e ctx r ps.

(** The two registrations agree but for the interceptors: the in-process
    handlers of a service match the same requests, decode the same messages
    with the same errors and run the same handlers, directly. *)
Theorem local_handlers_are_bare a :
  Forall2 (same_but_bare a) (RegisterServerManagementServiceHandlerServer (app_SMServer a)) RegisterServerManagementServiceHandlerClient /\
  Forall2 (same_but_bare a) (RegisterAuthServiceHandlerServer (app_AuthServer a)) RegisterAuthServiceHandlerClient /\
  forall server ctx r ps w, local_request_RequestReport_0 server ctx r ps w =
    match request_RequestReport_0 r ps with
    | Ok (RequestReportRequest start_date end_date email) => server ctx start_date end_date email w
    | Ok _ => None
    | Err e => Some (w, Done (Err e))
    end.
Proof.
  split; [| split; [| intros server ctx r ps w; unfold local_request_RequestReport_0, request_RequestReport_0;
                      by destruct (decoded _) as [[[start_date end_date] email]|e]]]; repeat first [apply Forall2_nil_2 | apply Forall2_cons_2];
    (split; [done |]; split; [done |]; split; [done |]; intros ctx r ps);
    unfold bare_call; cbn [gw_request gw_rpc le_call].
  - unfold local_request_CreateServer_0, request_CreateServer_0. by destruct (decoded _) as [[name ip]|e].
  - unfold local_request_UpdateServer_0, request_UpdateServer_0. destruct (decoded _) as [[[id0 name] ip]|e]; [| done].
    by destruct (path_param _ _).
  - unfold local_request_DeleteServer_0, request_DeleteServer_0. by destruct (path_param _ _).
  - unfold local_request_ViewServers_0, request_ViewServers_0. by destruct (query_message r).
  - unfold local_request_ImportServers_0, request_ImportServers_0. by destruct (decoded _) as [[content filename]|e].
  - unfold local_request_ExportServers_0, request_ExportServers_0. by destruct (query_message r).
  - unfold local_request_Login_0, request_Login_0. by destruct (decoded _) as [[i p]|e].
  - unfold local_request_RefreshToken_0, request_RefreshToken_0. by destruct (decoded _) as [token|e].
  - unfold local_request_Logout_0, request_Logout_0. by destruct (decoded _) as [[]|e].
  - unfold local_request_LogoutAll_0, request_LogoutAll_0. by destruct (decoded _) as [[]|e].
Qed.
End Local.

(** ** A concrete run *)
Section LocalRuns.
#[local] Existing Instance mem_env.
#[local] Existing Instance mem_laws.
#[local] Existing Instance spent_store.
#[local] Existing Instance accept_all.
#[local] Existing Instance mem_excelize.
#[local] Existing Instance no_multipart.
#[local] Existing Instance no_matcher.
#[local] Existing Instance toy_runtime.

(** A request without any credentials adds a server when the handlers are
    registered in the process, and none as the service registers them. *)
Example in_process_skips_authentication :
  let r := mkWebRequest "POST" ["api"; "v1"; "servers"]%string [] None (Ok "web-9,10.0.0.9"%string) [] None [] in
  let stored w := length (rows (w_servers w)) in
  (e ← RegisterServerManagementServiceHandlerServer (app_SMServer (started demo_env)) !! 0%nat;
   Some (stored (local_handle (fun _ => Ok []) e r ∅ plain_world).1)) = Some (S (stored plain_world)) /\
  stored (http_serve (started demo_env) None methods r plain_world).1 = stored plain_world.
Proof. vm_compute. done. Qed.
End LocalRuns.
