(* ===== verification/Deploy.v ===== *)
(** * Deploy: the monitoring worker and the scheduler put together

    [internal/app/monitoring.NewApp] and [internal/app/scheduler.NewApp] build
    their parts from the environment.  Opening the database, reaching Redis
    and Elasticsearch, loading a time zone and adding a job to robfig/cron are
    parameters: each either succeeds or gives an error. *)

From stdpp Require Import base list strings gmap numbers relations.
From Stdlib Require Import ZArith Lia.
From S2P Require Import Prelude GoStrings GoTime GoFloat Domain Env MemEnv Servers.
From S2P Require Import Config Observation Monitoring MonitorPool Reporting Notification.
Open Scope Z_scope.

Section Deployments.
Context `{E : Env}.
Variable connect : string -> result ().     (* database.GetInstance *)
Variable ping_redis : result ().            (* database.PingRedis *)
Variable connect_es : string -> result ().  (* database.NewElasticsearchClient *)

(** ** The monitoring worker *)
Definition default_dsn : string :=
  "host=localhost user=postgres password=postgres dbname=postgres port=5432 sslmode=disable".

Definition monitor_NewApp (env : Environ) : exec (result MonitorPool.App) :=
  let dbDSN := if String.eqb (env "DATABASE_URL") "" then default_dsn else env "DATABASE_URL" in
  let redisCfg := match LoadRedisConfig env with Ok c => Some c | Err _ => None end in
  match connect dbDSN with
  | Err e => Done (Err (Wrapped "failed to connect to database" e))
  | Ok _ =>
      match NewRedisClient redisCfg with
      | None => Done (Err (Fresh "redis is required for Monitoring Worker"))
      | Some c =>
          match ping_redis with
          | Err e => Done (Err (Wrapped "redis ping failed" e))
          | Ok _ =>
              let esCfg := LoadElasticsearchConfig env in
              match connect_es (es_URL esCfg) with
              | Err e => Done (Err (Wrapped "elasticsearch connection failed" e))
              | Ok _ =>
                  match NewObservationLogger true (es_ServerIndex esCfg) (LoadObservationLoggerConfig env) with
                  | Panicked => Panicked
                  | Done _ =>
                      let redisClient := as_interface (Some c) in
                      let s := monitor_settings env in
                      Done (Ok (MonitorPool.mkApp redisClient
                            (mkWorkerPool redisClient (mkMonitoringService redisClient (set_threshold s))
                               (set_concurrency s) (set_pingTimeout s))
                            (set_lockKey s) (set_lockExpiration s)))
                  end
              end
          end
      end
  end.

(** ** The scheduler *)
Variable LoadLocation : string -> result ().
Variable AddFunc : string -> result ().     (* cron.AddFunc: the specification parses *)
Variable uptime : Time -> Time -> M World (result float64).
Variable wire : World -> Wire.
Variable template : result (TemplateData -> result string).

Record SchedulerApp := mkSchedulerApp {
  sch_reportingWorker : reportingWorker;
  sch_adminEmail : string;
  sch_cronSpec : string;
}.

Definition setupCronJobs (a : SchedulerApp) : result () :=
  let cronSpec := if String.eqb (sch_cronSpec a) "" then "0 0 * * *"%string else sch_cronSpec a in
  AddFunc cronSpec.

Definition scheduler_NewApp (env : Environ) : result SchedulerApp :=
  match Load env with
  | Err e => Err (Wrapped "failed to load config" e)
  | Ok cfg =>
    match connect (cfg_DBUrl cfg) with
    | Err e => Err (Wrapped "failed to connect to database" e)
    | Ok _ =>
      match connect_es (es_URL (LoadElasticsearchConfig env)) with
      | Err e => Err (Wrapped "elasticsearch connection failed" e)
      | Ok _ =>
        let worker := NewReportingWorker uptime (rep_WorkerCount (cfg_Reporting cfg))
                        (rep_JobQueueSize (cfg_Reporting cfg)) (Some (smtp_notifier (cfg_SMTP cfg) wire)) template in
        let adminEmail := GetEnvDefault env "ADMIN_EMAIL" "admin@portal.local" in
        let locationName := GetEnvDefault env "SCHEDULER_TIMEZONE" "Local" in
        match (if negb (String.eqb locationName "") && negb (String.eqb locationName "Local")
               then LoadLocation locationName else Ok tt) with
        | Err e => Err (Wrapped ("failed to load scheduler timezone " +:+ locationName) e)
        | Ok _ =>
          let app := mkSchedulerApp worker adminEmail (GetEnvDefault env "SCHEDULER_CRON_SPEC" "0 0 * * *") in
          match setupCronJobs app with
          | Err e => Err (Wrapped "failed to setup cron jobs" e)
          | Ok _ => Ok app
          end
        end
      end
    end
  end.
End Deployments.

(** ** Properties *)
Section DeployFacts.
Context `{E : Env} {L : EnvLaws E}.

(** The monitor only starts with a Redis client, and everything it is made of
    uses that client: unlike the service it has no nil pointer to trip over. *)
Lemma monitor_app_live connect ping es env a :
  monitor_NewApp connect ping es env = Done (Ok a) ->
  app_RedisClient a = LiveClient /\ wp_rdb (app_Pool a) = LiveClient /\
  mon_rdb (wp_monService (app_Pool a)) = LiveClient /\
  mon_failureThreshold (wp_monService (app_Pool a)) = set_threshold (monitor_settings env) /\
  wp_concurrency (app_Pool a) = set_concurrency (monitor_settings env) /\
  app_lockExpiration a = set_lockExpiration (monitor_settings env).
Proof.
  unfold monitor_NewApp. destruct (connect _); [| done]. destruct (NewRedisClient _); [| done].
  destruct ping; [| done]. destruct (es _); [| done]. destruct (NewObservationLogger _ _ _); [| done]. by intros [= <-].
Qed.

(** A monitor built from an environment works as specified: if its settings
    give it workers and a threshold within 32 bits, no schedule of a cycle
    crashes, and at its end every server has made the transition for its ping. *)
Theorem started_monitor_cycle connect ping es env a net ids ip0 st0 n0 w s :
  monitor_NewApp connect ping es env = Done (Ok a) ->
  0 < set_concurrency (monitor_settings env) -> set_threshold (monitor_settings env) < 2 ^ 31 ->
  NoDup ids -> (forall x y, x ∈ ids -> y ∈ ids -> uuid_column_eq x y = true -> x = y) ->
  monitor_ok w -> (forall id, id ∈ ids -> watched w id (ip0 id) (st0 id) (n0 id)) ->
  rtc (pool_step (app_Pool a) net) (pool_start (app_Pool a) ids w) s ->
  ps_main s <> Crashed /\
  (ps_main s = Returned -> forall id, id ∈ ids ->
     let ok := net id (ip0 id) (wp_timeout (app_Pool a)) in
     let '(st', n') := next (set_threshold (monitor_settings env)) (st0 id) (n0 id) ok in
     watched (ps_world s) id (ip0 id) st' n').
Proof.
  intros (_ & Hrdb & Hmon & Hth & Hcc & _)%monitor_app_live Hc Ht Hnd Hap Hok Hw Hrun. rewrite <- Hcc in Hc.
  destruct (cycle_steps (app_Pool a) net Hrdb Hmon ltac:(by rewrite Hth) ids ip0 st0 n0 Hnd Hap w s Hc Hok Hw Hrun) as [H1 H2].
  split; [done |]. intros Hret id Hid. specialize (H2 Hret id Hid). unfold stepped in H2. by rewrite Hth in H2.
Qed.
End DeployFacts.

(** ** Concrete runs *)
Section DeployRuns.
#[local] Existing Instance mem_env.
#[local] Existing Instance mem_laws.

Definition monitor_env : Environ := fun k =>
  if bool_decide (k = "REDIS_ENABLED"%string) then "true"%string
  else if bool_decide (k = "MONITORING_WORKER_CONCURRENCY"%string) then "1"%string else ""%string.
Definition reachable (_ : string) : result () := Ok tt.

Lemma started_monitor_cycle_witness :
  exists a, monitor_NewApp reachable (Ok tt) reachable monitor_env = Done (Ok a) /\
    watched (ps_world cycle_end) "5" "10.0.0.1" ServerStatusOnline 1.
Proof.
  eexists. split; [vm_compute; reflexivity |].
  exact (proj2 (started_monitor_cycle reachable (Ok tt) reachable monitor_env
    (MonitorPool.mkApp LiveClient demo_pool "lock:monitoring_worker" (25 * Second)) unanswered ["5"%string]
    (fun _ => "10.0.0.1"%string) (fun _ => ServerStatusOnline) (fun _ => 0) monitored_world cycle_end
    ltac:(vm_compute; reflexivity) ltac:(vm_compute; reflexivity) ltac:(vm_compute; reflexivity)
    (NoDup_singleton _) ltac:(intros x y ->%list_elem_of_singleton ->%list_elem_of_singleton _; reflexivity)
    (proj1 monitored_world_ok)
    ltac:(intros id ->%list_elem_of_singleton; exact monitored_world_watched) demo_cycle) eq_refl "5"%string
    ltac:(apply list_elem_of_singleton; reflexivity)).
Defined.

(** Without a Redis the monitor does not start. *)
Example monitor_needs_redis :
  monitor_NewApp reachable (Ok tt) reachable unset = Done (Err (Fresh "redis is required for Monitoring Worker")).
Proof. vm_compute. reflexivity. Qed.
End DeployRuns.
