(* ===== verification/Simulator.v ===== *)
(** * Simulator: [cmd/simulator] and [cmd/simulator/run]

    The simulator answers pings for a range of addresses and keeps the set of
    those that are down in a set of nftables, which it reads and changes by
    running the program nft ([Nft], a parameter).  The driver of [run] toggles
    addresses over HTTP and runs monitoring cycles. *)

From stdpp Require Import base list strings gmap numbers.
From Stdlib Require Import ZArith Lia Ascii.
From S2P Require Import Prelude GoStrings GoTime GoFloat GoNet Domain Config.
Open Scope Z_scope.

#[local] Arguments String.append !_ _ / : simpl nomatch.

(** ** Addresses *)

(** The loop of [generateIPs]: the next two octets. *)
Fixpoint generate_loop (subnet : string) (count : nat) (octet3 octet4 : Z) : list string :=
  match count with
  | O => []
  | S n =>
      let ip := subnet +:+ "." +:+ Itoa octet3 +:+ "." +:+ Itoa octet4 in
      let octet4 := octet4 + 1 in
      ip :: (if 254 <? octet4 then generate_loop subnet n (octet3 + 1) 1 else generate_loop subnet n octet3 octet4)
  end.
(** [make] panics on a negative capacity: [None]. *)
Definition generateIPs (count : Z) (subnet : string) : option (list string) :=
  if count <? 0 then None else Some (generate_loop subnet (Z.to_nat count) 0 1).

(** The copy of [run/main.go], with the subnet written out. *)
Definition run_generateIPs (count : Z) : option (list string) := generateIPs count "10.1".

Definition cleanIPs (ips : list string) : list string :=
  List.filter (fun ip => negb (String.eqb ip "")) (map TrimSpace ips).

(** [pickRandom], given the permutation [rng.Perm(len(ips))] yields. *)
Definition pick (ips : list string) (n : nat) (perm : list nat) : option (list string) :=
  mapM (fun i => ips !! i) (take n perm).
Definition pickRandom (ips : list string) (n : Z) (perm : list nat) : option (list string) :=
  let n := if Z.of_nat (length ips) <? n then Z.of_nat (length ips) else n in
  if n <=? 0 then Some [] else pick ips (Z.to_nat n) perm.
(** The copy of [run/main.go] makes a slice of [n] elements first: a negative
    [n] panics, [None]. *)
Definition run_pickRandom (ips : list string) (n : Z) (perm : list nat) : option (list string) :=
  let n := if Z.of_nat (length ips) <? n then Z.of_nat (length ips) else n in
  if n <? 0 then None else pick ips (Z.to_nat n) perm.

(** ** Reading the set of nftables *)
Definition elements_mark : string := "elements = {".

Definition parse_elements (output : string) : list string :=
  match Index output elements_mark with
  | None => []
  | Some idx =>
      let rest := drop_bytes (idx + String.length elements_mark) output in
      match Index rest "}" with
      | None => []
      | Some endIdx =>
          let elements := TrimSpace (take_string endIdx rest) in
          if String.eqb elements "" then [] else cleanIPs (Split elements ","%char)
      end
  end.

Class Nft (N : Type) := {
  nft_flush : N -> N * result ();
  nft_add : string -> N -> N * result ();
  nft_delete : string -> N -> N * result ();
  nft_list : N -> N * result string;
}.

Section Simulator.
Context {N : Type} `{NF : Nft N}.

Definition listDownIPs : M N (result (gset string)) := fun n =>
  match nft_list n with
  | (n', Ok out) => (n', Done (Ok (list_to_set (parse_elements out))))
  | (n', Err e) => (n', Done (Err e))
  end.
Definition flushDownIPs : M N (result ()) := fun n => let '(n', r) := nft_flush n in (n', Done r).
Definition addDownIP (ip : string) : M N (result ()) := fun n => let '(n', r) := nft_add ip n in (n', Done r).
Definition deleteDownIP (ip : string) : M N (result ()) := fun n => let '(n', r) := nft_delete ip n in (n', Done r).

(** ** The handlers; the body is what the JSON decoder makes of it *)
Inductive SimBody := Plain (msg : string) | StatusOk | StatusOf (total down : Z).
Record SimResponse := mkSimResponse { sim_code : Z; sim_body : SimBody }.

Definition handleReset (method : string) : M N SimResponse :=
  if negb (String.eqb method "POST") then ret (mkSimResponse 405 (Plain "method not allowed"))
  else
    r <-- flushDownIPs ;;
    match r with
    | Err _ => ret (mkSimResponse 500 (Plain "nft error"))
    | Ok _ => ret (mkSimResponse 200 StatusOk)
    end.

Fixpoint add_all (ips : list string) : M N SimResponse :=
  match ips with
  | [] => ret (mkSimResponse 200 StatusOk)
  | ip :: rest =>
      r <-- addDownIP ip ;;
      match r with
      | Err _ => ret (mkSimResponse 500 (Plain "nft error"))
      | Ok _ => add_all rest
      end
  end.

Definition handleDown (method : string) (body : result (list string)) : M N SimResponse :=
  if negb (String.eqb method "POST") then ret (mkSimResponse 405 (Plain "method not allowed"))
  else match body with
       | Err _ => ret (mkSimResponse 400 (Plain "invalid json"))
       | Ok ips => add_all (cleanIPs ips)
       end.

Definition handleUp (method : string) (body : result (list string)) : M N SimResponse :=
  if negb (String.eqb method "POST") then ret (mkSimResponse 405 (Plain "method not allowed"))
  else match body with
       | Err _ => ret (mkSimResponse 400 (Plain "invalid json"))
       | Ok ips =>
           for_each (cleanIPs ips) (fun ip => deleteDownIP ip ;;; ret tt) ;;;
           ret (mkSimResponse 200 StatusOk)
       end.

Definition handleStatus (totalIPs : Z) : M N SimResponse :=
  downSet <-- listDownIPs ;;
  match downSet with
  | Err _ => ret (mkSimResponse 500 (Plain "nft error"))
  | Ok downSet => ret (mkSimResponse 200 (StatusOf totalIPs (Z.of_nat (size downSet))))
  end.

(** ** The flapper *)
Fixpoint flap_all (selected : list string) (downSet : gset string) : M N (result ()) :=
  match selected with
  | [] => ret (Ok tt)
  | ip :: rest =>
      if bool_decide (ip ∈ downSet) then
        _u <-? deleteDownIP ip ;;
        flap_all rest (downSet ∖ {[ip]})
      else
        _u <-? addDownIP ip ;;
        flap_all rest ({[ip]} ∪ downSet)
  end.

(** [None]: an index out of range, which panics. *)
Definition flapOnce (ips : list string) (flipCount : Z) (perm : list nat) : M N (result ()) :=
  downSet <-? listDownIPs ;;
  match pickRandom ips flipCount perm with
  | None => panic
  | Some selected => flap_all selected downSet
  end.
End Simulator.

(** ** The driver: [run/main.go] *)
Section Driver.
Context {W : Type}.
Variable post : string -> option (list string) -> M W (result Z).   (* http.Post: the status code *)

Definition resetAll (url : string) : M W (result ()) :=
  code <-? post (url +:+ "/reset") None ;;
  ret (if negb (code =? 200) then Err (Fresh ("reset returned " +:+ Itoa code)) else Ok tt).

Definition toggle_batch : nat := 200.

Fixpoint post_batches (fuel : nat) (url action : string) (ips : list string) : M W (result ()) :=
  match fuel, ips with
  | O, _ | _, [] => ret (Ok tt)
  | S fuel, _ =>
      code <-? post (url +:+ "/" +:+ action) (Some (take toggle_batch ips)) ;;
      if negb (code =? 200) then ret (Err (Fresh ("simulator returned " +:+ Itoa code)))
      else post_batches fuel url action (drop toggle_batch ips)
  end.
Definition toggleIPs (url action : string) (ips : list string) : M W (result ()) :=
  post_batches (length ips) url action ips.

(** [getStatus]: what the decoder makes of the answer, zeros when there is none. *)
Variable get_status : string -> M W (result (Z * Z)).
Definition getStatus (url : string) : M W (Z * Z) :=
  r <-- get_status (url +:+ "/status") ;;
  ret (match r with Ok s => s | Err _ => (0, 0) end).

Record simConfig := mkSimConfig {
  serverCount : Z; rounds : Z; togglePercent : Z; simulatorURL : string;
}.
(** The figures of memory and goroutines are only printed, and left out. *)
Record roundMetrics := mkRoundMetrics {
  rm_round : Z; rm_duration : Duration; rm_serversUp : Z; rm_serversDown : Z;
}.

(** [app.Pool.Run] with the time it takes, and the permutations [rand.Perm]
    yields in a round. *)
Variable pool_run : M W (Duration * result ()).
Variable perm_down perm_up : Z -> list nat.

Definition toggle_count (cfg : simConfig) : Z := Z.quot (int64 (serverCount cfg * togglePercent cfg)) 100.

Definition or_panic {A} (o : option A) : M W A := match o with Some x => ret x | None => panic end.

Definition run_round (cfg : simConfig) (allIPs : list string) (round : Z) : M W roundMetrics :=
  let toggleCount := toggle_count cfg in
  ipsToDown <-- or_panic (run_pickRandom allIPs toggleCount (perm_down round)) ;;
  toggleIPs (simulatorURL cfg) "down" ipsToDown ;;;
  ipsToUp <-- or_panic (run_pickRandom allIPs (Z.quot toggleCount 2) (perm_up round)) ;;
  toggleIPs (simulatorURL cfg) "up" ipsToUp ;;;
  ran <-- pool_run ;;
  status <-- getStatus (simulatorURL cfg) ;;
  ret (mkRoundMetrics round ran.1 (int64 (status.1 - status.2)) status.2).

Fixpoint run_rounds (cfg : simConfig) (allIPs : list string) (todo : list Z) (metrics : list roundMetrics)
    : M W (list roundMetrics) :=
  match todo with
  | [] => ret metrics
  | round :: todo =>
      rm <-- run_round cfg allIPs round ;;
      run_rounds cfg allIPs todo (metrics ++ [rm])
  end.

(** The average divides by the number of rounds; [None] is the panic of an
    integer division by zero. *)
Definition average (metrics : list roundMetrics) : option Duration :=
  let totalDur := fold_left (fun t m => int64 (t + rm_duration m)) metrics 0 in
  if (length metrics =? 0)%nat then None else Some (Z.quot totalDur (Z.of_nat (length metrics))).

(** [run], with what [monitoring.NewApp] answers; the result is what the
    summary prints. *)
Definition run (cfg : simConfig) (new_app : result ()) : M W (result (Z * Duration)) :=
  _u <-? resetAll (simulatorURL cfg) orelse Wrapped "warmup reset" ;;
  allIPs <-- or_panic (run_generateIPs (serverCount cfg)) ;;
  match new_app with
  | Err e => ret (Err (Wrapped "init monitoring app" e))
  | Ok _ =>
      metrics <-- run_rounds cfg allIPs (map Z.of_nat (seq 1 (Z.to_nat (rounds cfg)))) [] ;;
      avg <-- or_panic (average metrics) ;;
      ret (Ok (Z.of_nat (length metrics), avg))
  end.
End Driver.

(** [envInt]: a value that does not parse counts as what [Atoi] returns. *)
Definition envInt (env : Environ) (key : string) (defaultVal : Z) : Z :=
  if String.eqb (env key) "" then defaultVal else (Atoi (env key)).1.

Definition load_simConfig (env : Environ) : simConfig :=
  mkSimConfig (envInt env "SIMULATOR_IP_COUNT" 10000) (envInt env "SIMULATION_ROUNDS" 10)
    (envInt env "SIMULATION_TOGGLE_PCT" 5)
    (if String.eqb (env "SIMULATOR_URL") "" then "http://localhost:8080" else env "SIMULATOR_URL").

(** ** Properties *)

(** *** Addresses *)
Definition nth_ip (subnet : string) (i : nat) : string :=
  subnet +:+ "." +:+ Itoa (Z.of_nat i / 254) +:+ "." +:+ Itoa (Z.of_nat i mod 254 + 1).

Lemma octets_next i :
  (if 254 <? Z.of_nat i mod 254 + 1 + 1 then (Z.of_nat i / 254 + 1, 1) else (Z.of_nat i / 254, Z.of_nat i mod 254 + 1 + 1))
  = (Z.of_nat (S i) / 254, Z.of_nat (S i) mod 254 + 1).
Proof.
  pose proof (Z.mod_pos_bound (Z.of_nat i) 254 ltac:(lia)) as Hm.
  pose proof (Z.div_mod (Z.of_nat i) 254 ltac:(lia)) as Hd.
  replace (Z.of_nat (S i)) with (Z.of_nat i + 1) by lia.
  destruct (Z.ltb_spec 254 (Z.of_nat i mod 254 + 1 + 1)) as [Hlt|Hge]; f_equal.
  - apply (Z.div_unique _ _ _ 0); lia.
  - assert (0 = (Z.of_nat i + 1) mod 254) by (apply (Z.mod_unique _ _ (Z.of_nat i / 254 + 1)); lia). lia.
  - apply (Z.div_unique _ _ _ (Z.of_nat i mod 254 + 1)); lia.
  - f_equal. apply (Z.mod_unique _ _ (Z.of_nat i / 254)); lia.
Qed.

Lemma generate_loop_closed subnet count i o3 o4 :
  o3 = Z.of_nat i / 254 -> o4 = Z.of_nat i mod 254 + 1 ->
  generate_loop subnet count o3 o4 = map (nth_ip subnet) (seq i count).
Proof.
  revert i o3 o4. induction count as [|n IH]; intros i o3 o4 -> ->; [done |]. cbn [generate_loop seq map].
  f_equal. pose proof (octets_next i) as Hn. destruct (254 <? _); injection Hn as H3 H4; by apply IH.
Qed.

Lemma nth_ip_dotted i : nth_ip "10.1" i = dotted 10 1 (Z.of_nat i / 254) (Z.of_nat i mod 254 + 1).
Proof. reflexivity. Qed.

Lemma ip_octets i : Z.of_nat i < 65024 ->
  0 <= Z.of_nat i / 254 <= 255 /\ 0 <= Z.of_nat i mod 254 + 1 <= 255.
Proof.
  intros Hi. pose proof (Z.mod_pos_bound (Z.of_nat i) 254). split; [| lia].
  split; [apply Z.div_pos; lia |]. apply Z.lt_succ_r. apply Z.div_lt_upper_bound; lia.
Qed.

(** C40: The counters of [generateIPs] enumerate the addresses x.y.i/254.i mod 254+1;
    up to 65024 of them are distinct valid IPv4 addresses. *)
Theorem generated_addresses count :
  0 <= count <= 65024 ->
  exists ips, run_generateIPs count = Some ips /\ ips = map (nth_ip "10.1") (seq 0 (Z.to_nat count)) /\
    NoDup ips /\ Forall (fun ip => is_ipv4 ip = true) ips.
Proof.
  intros Hc. unfold run_generateIPs, generateIPs. destruct (Z.ltb_spec count 0); [lia |].
  rewrite (generate_loop_closed "10.1" _ 0) by done. eexists. split; [done |].
  split; [done |]. split.
  - apply NoDup_fmap_2_strong; [| apply NoDup_seq]. intros i j Hi%elem_of_seq Hj%elem_of_seq Heq.
    rewrite !nth_ip_dotted in Heq. apply (f_equal ParseIP) in Heq.
    destruct (ip_octets i ltac:(lia)) as [Hi3 Hi4], (ip_octets j ltac:(lia)) as [Hj3 Hj4].
    rewrite (proj1 (To4_dotted 10 1 _ _ ltac:(lia) ltac:(lia) Hi3 Hi4)),
      (proj1 (To4_dotted 10 1 _ _ ltac:(lia) ltac:(lia) Hj3 Hj4)) in Heq.
    injection Heq as H3 H4. pose proof (Z.div_mod (Z.of_nat i) 254). pose proof (Z.div_mod (Z.of_nat j) 254). lia.
  - apply Forall_forall. intros ip (i & <- & Hi%List.in_seq)%List.in_map_iff. rewrite nth_ip_dotted.
    destruct (ip_octets i ltac:(lia)) as [Hi3 Hi4]. apply To4_dotted; lia.
Qed.

(** One more and the third octet is 256. *)
Example address_65025 :
  (ips ← run_generateIPs 65025; list.last ips) = Some "10.1.256.1"%string /\ is_ipv4 "10.1.256.1" = false.
Proof. vm_compute. done. Qed.

(** *** What nft prints *)
Definition is_blank (c : ascii) : bool := bool_decide (nat_of_ascii c ∈ [9; 10; 13; 32]%nat).
Definition is_plain (c : ascii) : bool := is_digit c || Ascii.eqb c ".".

(** An element is an address; nft puts blanks around the elements. *)
Definition plain (s : string) : Prop := s <> ""%string /\ forall_string is_plain s = true.
Definition blank (s : string) : Prop := forall_string is_blank s = true.

Lemma blank_cases c : is_blank c = true -> forall s,
  strip_rune space_runes (String c s) = Some s /\ strip_rune (map rev_string space_runes) (String c s) = Some s.
Proof.
  unfold is_blank. intros H%bool_decide_eq_true_1 s. rewrite <- (ascii_nat_embedding c). revert H.
  generalize (nat_of_ascii c). intros n Hn.
  repeat (apply elem_of_cons in Hn as [Hn|Hn]; [subst n; by destruct s |]). by apply not_elem_of_nil in Hn.
Qed.

Lemma plain_cases c : is_plain c = true -> forall s,
  strip_rune space_runes (String c s) = None /\ strip_rune (map rev_string space_runes) (String c s) = None.
Proof.
  unfold is_plain, is_digit, byte_val. intros H s.
  assert (nat_of_ascii c ∈ [46; 48; 49; 50; 51; 52; 53; 54; 55; 56; 57]%nat) as Hn.
  { apply orb_true_iff in H as [[H1 H2]%andb_true_iff|H%Ascii.eqb_eq]; [| subst c; by left].
    apply Z.leb_le in H1, H2. apply list_elem_of_In. cbn. lia. }
  rewrite <- (ascii_nat_embedding c). revert Hn. generalize (nat_of_ascii c). intros n Hn.
  repeat (apply elem_of_cons in Hn as [Hn|Hn]; [subst n; by destruct s |]). by apply not_elem_of_nil in Hn.
Qed.

(** Trimming strips blanks down to text that starts and ends plainly. *)
Lemma trim_fuel_blank runes n a t :
  (forall c s, is_blank c = true -> strip_rune runes (String c s) = Some s) ->
  blank a -> strip_rune runes t = None -> (String.length a <= n)%nat -> trim_fuel runes n (a +:+ t) = t.
Proof.
  intros Hr. revert n. induction a as [|c a IH]; intros n Ha Ht Hn; [by apply trim_fuel_fixed |].
  unfold blank in *. cbn in Ha, Hn |- *. destruct (is_blank c) eqn:Hc; [| done]. destruct n as [|n]; [lia |].
  cbn. rewrite Hr by done. apply IH; [done | done | lia].
Qed.

Definition solid (t : string) : Prop :=
  (exists c s, t = String c s /\ is_plain c = true) /\ (exists c s, rev_string t = String c s /\ is_plain c = true).

Lemma TrimSpace_solid a t b : blank a -> blank b -> solid t -> TrimSpace (a +:+ t +:+ b) = t.
Proof.
  intros Ha Hb [(c & s & Ht & Hc) (c' & s' & Ht' & Hc')]. unfold TrimSpace, trim_left.
  rewrite (trim_fuel_blank space_runes _ a (t +:+ b) (fun c s H => proj1 (blank_cases c H s)) Ha);
    [| rewrite Ht; exact (proj1 (plain_cases c Hc (s +:+ b))) | rewrite string_length_app; lia].
  unfold trim_right. rewrite rev_string_append.
  rewrite (trim_fuel_blank (map rev_string space_runes) _ (rev_string b) (rev_string t)
             (fun c s H => proj2 (blank_cases c H s)));
    [apply rev_string_involutive | unfold blank; rewrite forall_string_rev; exact Hb
    | rewrite Ht'; exact (proj2 (plain_cases c' Hc' s')) | rewrite length_rev_string, string_length_app; lia].
Qed.

Lemma plain_solid t : plain t -> solid t.
Proof.
  intros [Hne Hp]. split.
  - destruct t as [|c s]; [done |]. exists c, s. split; [done |]. cbn in Hp. by destruct (is_plain c).
  - pose proof (forall_string_rev is_plain t) as Hr. rewrite Hp in Hr.
    destruct (rev_string t) as [|c s] eqn:He; [apply (f_equal rev_string) in He; by rewrite rev_string_involutive in He |].
    exists c, s. split; [done |]. cbn in Hr. by destruct (is_plain c).
Qed.

Lemma Index_lacks c s t : lacks c s -> Index (s +:+ String c t) (String c "") = Some (String.length s).
Proof.
  induction s as [|d s IH]; intros H.
  - cbn. destruct (ascii_dec c c); [by destruct t | done].
  - unfold lacks in *. cbn in *. apply andb_true_iff in H as [Hd Hs]. apply negb_true_iff, Ascii.eqb_neq in Hd.
    destruct (ascii_dec c d); [congruence |]. by rewrite IH.
Qed.

Lemma take_string_app a b : take_string (String.length a) (a +:+ b) = a.
Proof. unfold take_string. induction a as [|c a IH]; [by destruct b | cbn; by rewrite IH]. Qed.

(** The listing of a set: a header, then the elements between braces, with
    blanks wherever nft breaks the line. *)
Definition nft_header : string :=
  "table inet sim {" +:+ bytes [10; 9]%nat +:+ "set down_ips {" +:+ bytes [10; 9; 9]%nat +:+ "type ipv4_addr"
  +:+ bytes [10; 9; 9]%nat.
Definition nft_footer : string := bytes [10; 9; 125; 10; 125; 10]%nat.
Definition item_text (i : string * string) : string := i.1 +:+ i.2.
Definition print_set (items : list (string * string)) (tail : string) : string :=
  match items with
  | [] => nft_header +:+ nft_footer
  | _ => nft_header +:+ elements_mark +:+ (String.concat "," (map item_text items) +:+ tail) +:+ "}" +:+ nft_footer
  end.
Definition printable (items : list (string * string)) (tail : string) : Prop :=
  Forall (fun i => blank i.1 /\ plain i.2) items /\ blank tail.

Definition ends_plainly (t : string) : Prop := exists c s, rev_string t = String c s /\ is_plain c = true.

Lemma ends_plainly_app a b : ends_plainly b -> ends_plainly (a +:+ b).
Proof. intros (c & s & H & Hc). exists c, (s +:+ rev_string a). by rewrite rev_string_append, H. Qed.

Lemma ends_plainly_concat l : l <> [] -> Forall ends_plainly l -> ends_plainly (String.concat "," l).
Proof.
  intros Hne Hl. induction Hl as [|s l Hs Hl IH]; [done |]. destruct l as [|t l]; [exact Hs |].
  change (String.concat "," (s :: t :: l)) with (s +:+ ("," +:+ String.concat "," (t :: l))).
  by apply ends_plainly_app, ends_plainly_app, IH.
Qed.

Lemma item_ends i : plain i.2 -> ends_plainly (item_text i).
Proof. intros H. apply ends_plainly_app. by apply plain_solid in H as [_ ?]. Qed.

Lemma concat_first b s l : String.concat "," ((b +:+ s) :: l) = b +:+ String.concat "," (s :: l).
Proof. destruct l; [done |]. cbn. by rewrite string_app_assoc. Qed.

Lemma mark_found rest : Index (nft_header +:+ elements_mark +:+ rest) elements_mark = Some (String.length nft_header).
Proof. vm_compute. by destruct rest. Qed.

(** What may stand between the braces. *)
Lemma items_lack sep items :
  is_blank sep = false -> is_plain sep = false ->
  Forall (fun i => blank i.1 /\ plain i.2) items -> Forall (lacks sep) (map item_text items).
Proof.
  intros Hb Hp H. apply Forall_map. eapply Forall_impl; [| exact H]. intros [b ip] [Hbl [_ Hpl]].
  unfold lacks, item_text. cbn in *. rewrite forall_string_app.
  rewrite (forall_string_impl is_blank), (forall_string_impl is_plain); [done | | done | | done];
    intros c Hc; apply negb_true_iff, Ascii.eqb_neq; congruence.
Qed.

Lemma concat_lacks sep l : sep <> ","%char -> Forall (lacks sep) l -> lacks sep (String.concat "," l).
Proof.
  intros Hs Hl. induction Hl as [|s l Hsl Hl IH]; [done |]. destruct l as [|t l]; [exact Hsl |].
  change (String.concat "," (s :: t :: l)) with (s +:+ (String "," (String.concat "," (t :: l)))).
  unfold lacks in *. rewrite forall_string_app, Hsl. cbn [forall_string andb]. rewrite IH.
  by destruct (Ascii.eqb_spec "," sep); [congruence |].
Qed.

Lemma clean_items items :
  Forall (fun i => blank i.1 /\ plain i.2) items -> cleanIPs (map item_text items) = map snd items.
Proof.
  intros H. unfold cleanIPs. induction H as [|[b ip] items [Hb Hp] H IH]; [done |]. cbn [map].
  unfold item_text at 1. cbn [fst snd]. rewrite <- (string_app_nil_r ip) at 1.
  rewrite TrimSpace_solid; [| done | done | by apply plain_solid]. cbn [List.filter].
  destruct (String.eqb_spec ip "") as [->|_]; [by destruct Hp |]. cbn [negb]. f_equal. exact IH.
Qed.

Lemma parse_printed items tail :
  printable items tail -> parse_elements (print_set items tail) = map snd items.
Proof.
  intros [Hi Ht]. destruct items as [|[b ip] items]; [vm_compute; reflexivity |].
  unfold print_set. set (all := (b, ip) :: items) in *. unfold parse_elements. rewrite mark_found.
  assert (forall rest, drop_bytes (String.length nft_header + String.length elements_mark)
            (nft_header +:+ elements_mark +:+ rest) = rest) as ->
    by (intros rest; rewrite <- string_app_assoc, <- string_length_app; apply drop_bytes_app).
  assert (lacks "}" (String.concat "," (map item_text all) +:+ tail)) as Hl.
  { unfold lacks. rewrite forall_string_app. rewrite (forall_string_impl is_blank _ tail); [| | exact Ht].
    - rewrite andb_true_r. apply concat_lacks; [done |]. by apply items_lack.
    - intros c Hc. apply negb_true_iff, Ascii.eqb_neq. by intros ->. }
  change ("}" +:+ nft_footer) with (String "}" nft_footer). rewrite Index_lacks by exact Hl.
  rewrite take_string_app. pose proof Hi as Hall. apply Forall_cons_1 in Hi as [[Hb Hip] Hi]. cbn in Hb, Hip.
  assert (TrimSpace (String.concat "," (map item_text all) +:+ tail) = String.concat "," (ip :: map item_text items)) as ->.
  { unfold all. cbn [map]. unfold item_text at 1. cbn [fst snd]. rewrite concat_first, string_app_assoc.
    apply TrimSpace_solid; [done | done |]. split.
    - destruct (plain_solid ip Hip) as [(c & s & -> & Hc) _]. destruct (map item_text items) as [|x l]; [by exists c, s |].
      eexists c, _. split; [reflexivity | done].
    - apply ends_plainly_concat; [done |]. apply Forall_cons_2; [by apply plain_solid in Hip as [_ ?] |].
      apply Forall_map. eapply Forall_impl; [| exact Hi]. intros i [_ ?]. by apply item_ends. }
  destruct (String.eqb_spec (String.concat "," (ip :: map item_text items)) "") as [He|_].
  { destruct ip; [by destruct Hip |]. by destruct (map item_text items). }
  change ip with (item_text (""%string, ip)).
  change (item_text (""%string, ip) :: map item_text items) with (map item_text ((""%string, ip) :: items)).
  assert (Forall (fun i => blank i.1 /\ plain i.2) ((""%string, ip) :: items)) as Hall' by (by apply Forall_cons_2).
  rewrite (Split_concat "," (map item_text ((""%string, ip) :: items))); [| done | by apply items_lack].
  by rewrite clean_items.
Qed.

(** The parser of [listDownIPs] reads back the elements nft prints, however the
    lines are broken. *)
Theorem nft_listing_round_trip items tail :
  printable items tail -> parse_elements (print_set items tail) = map snd items.
Proof. apply parse_printed. Qed.

(** *** The flapper flips *)
Class NftLaws (N : Type) `{NF : Nft N} := {
  down : N -> gset string;
  (** the listing shows the set *)
  nft_list_spec : forall n, (nft_list n).1 = n /\
    match (nft_list n).2 with
    | Ok out => exists items tail, printable items tail /\ out = print_set items tail /\
                                   down n = list_to_set (map snd items)
    | Err _ => True
    end;
  nft_add_spec : forall ip n,
    down (nft_add ip n).1 = if is_ok (nft_add ip n).2 then {[ip]} ∪ down n else down n;
  nft_delete_spec : forall ip n,
    down (nft_delete ip n).1 = if is_ok (nft_delete ip n).2 then down n ∖ {[ip]} else down n;
  nft_flush_spec : forall n,
    down (nft_flush n).1 = if is_ok (nft_flush n).2 then ∅ else down n;
}.

Section SimulatorFacts.
Context {N : Type} `{NF : Nft N} {NL : NftLaws N}.

Lemma listDownIPs_down n r n' : listDownIPs n = (n', Done (Ok r)) -> n' = n /\ r = down n.
Proof.
  unfold listDownIPs. pose proof (nft_list_spec n) as [H1 H2]. destruct (nft_list n) as [n1 [out|e]]; [| done].
  cbn in *. destruct H2 as (items & tail & Hp & -> & Hd). intros [= <- <-].
  split; [done |]. by rewrite (parse_printed _ _ Hp).
Qed.

Lemma listed n : exists n' r, listDownIPs n = (n', Done r) /\ n' = n /\ (forall d, r = Ok d -> d = down n).
Proof.
  destruct (listDownIPs n) as [n' [r|]] eqn:H.
  - exists n', r. split; [done |]. pose proof (nft_list_spec n) as [H1 _]. pose proof H as H'. unfold listDownIPs in H'.
    destruct (nft_list n) as [n1 [out|e]]; cbn in *; injection H' as <- Hr; (split; [done |]); intros d Hd.
    + rewrite Hd in H. by apply listDownIPs_down in H as [_ ?].
    + congruence.
  - unfold listDownIPs in H. by destruct (nft_list n) as [? []].
Qed.

Definition flipped (d sel : gset string) : gset string := (d ∖ sel) ∪ (sel ∖ d).

Lemma flap_all_flips sel n n' :
  NoDup sel -> flap_all sel (down n) n = (n', Done (Ok tt)) -> down n' = flipped (down n) (list_to_set sel).
Proof.
  revert n. induction sel as [|ip sel IH]; intros n Hd Hrun; cbn [flap_all] in Hrun.
  - injection Hrun as <-. unfold flipped. set_solver.
  - apply list.NoDup_cons in Hd as [Hni Hd]. case_bool_decide as Hin.
    + apply bind_Done in Hrun as (n1 & r & Hdel & Hrun). unfold deleteDownIP in Hdel.
      pose proof (nft_delete_spec ip n) as Hs. destruct (nft_delete ip n) as [n2 r2]. injection Hdel as -> ->.
      destruct r as [[]|e]; [| done]. cbn in Hs. rewrite <- Hs in Hrun. rewrite (IH _ Hd Hrun), Hs. unfold flipped.
      apply set_eq. intros x. destruct (decide (x = ip)); set_solver.
    + apply bind_Done in Hrun as (n1 & r & Hadd & Hrun). unfold addDownIP in Hadd.
      pose proof (nft_add_spec ip n) as Hs. destruct (nft_add ip n) as [n2 r2]. injection Hadd as -> ->.
      destruct r as [[]|e]; [| done]. cbn in Hs. rewrite <- Hs in Hrun. rewrite (IH _ Hd Hrun), Hs. unfold flipped.
      apply set_eq. intros x. destruct (decide (x = ip)); set_solver.
Qed.

(** What [pickRandom] picks: distinct addresses, as many as asked for. *)
Lemma pick_spec ips n perm :
  perm ≡ₚ seq 0 (length ips) -> NoDup ips -> (n <= length ips)%nat ->
  exists sel, pick ips n perm = Some sel /\ NoDup sel /\ length sel = n /\ (forall x, x ∈ sel -> x ∈ ips).
Proof.
  intros Hp Hnd Hn. unfold pick.
  assert (forall i, i ∈ take n perm -> (i < length ips)%nat) as Hin.
  { intros i Hi. apply elem_of_take in Hi as (j & Hj & _). apply list_elem_of_lookup_2 in Hj.
    rewrite Hp in Hj. apply elem_of_seq in Hj. lia. }
  assert (NoDup (take n perm)) as Hdp.
  { assert (NoDup perm) as H by (rewrite Hp; apply NoDup_seq). rewrite <- (take_drop n perm) in H.
    by apply list.NoDup_app in H as [? _]. }
  assert (length (take n perm) = n) as Hlen by (rewrite length_take, (Permutation_length Hp), length_seq; lia).
  revert Hin Hdp Hlen. generalize (take n perm) as l. clear Hp Hn perm. revert n.
  intros n l. revert n. induction l as [|i l IH]; intros n Hin Hdp Hlen.
  { exists []. cbn in *. subst. split; [done |]. split; [constructor |]. split; [done |]. by intros x ?%not_elem_of_nil. }
  destruct n as [|n]; [done |]. apply list.NoDup_cons in Hdp as [Hni Hdp].
  destruct (lookup_lt_is_Some_2 ips i) as [x Hx]; [apply Hin; by left |].
  destruct (IH n) as (sel & Hsel & Hsd & Hsl & Hss); [intros j Hj; apply Hin; by right | done | by injection Hlen |].
  exists (x :: sel). cbn. rewrite Hx. cbn. rewrite Hsel. cbn. split; [done |]. split; [| split; [by rewrite Hsl |]].
  - apply list.NoDup_cons. split; [| done]. intros Hxs. apply mapM_Some_1 in Hsel.
    apply list_elem_of_lookup in Hxs as [k Hk]. destruct (Forall2_lookup_r _ _ _ _ _ Hsel Hk) as (j & Hj & Hjx).
    assert (i = j) as -> by (exact (list.NoDup_lookup ips i j x Hnd Hx Hjx)). apply Hni. by eapply list_elem_of_lookup_2.
  - intros y [->|Hy]%elem_of_cons; [by eapply list_elem_of_lookup_2 | by apply Hss].
Qed.

(** A round of the flapper that succeeds flips exactly [flipCount] distinct
    addresses of the range: those that were down are up, those that were up
    are down, and nothing else changed. *)
Theorem flapOnce_flips ips flipCount perm n n' :
  NoDup ips -> perm ≡ₚ seq 0 (length ips) -> 0 < flipCount <= Z.of_nat (length ips) ->
  flapOnce ips flipCount perm n = (n', Done (Ok tt)) ->
  exists sel, NoDup sel /\ Z.of_nat (length sel) = flipCount /\ (forall x, x ∈ sel -> x ∈ ips) /\
    down n' = flipped (down n) (list_to_set sel).
Proof.
  intros Hnd Hp Hc Hrun. unfold flapOnce in Hrun. apply bind_Done in Hrun as (n1 & r & Hl & Hrun).
  destruct r as [d|e]; [| done]. apply listDownIPs_down in Hl as [-> ->].
  unfold pickRandom in Hrun. destruct (Z.ltb_spec (Z.of_nat (length ips)) flipCount); [lia |].
  destruct (Z.leb_spec flipCount 0); [lia |].
  destruct (pick_spec ips (Z.to_nat flipCount) perm Hp Hnd ltac:(lia)) as (sel & Hsel & Hsd & Hlen & Hin).
  rewrite Hsel in Hrun. exists sel. split; [done |]. split; [lia |]. split; [done |]. by apply flap_all_flips.
Qed.

(** The endpoints: taking addresses down adds them, bringing them up removes
    them, whether or not they were down, resetting empties the set, and the
    status counts it. *)
Lemma add_all_adds ips n n' :
  add_all ips n = (n', Done (mkSimResponse 200 StatusOk)) -> down n' = list_to_set ips ∪ down n.
Proof.
  revert n. induction ips as [|ip ips IH]; intros n Hrun; cbn [add_all] in Hrun.
  - injection Hrun as <-. set_solver.
  - apply bind_Done in Hrun as (n1 & r & Hadd & Hrun). unfold addDownIP in Hadd.
    pose proof (nft_add_spec ip n) as Hs. destruct (nft_add ip n) as [n2 r2]. injection Hadd as -> ->.
    destruct r as [[]|e]; [| done]. rewrite (IH _ Hrun). cbn in Hs. rewrite Hs. set_solver.
Qed.

Theorem handlers_change_the_set n :
  (forall ips n', handleDown "POST" (Ok ips) n = (n', Done (mkSimResponse 200 StatusOk)) ->
     down n' = list_to_set (cleanIPs ips) ∪ down n) /\
  (forall n', handleReset "POST" n = (n', Done (mkSimResponse 200 StatusOk)) -> down n' = ∅) /\
  (forall total k n', handleStatus total n = (n', Done (mkSimResponse 200 (StatusOf total k))) ->
     down n' = down n /\ k = Z.of_nat (size (down n))).
Proof.
  split; [intros ips n' Hrun; by apply add_all_adds |]. split.
  - intros n' Hrun. unfold handleReset, flushDownIPs in Hrun. apply bind_Done in Hrun as (n1 & r & Hf & Hrun).
    pose proof (nft_flush_spec n) as Hs. destruct (nft_flush n) as [n2 r2]. injection Hf as -> ->.
    destruct r as [[]|e]; [| done]. by injection Hrun as <-.
  - intros total k n' Hrun. unfold handleStatus in Hrun. apply bind_Done in Hrun as (n1 & r & Hl & Hrun).
    destruct r as [d|e]; [| done]. apply listDownIPs_down in Hl as [-> ->]. by injection Hrun as <- <-.
Qed.
End SimulatorFacts.

(** *** The driver *)

(** The requests a driver has sent, and the answers it gets. *)
Record Calls := mkCalls {
  calls_sent : list (string * option (list string));
  calls_reply : nat -> result Z;
}.
Definition record_post (url : string) (body : option (list string)) : M Calls (result Z) := fun c =>
  (mkCalls (calls_sent c ++ [(url, body)]) (calls_reply c), Done (calls_reply c (length (calls_sent c)))).

(** The cut of a list into batches. *)
Definition batches (sent : list (string * option (list string))) : list (list string) := omap snd sent.

Lemma post_batches_cons fuel url action ips c :
  ips <> [] ->
  post_batches record_post (S fuel) url action ips c =
  let c' := mkCalls (calls_sent c ++ [(url +:+ "/" +:+ action, Some (take toggle_batch ips))]) (calls_reply c) in
  match calls_reply c (length (calls_sent c)) with
  | Ok code => if negb (code =? 200) then (c', Done (Err (Fresh ("simulator returned " +:+ Itoa code))))
               else post_batches record_post fuel url action (drop toggle_batch ips) c'
  | Err e => (c', Done (Err e))
  end.
Proof.
  intros Hne. destruct ips as [|x ips]; [done |]. cbn [post_batches]. unfold bind, record_post at 1.
  destruct (calls_reply c _) as [code|e]; [| done]. by destruct (negb _).
Qed.

Lemma post_batches_cut fuel url action ips c :
  (length ips <= fuel)%nat ->
  exists sent r, post_batches record_post fuel url action ips c = (mkCalls (calls_sent c ++ sent) (calls_reply c), Done r) /\
    Forall (fun b => (0 < length b <= toggle_batch)%nat) (batches sent) /\
    concat (batches sent) `prefix_of` ips /\ (r = Ok tt -> concat (batches sent) = ips).
Proof.
  revert ips c. induction fuel as [|fuel IH]; intros ips c Hf.
  { destruct ips; [| cbn in Hf; lia]. exists [], (Ok tt). cbn. rewrite app_nil_r. split; [by destruct c |].
    split; [by apply Forall_nil_2 |]. split; [by apply prefix_nil | done]. }
  destruct ips as [|x ips].
  { exists [], (Ok tt). cbn. rewrite app_nil_r. split; [by destruct c |]. split; [by apply Forall_nil_2 |].
    split; [by apply prefix_nil | done]. }
  set (all := x :: ips) in *. set (b := take toggle_batch all).
  assert ((0 < length b <= toggle_batch)%nat) as Hb.
  { unfold b. rewrite length_take. unfold toggle_batch, all. cbn [length]. lia. }
  assert (b ++ drop toggle_batch all = all) as Hall by apply take_drop.
  rewrite post_batches_cons by done. fold b. set (url' := url +:+ "/" +:+ action). cbn zeta.
  destruct (calls_reply c (length (calls_sent c))) as [code|e].
  - destruct (negb (code =? 200)).
    + eexists [(url', Some b)], _. split; [reflexivity |]. cbn. rewrite app_nil_r.
      split; [by apply Forall_cons_2; [| apply Forall_nil_2] |]. split; [by exists (drop toggle_batch all) | done].
    + destruct (IH (drop toggle_batch all) (mkCalls (calls_sent c ++ [(url', Some b)]) (calls_reply c)))
        as (sent & r & -> & Hs & Hp & Hr).
      { rewrite length_drop. unfold toggle_batch, all in *. cbn [length] in *. lia. }
      exists ((url', Some b) :: sent), r. cbn [calls_sent calls_reply]. split; [by rewrite <- app_assoc |].
      cbn. split; [by apply Forall_cons_2 |].
      split; [| intros H; specialize (Hr H); unfold batches in Hr; rewrite Hr; exact Hall].
      destruct Hp as [k Hk]. exists k. transitivity (b ++ (concat (batches sent) ++ k)); [by rewrite <- Hk |].
      apply app_assoc.
  - eexists [(url', Some b)], _. split; [reflexivity |]. cbn. rewrite app_nil_r.
    split; [by apply Forall_cons_2; [| apply Forall_nil_2] |]. split; [by exists (drop toggle_batch all) | done].
Qed.

(** Toggling posts the addresses in order, in batches of at most 200 and never
    an empty one; it stops at the first refusal, and when it succeeds every
    address has been posted exactly once. *)
Theorem toggleIPs_batches url action ips c :
  exists sent r, toggleIPs record_post url action ips c = (mkCalls (calls_sent c ++ sent) (calls_reply c), Done r) /\
    Forall (fun b => (0 < length b <= toggle_batch)%nat) (batches sent) /\
    concat (batches sent) `prefix_of` ips /\ (r = Ok tt -> concat (batches sent) = ips).
Proof. by apply post_batches_cut. Qed.


(** *** A run of the driver *)
Section Runs.
Context {W : Type}.
Variable post : string -> option (list string) -> M W (result Z).
Variable get_status : string -> M W (result (Z * Z)).
Variable pool_run : M W (Duration * result ()).
Variable perm_down perm_up : Z -> list nat.

(** What the driver calls may fail, but returns. *)
Definition returns {A} (m : M W A) : Prop := forall w, exists w' a, m w = (w', Done a).
Record Answering : Prop := {
  posts_return : forall url body, returns (post url body);
  status_returns : forall url, returns (get_status url);
  pool_returns : returns pool_run;
}.

Lemma returns_ret {A} (a : A) : returns (ret a : M W A).
Proof. intros w. eauto. Qed.
Lemma returns_bind {A B} (m : M W A) (k : A -> M W B) :
  returns m -> (forall a, returns (k a)) -> returns (bind m k).
Proof. intros Hm Hk w. destruct (Hm w) as (w1 & a & H). destruct (Hk a w1) as (w2 & b & H2). exists w2, b. unfold bind. by rewrite H. Qed.
#[local] Hint Resolve returns_ret returns_bind : returns.

Hypothesis answering : Answering.

Lemma resetAll_returns url : returns (resetAll post url).
Proof. apply returns_bind; [apply answering |]. intros []; auto with returns. Qed.

Lemma post_batches_returns fuel url action ips : returns (post_batches post fuel url action ips).
Proof.
  revert ips. induction fuel as [|fuel IH]; intros ips; [by apply returns_ret |].
  destruct ips as [|ip ips]; [by apply returns_ret |]. apply returns_bind; [apply answering |].
  intros [code|e]; [destruct (negb _) |]; auto with returns.
Qed.

Variable cfg : simConfig.
Hypothesis count_ok : 0 <= serverCount cfg.
Hypothesis percent_ok : 0 <= togglePercent cfg.
Hypothesis product_ok : serverCount cfg * togglePercent cfg < 2 ^ 63.
Hypothesis down_ok : forall r, perm_down r ≡ₚ seq 0 (Z.to_nat (serverCount cfg)).
Hypothesis up_ok : forall r, perm_up r ≡ₚ seq 0 (Z.to_nat (serverCount cfg)).

Lemma length_generate_loop subnet n o3 o4 : length (generate_loop subnet n o3 o4) = n.
Proof. revert o3 o4. induction n as [|n IH]; intros o3 o4; [done |]. cbn. f_equal. by destruct (_ <? _). Qed.

Lemma toggle_count_ok : 0 <= toggle_count cfg.
Proof.
  unfold toggle_count, int64. rewrite wrap_int_small; [apply Z.quot_pos; nia | lia |].
  split; [assert (0 <= serverCount cfg * togglePercent cfg) by nia; lia | lia].
Qed.

(** Any count that is not negative picks as many addresses as there are to pick. *)
Lemma run_pickRandom_some ips n perm :
  0 <= n -> perm ≡ₚ seq 0 (length ips) -> is_Some (run_pickRandom ips n perm).
Proof.
  intros Hn Hp. unfold run_pickRandom. set (n' := if _ <? n then _ else _).
  assert (0 <= n') as Hn' by (unfold n'; destruct (_ <? n); lia).
  destruct (Z.ltb_spec n' 0); [lia |]. unfold pick. apply mapM_is_Some_2.
  apply Forall_forall. intros i Hi%list_elem_of_In. apply lookup_lt_is_Some_2.
  apply elem_of_take in Hi as (j & Hj & _). apply list_elem_of_lookup_2 in Hj. rewrite Hp in Hj.
  apply elem_of_seq in Hj. lia.
Qed.

Lemma run_round_returns ips round :
  length ips = Z.to_nat (serverCount cfg) ->
  returns (run_round post get_status pool_run perm_down perm_up cfg ips round).
Proof.
  intros Hl. pose proof toggle_count_ok as Ht. unfold run_round, toggleIPs.
  destruct (run_pickRandom_some ips (toggle_count cfg) (perm_down round)) as [d ->]; [done | by rewrite Hl |].
  destruct (run_pickRandom_some ips (Z.quot (toggle_count cfg) 2) (perm_up round)) as [u ->];
    [by apply Z.quot_pos | by rewrite Hl |].
  pose proof answering as [_ Hs Hp]. cbn [or_panic].
  repeat (apply returns_bind; [by auto using post_batches_returns with returns | intros ?]).
  apply returns_bind; [| auto with returns]. apply returns_bind; [done |]. auto with returns.
Qed.

Lemma run_rounds_returns ips todo metrics w :
  length ips = Z.to_nat (serverCount cfg) ->
  exists w' ms, run_rounds post get_status pool_run perm_down perm_up cfg ips todo metrics w = (w', Done ms) /\
                length ms = (length metrics + length todo)%nat.
Proof.
  intros Hl. revert metrics w. induction todo as [|r todo IH]; intros metrics w; cbn [run_rounds].
  { exists w, metrics. cbn. split; [done | lia]. }
  destruct (run_round_returns ips r Hl w) as (w1 & rm & H). unfold bind. rewrite H.
  destruct (IH (metrics ++ [rm]) w1) as (w2 & ms & -> & Hms). exists w2, ms. split; [done |].
  rewrite Hms, length_app. cbn. lia.
Qed.

Lemma average_some ms : ms <> [] -> is_Some (average ms).
Proof. intros H. unfold average. destruct ms; [done |]. by eexists. Qed.

(** With at least one round, and counts that are not negative and whose product
    fits an int, the driver comes to an end: with the error of the warm-up or
    of the monitoring app, or with a summary of all its rounds. *)
Theorem run_completes new_app w :
  0 < rounds cfg ->
  exists w' r, run post get_status pool_run perm_down perm_up cfg new_app w = (w', Done r) /\
    (forall k avg, r = Ok (k, avg) -> k = rounds cfg).
Proof.
  intros Hr. unfold run. destruct (resetAll_returns (simulatorURL cfg) w) as (w1 & [[]|e] & H1);
    unfold bind at 1; rewrite H1; [| eexists w1, _; by split].
  unfold run_generateIPs, generateIPs. destruct (Z.ltb_spec (serverCount cfg) 0); [lia |]. cbn [or_panic].
  set (ips := generate_loop _ _ _ _). unfold bind at 1. cbn [ret].
  destruct new_app as [[]|e]; [| eexists w1, _; by split].
  destruct (run_rounds_returns ips (map Z.of_nat (seq 1 (Z.to_nat (rounds cfg)))) [] w1) as (w2 & ms & H2 & Hms);
    [apply length_generate_loop |]. unfold bind at 1. rewrite H2.
  rewrite length_map, length_seq in Hms. cbn in Hms.
  destruct (average_some ms) as [avg Ha]; [intros ->; cbn in Hms; lia |]. rewrite Ha. cbn.
  eexists w2, _. split; [done |]. intros k avg' [= <- _]. lia.
Qed.
End Runs.

(** Without rounds, the summary divides by zero: the driver panics after its
    warm-up.  A SIMULATION_ROUNDS that is no number counts as no rounds. *)
Theorem no_rounds_panics {W} post get_status pool_run perm_down perm_up cfg (w w1 : W) :
  rounds cfg <= 0 -> resetAll post (simulatorURL cfg) w = (w1, Done (Ok tt)) ->
  run post get_status pool_run perm_down perm_up cfg (Ok tt) w = (w1, Panicked).
Proof.
  intros Hr H1. unfold run. unfold bind at 1. rewrite H1. replace (Z.to_nat (rounds cfg)) with 0%nat by lia.
  unfold run_generateIPs, generateIPs. by destruct (_ <? 0).
Qed.

(** ** Witnesses *)

(** A simulator that answers every request with 200. *)
Definition quiet : Calls := mkCalls [] (fun _ => Ok 200).
Definition quiet_status (url : string) : M Calls (result (Z * Z)) := ret (Ok (3, 1)).
Definition quiet_pool : M Calls (Duration * result ()) := ret (Second, Ok tt).
Definition three_servers (n : Z) : simConfig := mkSimConfig 3 n 50 "http://localhost:8080".

Lemma quiet_answers : Answering record_post quiet_status quiet_pool.
Proof. split; intros; intros w; unfold record_post, quiet_status, quiet_pool, ret; eauto. Qed.

Lemma run_completes_witness :
  exists w' r, run record_post quiet_status quiet_pool (fun _ => [2; 0; 1]%nat) (fun _ => [0; 1; 2]%nat)
                 (three_servers 2) (Ok tt) quiet = (w', Done r) /\
    (forall k avg, r = Ok (k, avg) -> k = 2).
Proof.
  apply (run_completes record_post quiet_status quiet_pool _ _ quiet_answers (three_servers 2)).
  - done.
  - done.
  - vm_compute. reflexivity.
  - intros _. apply (Permutation_app_comm [2]%nat [0; 1]%nat).
  - intros _. reflexivity.
  - done.
Defined.

Example two_rounds :
  (run record_post quiet_status quiet_pool (fun _ => [2; 0; 1]%nat) (fun _ => [0; 1; 2]%nat)
     (three_servers 2) (Ok tt) quiet).2 = Done (Ok (2, Second)).
Proof. vm_compute. reflexivity. Qed.

Definition no_number : Environ := fun k => if String.eqb k "SIMULATION_ROUNDS" then "ten"%string else ""%string.

Lemma no_rounds_panics_witness :
  run record_post quiet_status quiet_pool (fun _ => []) (fun _ => []) (load_simConfig no_number) (Ok tt) quiet
  = (mkCalls [("http://localhost:8080/reset"%string, None)] (fun _ => Ok 200), Panicked).
Proof.
  apply (no_rounds_panics _ _ _ _ _ (load_simConfig no_number)); [vm_compute; congruence | vm_compute; reflexivity].
Defined.

(** A set of nftables in memory, which holds addresses only and lists one of
    them a line. *)
Definition is_plain_ip (ip : string) : bool := negb (String.eqb ip "") && forall_string is_plain ip.
Definition mem_set : Type := gset string.
Definition mem_items (d : mem_set) : list (string * string) := map (pair (bytes [10; 9; 9]%nat)) (elements d).

#[local] Instance mem_Nft : Nft mem_set := {
  nft_flush _ := (∅, Ok tt);
  nft_add ip d := if is_plain_ip ip then ({[ip]} ∪ d, Ok tt) else (d, Err (Fresh "exit status 1"));
  nft_delete ip d := if bool_decide (ip ∈ d) then (d ∖ {[ip]}, Ok tt) else (d, Err (Fresh "exit status 1"));
  nft_list d := if forallb is_plain_ip (elements d) then (d, Ok (print_set (mem_items d) " "))
                else (d, Err (Fresh "exit status 1"));
}.

Lemma mem_items_ok d :
  forallb is_plain_ip (elements d) = true -> printable (mem_items d) " " /\ d = list_to_set (map snd (mem_items d)).
Proof.
  intros H. assert (map snd (mem_items d) = elements d) as He.
  { unfold mem_items. rewrite map_map. apply map_id. }
  split; [| by rewrite He, list_to_set_elements_L]. split; [| vm_compute; reflexivity].
  apply Forall_forall. intros [b ip] (ip' & [= <- <-] & Hin)%List.in_map_iff. cbn.
  rewrite forallb_forall in H. specialize (H _ Hin). unfold is_plain_ip in H. apply andb_true_iff in H as [H1 H2].
  split; [vm_compute; reflexivity |]. split; [| exact H2]. intros ->. discriminate.
Qed.

#[local] Program Instance mem_NftLaws : NftLaws mem_set := { down d := d }.
Next Obligation.
  intros d. cbn. destruct (forallb is_plain_ip (elements d)) eqn:H; [| done]. cbn. split; [done |].
  exists (mem_items d), " "%string. destruct (mem_items_ok d H). done.
Qed.
Next Obligation. intros ip d. cbn. by destruct (is_plain_ip ip). Qed.
Next Obligation. intros ip d. cbn. by case_bool_decide. Qed.
Next Obligation. intros d. reflexivity. Qed.

Lemma generated_addresses_witness :
  exists ips, run_generateIPs 300 = Some ips /\ ips = map (nth_ip "10.1") (seq 0 300) /\
    NoDup ips /\ Forall (fun ip => is_ipv4 ip = true) ips.
Proof. apply (generated_addresses 300). lia. Defined.

Lemma nft_listing_round_trip_witness :
  parse_elements (print_set [(" "%string, "10.1.0.1"%string); (bytes [10; 9]%nat, "10.1.0.7"%string)] " ")
  = ["10.1.0.1"; "10.1.0.7"]%string.
Proof.
  apply (nft_listing_round_trip [(" "%string, "10.1.0.1"%string); (bytes [10; 9]%nat, "10.1.0.7"%string)] " ").
  split; [| vm_compute; reflexivity].
  repeat (apply Forall_cons_2; [split; [vm_compute; reflexivity |]; split; [discriminate | vm_compute; reflexivity] |]).
  apply Forall_nil_2.
Defined.

Definition some_ips : list string := ["10.1.0.1"; "10.1.0.2"; "10.1.0.3"]%string.

Lemma flapOnce_flips_witness :
  exists n', flapOnce some_ips 2 [2; 0; 1]%nat ({["10.1.0.1"%string]} : mem_set) = (n', Done (Ok tt)) /\
  exists sel, NoDup sel /\ Z.of_nat (length sel) = 2 /\ (forall x, x ∈ sel -> x ∈ some_ips) /\
    down n' = flipped (down ({["10.1.0.1"%string]} : mem_set)) (list_to_set sel).
Proof.
  eexists. assert (flapOnce some_ips 2 [2; 0; 1]%nat ({["10.1.0.1"%string]} : mem_set)
    = ((flapOnce some_ips 2 [2; 0; 1]%nat ({["10.1.0.1"%string]} : mem_set)).1, Done (Ok tt))) as H
    by (apply run_outcome; vm_compute; reflexivity).
  split; [exact H |]. apply (flapOnce_flips some_ips 2 [2; 0; 1]%nat ({["10.1.0.1"%string]} : mem_set)).
  - apply (bool_decide_unpack _). vm_compute. exact I.
  - apply (Permutation_app_comm [2]%nat [0; 1]%nat).
  - cbn. lia.
  - exact H.
Defined.

Example flapped :
  elements (flapOnce some_ips 2 [2; 0; 1]%nat ({["10.1.0.1"%string]} : mem_set)).1 = ["10.1.0.3"%string].
Proof. vm_compute. reflexivity. Qed.
