(* ===== verification/SimMain.v ===== *)
(** * SimMain: the simulator as it starts, [cmd/simulator/main.go]

    The settings of the process and the goroutine that flips addresses at every
    tick.  The endpoints and a round of the flapper are in [Simulator]. *)

From stdpp Require Import base list strings gmap numbers fin_sets.
From Stdlib Require Import ZArith Lia Ascii.
From S2P Require Import Prelude GoStrings GoTime GoFloat GoParseFloat Config Simulator.
Open Scope Z_scope.

(** ** The environment *)
Section Getters.
Variable env : Environ.

Definition envStr (key defaultVal : string) : string := if String.eqb (env key) "" then defaultVal else env key.

Definition envBool (key : string) (defaultVal : bool) : bool :=
  if String.eqb (env key) "" then defaultVal
  else match ParseBool (env key) with Ok b => b | Err _ => defaultVal end.

Definition envFloat (key : string) (defaultVal : float64) : float64 :=
  if String.eqb (env key) "" then defaultVal
  else match ParseFloat (env key) with (f, None) => f | (_, Some _) => defaultVal end.

(** A duration, or a number of seconds; their product wraps around. *)
Definition envDuration (key : string) (defaultVal : Duration) : Duration :=
  if String.eqb (env key) "" then defaultVal
  else match ParseDuration (env key) with
       | Ok d => d
       | Err _ => match Atoi (env key) with (seconds, None) => int64 (seconds * Second) | (_, Some _) => defaultVal end
       end.

(** [totalIPs] *)
Definition ip_count : Z :=
  if String.eqb (env "SIMULATOR_IP_COUNT") "" then 10000
  else match Atoi (env "SIMULATOR_IP_COUNT") with (n, None) => n | (_, Some _) => 10000 end.

(** ** [startAutoFlapper] *)
Record Flapper := mkFlapper {
  flap_interval : Duration;
  flap_ips : list string;
  flap_count : Z;
  flap_seed : Z;
}.

(** What [int] of a float64 out of its range is. *)
Variable outside : float64 -> Z.

(** [int(float64(totalIPs) * percent / 100)], clamped *)
Definition flip_count (totalIPs : Z) (percent : float64) : Z :=
  let flipCount := int_of_float outside (float64_div (float64_mul (float64_of_int totalIPs) percent) (float64_of_int 100)) in
  let flipCount := if (flipCount <? 1) && (0 <? totalIPs) then 1 else flipCount in
  if totalIPs <? flipCount then totalIPs else flipCount.

Definition flap_seed_of (now : Time) : Z :=
  if String.eqb (env "SIMULATOR_FLAP_SEED") "" then now
  else match Atoi (env "SIMULATOR_FLAP_SEED") with (n, None) => n | (_, Some _) => now end.

(** What the goroutine is started with; [None] when the flapper is disabled.
    A negative number of addresses panics. *)
Definition startAutoFlapper (totalIPs : Z) (subnet : string) (now : Time) : exec (option Flapper) :=
  let interval := envDuration "SIMULATOR_FLAP_INTERVAL" (60 * Second) in
  let percent := envFloat "SIMULATOR_FLAP_PERCENT" (float64_of_int 5) in
  if (interval <=? 0) || float64_leb percent (float64_of_int 0) then Done None
  else match generateIPs totalIPs subnet with
       | None => Panicked
       | Some ips => Done (Some (mkFlapper interval ips (flip_count totalIPs percent) (flap_seed_of now)))
       end.

(** [main], up to the HTTP server. *)
Definition simulator_main (now : Time) : exec (option Flapper) :=
  let totalIPs := ip_count in
  let subnet := envStr "SIMULATOR_SUBNET" "10.1" in
  if envBool "SIMULATOR_AUTO_FLAP_ENABLED" false then startAutoFlapper totalIPs subnet now else Done None.
End Getters.

(** The goroutine: a round per tick, each with the permutation it draws; errors
    are logged. *)
Definition flap_ticks {N} `{Nft N} (f : Flapper) (perms : list (list nat)) : M N () :=
  for_each perms (fun perm => flapOnce (flap_ips f) (flap_count f) perm ;;; ret tt)%go.

(** The routes of [main], for a clean path; the body as the JSON decoder reads it. *)
Definition simulator_serve {N} `{Nft N} (totalIPs : Z) (path method : string) (body : result (list string)) : M N SimResponse :=
  if String.eqb path "/up" then handleUp method body
  else if String.eqb path "/down" then handleDown method body
  else if String.eqb path "/status" then handleStatus totalIPs
  else if String.eqb path "/reset" then handleReset method
  else ret (mkSimResponse 404 (Plain "404 page not found")).

(** ** Distinct addresses *)
Lemma append_cancel a x y : a +:+ x = a +:+ y -> x = y.
Proof. induction a as [|c a IH]; cbn; [done |]. intros [= H]. auto. Qed.

Lemma digits_lack s a v : parse_digits s a = Some v -> lacks "."%char s.
Proof.
  revert a. induction s as [|c s IH]; intros a; [done |]. cbn [parse_digits]. destruct (is_digit c) eqn:Hc; [| done].
  intros Hp. unfold lacks in *. cbn. rewrite (IH _ Hp), andb_true_r. destruct (digit_plain c Hc) as [_ Hall]. cbn in Hall.
  rewrite !andb_true_iff in Hall. tauto.
Qed.

Lemma Itoa_lacks n : 0 <= n -> lacks "."%char (Itoa n).
Proof. intros Hn. unfold Itoa. destruct (Z.ltb_spec n 0); [lia |]. by eapply digits_lack, itoa_nonneg_parse. Qed.

Lemma Itoa_inj n m : 0 <= n -> 0 <= m -> Itoa n = Itoa m -> n = m.
Proof.
  intros Hn Hm. unfold Itoa. destruct (Z.ltb_spec n 0), (Z.ltb_spec m 0); try lia. intros He.
  pose proof (itoa_nonneg_parse n Hn) as H1. rewrite He, (itoa_nonneg_parse m Hm) in H1. congruence.
Qed.

Lemma dot_parts a b a' b' : lacks "."%char a -> lacks "."%char a' -> a +:+ "." +:+ b = a' +:+ "." +:+ b' -> a = a' /\ b = b'.
Proof.
  intros Ha Ha' He. pose proof (f_equal (fun s => Split s "."%char) He) as Hs. cbn beta in Hs.
  change (Split (a +:+ String "." b) "." = Split (a' +:+ String "." b') ".") in Hs.
  rewrite !Split_app in Hs by done. injection Hs as <- _. split; [done |]. by apply append_cancel, (append_cancel ".") in He.
Qed.

Lemma nth_ip_inj subnet i j : nth_ip subnet i = nth_ip subnet j -> i = j.
Proof.
  assert (forall k, 0 <= Z.of_nat k / 254 /\ 0 <= Z.of_nat k mod 254) as Hpos.
  { intros k. split; [apply Z.div_pos; lia | apply Z.mod_pos_bound; lia]. }
  destruct (Hpos i) as [Hi1 Hi2], (Hpos j) as [Hj1 Hj2]. unfold nth_ip.
  intros He%append_cancel%(append_cancel ".").
  destruct (dot_parts _ _ _ _ (Itoa_lacks _ Hi1) (Itoa_lacks _ Hj1) He) as [H1 H2].
  apply Itoa_inj in H1, H2; [| lia ..]. pose proof (Z.div_mod (Z.of_nat i) 254). pose proof (Z.div_mod (Z.of_nat j) 254). lia.
Qed.

Lemma generateIPs_distinct count subnet ips :
  generateIPs count subnet = Some ips -> NoDup ips /\ Z.of_nat (length ips) = count.
Proof.
  unfold generateIPs. destruct (Z.ltb_spec count 0); [done |]. intros [= <-].
  rewrite (generate_loop_closed subnet _ 0) by done. split.
  - apply NoDup_fmap_2_strong; [| apply NoDup_seq]. intros i j _ _. apply nth_ip_inj.
  - rewrite length_map, length_seq. lia.
Qed.

(** ** The flapper *)
Lemma flip_count_bounds outside totalIPs percent :
  0 < totalIPs -> 1 <= flip_count outside totalIPs percent <= totalIPs.
Proof.
  intros Ht. unfold flip_count. generalize (int_of_float outside
    (float64_div (float64_mul (float64_of_int totalIPs) percent) (float64_of_int 100))) as k. intros k.
  destruct (Z.ltb_spec k 1), (Z.ltb_spec 0 totalIPs); cbn [andb]; try lia;
    destruct (Z.ltb_spec totalIPs 1), (Z.ltb_spec totalIPs k); lia.
Qed.

Section Flapping.
Context {N : Type} `{NF : Nft N} {NL : NftLaws N}.

(** A round flips the first so many of the addresses picked: all of them when
    it succeeds. *)
Lemma flap_all_prefix sel n n' r :
  NoDup sel -> flap_all sel (down n) n = (n', r) ->
  exists k, down n' = flipped (down n) (list_to_set (take k sel)) /\
    exists x, r = Done x /\ (x = Ok tt -> (length sel <= k)%nat).
Proof.
  revert n. induction sel as [|ip sel IH]; intros n Hd Hrun; cbn [flap_all] in Hrun.
  - injection Hrun as <- <-. exists 0%nat. split; [unfold flipped; set_solver |]. eexists. by split; [| cbn].
  - apply list.NoDup_cons in Hd as [Hni Hd].
    assert (forall (m : M N (result ())) d1,
      (exists n1 x, m n = (n1, Done x) /\ down n1 = if is_ok x then d1 else down n) ->
      d1 = flipped (down n) {[ip]} -> (_u <-? m ;; flap_all sel d1)%go n = (n', r) ->
      exists k, down n' = flipped (down n) (list_to_set (take k (ip :: sel))) /\
        exists x, r = Done x /\ (x = Ok tt -> (length (ip :: sel) <= k)%nat)) as Hgo.
    { intros m d1 (n1 & x & Hm & Hdown) Hd1 Hr. unfold bind in Hr. rewrite Hm in Hr. destruct x as [[]|e]; cbn in *.
      - rewrite <- Hdown in Hr. destruct (IH _ Hd Hr) as (k & Hk & y & Hy & Hok). exists (S k). split.
        + rewrite Hk, Hdown, Hd1. cbn. assert (ip ∉ take k sel) as Hnk.
          { intros (j & Hj & _)%elem_of_take. by apply Hni, (list_elem_of_lookup_2 _ j). }
          unfold flipped. apply set_eq. intros z. destruct (decide (z = ip)) as [->|]; set_solver.
        + exists y. split; [done |]. intros Hy'. specialize (Hok Hy'). lia.
      - injection Hr as <- <-. exists 0%nat. split; [rewrite Hdown; unfold flipped; set_solver |]. eexists. by split. }
    case_bool_decide as Hin.
    + eapply (Hgo (deleteDownIP ip)); [| | exact Hrun].
      * unfold deleteDownIP. pose proof (nft_delete_spec ip n) as Hs. destruct (nft_delete ip n) as [n2 x]. by exists n2, x.
      * unfold flipped. set_solver.
    + eapply (Hgo (addDownIP ip)); [| | exact Hrun].
      * unfold addDownIP. pose proof (nft_add_spec ip n) as Hs. destruct (nft_add ip n) as [n2 x]. by exists n2, x.
      * unfold flipped. set_solver.
Qed.

(** The addresses whose state differs. *)
Definition changed (d d' : gset string) : gset string := (d ∖ d') ∪ (d' ∖ d).

Lemma changed_flipped d s : changed d (flipped d s) = s.
Proof. unfold changed, flipped. apply set_eq. intros x. destruct (decide (x ∈ d)), (decide (x ∈ s)); set_solver. Qed.

Lemma changed_trans d1 d2 d3 : changed d1 d3 ⊆ changed d1 d2 ∪ changed d2 d3.
Proof. unfold changed. intros x. destruct (decide (x ∈ d2)); set_solver. Qed.

Lemma size_union_le (X Y : gset string) : (size (X ∪ Y) <= size X + size Y)%nat.
Proof. rewrite size_union_alt. assert (size (Y ∖ X) <= size Y)%nat by (apply subseteq_size; set_solver). lia. Qed.

(** A round, whether it succeeds or fails. *)
Lemma flapOnce_changes ips flipCount perm n :
  NoDup ips -> perm ≡ₚ seq 0 (length ips) -> 0 <= flipCount <= Z.of_nat (length ips) ->
  exists n' r, flapOnce ips flipCount perm n = (n', Done r) /\
    changed (down n) (down n') ⊆ list_to_set ips /\ Z.of_nat (size (changed (down n) (down n'))) <= flipCount /\
    (r = Ok tt -> Z.of_nat (size (changed (down n) (down n'))) = flipCount).
Proof.
  intros Hnd Hp Hc. unfold flapOnce, bind.
  destruct (listed n) as (n1 & r1 & -> & -> & Hd). destruct r1 as [d|e].
  2: { exists n, (Err e). assert (changed (down n) (down n) = ∅) as -> by (unfold changed; set_solver).
       split; [done |]. split; [set_solver |]. split; [rewrite size_empty; lia | done]. }
  rewrite (Hd d eq_refl). unfold pickRandom. destruct (Z.ltb_spec (Z.of_nat (length ips)) flipCount); [lia |].
  assert (exists sel, (if flipCount <=? 0 then Some [] else pick ips (Z.to_nat flipCount) perm) = Some sel /\ NoDup sel /\
    Z.of_nat (length sel) = flipCount /\ forall x, x ∈ sel -> x ∈ ips) as (sel & -> & Hsd & Hlen & Hin).
  { destruct (Z.leb_spec flipCount 0).
    - exists []. split; [done |]. split; [constructor |]. split; [cbn; lia |]. by intros x ?%not_elem_of_nil.
    - destruct (pick_spec ips (Z.to_nat flipCount) perm Hp Hnd ltac:(lia)) as (sel & H1 & H2 & H3 & H4).
      exists sel. repeat split; [done | done | lia | done]. }
  destruct (flap_all sel (down n) n) as [n' r] eqn:Hrun.
  destruct (flap_all_prefix _ _ _ _ Hsd Hrun) as (k & Hk & x & -> & Hok). exists n', x. split; [done |].
  rewrite Hk, changed_flipped. assert (NoDup (take k sel)) as Hnk.
  { rewrite <- (take_drop k sel) in Hsd. by apply list.NoDup_app in Hsd as [? _]. }
  rewrite size_list_to_set, length_take by done. split; [| split; [lia | intros ->; specialize (Hok eq_refl); lia]].
  intros y Hy%elem_of_list_to_set. apply elem_of_list_to_set, Hin. apply elem_of_take in Hy as (j & Hj & _).
  by eapply list_elem_of_lookup_2.
Qed.

(** The flapper of a simulator with addresses never crashes.  It changes no
    address outside its range, and no more than [flipCount] of them a tick,
    which is at least one and at most all, whatever percentage was set and
    whichever nft commands fail. *)
Theorem flapper_stays_in_range outside env now f perms n :
  0 < ip_count env -> simulator_main env outside now = Done (Some f) ->
  Forall (fun perm => perm ≡ₚ seq 0 (length (flap_ips f))) perms ->
  Z.of_nat (length (flap_ips f)) = ip_count env /\ 1 <= flap_count f <= ip_count env /\
  exists n', flap_ticks f perms n = (n', Done tt) /\
    changed (down n) (down n') ⊆ list_to_set (flap_ips f) /\
    Z.of_nat (size (changed (down n) (down n'))) <= Z.of_nat (length perms) * flap_count f.
Proof.
  intros Hc Hmain Hperms. unfold simulator_main, startAutoFlapper in Hmain. destruct (envBool _ _ _); [| done].
  destruct (_ || _); [done |]. destruct (generateIPs _ _) as [ips|] eqn:Hips; [| done]. injection Hmain as <-.
  cbn [flap_ips flap_count] in *.
  destruct (generateIPs_distinct _ _ _ Hips) as [Hnd Hlen]. split; [done |].
  match goal with |- context [flip_count outside (ip_count env) ?p] =>
    pose proof (flip_count_bounds outside (ip_count env) p Hc) as Hb; revert Hb; generalize (flip_count outside (ip_count env) p) as k end.
  intros k Hb. split; [done |]. unfold flap_ticks. cbn [flap_ips flap_count].
  revert n. induction Hperms as [|perm perms Hp Hps IH]; intros n; cbn [for_each length].
  - exists n. assert (changed (down n) (down n) = ∅) as -> by (unfold changed; set_solver).
    split; [done |]. split; [set_solver |]. rewrite size_empty. lia.
  - destruct (flapOnce_changes ips k perm n Hnd Hp ltac:(lia)) as (n1 & r & Hrun & Hs1 & Hz1 & _).
    destruct (IH n1) as (n2 & Hr2 & Hs2 & Hz2). exists n2. unfold bind at 1. unfold bind at 1. rewrite Hrun. cbn. split; [done |].
    pose proof (changed_trans (down n) (down n1) (down n2)) as Ht. split; [set_solver |].
    pose proof (subseteq_size _ _ Ht). pose proof (size_union_le (changed (down n) (down n1)) (changed (down n1) (down n2))). lia.
Qed.
End Flapping.

(** ** Concrete runs *)
Section SimMainRuns.
#[local] Existing Instance mem_Nft.
#[local] Existing Instance mem_NftLaws.

Definition flapping (percent : string) : Environ := fun k =>
  if String.eqb k "SIMULATOR_AUTO_FLAP_ENABLED" then "true"
  else if String.eqb k "SIMULATOR_IP_COUNT" then "3"
  else if String.eqb k "SIMULATOR_FLAP_INTERVAL" then "10"
  else if String.eqb k "SIMULATOR_FLAP_PERCENT" then percent
  else ""%string.
(** amd64 *)
Definition least_int (_ : float64) : Z := min_int64.

Example flap_settings :
  simulator_main (flapping "70.5") least_int 7 = Done (Some (mkFlapper (10 * Second) some_ips 2 7)) /\
  simulator_main (flapping "0") least_int 7 = Done None /\
  simulator_main (flapping "-1e-3") least_int 7 = Done None /\
  (* a percentage that does not parse is the default of 5, one that is too large for an int is one address *)
  simulator_main (flapping "70%") least_int 7 = Done (Some (mkFlapper (10 * Second) some_ips 1 7)) /\
  simulator_main (flapping "1e30") least_int 7 = Done (Some (mkFlapper (10 * Second) some_ips 1 7)).
Proof. vm_compute. done. Qed.

(** The settings of docker-compose.yml. *)
Example compose_flips : flip_count least_int 10000 (float64_of_int 5) = 500.
Proof. vm_compute. reflexivity. Qed.

Lemma flapper_stays_in_range_witness : exists n',
  flap_ticks (mkFlapper (10 * Second) some_ips 2 7) [[2; 0; 1]; [0; 1; 2]]%nat ({["10.1.0.1"%string]} : mem_set) = (n', Done tt) /\
  Z.of_nat (size (changed (down ({["10.1.0.1"%string]} : mem_set)) (down n'))) <= 4.
Proof.
  destruct (flapper_stays_in_range (N := mem_set) least_int (flapping "70.5") 7 (mkFlapper (10 * Second) some_ips 2 7)
    [[2; 0; 1]; [0; 1; 2]]%nat ({["10.1.0.1"%string]} : mem_set)) as (_ & _ & n' & Hrun & _ & Hz).
  - vm_compute. reflexivity.
  - vm_compute. reflexivity.
  - apply Forall_cons_2; [apply (Permutation_app_comm [2]%nat [0; 1]%nat) |]. apply Forall_cons_2; [reflexivity | apply Forall_nil_2].
  - exists n'. split; [exact Hrun | exact Hz].
Defined.
End SimMainRuns.
