(* ===== verification/SimSeed.v ===== *)
(** * SimSeed: [cmd/simulator/seed], the simulated servers in PostgreSQL and Redis

    The command deletes the servers of an earlier simulation, empties the part
    of Redis that belongs to the servers, and inserts new servers in batches,
    into the table and into the cache.  KEYS, which no other component uses, is
    a parameter with its law ([RedisKeys]). *)

From stdpp Require Import base list strings gmap numbers.
From Stdlib Require Import ZArith Lia.
From S2P Require Import Prelude GoStrings GoTime Domain Env MemEnv GoNet Servers ImportExport Config Simulator.
Open Scope Z_scope.

(** [client.Keys(ctx, prefix + [*])], for a prefix without special characters. *)
Class RedisKeys `{E : Env} := { redis_Keys : string -> RedisServer -> RedisServer * result (list string) }.

(** The keys found begin with the prefix, and every such key that holds a hash
    or a set is found. *)
Class RedisKeysLaws `{K : RedisKeys} {L : EnvLaws E} := {
  redis_Keys_spec : forall prefix r,
    data (redis_Keys prefix r).1 = data r /\
    (redis_up r -> redis_up (redis_Keys prefix r).1) /\
    match (redis_Keys prefix r).2 with
    | Ok ks => forall k, String.prefix prefix k = true ->
                 hash_of (data r) k <> ∅ \/ set_of (data r) k <> ∅ -> k ∈ ks
    | Err _ => ~ redis_up r
    end;
}.

Section Seeding.
Context `{K : RedisKeys}.
Variable connect : string -> result ().     (* database.GetInstance *)

Definition sim_server (id name ip : string) : Server :=
  mkServer id name ip ServerStatusOnline 0 zero_time zero_time.
Definition sim_item (id ip : string) : CacheUpsertItem := mkCacheItem id ip "ONLINE" 0.

(** [id[:8]] panics when the string is shorter. *)
Definition first8 (id : string) : M World string :=
  if (String.length id <? 8)%nat then panic else ret (String.substring 0 8 id).

(** The loop that fills a batch of [n]. *)
Fixpoint seed_batch (n : nat) (octet3 octet4 : Z) (batch : list Server) (cacheItems : list CacheUpsertItem)
  : M World (list Server * list CacheUpsertItem * Z * Z) :=
  match n with
  | O => ret (batch, cacheItems, octet3, octet4)
  | S n =>
      let ip := "10.1" +:+ "." +:+ Itoa octet3 +:+ "." +:+ Itoa octet4 in
      u <-- uuid_New ;;
      let id := uuid_String u in
      short <-- first8 id ;;
      let batch := batch ++ [sim_server id ("sim-" +:+ short) ip] in
      let cacheItems := cacheItems ++ [sim_item id ip] in
      let octet4 := octet4 + 1 in
      if 254 <? octet4 then seed_batch n (octet3 + 1) 1 batch cacheItems
      else seed_batch n octet3 octet4 batch cacheItems
  end.

Definition sim_batchSize : Z := 500.

(** The loop over the batches.  Every iteration takes at least one server, so
    a fuel above [count] is never used up ([seed_run_outcome]: no panic). *)
Fixpoint seed_loop (fuel : nat) (cache : CacheManager) (i count octet3 octet4 : Z) : M World (result ()) :=
  match fuel with
  | O => panic
  | S fuel =>
      if i <? count then
        let end_ := if count <? i + sim_batchSize then count else i + sim_batchSize in
        filled <-- seed_batch (Z.to_nat (end_ - i)) octet3 octet4 [] [] ;;
        let '(batch, cacheItems, octet3, octet4) := filled in
        created <-- serverRepo_BatchCreate batch ;;
        match created with
        | Err e => ret (Err (Wrapped ("batch create at offset " +:+ Itoa i) e))
        | Ok _ => cache_BatchUpsert cache cacheItems ;;; seed_loop fuel cache (i + sim_batchSize) count octet3 octet4
        end
      else ret (Ok tt)
  end.

(** Redis is emptied of every key of the servers; its errors are ignored. *)
Definition flush_cache (redisClient : option RedisConfig) : M World () :=
  match redisClient with
  | None => ret tt
  | Some _ =>
      keys <-- redis_call (as_interface redisClient) (redis_Keys "server:") ;;
      match keys with
      | Ok (k :: ks) => redis_call (as_interface redisClient) (redis_Exec (map DEL (k :: ks))) ;;; ret tt
      | _ => ret tt
      end
  end.

Definition is_sim (s : Server) : bool := String.prefix "sim-" (server_ServerName s).

Definition seed_count (env : Environ) : Z :=
  if String.eqb (env "SIMULATOR_IP_COUNT") "" then 10000 else (Atoi (env "SIMULATOR_IP_COUNT")).1.

Definition seed_run (env : Environ) : M World (result ()) :=
  let count := seed_count env in
  match Load env with
  | Err e => ret (Err (Wrapped "load config" e))
  | Ok cfg =>
    match connect (cfg_DBUrl cfg) with
    | Err e => ret (Err (Wrapped "db connect" e))
    | Ok _ =>
      deleted <-? db_servers (gorm_Delete is_sim) orelse Wrapped "cleanup old sim servers" ;;
      match LoadRedisConfig env with
      | Err e => ret (Err (Wrapped "redis config" e))
      | Ok redisCfg =>
        let redisClient := NewRedisClient (Some redisCfg) in
        let cache := NewServerCache (as_interface redisClient) in
        flush_cache redisClient ;;;
        seed_loop (S (Z.to_nat count)) cache 0 count 0 1
      end
    end
  end.
End Seeding.

(** ** What it leaves *)
Section SeedFacts.
Context `{K : RedisKeys} {L : EnvLaws E} {KL : RedisKeysLaws}.
#[local] Abbreviation servers w := (rows (w_servers w)).
#[local] Abbreviation cached_servers w := (redis_view (data (w_redis w))).

(** The addresses of [new] are those the counters enumerate from [i] on. *)
Definition numbered (i : nat) (new : list Server) : Prop :=
  map server_IPv4 new = map (nth_ip "10.1") (seq i (length new)).
Definition simulated (s : Server) : Prop :=
  server_ServerID s <> ""%string /\ is_sim s = true /\ server_CurrentStatus s = ServerStatusOnline /\
  server_ConsecutiveFailures s = 0.

Lemma is_sim_name id short ip : is_sim (sim_server id ("sim-" +:+ short) ip) = true.
Proof. unfold is_sim. cbn. by destruct short. Qed.

Lemma seed_batch_outcome n i batch w :
  (forall k, (8 <= String.length (uuid_String (w_uuids w k)))%nat) ->
  wp (seed_batch n (Z.of_nat i / 254) (Z.of_nat i mod 254 + 1) batch (map cache_item batch)) w
    (fun '(b, items, o3, o4) w' => exists new d, w' = set_drawn d w /\ b = batch ++ new /\ items = map cache_item b /\
       length new = n /\ numbered i new /\ Forall simulated new /\
       o3 = Z.of_nat (i + n) / 254 /\ o4 = Z.of_nat (i + n) mod 254 + 1) (fun _ => False).
Proof.
  revert i batch w. induction n as [|n IH]; intros i batch w Hlen; cbn [seed_batch].
  { apply wp_ret. exists [], (w_drawn w). rewrite app_nil_r, Nat.add_0_r. split_and!; try done; by destruct w. }
  apply wp_bind, wp_uuid_New, wp_bind. unfold first8.
  destruct (Nat.ltb_spec (String.length (uuid_String (w_uuids w (w_drawn w)))) 8) as [Hlt|_]; [specialize (Hlen (w_drawn w)); lia |].
  apply wp_ret. set (s := sim_server _ _ _).
  replace (map cache_item batch ++ [sim_item (uuid_String (w_uuids w (w_drawn w))) _]) with (map cache_item (batch ++ [s]))
    by (by rewrite map_app).
  pose proof (octets_next i) as Hn.
  assert (wp (seed_batch n (Z.of_nat (S i) / 254) (Z.of_nat (S i) mod 254 + 1) (batch ++ [s]) (map cache_item (batch ++ [s])))
     (set_drawn (S (w_drawn w)) w)
    (fun '(b, items, o3, o4) w' => exists new d, w' = set_drawn d w /\ b = batch ++ new /\ items = map cache_item b /\
       length new = S n /\ numbered i new /\ Forall simulated new /\
       o3 = Z.of_nat (i + S n) / 254 /\ o4 = Z.of_nat (i + S n) mod 254 + 1) (fun _ => False)) as Hrest.
  { eapply wp_mono; [by apply IH |]. intros [[[b items] o3] o4] w' (new & d & -> & -> & Hi & Hl & Hnum & Hsim & Ho3 & Ho4).
    exists (s :: new), d. rewrite Nat.add_succ_r. split_and!; try done.
    - by rewrite <- app_assoc.
    - cbn. by rewrite Hl.
    - unfold numbered in *. cbn [map length seq]. by rewrite Hnum.
    - apply Forall_cons_2; [| exact Hsim]. unfold simulated. split_and!; try done; [| apply is_sim_name].
      cbn. intros He. specialize (Hlen (w_drawn w)). rewrite He in Hlen. cbn in Hlen. lia. }
  destruct (254 <? _); injection Hn as H3 H4; rewrite <- H3, <- H4 in Hrest; exact Hrest.
Qed.
Lemma inserted_simulated batch created :
  Forall simulated batch -> inserted batch created ->
  Forall simulated created /\ map cache_item created = map cache_item batch /\
  map server_IPv4 created = map server_IPv4 batch /\ length created = length batch.
Proof.
  intros Hb Hi. induction Hi as [|r r' rs rs' (now & gen & serial & ->) Hi IH]; [done |].
  apply Forall_cons_1 in Hb as [(Hid & Hsim & Hst & Hf) Hb]. destruct (IH Hb) as (IH1 & IH2 & IH3 & IH4).
  assert (default_string (uuid_String gen) (server_ServerID r) = server_ServerID r) as Hd
    by (unfold default_string; by destruct (String.eqb_spec (server_ServerID r) "")).
  split_and!; [apply Forall_cons_2; [| done] | | |]; cbn -[cache_item].
  - unfold simulated. cbn. rewrite Hd, Hst. done.
  - rewrite IH2. unfold cache_item. cbn. by rewrite Hd, Hst.
  - by rewrite IH3.
  - by rewrite IH4.
Qed.

(** The state between two batches: [new] has been added to [base], and the
    cache holds exactly [new]. *)
Definition seeded_so_far (base new : list Server) (w : World) : Prop :=
  servers w = base ++ new /\ NoClash (servers w) /\ numbered 0 new /\ Forall simulated new /\
  agrees (cached_servers w) new /\ table_up (w_servers w) /\ redis_up (w_redis w).

(** One batch that is stored. *)
Lemma seeded_batch base new created w w' :
  seeded_so_far base new w -> Forall simulated created -> numbered (length new) created ->
  servers w' = servers w ++ created -> NoClash (servers w') -> table_up (w_servers w') -> redis_up (w_redis w') ->
  (forall i, cached_servers w' i = foldl (fun v it => view_upsert it v) (cached_servers w) (map cache_item created) i) ->
  seeded_so_far base (new ++ created) w'.
Proof.
  intros (Hr & HN & Hnum & Hsim & Ha & _ & _) Hc Hcn Hr' HN' Ht Hu Hv. unfold seeded_so_far.
  assert (NoClash (new ++ created)) as HN2 by (rewrite Hr', Hr, <- app_assoc in HN'; by apply NoClash_suffix in HN').
  assert (Forall (fun s => server_ConsecutiveFailures s = 0) created) as Hz
    by (eapply Forall_impl; [| exact Hc]; by intros y (_ & _ & _ & ?)).
  split_and!; try done.
  - by rewrite Hr', Hr, app_assoc.
  - unfold numbered in *. by rewrite map_app, Hnum, Hcn, length_app, seq_app, map_app.
  - by apply Forall_app_2.
  - destruct (agrees_add_many created _ _ Ha HN2 Hz) as [H1 H2].
    split; [intros s Hs; rewrite Hv; by apply H1 | intros i; rewrite Hv; apply H2].
Qed.

(** The cache writes to Redis alone. *)
Lemma BatchUpsert_redis items w :
  wp (ServerCache_BatchUpsert LiveClient items) w (fun _ w' => exists s, w' = set_redis s w) (fun _ => False).
Proof.
  unfold ServerCache_BatchUpsert. cbn [iface_is_nil orb]. destruct (length items =? 0)%nat.
  - apply wp_ret. exists (w_redis w). by destruct w.
  - apply wp_bind, wp_redis_Exec. intros s [[]|e] _; apply wp_ret; eauto.
Qed.

Lemma seed_loop_outcome count base fuel : forall i new w,
  0 <= i -> (Z.to_nat (count - i) < fuel)%nat -> length new = Z.to_nat (Z.min i count) ->
  (forall k, (8 <= String.length (uuid_String (w_uuids w k)))%nat) -> seeded_so_far base new w ->
  wp (seed_loop fuel (NewServerCache LiveClient) i count (Z.of_nat (length new) / 254) (Z.of_nat (length new) mod 254 + 1)) w
    (fun r w' => exists new, seeded_so_far base new w' /\ (r = Ok tt -> length new = Z.to_nat count)) (fun _ => False).
Proof.
  induction fuel as [|fuel IH]; intros i new w Hi Hfuel Hlen Huuid Hw; [lia |]. cbn [seed_loop].
  destruct (Z.ltb_spec i count) as [Hic|Hic]; [| apply wp_ret; exists new; split; [done |]; intros _; rewrite Hlen; lia].
  cbn zeta. set (e := if count <? i + sim_batchSize then count else i + sim_batchSize).
  assert (e = Z.min (i + sim_batchSize) count /\ i < e) as [He Hlt]
    by (unfold e, sim_batchSize; destruct (Z.ltb_spec count (i + 500)); lia).
  apply wp_bind. eapply wp_mono; [apply (seed_batch_outcome _ (length new) []); exact Huuid |].
  intros [[[batch items] o3] o4] w1 (b & d & -> & -> & -> & Hb & Hnum & Hsim & -> & ->). cbn [app].
  apply wp_bind. unfold serverRepo_BatchCreate. destruct (Nat.eqb_spec (length b) 0); [lia |].
  wp_step. apply Create_outcome in Hst as [Hup Hcr]. destruct r as [created|err].
  2: { apply wp_ret. exists new. split; [| done]. destruct Hcr as [Hrows _]. destruct Hw as (Hr & HN & ? & ? & ? & Ht & ?).
       unfold seeded_so_far. world_simpl. rewrite Hrows. split_and!; auto. }
  destruct Hcr as (Hins & Hrows & HN & _). destruct (inserted_simulated _ _ Hsim Hins) as (Hcs & Hci & Hcip & Hcl).
  apply wp_bind. eapply wp_conseq;
    [apply wp_and; [apply (cache_BatchUpsert_law (c := NewServerCache LiveClient)) | apply BatchUpsert_redis] | | by intros w2 [_ []]].
  intros r w2 [[_ Hlaw] [rd ->]]. pose proof Hw as (_ & HNw & _ & _ & _ & Htw & Huw).
  destruct (Hlaw Huw) as (_ & Hu2 & Hview). cbn in Hview. rewrite <- Hci in Hview.
  assert (seeded_so_far base (new ++ created) (set_redis rd (set_servers s (set_drawn d w)))) as Hw2.
  { apply (seeded_batch base new created w); world_simpl; try done; [| rewrite Hrows; auto | auto].
    unfold numbered in *. by rewrite Hcip, Hcl. }
  assert (length (new ++ created) = (length new + Z.to_nat (e - i))%nat) as Hl by (rewrite length_app; lia).
  rewrite <- Hl. apply IH; [unfold sim_batchSize; lia | unfold sim_batchSize; lia | lia | exact Huuid | exact Hw2].
Qed.

(** An emptied cache shows nothing. *)
Lemma DEL_empties ks d : (set_of d ServerAllIDsKey <> ∅ -> ServerAllIDsKey ∈ ks) ->
  set_of (foldl (fun d c => exec_cmd c d) d (map DEL ks)) ServerAllIDsKey = ∅.
Proof.
  revert d. induction ks as [|k ks IH]; intros d Hd; cbn [map foldl].
  - destruct (decide (set_of d ServerAllIDsKey = ∅)) as [|Hne]; [done |]. by apply Hd, not_elem_of_nil in Hne.
  - apply IH. intros Hne. destruct (decide (k = ServerAllIDsKey)) as [->|Hk].
    + destruct Hne. unfold set_of. cbn. by rewrite lookup_delete_eq.
    + assert (set_of (exec_cmd (DEL k) d) ServerAllIDsKey = set_of d ServerAllIDsKey) as Hs
        by (unfold set_of; cbn; by rewrite lookup_delete_ne).
      rewrite Hs in Hne. apply Hd in Hne. set_solver.
Qed.

Lemma empty_view d : set_of d ServerAllIDsKey = ∅ -> agrees (redis_view d) [].
Proof.
  intros Hd. split; [by intros s ?%not_elem_of_nil |]. intros i Hi. unfold redis_view in Hi. rewrite Hd in Hi.
  by rewrite bool_decide_eq_false_2 in Hi by set_solver.
Qed.

Lemma flush_cache_empties cfg w :
  redis_up (w_redis w) ->
  wp (flush_cache (Some cfg)) w (fun _ w' => exists s, w' = set_redis s w /\ redis_up s /\ agrees (redis_view (data s)) [])
    (fun _ => False).
Proof.
  intros Hup. unfold flush_cache. cbn [as_interface]. apply wp_bind, wp_redis_call; [| done]. intros _ s r Hx.
  pose proof (redis_Keys_spec "server:" (w_redis w)) as (Hd & Hu & Hk). rewrite Hx in *. cbn [fst snd] in *.
  destruct r as [ks|e]; [| done].
  assert (set_of (data (w_redis w)) ServerAllIDsKey <> ∅ -> ServerAllIDsKey ∈ ks) as Hks by (intros ?; apply Hk; auto).
  destruct ks as [|k ks].
  - apply wp_ret. exists s. split; [done |]. split; [auto |]. apply empty_view. rewrite Hd. exact (DEL_empties [] _ Hks).
  - apply wp_bind, wp_redis_Exec. intros s2 r2 H2. apply wp_ret. world_simpl. destruct (H2 (Hu Hup)) as (_ & Hu2 & Hd2).
    exists s2. split; [by destruct w |]. split; [done |]. apply empty_view. rewrite Hd2, Hd. by apply DEL_empties.
Qed.

(** C38: The simulator's seed: with Redis enabled, and PostgreSQL and Redis up, it
    does not crash, and
    whether or not it completes the table holds the servers that are not
    simulated and new ones with the addresses 10.1.i/254.i mod 254+1; when it
    reports success they are as many as asked for.  The cache holds the new
    servers with their state and no other: servers that are not simulated
    stay in the table and are no longer monitored. *)
Theorem seed_drops_other_servers_from_cache connect env cfg redisCfg w :
  Load env = Ok cfg -> connect (cfg_DBUrl cfg) = Ok tt ->
  LoadRedisConfig env = Ok redisCfg -> redis_Enabled redisCfg = true ->
  table_up (w_servers w) -> NoClash (rows (w_servers w)) -> redis_up (w_redis w) ->
  (forall k, (8 <= String.length (uuid_String (w_uuids w k)))%nat) ->
  wp (seed_run connect env) w (fun r w' => exists new,
      rows (w_servers w') = List.filter (fun s => negb (is_sim s)) (rows (w_servers w)) ++ new /\
      Forall (fun s => is_sim s = true) new /\
      map server_IPv4 new = map (nth_ip "10.1") (seq 0 (length new)) /\
      (r = Ok tt -> length new = Z.to_nat (seed_count env)) /\
      agrees (redis_view (data (w_redis w'))) new) (fun _ => False).
Proof.
  intros Hcfg Hcon Hred Hen Htab HN Hup Huuid. unfold seed_run. rewrite Hcfg, Hcon, Hred. apply wp_bind.
  wp_step. destruct Hst as [Htab' Hdel]. destruct r as [n|e]; [destruct Hdel as [_ Hrows] | by destruct Hdel].
  unfold NewRedisClient. rewrite Hen. apply wp_bind. eapply wp_mono; [by apply flush_cache_empties |].
  intros _ w1 (rd & -> & Hrd & Hag). cbn [as_interface].
  eapply wp_mono; [apply (seed_loop_outcome (seed_count env) (List.filter (fun s => negb (is_sim s)) (rows (w_servers w)))
    _ 0 []); [lia | lia | cbn; lia | exact Huuid |] |].
  - unfold seeded_so_far. world_simpl. rewrite Hrows, app_nil_r.
    split_and!; [done | by apply filter_NoClash | done | by apply Forall_nil_2 | done | auto | done].
  - intros r w2 (new & (Hr & _ & Hnum & Hsim & Ha & _) & Hok). exists new.
    split_and!; [done | | exact Hnum | exact Hok | exact Ha].
    eapply Forall_impl; [| exact Hsim]. by intros s' (_ & ? & _).
Qed.
End SeedFacts.

(** ** Concrete runs *)
Section SeedRuns.
#[local] Existing Instance mem_env.
#[local] Existing Instance mem_laws.

Definition mem_Keys (prefix : string) (r : MemRedis) : MemRedis * result (list string) :=
  mr_run r (fun d =>
    (d, Ok (List.filter (String.prefix prefix) ((map_to_list (rd_hashes d)).*1 ++ (map_to_list (rd_sets d)).*1)))).
#[local] Instance mem_keys : RedisKeys := {| redis_Keys := mem_Keys |}.

Lemma found_key d prefix k :
  String.prefix prefix k = true -> hash_of d k <> ∅ \/ set_of d k <> ∅ ->
  k ∈ List.filter (String.prefix prefix) ((map_to_list (rd_hashes d)).*1 ++ (map_to_list (rd_sets d)).*1).
Proof.
  intros Hp Hk. rewrite list_elem_of_In, List.filter_In, <- list_elem_of_In, elem_of_app. split; [| done].
  unfold hash_of, set_of in Hk. destruct Hk as [Hk|Hk]; [left | right];
    apply list_elem_of_fmap; [destruct (rd_hashes d !! k) as [v|] eqn:Hv | destruct (rd_sets d !! k) as [v|] eqn:Hv];
    try (by destruct Hk); exists (k, v); (split; [done |]); by apply elem_of_map_to_list.
Qed.

#[local] Instance mem_keys_laws : RedisKeysLaws.
Proof.
  split. intros prefix r. cbn [redis_Keys mem_keys]. unfold mem_Keys.
  mr_cases r;
    cbn -[String.prefix]; (split; [done |]); (split; [naive_solver |]); [naive_solver |].
  intros k Hp Hk. by apply found_key.
Qed.

(** Two servers, Redis on. *)
Definition seed_env : Environ := fun k =>
  if String.eqb k "SIMULATOR_IP_COUNT" then "2"%string else if String.eqb k "REDIS_ENABLED" then "true"%string else ""%string.

(** A server of the administrator and one of an earlier simulation. *)
Definition before_seed : World :=
  let w := server_world [demo_server; mkServer "6" "sim-old" "10.1.0.1" ServerStatusOffline 0 1 1] in
  @mkWorld mem_env (w_users w) (w_sessions w) (w_tokens w) (w_servers w) (w_reports w) (w_redis w) (w_clock w) (w_ticks w)
    (fun k => if Nat.even k then 12345678%N else 87654321%N) (w_drawn w) (w_random w) (w_reads w) (w_observations w) (w_jobs w)
    (w_headers w).

Lemma seed_drops_other_servers_from_cache_witness :
  exists cfg redisCfg, Load seed_env = Ok cfg /\ LoadRedisConfig seed_env = Ok redisCfg /\
  wp (seed_run (fun _ => Ok tt) seed_env) before_seed (fun r w' => exists new,
      rows (w_servers w') = [demo_server] ++ new /\
      (r = Ok tt -> length new = 2%nat) /\ agrees (redis_view (data (w_redis w'))) new) (fun _ => False).
Proof.
  destruct (Load seed_env) as [cfg|] eqn:Hcfg; [| vm_compute in Hcfg; discriminate Hcfg].
  destruct (LoadRedisConfig seed_env) as [redisCfg|] eqn:Hred; [| vm_compute in Hred; discriminate Hred].
  exists cfg, redisCfg. split; [reflexivity |]. split; [reflexivity |].
  eapply wp_mono; [apply (seed_drops_other_servers_from_cache (fun _ => Ok tt) seed_env cfg redisCfg before_seed);
    [exact Hcfg | reflexivity | exact Hred | vm_compute in Hred; injection Hred as <-; reflexivity | by constructor
    | by apply mem_NoClash | by constructor |] |].
  - intros k. cbn. destruct (Nat.even k); vm_compute; lia.
  - intros r w' (new & Hr & _ & _ & Hok & Ha). exists new. split; [exact Hr |]. split; [exact Hok | exact Ha].
Defined.

(** After the run: the administrator's server is in the table, not in the cache. *)
Example monitored_server_is_forgotten :
  let w := (seed_run (fun _ => Ok tt) seed_env before_seed).1 in
  (seed_run (fun _ => Ok tt) seed_env before_seed).2 = Done (Ok tt) /\
  map server_ServerName (rows (w_servers w)) = ["web-1"; "sim-12345678"; "sim-87654321"]%string /\
  redis_view (data (w_redis before_seed)) "5" = Some (server_entry demo_server) /\
  redis_view (data (w_redis w)) "5" = None.
Proof. vm_compute. done. Qed.

(** With Redis off the cache is built on a nil pointer in a non-nil interface:
    the first batch is stored and the command crashes. *)
Example seed_without_redis_crashes :
  let env : Environ := fun k => if String.eqb k "SIMULATOR_IP_COUNT" then "2"%string else ""%string in
  let '(w, r) := seed_run (fun _ => Ok tt) env before_seed in
  r = Panicked /\ length (rows (w_servers w)) = 3%nat.
Proof. vm_compute. done. Qed.
End SeedRuns.
