(* ===== verification/CoverageScript.v ===== *)
(** * CoverageScript: [scripts/calc_cov.go]

    The script reads coverage.out and prints the share of statements that tests
    of the modules reach, per module and in all. *)

From stdpp Require Import base list strings gmap numbers.
From Stdlib Require Import ZArith Lia Ascii.
From S2P Require Import Prelude GoStrings GoTime GoFloat.
Open Scope Z_scope.

(** ** [bufio.Scanner]

    The lines of the text, without their ends; the scanner stops, with an error
    the script does not look at, at a line that fills its buffer. *)
Definition newline : ascii := ascii_of_nat 10.
Definition carriage_return : string := bytes [13%nat].
Definition max_token : nat := N.to_nat 65536.

Definition drop_cr (line : string) : string :=
  match rev_string line with
  | String c s => if String.eqb (String c "") carriage_return then rev_string s else line
  | EmptyString => line
  end.

(** The pieces between newlines, without an empty last one. *)
Definition pieces (text : string) : list string :=
  match reverse (Split text newline) with
  | EmptyString :: ls => reverse ls
  | ls => reverse ls
  end.
Fixpoint scan (ls : list string) : list string :=
  match ls with
  | [] => []
  | l :: ls => if (max_token <=? String.length l)%nat then [] else drop_cr l :: scan ls
  end.

(** ** A line *)
Definition moduleName (path : string) : string :=
  let fix next parts := match parts with
    | p :: ((q :: _) as rest) => if String.eqb p "modules" then q else next rest
    | _ => ""%string
    end in
  next (Split path "/"%char).

Definition testable (path : string) : bool :=
  HasPrefix path "server-management-service/internal/modules/" &&
  negb (Contains path "/mock/" || Contains path "/domain/" || Contains path "/gen/").

(** The module, its statements and whether they ran; the errors of the numbers
    are dropped, their values not. *)
Definition block (line : string) : option (string * Z * bool) :=
  match Split line " "%char with
  | path :: stmts :: count :: _ =>
      if testable path && negb (String.eqb (moduleName path) "")
      then Some (moduleName path, (Atoi stmts).1, 0 <? (Atoi count).1) else None
  | _ => None
  end.

(** ** The totals *)
Record Totals := mkTotals {
  totalStmts : Z;
  coveredStmts : Z;
  pkgCov : gmap string Z;
  pkgTotal : gmap string Z;
}.
Definition no_totals : Totals := mkTotals 0 0 ∅ ∅.

(** [m[k] += n] *)
Definition add_to (k : string) (n : Z) (m : gmap string Z) : gmap string Z := <[k := int64 (default 0 (m !! k) + n)]> m.

Definition count_block (t : Totals) (b : string * Z * bool) : Totals :=
  let '(name, stmts, ran) := b in
  mkTotals (int64 (totalStmts t + stmts))
    (if ran then int64 (coveredStmts t + stmts) else coveredStmts t)
    (if ran then add_to name stmts (pkgCov t) else pkgCov t)
    (add_to name stmts (pkgTotal t)).

Definition totals (text : string) : Totals := foldl count_block no_totals (omap block (tail (scan (pieces text)))).

Definition percent (cov total : Z) : float64 :=
  float64_mul (float64_div (float64_of_int cov) (float64_of_int total)) (float64_of_int 100).

(** What is printed: a line for each module of [pkgCov], in some order, and the
    sums; [None] when there is nothing to report. *)
Record Printout := mkPrintout {
  out_modules : gmap string float64;
  out_percentage : float64;
  out_covered : Z;
  out_total : Z;
}.
Definition calc_cov (text : string) : option Printout :=
  let t := totals text in
  if totalStmts t =? 0 then None
  else Some (mkPrintout (map_imap (fun pkg cov => Some (percent cov (default 0 (pkgTotal t !! pkg)))) (pkgCov t))
               (percent (coveredStmts t) (totalStmts t)) (coveredStmts t) (totalStmts t)).
(** [main], given the file or the error of opening it. *)
Definition coverage_main (file : result string) : result (option Printout) :=
  match file with Ok text => Ok (calc_cov text) | Err e => Err e end.

(** ** The totals are sums *)
Definition block_name (b : string * Z * bool) : string := b.1.1.
Definition block_stmts (b : string * Z * bool) : Z := b.1.2.
Definition block_ran (b : string * Z * bool) : bool := b.2.

Definition stmts_of (p : string * Z * bool -> bool) (bs : list (string * Z * bool)) : Z :=
  foldr Z.add 0 (map block_stmts (List.filter p bs)).
Definition sum_by (p : string * Z * bool -> bool) (bs : list (string * Z * bool)) : option Z :=
  if existsb p bs then Some (int64 (stmts_of p bs)) else None.

Lemma stmts_of_snoc p bs b : stmts_of p (bs ++ [b]) = stmts_of p bs + (if p b then block_stmts b else 0).
Proof.
  unfold stmts_of. rewrite List.filter_app, map_app. cbn. destruct (p b); cbn; [| by rewrite app_nil_r, Z.add_0_r].
  generalize (map block_stmts (List.filter p bs)). intros l. induction l as [|x l IH]; cbn; lia.
Qed.

Lemma int64_add x y : int64 (int64 x + y) = int64 (x + y).
Proof. unfold int64. by apply wrap_int_add. Qed.

Lemma stmts_of_none p bs : existsb p bs = false -> stmts_of p bs = 0.
Proof.
  unfold stmts_of. induction bs as [|b bs IH]; cbn; [done |]. intros [-> Hbs]%orb_false_iff. by apply IH.
Qed.

(** [m[k] += n] on a map of sums. *)
Lemma add_to_sums (q : string -> string * Z * bool -> bool) m bs b :
  (forall k, m !! k = sum_by (q k) bs) -> q (block_name b) b = true -> (forall k, k <> block_name b -> q k b = false) ->
  forall k, add_to (block_name b) (block_stmts b) m !! k = sum_by (q k) (bs ++ [b]).
Proof.
  intros Hm Hq Hne k. unfold add_to, sum_by. rewrite existsb_app, stmts_of_snoc. cbn. destruct (decide (k = block_name b)) as [->|Hk].
  - rewrite lookup_insert_eq, Hq, orb_true_r. f_equal. rewrite Hm. unfold sum_by.
    destruct (existsb _ bs) eqn:He; cbn; [apply int64_add | by rewrite stmts_of_none].
  - rewrite lookup_insert_ne, Hm, Hne by done. unfold sum_by. by rewrite !orb_false_r, Z.add_0_r.
Qed.

Lemma sum_by_skip p bs b : p b = false -> sum_by p (bs ++ [b]) = sum_by p bs.
Proof. intros Hb. unfold sum_by. rewrite existsb_app, stmts_of_snoc. cbn. by rewrite Hb, !orb_false_r, Z.add_0_r. Qed.

(** The loop computes, in the arithmetic of int64, the statements of all blocks
    and of those that ran, in all and per module; a module is in [pkgTotal]
    when it has a block and in [pkgCov] only when one of its blocks ran. *)
Theorem totals_are_sums bs :
  let t := foldl count_block no_totals bs in
  totalStmts t = int64 (stmts_of (fun _ => true) bs) /\ coveredStmts t = int64 (stmts_of block_ran bs) /\
  (forall k, pkgTotal t !! k = sum_by (fun b => String.eqb (block_name b) k) bs) /\
  (forall k, pkgCov t !! k = sum_by (fun b => String.eqb (block_name b) k && block_ran b) bs).
Proof.
  cbn zeta. induction bs as [|b bs (H1 & H2 & H3 & H4)] using rev_ind; [done |].
  rewrite foldl_snoc. set (t := foldl count_block no_totals bs) in *. destruct b as [[name n] ran].
  cbn [count_block totalStmts coveredStmts pkgTotal pkgCov]. rewrite !stmts_of_snoc, H1, H2, int64_add. cbn.
  split; [done |]. split; [by destruct ran; [apply int64_add | rewrite Z.add_0_r] |]. split.
  - apply (add_to_sums (fun k b => String.eqb (block_name b) k) _ bs (name, n, ran) H3);
      [apply String.eqb_refl | intros k Hk; by apply String.eqb_neq].
  - destruct ran.
    + apply (add_to_sums (fun k b => String.eqb (block_name b) k && block_ran b) _ bs (name, n, true) H4); cbn;
        [by rewrite String.eqb_refl | intros k Hk; rewrite andb_true_r; by apply String.eqb_neq].
    + intros k. rewrite H4. symmetry. apply sum_by_skip. cbn. apply andb_false_r.
Qed.

(** A module whose tests reach nothing is in the sum but has no line. *)
Definition cr_lf : string := bytes [13; 10]%nat.
Definition sample : string :=
  "mode: set" +:+ cr_lf +:+
  "server-management-service/internal/modules/identity/service/a.go:1.1,2.2 3 1" +:+ cr_lf +:+
  "server-management-service/internal/modules/reporting/service/b.go:1.1,2.2 5 0" +:+ cr_lf +:+
  "server-management-service/internal/modules/reporting/domain/c.go:1.1,2.2 9 1" +:+ cr_lf +:+
  "server-management-service/internal/app/d.go:1.1,2.2 9 1" +:+ cr_lf.

Example uncovered_module_is_not_printed :
  exists p, calc_cov sample = Some p /\ map_to_list (out_modules p) = [("identity"%string, float64_of_int 100)] /\
    out_covered p = 3 /\ out_total p = 8.
Proof. eexists. split; [reflexivity |]. vm_compute. done. Qed.
